(** * Line height index: [SpecialLine] and [LineHeightManager]

    A shallow embedding of the per-line height index (the class
    [LineHeightManager] and its record class [SpecialLine]) together with
    theorems about its queries, its lazy commit pass and its range shifts.

    JavaScript objects are shared and mutated in place: the same
    [SpecialLine] object is reachable from the ordered array, from the
    identifier map and from the pending queue.  The embedding therefore keeps
    an explicit store of objects ([heap]) and lets the three containers hold
    references into it.

    The fields declared [number] are IEEE-754 doubles.  The development
    reads line numbers, heights and sums as integers ([Z]): on integers
    below [2^53] the sums, differences and products of doubles are exact, so
    what is proved about a total or a prefix sum holds for integer heights
    and an integer default height in that range; what is proved about
    comparisons, maxima and copies of heights does not depend on it.  The
    only non-integer value the class itself stores, [Infinity] in
    [_invalidIndex], has its own constructor.  The module [Doubles] embeds
    the methods a second time with these fields as binary64 floats, and
    evaluates the queries on fractional heights, where the rounding of sums
    and products shows. *)

From stdpp Require Import gmap strings list.
From Stdlib Require Import ZArith Lia.
From Stdlib Require Import Sorted.
From Stdlib Require Import PrimFloat.

Local Open Scope Z_scope.

(** ** Records *)

Record SpecialLine := mkSpecialLine {
  index : Z;
  lineNumber : Z;
  specialHeight : Z;
  prefixSum : Z;
  maximumSpecialHeight : Z;
  decorationId : string;
  deleted : bool
}.

(** The constructor of the class: [maximumSpecialHeight] starts as
    [specialHeight], [deleted] as [false]. *)
Definition new_SpecialLine (id : string) (idx line height prefix : Z) : SpecialLine :=
  {| index := idx; lineNumber := line; specialHeight := height;
     prefixSum := prefix; maximumSpecialHeight := height;
     decorationId := id; deleted := false |}.

Definition set_index (v : Z) (l : SpecialLine) : SpecialLine :=
  {| index := v; lineNumber := lineNumber l; specialHeight := specialHeight l;
     prefixSum := prefixSum l; maximumSpecialHeight := maximumSpecialHeight l;
     decorationId := decorationId l; deleted := deleted l |}.

Definition set_lineNumber (v : Z) (l : SpecialLine) : SpecialLine :=
  {| index := index l; lineNumber := v; specialHeight := specialHeight l;
     prefixSum := prefixSum l; maximumSpecialHeight := maximumSpecialHeight l;
     decorationId := decorationId l; deleted := deleted l |}.

Definition set_specialHeight (v : Z) (l : SpecialLine) : SpecialLine :=
  {| index := index l; lineNumber := lineNumber l; specialHeight := v;
     prefixSum := prefixSum l; maximumSpecialHeight := maximumSpecialHeight l;
     decorationId := decorationId l; deleted := deleted l |}.

Definition set_prefixSum (v : Z) (l : SpecialLine) : SpecialLine :=
  {| index := index l; lineNumber := lineNumber l; specialHeight := specialHeight l;
     prefixSum := v; maximumSpecialHeight := maximumSpecialHeight l;
     decorationId := decorationId l; deleted := deleted l |}.

Definition set_maximumSpecialHeight (v : Z) (l : SpecialLine) : SpecialLine :=
  {| index := index l; lineNumber := lineNumber l; specialHeight := specialHeight l;
     prefixSum := prefixSum l; maximumSpecialHeight := v;
     decorationId := decorationId l; deleted := deleted l |}.

Definition set_deleted (v : bool) (l : SpecialLine) : SpecialLine :=
  {| index := index l; lineNumber := lineNumber l; specialHeight := specialHeight l;
     prefixSum := prefixSum l; maximumSpecialHeight := maximumSpecialHeight l;
     decorationId := decorationId l; deleted := v |}.

(** A reference to a [SpecialLine] object: its position in the store. *)
Definition ref := nat.

(** The value of [_invalidIndex]: an integer, or JavaScript's [Infinity]. *)
Inductive jsindex := Finite (z : Z) | Infinity.

(** [Math.min(a, z)] for a finite [z]. *)
Definition js_min (a : jsindex) (z : Z) : jsindex :=
  match a with
  | Finite x => Finite (Z.min x z)
  | Infinity => Finite z
  end.

(** The fields of the class, plus the object store.  An array slot holds an
    object or [undefined] ([None]). *)
Record LineHeightManager := mkManager {
  heap : list SpecialLine;
  _decorationIDToSpecialLine : gmap string ref;
  _orderedSpecialLines : list (option ref);
  _pendingSpecialLinesToInsert : list ref;
  _invalidIndex : jsindex;
  _defaultLineHeight : Z;
  _hasPending : bool
}.

(** [new LineHeightManager(defaultLineHeight)]. *)
Definition new_LineHeightManager (defaultLineHeight : Z) : LineHeightManager :=
  {| heap := []; _decorationIDToSpecialLine := ∅; _orderedSpecialLines := [];
     _pendingSpecialLinesToInsert := []; _invalidIndex := Finite 0;
     _defaultLineHeight := defaultLineHeight; _hasPending := false |}.

Definition with_heap (h : list SpecialLine) (s : LineHeightManager) :=
  mkManager h (_decorationIDToSpecialLine s) (_orderedSpecialLines s)
    (_pendingSpecialLinesToInsert s) (_invalidIndex s) (_defaultLineHeight s) (_hasPending s).
Definition with_map (m : gmap string ref) (s : LineHeightManager) :=
  mkManager (heap s) m (_orderedSpecialLines s)
    (_pendingSpecialLinesToInsert s) (_invalidIndex s) (_defaultLineHeight s) (_hasPending s).
Definition with_ordered (o : list (option ref)) (s : LineHeightManager) :=
  mkManager (heap s) (_decorationIDToSpecialLine s) o
    (_pendingSpecialLinesToInsert s) (_invalidIndex s) (_defaultLineHeight s) (_hasPending s).
Definition with_pending (p : list ref) (s : LineHeightManager) :=
  mkManager (heap s) (_decorationIDToSpecialLine s) (_orderedSpecialLines s)
    p (_invalidIndex s) (_defaultLineHeight s) (_hasPending s).
Definition with_invalidIndex (i : jsindex) (s : LineHeightManager) :=
  mkManager (heap s) (_decorationIDToSpecialLine s) (_orderedSpecialLines s)
    (_pendingSpecialLinesToInsert s) i (_defaultLineHeight s) (_hasPending s).
Definition with_defaultLineHeight (d : Z) (s : LineHeightManager) :=
  mkManager (heap s) (_decorationIDToSpecialLine s) (_orderedSpecialLines s)
    (_pendingSpecialLinesToInsert s) (_invalidIndex s) d (_hasPending s).
Definition with_hasPending (b : bool) (s : LineHeightManager) :=
  mkManager (heap s) (_decorationIDToSpecialLine s) (_orderedSpecialLines s)
    (_pendingSpecialLinesToInsert s) (_invalidIndex s) (_defaultLineHeight s) b.

(** ** Computations on a manager

    A method either returns, or throws a [TypeError] (a property read on
    [undefined]), or never returns.  A thrown error leaves behind the state
    as mutated up to the throw. *)

Inductive outcome (A : Type) :=
| Ok (a : A) (s : LineHeightManager)
| TypeError (s : LineHeightManager)
| Diverges.
Arguments Ok {A} a s.
Arguments TypeError {A} s.
Arguments Diverges {A}.

Definition M (A : Type) := LineHeightManager → outcome A.

Definition ret {A} (a : A) : M A := λ s, Ok a s.
Definition bind {A B} (m : M A) (k : A → M B) : M B :=
  λ s, match m s with
       | Ok a s' => k a s'
       | TypeError s' => TypeError s'
       | Diverges => Diverges
       end.
Definition throw {A} : M A := λ s, TypeError s.
Definition diverge {A} : M A := λ _, Diverges.
Definition gets {A} (f : LineHeightManager → A) : M A := λ s, Ok (f s) s.
Definition modify (f : LineHeightManager → LineHeightManager) : M unit :=
  λ s, Ok tt (f s).

Notation "'do' x <- m ; k" := (bind m (λ x, k))
  (at level 10, x name, m at level 100, k at level 200).
Notation "m >> k" := (bind m (λ _, k))
  (at level 100, k at level 200, right associativity).

(** The state an outcome ends in, and its value. *)
Definition final_state {A} (o : outcome A) : option LineHeightManager :=
  match o with Ok _ s => Some s | TypeError s => Some s | Diverges => None end.
Definition value_of {A} (o : outcome A) : option A :=
  match o with Ok a _ => Some a | _ => None end.

(** *** Arrays and objects *)

(** [arr[i]]: [undefined] outside the bounds (also for a negative [i]) and
    where the slot itself holds [undefined]. *)
Definition arr_get (arr : list (option ref)) (i : Z) : option ref :=
  if i <? 0 then None
  else match arr !! Z.to_nat i with
       | Some (Some r) => Some r
       | _ => None
       end.

Definition len {A} (l : list A) : Z := Z.of_nat (length l).

(** [Array.prototype.splice(start, deleteCount, ...items)]: a negative
    [start] counts from the end, and both arguments are clamped. *)
Definition splice {A} (l : list A) (start deleteCount : Z) (items : list A) : list A :=
  let actualStart := if start <? 0 then Z.max (len l + start) 0 else Z.min start (len l) in
  let actualDeleteCount := Z.min (Z.max deleteCount 0) (len l - actualStart) in
  take (Z.to_nat actualStart) l ++ items ++
  drop (Z.to_nat (actualStart + actualDeleteCount)) l.

(** Reading the fields of [o]: a [TypeError] when [o] is [undefined]. *)
Definition deref (o : option ref) : M SpecialLine :=
  λ s, match o with
       | None => TypeError s
       | Some r => match heap s !! r with
                   | Some v => Ok v s
                   | None => TypeError s
                   end
       end.

(** Writing a field of the object [r]. *)
Definition update (r : ref) (f : SpecialLine → SpecialLine) : M unit :=
  modify (λ s, with_heap (alter f r (heap s)) s).

(** [new SpecialLine(...)]: a fresh object. *)
Definition alloc (v : SpecialLine) : M ref :=
  λ s, Ok (length (heap s)) (with_heap (heap s ++ [v]) s).

(** [this._orderedSpecialLines.splice(start, deleteCount, ...items)]: the
    array is changed in place. *)
Definition ordered_splice (start deleteCount : Z) (items : list (option ref)) : M unit :=
  do arr <- gets _orderedSpecialLines;
  modify (with_ordered (splice arr start deleteCount items)).

(** ** Binary search *)

(** Modelled from the spec: [binarySearch2] of [base/common/arrays], which is
    imported by the class but whose file is not among the sources.  The spec
    asks for a binary search with a three-way comparator that returns a
    non-negative index on an exact match and [-(insertionIndex+1)] on a
    miss; this is the usual loop with the midpoint rounded down. *)
Fixpoint binarySearch2_loop (fuel : nat) (compareToKey : Z → M Z) (low high : Z) : M Z :=
  if high <? low then ret (- (low + 1))
  else match fuel with
       | O => diverge
       | S fuel' =>
           let mid := (low + high) / 2 in
           do comp <- compareToKey mid;
           if comp <? 0 then binarySearch2_loop fuel' compareToKey (mid + 1) high
           else if 0 <? comp then binarySearch2_loop fuel' compareToKey low (mid - 1)
           else ret mid
       end.

Definition binarySearch2 (length : Z) (compareToKey : Z → M Z) : M Z :=
  binarySearch2_loop (Z.to_nat length) compareToKey 0 (length - 1).

(** ** The methods of [LineHeightManager] *)

Definition set_defaultLineHeight (defaultLineHeight : Z) : M unit :=
  modify (with_defaultLineHeight defaultLineHeight).

Definition removeSpecialLineUsingDecoration (decorationID : string) : M unit :=
  do m <- gets _decorationIDToSpecialLine;
  match m !! decorationID with
  | None => ret tt
  | Some r =>
      modify (with_map (delete decorationID m)) >>
      update r (set_deleted true) >>
      do specialLine <- deref (Some r);
      do inv <- gets _invalidIndex;
      modify (with_invalidIndex (js_min inv (index specialLine))) >>
      modify (with_hasPending true)
  end.

Definition _insertSpecialLineHeight (decorationId : string) (lineNumber specialHeight : Z) : M unit :=
  do r <- alloc (new_SpecialLine decorationId (-1) lineNumber specialHeight 0);
  do p <- gets _pendingSpecialLinesToInsert;
  modify (with_pending (p ++ [r])) >>
  modify (with_hasPending true).

Definition insertOrChangeSpecialLineHeightUsingDecoration
    (decorationId : string) (lineNumber lineHeight : Z) : M unit :=
  do m <- gets _decorationIDToSpecialLine;
  match m !! decorationId with
  | None => _insertSpecialLineHeight decorationId lineNumber lineHeight
  | Some r =>
      update r (set_lineNumber lineNumber) >>
      update r (set_specialHeight lineHeight) >>
      do specialLine <- deref (Some r);
      do inv <- gets _invalidIndex;
      modify (with_invalidIndex (js_min inv (index specialLine))) >>
      modify (with_hasPending true)
  end.

(** The comparator that [_binarySearchOverSpecialLinesArray] hands to
    [binarySearch2]: the arrow function [(index) => ...]. *)
Definition compareToLineNumber (lineNumber' : Z) (index' : Z) : M Z :=
  do arr <- gets _orderedSpecialLines;
  do line <- deref (arr_get arr index');
  if lineNumber line =? lineNumber' then ret 0
  else if lineNumber line <? lineNumber' then ret (-1)
  else ret 1.

Definition _binarySearchOverSpecialLinesArray (lineNumber' : Z) : M Z :=
  do arr <- gets _orderedSpecialLines;
  binarySearch2 (len arr) (compareToLineNumber lineNumber').

Definition mustCommit : M bool := gets _hasPending.

(** *** commit *)

(** The loop [for (const pendingChange of this._pendingSpecialLinesToInsert)]. *)
Fixpoint commit_merge (pending : list ref) : M unit :=
  match pending with
  | [] => ret tt
  | pendingChange :: rest =>
      do line <- deref (Some pendingChange);
      do searchIndex <- _binarySearchOverSpecialLinesArray (lineNumber line);
      let modifiedSearchInde :=
        if 0 <=? searchIndex then searchIndex else - (searchIndex + 1) in
      ordered_splice modifiedSearchInde 0 [Some pendingChange] >>
      do inv <- gets _invalidIndex;
      modify (with_invalidIndex (js_min inv modifiedSearchInde)) >>
      commit_merge rest
  end.

(** The loop [for (let i = 0; i < this._invalidIndex; i++)] with [n]
    iterations left: it pushes [arr[i]], which is [undefined] past the end. *)
Fixpoint commit_copy (n : nat) (i : Z) (newOrderedSpecialLines : list (option ref))
  : M (list (option ref)) :=
  match n with
  | O => ret newOrderedSpecialLines
  | S n' =>
      do arr <- gets _orderedSpecialLines;
      commit_copy n' (i + 1) (newOrderedSpecialLines ++ [arr_get arr i])
  end.

(** The inner loop [for (let j = i; j < length; j++)] with [n] iterations
    left, for a run on line [line]. *)
Fixpoint commit_max (n : nat) (j : Z) (line : Z) (maximumSpecialHeight' : Z) : M Z :=
  match n with
  | O => ret maximumSpecialHeight'
  | S n' =>
      do arr <- gets _orderedSpecialLines;
      do nextSpecialLine <- deref (arr_get arr j);
      if deleted nextSpecialLine then commit_max n' (j + 1) line maximumSpecialHeight'
      else if negb (lineNumber nextSpecialLine =? line) then ret maximumSpecialHeight'
      else commit_max n' (j + 1) line
             (Z.max maximumSpecialHeight' (specialHeight nextSpecialLine))
  end.

(** The local variables of the rebuilding loop. *)
Record commit_locals := mkLocals {
  newDecorationIDToSpecialLineMap : gmap string ref;
  newOrderedSpecialLines : list (option ref);
  numberOfDeletions : Z
}.

(** One iteration of [for (let i = this._invalidIndex; i < length; i++)]. *)
Definition commit_step (i : Z) (loc : commit_locals) : M commit_locals :=
  do arr <- gets _orderedSpecialLines;
  do specialLine <- deref (arr_get arr i);
  if deleted specialLine then
    ret (mkLocals (newDecorationIDToSpecialLineMap loc) (newOrderedSpecialLines loc)
           (numberOfDeletions loc + 1))
  else
    match arr_get arr i with
    | None => throw
    | Some r =>
        let previousSpecialLine := if 0 <? i then arr_get arr (i - 1) else None in
        update r (set_index (i - numberOfDeletions loc)) >>
        do sameLine <-
          match previousSpecialLine with
          | None => ret false
          | Some p =>
              do previous <- deref (Some p);
              do current <- deref (Some r);
              ret (lineNumber previous =? lineNumber current)
          end;
        (if sameLine : bool then
           do previous <- deref previousSpecialLine;
           update r (set_maximumSpecialHeight (maximumSpecialHeight previous)) >>
           do previous <- deref previousSpecialLine;
           update r (set_prefixSum (prefixSum previous))
         else
           do current <- deref (Some r);
           do maximumSpecialHeight' <-
             commit_max (Z.to_nat (len arr - i)) i (lineNumber current) (specialHeight current);
           update r (set_maximumSpecialHeight maximumSpecialHeight') >>
           do d <- gets _defaultLineHeight;
           do current <- deref (Some r);
           do prefixSum' <-
             match previousSpecialLine with
             | Some p =>
                 do previous <- deref (Some p);
                 ret (prefixSum previous + maximumSpecialHeight previous
                      + d * (lineNumber current - lineNumber previous - 1))
             | None => ret (d * (lineNumber current - 1))
             end;
           update r (set_prefixSum prefixSum')) >>
        do current <- deref (Some r);
        ret (mkLocals (<[decorationId current := r]> (newDecorationIDToSpecialLineMap loc))
               (newOrderedSpecialLines loc ++ [Some r])
               (numberOfDeletions loc))
    end.

Fixpoint commit_rebuild (n : nat) (i : Z) (loc : commit_locals) : M commit_locals :=
  match n with
  | O => ret loc
  | S n' => do loc' <- commit_step i loc; commit_rebuild n' (i + 1) loc'
  end.

(** [commit()].  With [_invalidIndex = Infinity] the copying loop
    [for (let i = 0; i < Infinity; i++)] has no exit. *)
Definition commit : M unit :=
  do hasPending <- gets _hasPending;
  if negb hasPending then ret tt
  else
    do pending <- gets _pendingSpecialLinesToInsert;
    commit_merge pending >>
    modify (with_pending []) >>
    do m <- gets _decorationIDToSpecialLine;
    do inv <- gets _invalidIndex;
    match inv with
    | Infinity => diverge
    | Finite invalidIndex =>
        do copied <- commit_copy (Z.to_nat invalidIndex) 0 [];
        do arr <- gets _orderedSpecialLines;
        do loc <- commit_rebuild (Z.to_nat (len arr - invalidIndex)) invalidIndex
                    (mkLocals m copied 0);
        modify (with_ordered (newOrderedSpecialLines loc)) >>
        modify (with_map (newDecorationIDToSpecialLineMap loc)) >>
        modify (with_invalidIndex Infinity) >>
        modify (with_hasPending false)
    end.

(** *** Queries *)

Definition heightForLineNumber (lineNumber' : Z) : M Z :=
  commit >>
  do searchIndex <- _binarySearchOverSpecialLinesArray lineNumber';
  if 0 <=? searchIndex then
    do arr <- gets _orderedSpecialLines;
    do line <- deref (arr_get arr searchIndex);
    ret (maximumSpecialHeight line)
  else gets _defaultLineHeight.

Definition totalHeightUntilLineNumber (lineNumber' : Z) : M Z :=
  commit >>
  do searchIndex <- _binarySearchOverSpecialLinesArray lineNumber';
  do arr <- gets _orderedSpecialLines;
  do d <- gets _defaultLineHeight;
  if 0 <=? searchIndex then
    do line <- deref (arr_get arr searchIndex);
    ret (prefixSum line + maximumSpecialHeight line)
  else if searchIndex =? -1 then
    ret (d * lineNumber')
  else
    let modifiedIndex := - (searchIndex + 1) in
    do previousSpecialLine <- deref (arr_get arr (modifiedIndex - 1));
    ret (prefixSum previousSpecialLine + maximumSpecialHeight previousSpecialLine
         + d * (lineNumber' - lineNumber previousSpecialLine)).

(** *** Range shifts *)

(** The loops [for (let i = k - 1; i >= 0; i--)] of both range shifts, with
    [n] iterations left: step the boundary [acc] down while the line number
    of [arr[i]] is [key]. *)
Fixpoint widen_backward (n : nat) (i : Z) (key : Z) (acc : Z) : M Z :=
  match n with
  | O => ret acc
  | S n' =>
      do arr <- gets _orderedSpecialLines;
      do line <- deref (arr_get arr i);
      if lineNumber line =? key then widen_backward n' (i - 1) key (acc - 1)
      else ret acc
  end.

(** The loop [for (let i = k + 1; i < length; i++)] of [onLinesDeleted]. *)
Fixpoint widen_forward (n : nat) (i : Z) (key : Z) (acc : Z) : M Z :=
  match n with
  | O => ret acc
  | S n' =>
      do arr <- gets _orderedSpecialLines;
      do line <- deref (arr_get arr i);
      if lineNumber line =? key then widen_forward n' (i + 1) key (acc + 1)
      else ret acc
  end.

(** The loops [for (let i = start; i < length; i++)] that add [delta] to the
    line number of [arr[i]]. *)
Fixpoint shift_lines (n : nat) (i : Z) (delta : Z) : M unit :=
  match n with
  | O => ret tt
  | S n' =>
      do arr <- gets _orderedSpecialLines;
      do line <- deref (arr_get arr i);
      match arr_get arr i with
      | None => throw
      | Some r =>
          update r (set_lineNumber (lineNumber line + delta)) >>
          shift_lines n' (i + 1) delta
      end
  end.

Definition onLinesDeleted (fromLineNumber toLineNumber : Z) : M unit :=
  commit >>
  do startIndexOfDeletion <- _binarySearchOverSpecialLinesArray fromLineNumber;
  do modifiedStartIndexOfDeletion <-
    (if 0 <=? startIndexOfDeletion then
       do widened <- widen_backward (Z.to_nat startIndexOfDeletion)
                       (startIndexOfDeletion - 1) fromLineNumber startIndexOfDeletion;
       ret (widened - 1)
     else ret (- (startIndexOfDeletion + 1)));
  do endIndexOfDeletion <- _binarySearchOverSpecialLinesArray toLineNumber;
  do arr <- gets _orderedSpecialLines;
  do modifiedEndIndexOfDeletion <-
    (if 0 <=? endIndexOfDeletion then
       do widened <- widen_forward (Z.to_nat (len arr - (endIndexOfDeletion + 1)))
                       (endIndexOfDeletion + 1) fromLineNumber endIndexOfDeletion;
       ret (widened + 1)
     else ret (- (endIndexOfDeletion + 1)));
  ordered_splice modifiedStartIndexOfDeletion
    (modifiedEndIndexOfDeletion - modifiedStartIndexOfDeletion) [] >>
  let numberOfDeletedLines := toLineNumber - fromLineNumber + 1 in
  do arr' <- gets _orderedSpecialLines;
  shift_lines (Z.to_nat (len arr' - modifiedStartIndexOfDeletion))
    modifiedStartIndexOfDeletion (- numberOfDeletedLines).

Definition onLinesInserted (fromLineNumber toLineNumber : Z) : M unit :=
  commit >>
  do searchIndex <- _binarySearchOverSpecialLinesArray (fromLineNumber + 1);
  do startIndex <-
    (if 0 <=? searchIndex then
       widen_backward (Z.to_nat searchIndex) (searchIndex - 1) fromLineNumber searchIndex
     else ret (- (searchIndex + 1)));
  let numberOfInsertedLines := toLineNumber - fromLineNumber + 1 in
  do arr <- gets _orderedSpecialLines;
  shift_lines (Z.to_nat (len arr - startIndex)) startIndex numberOfInsertedLines.

(** ** Committed and consistent states *)

(** A state is committed when no mutation is pending: [commit] returns at
    its first test. *)
Definition committed (s : LineHeightManager) : Prop := _hasPending s = false.

(** The object in slot [i] of the ordered array, if any. *)
Definition record_at (s : LineHeightManager) (i : Z) : option SpecialLine :=
  match arr_get (_orderedSpecialLines s) i with
  | Some r => heap s !! r
  | None => None
  end.

(** The ordered array with every slot replaced by the object it refers to;
    [None] when a slot holds [undefined]. *)
Definition resolve (s : LineHeightManager) : option (list SpecialLine) :=
  mapM (λ o : option ref, match o with Some r => heap s !! r | None => None end)
       (_orderedSpecialLines s).

(** Invariant 1: ascending line numbers. *)
Fixpoint sortedb (recs : list SpecialLine) : bool :=
  match recs with
  | a :: tl =>
      match tl with
      | b :: _ => (lineNumber a <=? lineNumber b) && sortedb tl
      | [] => true
      end
  | [] => true
  end.

(** Invariants 2 (shared values inside a run) and 4 (the prefix sum where a
    new run starts), read off neighbouring slots. *)
Fixpoint chainb (d : Z) (recs : list SpecialLine) : bool :=
  match recs with
  | p :: tl =>
      match tl with
      | r :: _ =>
          (if lineNumber p =? lineNumber r
           then (prefixSum r =? prefixSum p)
                && (maximumSpecialHeight r =? maximumSpecialHeight p)
           else prefixSum r =?
                prefixSum p + maximumSpecialHeight p
                + d * (lineNumber r - lineNumber p - 1))
          && chainb d tl
      | [] => true
      end
  | [] => true
  end.

(** Invariant 3: the prefix sum of the first record. *)
Definition firstb (d : Z) (recs : list SpecialLine) : bool :=
  match recs with
  | r :: _ => prefixSum r =? d * (lineNumber r - 1)
  | [] => true
  end.

(** Invariant 2: the effective height of a record is the maximum of the
    requested heights on its line. *)
Definition run_maxb (recs : list SpecialLine) : bool :=
  forallb (λ r,
    forallb (λ r', negb (lineNumber r' =? lineNumber r)
                   || (specialHeight r' <=? maximumSpecialHeight r)) recs
    && existsb (λ r', (lineNumber r' =? lineNumber r)
                      && (specialHeight r' =? maximumSpecialHeight r)) recs) recs.

(** Invariant 5, first half, and the range of line numbers. *)
Definition no_deletedb (recs : list SpecialLine) : bool :=
  forallb (λ r, negb (deleted r)) recs.
Definition lines_positiveb (recs : list SpecialLine) : bool :=
  forallb (λ r, 1 <=? lineNumber r) recs.

(** Invariant 5, second half: the identifier map holds exactly the records
    of the ordered array, each under its own identifier. *)
Definition byId_exactb (s : LineHeightManager) : bool :=
  forallb (λ o : option ref,
    match o with
    | Some r =>
        match heap s !! r with
        | Some v => bool_decide (_decorationIDToSpecialLine s !! decorationId v = Some r)
        | None => false
        end
    | None => false
    end) (_orderedSpecialLines s)
  && forallb (λ kv : string * ref,
       bool_decide (Some (snd kv) ∈ _orderedSpecialLines s)
       && match heap s !! snd kv with
          | Some v => bool_decide (decorationId v = fst kv)
          | None => false
          end) (map_to_list (_decorationIDToSpecialLine s)).

(** The consistency predicate: invariants 1 to 5 of the data model. *)
Definition consistentb (s : LineHeightManager) : bool :=
  match resolve s with
  | None => false
  | Some recs =>
      sortedb recs && chainb (_defaultLineHeight s) recs
      && firstb (_defaultLineHeight s) recs && run_maxb recs
      && no_deletedb recs && lines_positiveb recs && byId_exactb s
  end.

Definition consistent (s : LineHeightManager) : Prop := consistentb s = true.

(** Every requested height and the default height are non-negative. *)
Definition heights_nonnegb (s : LineHeightManager) : bool :=
  (0 <=? _defaultLineHeight s)
  && match resolve s with
     | Some recs => forallb (λ r, 0 <=? specialHeight r) recs
     | None => false
     end.

(** The records of the ordered array in the state an outcome ends in. *)
Definition records_after {A} (o : outcome A) : option (list SpecialLine) :=
  match final_state o with
  | Some s => resolve s
  | None => None
  end.

Definition is_TypeError {A} (o : outcome A) : bool :=
  match o with TypeError _ => true | _ => false end.

(** ** What a range shift may change *)

(** Two versions of an object that differ at most in [lineNumber]. *)
Definition same_but_lineNumber (v v' : SpecialLine) : Prop :=
  index v' = index v ∧ specialHeight v' = specialHeight v
  ∧ prefixSum v' = prefixSum v
  ∧ maximumSpecialHeight v' = maximumSpecialHeight v
  ∧ decorationId v' = decorationId v ∧ deleted v' = deleted v.

(** The frame of [onLinesInserted] and [onLinesDeleted]: slots may leave
    the ordered array and objects may change their line number; everything
    else stays. *)
Record shift_frame (s s' : LineHeightManager) : Prop := mkShiftFrame {
  frame_map : _decorationIDToSpecialLine s' = _decorationIDToSpecialLine s;
  frame_pending : _pendingSpecialLinesToInsert s' = _pendingSpecialLinesToInsert s;
  frame_invalidIndex : _invalidIndex s' = _invalidIndex s;
  frame_default : _defaultLineHeight s' = _defaultLineHeight s;
  frame_hasPending : _hasPending s' = _hasPending s;
  frame_heap : ∀ r, match heap s !! r, heap s' !! r with
                    | Some v, Some v' => same_but_lineNumber v v'
                    | None, None => True
                    | _, _ => False
                    end;
  frame_ordered : _orderedSpecialLines s' `sublist_of` _orderedSpecialLines s
}.

(** An outcome of a computation that has read the state [s] without
    changing it, and has stopped. *)
Definition unchanged {A} (o : outcome A) (s : LineHeightManager) : Prop :=
  match o with
  | Ok _ s' => s' = s
  | TypeError s' => s' = s
  | Diverges => False
  end.

(** A manager with three committed overrides: B and A on line 5 (heights 25
    and 40) and C on line 9 (height 30), default height 20. *)
Definition example_manager : LineHeightManager :=
  match (insertOrChangeSpecialLineHeightUsingDecoration "A" 5 40 >>
         insertOrChangeSpecialLineHeightUsingDecoration "B" 5 25 >>
         insertOrChangeSpecialLineHeightUsingDecoration "C" 9 30 >>
         commit) (new_LineHeightManager 20) with
  | Ok _ s => s
  | _ => new_LineHeightManager 20
  end.

(** ** Pure readings of the queries *)

(** Slot [i] of a list of records, with the array's convention for indices
    outside the bounds. *)
Definition rec_get (recs : list SpecialLine) (i : Z) : option SpecialLine :=
  if i <? 0 then None else recs !! Z.to_nat i.

(** What a search for [key] may answer on [recs]: the index of a record on
    line [key], or [-(p+1)] where [p] splits the records into those before
    [key] and those after it. *)
Definition search_result (recs : list SpecialLine) (key k : Z) : Prop :=
  (0 ≤ k ∧ ∃ a, rec_get recs k = Some a ∧ lineNumber a = key)
  ∨ (∃ p, k = - (p + 1) ∧ 0 ≤ p ≤ len recs
          ∧ (∀ i a, rec_get recs i = Some a → i < p → lineNumber a < key)
          ∧ (∀ i a, rec_get recs i = Some a → p ≤ i → key < lineNumber a)).

(** The value [heightForLineNumber] computes from the search answer [k]. *)
Definition height_from (recs : list SpecialLine) (d k : Z) : option Z :=
  if 0 <=? k then
    match rec_get recs k with
    | Some a => Some (maximumSpecialHeight a)
    | None => None
    end
  else Some d.

(** The value [totalHeightUntilLineNumber n] computes from the search
    answer [k]. *)
Definition total_from (recs : list SpecialLine) (d n k : Z) : option Z :=
  if 0 <=? k then
    match rec_get recs k with
    | Some a => Some (prefixSum a + maximumSpecialHeight a)
    | None => None
    end
  else if k =? -1 then Some (d * n)
  else
    match rec_get recs (- (k + 1) - 1) with
    | Some prev =>
        Some (prefixSum prev + maximumSpecialHeight prev + d * (n - lineNumber prev))
    | None => None
    end.

(** ** What a commit may change *)

(** Two versions of an object with the same request: line, requested
    height, identifier and tombstone. *)
Definition same_request (v v' : SpecialLine) : Prop :=
  lineNumber v' = lineNumber v ∧ specialHeight v' = specialHeight v
  ∧ decorationId v' = decorationId v ∧ deleted v' = deleted v.

(** The frame of [commit]: the store keeps its objects and their requests,
    and the default height stays. *)
Record keeps_requests (s s' : LineHeightManager) : Prop := mkKeepsRequests {
  kept_default : _defaultLineHeight s' = _defaultLineHeight s;
  kept_heap : ∀ r, match heap s !! r, heap s' !! r with
                   | Some v, Some v' => same_request v v'
                   | None, None => True
                   | _, _ => False
                   end
}.

(** A computation all of whose steps stay inside the relation [R], seen from
    any earlier state [s0]. *)
Definition stays (R : LineHeightManager → LineHeightManager → Prop) {A} (m : M A) : Prop :=
  ∀ s0 s, R s0 s →
    match m s with
    | Ok _ s' | TypeError s' => R s0 s'
    | Diverges => True
    end.

(** ** The heights a consistent state stands for *)

(** The heights requested for line [n], in array order. *)
Definition heights_on_line (recs : list SpecialLine) (n : Z) : list Z :=
  specialHeight <$> filter (λ r, lineNumber r = n) recs.

(** The height of line [n]: the largest requested height, or the default
    [d] when nothing is requested. *)
Definition height_spec (recs : list SpecialLine) (d n : Z) : Z :=
  match heights_on_line recs n with
  | [] => d
  | h :: t => foldr Z.max h t
  end.

(** The heights of lines 1 to [n] added up. *)
Fixpoint total_spec (recs : list SpecialLine) (d : Z) (n : nat) : Z :=
  match n with
  | O => 0
  | S n' => total_spec recs d n' + height_spec recs d (Z.of_nat (S n'))
  end.

(** [example_manager] after [A] was removed and an override [D] (line 2,
    height 10) was queued, before any commit. *)
Definition dirty_manager : LineHeightManager :=
  match (removeSpecialLineUsingDecoration "A" >>
         insertOrChangeSpecialLineHeightUsingDecoration "D" 2 10) example_manager with
  | Ok _ s => s
  | _ => example_manager
  end.

(** ** Moving a record *)

(** The object [a] moved by [delta] lines. *)
Definition shift_by (delta : Z) (a : SpecialLine) : SpecialLine :=
  set_lineNumber (lineNumber a + delta) a.

(** ** States the entry points keep in order *)

(** A slot that holds a record which is not a tombstone. *)
Definition slot_alive (s : LineHeightManager) (o : option ref) : bool :=
  match o with
  | Some r => match heap s !! r with
              | Some v => negb (deleted v)
              | None => false
              end
  | None => false
  end.

(** Positions strictly below the invalid index. *)
Definition below (inv : jsindex) (i : Z) : Prop :=
  match inv with
  | Finite p => i < p
  | Infinity => True
  end.

(** The bookkeeping the mutations and [commit] rely on: every slot of the
    array holds an object that knows its position, no object sits in two
    slots, queued objects are not in the array yet, the map only knows live
    records of the array under their own identifier, tombstones lie at or
    after the invalid index, and a raised flag has something to act on. *)
Record maintained (s : LineHeightManager) : Prop := mkMaintained {
  m_slots : ∀ (i : nat) o, _orderedSpecialLines s !! i = Some o →
            ∃ r v, o = Some r ∧ heap s !! r = Some v ∧ index v = Z.of_nat i;
  m_nodup : NoDup (_orderedSpecialLines s);
  m_pending : ∀ r, r ∈ _pendingSpecialLinesToInsert s →
              (r < length (heap s))%nat ∧ Some r ∉ _orderedSpecialLines s;
  m_pending_nodup : NoDup (_pendingSpecialLinesToInsert s);
  m_map : ∀ id r, _decorationIDToSpecialLine s !! id = Some r →
          Some r ∈ _orderedSpecialLines s
          ∧ ∃ v, heap s !! r = Some v ∧ deleted v = false ∧ decorationId v = id;
  m_invalid : ∀ p, _invalidIndex s = Finite p → 0 ≤ p ≤ len (_orderedSpecialLines s);
  m_alive_below : ∀ (i : nat) o, _orderedSpecialLines s !! i = Some o →
                  below (_invalidIndex s) (Z.of_nat i) → slot_alive s o = true;
  m_alive_idle : _hasPending s = false →
                 ∀ o, o ∈ _orderedSpecialLines s → slot_alive s o = true;
  m_flag : _hasPending s = true → _pendingSpecialLinesToInsert s = [] →
           _invalidIndex s ≠ Infinity;
  m_idle : _hasPending s = false → _pendingSpecialLinesToInsert s = []
}.

(** The state [s] with the object [r] replaced by [w]. *)
Definition store_put (s : LineHeightManager) (r : ref) (w : SpecialLine) : LineHeightManager :=
  with_heap (<[r := w]> (heap s)) s.

(** Every slot of the array holds an object of the store. *)
Definition slots_valid (s : LineHeightManager) : Prop :=
  ∀ (i : nat) o, _orderedSpecialLines s !! i = Some o →
                 ∃ (r : ref) v, o = Some r ∧ heap s !! r = Some v.

(** ** Clients of the class *)

(** A call of an entry point other than [onLinesDeleted]. *)
Inductive call :=
| SetDefaultLineHeight (defaultLineHeight : Z)
| RemoveSpecialLineUsingDecoration (decorationID : string)
| InsertOrChangeSpecialLineHeightUsingDecoration (decorationId : string) (lineNumber lineHeight : Z)
| HeightForLineNumber (lineNumber : Z)
| TotalHeightUntilLineNumber (lineNumber : Z)
| OnLinesInserted (fromLineNumber toLineNumber : Z)
| MustCommit
| Commit.

(** The call [c] made for its effect; a value it returns is dropped. *)
Definition perform (c : call) : M unit :=
  match c with
  | SetDefaultLineHeight d => set_defaultLineHeight d
  | RemoveSpecialLineUsingDecoration id => removeSpecialLineUsingDecoration id
  | InsertOrChangeSpecialLineHeightUsingDecoration id n h =>
      insertOrChangeSpecialLineHeightUsingDecoration id n h
  | HeightForLineNumber n => heightForLineNumber n >> ret tt
  | TotalHeightUntilLineNumber n => totalHeightUntilLineNumber n >> ret tt
  | OnLinesInserted fromLineNumber toLineNumber => onLinesInserted fromLineNumber toLineNumber
  | MustCommit => mustCommit >> ret tt
  | Commit => commit
  end.

(** A client that makes the calls [cs] one after the other. *)
Fixpoint perform_all (cs : list call) : M unit :=
  match cs with
  | [] => ret tt
  | c :: rest => perform c >> perform_all rest
  end.

(** The calls that lead from a fresh manager to [dirty_manager]. *)
Definition dirty_calls : list call :=
  [InsertOrChangeSpecialLineHeightUsingDecoration "A" 5 40;
   InsertOrChangeSpecialLineHeightUsingDecoration "B" 5 25;
   InsertOrChangeSpecialLineHeightUsingDecoration "C" 9 30;
   Commit;
   RemoveSpecialLineUsingDecoration "A";
   InsertOrChangeSpecialLineHeightUsingDecoration "D" 2 10].

(** ** The values a commit computes *)

(** The value the inner loop of [commit] computes when it runs over the
    records [recs], starting from [acc]: tombstones are skipped, the loop
    stops at the first record on another line. *)
Fixpoint scan_max (recs : list SpecialLine) (line acc : Z) : Z :=
  match recs with
  | [] => acc
  | a :: tl =>
      if deleted a then scan_max tl line acc
      else if negb (lineNumber a =? line) then acc
      else scan_max tl line (Z.max acc (specialHeight a))
  end.

(** What the rebuilding loop makes of a record [r] whose left neighbour is
    [p]. *)
Definition pair_ok (d : Z) (p r : SpecialLine) : Prop :=
  if lineNumber p =? lineNumber r
  then prefixSum r = prefixSum p ∧ maximumSpecialHeight r = maximumSpecialHeight p
  else prefixSum r = prefixSum p + maximumSpecialHeight p
                     + d * (lineNumber r - lineNumber p - 1).

(** The records [cur] carry the right values in the slots before [i]: the
    position, the largest height requested for the line among [reqs], and a
    prefix sum that continues the one of the left neighbour. *)
Definition rebuilt_upto (d : Z) (reqs cur : list SpecialLine) (i : Z) : Prop :=
  ∀ (j : nat) a, Z.of_nat j < i → cur !! j = Some a →
    index a = Z.of_nat j
    ∧ maximumSpecialHeight a = height_spec reqs d (lineNumber a)
    ∧ match j with
      | O => prefixSum a = d * (lineNumber a - 1)
      | S j' => ∀ p, cur !! j' = Some p → pair_ok d p a
      end.

(** ** Records under a range shift *)

(** What [onLinesInserted] makes of a record: the records after
    [fromLineNumber] move down by the number of inserted lines. *)
Definition after_insertion (fromLineNumber toLineNumber : Z) (a : SpecialLine) : SpecialLine :=
  if fromLineNumber <? lineNumber a
  then shift_by (toLineNumber - fromLineNumber + 1) a
  else a.

(** What [onLinesDeleted] makes of the records: those inside the range go,
    those after it move up by the number of deleted lines. *)
Definition after_deletion (fromLineNumber toLineNumber : Z) (recs : list SpecialLine)
  : list SpecialLine :=
  filter (λ a, lineNumber a < fromLineNumber) recs
  ++ (shift_by (- (toLineNumber - fromLineNumber + 1))
        <$> filter (λ a, toLineNumber < lineNumber a) recs).

(** ** A change of the default height *)

(** The last line up to [n] that holds a record, and [0] when there is
    none. *)
Definition last_line_upto (recs : list SpecialLine) (n : Z) : Z :=
  foldr (λ a acc, if lineNumber a <=? n then Z.max (lineNumber a) acc else acc) 0 recs.

(** * The class over binary64 numbers

    The fields [lineNumber], [specialHeight], [prefixSum],
    [maximumSpecialHeight] and [_defaultLineHeight] are declared [number]:
    an IEEE-754 double.  The development above reads them as integers, where
    the arithmetic of doubles is exact as long as every value stays below
    [2^53].  This module embeds the same methods with these fields as
    primitive floats, so that a query can be evaluated on fractional
    heights, where sums and products are rounded.  Array positions stay
    integers, and the object store, the arrays and [_invalidIndex] are those
    of the development above. *)
Module Doubles.

#[local] Set Warnings "-inexact-float".

Record SpecialLine := mkSpecialLine {
  index : Z;
  lineNumber : float;
  specialHeight : float;
  prefixSum : float;
  maximumSpecialHeight : float;
  decorationId : string;
  deleted : bool
}.

Definition new_SpecialLine (id : string) (idx : Z) (line height prefix : float)
  : SpecialLine :=
  {| index := idx; lineNumber := line; specialHeight := height;
     prefixSum := prefix; maximumSpecialHeight := height;
     decorationId := id; deleted := false |}.

Definition set_index (v : Z) (l : SpecialLine) : SpecialLine :=
  {| index := v; lineNumber := lineNumber l; specialHeight := specialHeight l;
     prefixSum := prefixSum l; maximumSpecialHeight := maximumSpecialHeight l;
     decorationId := decorationId l; deleted := deleted l |}.

Definition set_lineNumber (v : float) (l : SpecialLine) : SpecialLine :=
  {| index := index l; lineNumber := v; specialHeight := specialHeight l;
     prefixSum := prefixSum l; maximumSpecialHeight := maximumSpecialHeight l;
     decorationId := decorationId l; deleted := deleted l |}.

Definition set_specialHeight (v : float) (l : SpecialLine) : SpecialLine :=
  {| index := index l; lineNumber := lineNumber l; specialHeight := v;
     prefixSum := prefixSum l; maximumSpecialHeight := maximumSpecialHeight l;
     decorationId := decorationId l; deleted := deleted l |}.

Definition set_prefixSum (v : float) (l : SpecialLine) : SpecialLine :=
  {| index := index l; lineNumber := lineNumber l; specialHeight := specialHeight l;
     prefixSum := v; maximumSpecialHeight := maximumSpecialHeight l;
     decorationId := decorationId l; deleted := deleted l |}.

Definition set_maximumSpecialHeight (v : float) (l : SpecialLine) : SpecialLine :=
  {| index := index l; lineNumber := lineNumber l; specialHeight := specialHeight l;
     prefixSum := prefixSum l; maximumSpecialHeight := v;
     decorationId := decorationId l; deleted := deleted l |}.

Definition set_deleted (v : bool) (l : SpecialLine) : SpecialLine :=
  {| index := index l; lineNumber := lineNumber l; specialHeight := specialHeight l;
     prefixSum := prefixSum l; maximumSpecialHeight := maximumSpecialHeight l;
     decorationId := decorationId l; deleted := v |}.

(** [Math.max(a, b)] on doubles: [NaN] when an argument is [NaN], and [+0]
    is larger than [-0]. *)
Definition js_max (a b : float) : float :=
  if PrimFloat.is_nan a || PrimFloat.is_nan b then PrimFloat.nan
  else if PrimFloat.ltb a b then b
  else if PrimFloat.ltb b a then a
  else if PrimFloat.get_sign a then b
  else a.

Record LineHeightManager := mkManager {
  heap : list SpecialLine;
  _decorationIDToSpecialLine : gmap string ref;
  _orderedSpecialLines : list (option ref);
  _pendingSpecialLinesToInsert : list ref;
  _invalidIndex : jsindex;
  _defaultLineHeight : float;
  _hasPending : bool
}.

(** [new LineHeightManager(defaultLineHeight)]. *)
Definition new_LineHeightManager (defaultLineHeight : float) : LineHeightManager :=
  {| heap := []; _decorationIDToSpecialLine := ∅; _orderedSpecialLines := [];
     _pendingSpecialLinesToInsert := []; _invalidIndex := Finite 0;
     _defaultLineHeight := defaultLineHeight; _hasPending := false |}.

Definition with_heap (h : list SpecialLine) (s : LineHeightManager) :=
  mkManager h (_decorationIDToSpecialLine s) (_orderedSpecialLines s)
    (_pendingSpecialLinesToInsert s) (_invalidIndex s) (_defaultLineHeight s) (_hasPending s).
Definition with_map (m : gmap string ref) (s : LineHeightManager) :=
  mkManager (heap s) m (_orderedSpecialLines s)
    (_pendingSpecialLinesToInsert s) (_invalidIndex s) (_defaultLineHeight s) (_hasPending s).
Definition with_ordered (o : list (option ref)) (s : LineHeightManager) :=
  mkManager (heap s) (_decorationIDToSpecialLine s) o
    (_pendingSpecialLinesToInsert s) (_invalidIndex s) (_defaultLineHeight s) (_hasPending s).
Definition with_pending (p : list ref) (s : LineHeightManager) :=
  mkManager (heap s) (_decorationIDToSpecialLine s) (_orderedSpecialLines s)
    p (_invalidIndex s) (_defaultLineHeight s) (_hasPending s).
Definition with_invalidIndex (i : jsindex) (s : LineHeightManager) :=
  mkManager (heap s) (_decorationIDToSpecialLine s) (_orderedSpecialLines s)
    (_pendingSpecialLinesToInsert s) i (_defaultLineHeight s) (_hasPending s).
Definition with_defaultLineHeight (d : float) (s : LineHeightManager) :=
  mkManager (heap s) (_decorationIDToSpecialLine s) (_orderedSpecialLines s)
    (_pendingSpecialLinesToInsert s) (_invalidIndex s) d (_hasPending s).
Definition with_hasPending (b : bool) (s : LineHeightManager) :=
  mkManager (heap s) (_decorationIDToSpecialLine s) (_orderedSpecialLines s)
    (_pendingSpecialLinesToInsert s) (_invalidIndex s) (_defaultLineHeight s) b.

(** Computations: a method returns, throws a [TypeError], or never
    returns. *)
Inductive outcome (A : Type) :=
| Ok (a : A) (s : LineHeightManager)
| TypeError (s : LineHeightManager)
| Diverges.
Arguments Ok {A} a s.
Arguments TypeError {A} s.
Arguments Diverges {A}.

Definition M (A : Type) := LineHeightManager → outcome A.

Definition ret {A} (a : A) : M A := λ s, Ok a s.
Definition bind {A B} (m : M A) (k : A → M B) : M B :=
  λ s, match m s with
       | Ok a s' => k a s'
       | TypeError s' => TypeError s'
       | Diverges => Diverges
       end.
Definition throw {A} : M A := λ s, TypeError s.
Definition diverge {A} : M A := λ _, Diverges.
Definition gets {A} (f : LineHeightManager → A) : M A := λ s, Ok (f s) s.
Definition modify (f : LineHeightManager → LineHeightManager) : M unit :=
  λ s, Ok tt (f s).

#[local] Set Warnings "-notation-overridden".
Local Notation "'do' x <- m ; k" := (bind m (λ x, k))
  (at level 10, x name, m at level 100, k at level 200).
Local Notation "m >> k" := (bind m (λ _, k))
  (at level 100, k at level 200, right associativity).

(** Reading the fields of [o]: a [TypeError] when [o] is [undefined]. *)
Definition deref (o : option ref) : M SpecialLine :=
  λ s, match o with
       | None => TypeError s
       | Some r => match heap s !! r with
                   | Some v => Ok v s
                   | None => TypeError s
                   end
       end.

(** Writing a field of the object [r]. *)
Definition update (r : ref) (f : SpecialLine → SpecialLine) : M unit :=
  modify (λ s, with_heap (alter f r (heap s)) s).

(** [new SpecialLine(...)]: a fresh object. *)
Definition alloc (v : SpecialLine) : M ref :=
  λ s, Ok (length (heap s)) (with_heap (heap s ++ [v]) s).

Definition ordered_splice (start deleteCount : Z) (items : list (option ref)) : M unit :=
  do arr <- gets _orderedSpecialLines;
  modify (with_ordered (splice arr start deleteCount items)).

(** Modelled from the spec: [binarySearch2] of [base/common/arrays], as in
    the development above. *)
Fixpoint binarySearch2_loop (fuel : nat) (compareToKey : Z → M Z) (low high : Z) : M Z :=
  if high <? low then ret (- (low + 1))
  else match fuel with
       | O => diverge
       | S fuel' =>
           let mid := (low + high) / 2 in
           do comp <- compareToKey mid;
           if comp <? 0 then binarySearch2_loop fuel' compareToKey (mid + 1) high
           else if 0 <? comp then binarySearch2_loop fuel' compareToKey low (mid - 1)
           else ret mid
       end.

Definition binarySearch2 (length : Z) (compareToKey : Z → M Z) : M Z :=
  binarySearch2_loop (Z.to_nat length) compareToKey 0 (length - 1).

Definition set_defaultLineHeight (defaultLineHeight : float) : M unit :=
  modify (with_defaultLineHeight defaultLineHeight).

Definition removeSpecialLineUsingDecoration (decorationID : string) : M unit :=
  do m <- gets _decorationIDToSpecialLine;
  match m !! decorationID with
  | None => ret tt
  | Some r =>
      modify (with_map (delete decorationID m)) >>
      update r (set_deleted true) >>
      do specialLine <- deref (Some r);
      do inv <- gets _invalidIndex;
      modify (with_invalidIndex (js_min inv (index specialLine))) >>
      modify (with_hasPending true)
  end.

Definition _insertSpecialLineHeight (decorationId : string) (lineNumber specialHeight : float)
  : M unit :=
  do r <- alloc (new_SpecialLine decorationId (-1) lineNumber specialHeight 0%float);
  do p <- gets _pendingSpecialLinesToInsert;
  modify (with_pending (p ++ [r])) >>
  modify (with_hasPending true).

Definition insertOrChangeSpecialLineHeightUsingDecoration
    (decorationId : string) (lineNumber lineHeight : float) : M unit :=
  do m <- gets _decorationIDToSpecialLine;
  match m !! decorationId with
  | None => _insertSpecialLineHeight decorationId lineNumber lineHeight
  | Some r =>
      update r (set_lineNumber lineNumber) >>
      update r (set_specialHeight lineHeight) >>
      do specialLine <- deref (Some r);
      do inv <- gets _invalidIndex;
      modify (with_invalidIndex (js_min inv (index specialLine))) >>
      modify (with_hasPending true)
  end.

(** The comparator of [_binarySearchOverSpecialLinesArray]: [===] and [<]
    on doubles. *)
Definition compareToLineNumber (lineNumber' : float) (index' : Z) : M Z :=
  do arr <- gets _orderedSpecialLines;
  do line <- deref (arr_get arr index');
  if PrimFloat.eqb (lineNumber line) lineNumber' then ret 0
  else if PrimFloat.ltb (lineNumber line) lineNumber' then ret (-1)
  else ret 1.

Definition _binarySearchOverSpecialLinesArray (lineNumber' : float) : M Z :=
  do arr <- gets _orderedSpecialLines;
  binarySearch2 (len arr) (compareToLineNumber lineNumber').

Fixpoint commit_merge (pending : list ref) : M unit :=
  match pending with
  | [] => ret tt
  | pendingChange :: rest =>
      do line <- deref (Some pendingChange);
      do searchIndex <- _binarySearchOverSpecialLinesArray (lineNumber line);
      let modifiedSearchInde :=
        if 0 <=? searchIndex then searchIndex else - (searchIndex + 1) in
      ordered_splice modifiedSearchInde 0 [Some pendingChange] >>
      do inv <- gets _invalidIndex;
      modify (with_invalidIndex (js_min inv modifiedSearchInde)) >>
      commit_merge rest
  end.

Fixpoint commit_copy (n : nat) (i : Z) (newOrderedSpecialLines : list (option ref))
  : M (list (option ref)) :=
  match n with
  | O => ret newOrderedSpecialLines
  | S n' =>
      do arr <- gets _orderedSpecialLines;
      commit_copy n' (i + 1) (newOrderedSpecialLines ++ [arr_get arr i])
  end.

Fixpoint commit_max (n : nat) (j : Z) (line : float) (maximumSpecialHeight' : float)
  : M float :=
  match n with
  | O => ret maximumSpecialHeight'
  | S n' =>
      do arr <- gets _orderedSpecialLines;
      do nextSpecialLine <- deref (arr_get arr j);
      if deleted nextSpecialLine then commit_max n' (j + 1) line maximumSpecialHeight'
      else if negb (PrimFloat.eqb (lineNumber nextSpecialLine) line)
      then ret maximumSpecialHeight'
      else commit_max n' (j + 1) line
             (js_max maximumSpecialHeight' (specialHeight nextSpecialLine))
  end.

Record commit_locals := mkLocals {
  newDecorationIDToSpecialLineMap : gmap string ref;
  newOrderedSpecialLines : list (option ref);
  numberOfDeletions : Z
}.

Definition commit_step (i : Z) (loc : commit_locals) : M commit_locals :=
  do arr <- gets _orderedSpecialLines;
  do specialLine <- deref (arr_get arr i);
  if deleted specialLine then
    ret (mkLocals (newDecorationIDToSpecialLineMap loc) (newOrderedSpecialLines loc)
           (numberOfDeletions loc + 1))
  else
    match arr_get arr i with
    | None => throw
    | Some r =>
        let previousSpecialLine := if 0 <? i then arr_get arr (i - 1) else None in
        update r (set_index (i - numberOfDeletions loc)) >>
        do sameLine <-
          match previousSpecialLine with
          | None => ret false
          | Some p =>
              do previous <- deref (Some p);
              do current <- deref (Some r);
              ret (PrimFloat.eqb (lineNumber previous) (lineNumber current))
          end;
        (if sameLine : bool then
           do previous <- deref previousSpecialLine;
           update r (set_maximumSpecialHeight (maximumSpecialHeight previous)) >>
           do previous <- deref previousSpecialLine;
           update r (set_prefixSum (prefixSum previous))
         else
           do current <- deref (Some r);
           do maximumSpecialHeight' <-
             commit_max (Z.to_nat (len arr - i)) i (lineNumber current) (specialHeight current);
           update r (set_maximumSpecialHeight maximumSpecialHeight') >>
           do d <- gets _defaultLineHeight;
           do current <- deref (Some r);
           do prefixSum' <-
             match previousSpecialLine with
             | Some p =>
                 do previous <- deref (Some p);
                 ret (prefixSum previous + maximumSpecialHeight previous
                      + d * (lineNumber current - lineNumber previous - 1))%float
             | None => ret (d * (lineNumber current - 1))%float
             end;
           update r (set_prefixSum prefixSum')) >>
        do current <- deref (Some r);
        ret (mkLocals (<[decorationId current := r]> (newDecorationIDToSpecialLineMap loc))
               (newOrderedSpecialLines loc ++ [Some r])
               (numberOfDeletions loc))
    end.

Fixpoint commit_rebuild (n : nat) (i : Z) (loc : commit_locals) : M commit_locals :=
  match n with
  | O => ret loc
  | S n' => do loc' <- commit_step i loc; commit_rebuild n' (i + 1) loc'
  end.

Definition commit : M unit :=
  do hasPending <- gets _hasPending;
  if negb hasPending then ret tt
  else
    do pending <- gets _pendingSpecialLinesToInsert;
    commit_merge pending >>
    modify (with_pending []) >>
    do m <- gets _decorationIDToSpecialLine;
    do inv <- gets _invalidIndex;
    match inv with
    | Infinity => diverge
    | Finite invalidIndex =>
        do copied <- commit_copy (Z.to_nat invalidIndex) 0 [];
        do arr <- gets _orderedSpecialLines;
        do loc <- commit_rebuild (Z.to_nat (len arr - invalidIndex)) invalidIndex
                    (mkLocals m copied 0);
        modify (with_ordered (newOrderedSpecialLines loc)) >>
        modify (with_map (newDecorationIDToSpecialLineMap loc)) >>
        modify (with_invalidIndex Infinity) >>
        modify (with_hasPending false)
    end.

Definition heightForLineNumber (lineNumber' : float) : M float :=
  commit >>
  do searchIndex <- _binarySearchOverSpecialLinesArray lineNumber';
  if 0 <=? searchIndex then
    do arr <- gets _orderedSpecialLines;
    do line <- deref (arr_get arr searchIndex);
    ret (maximumSpecialHeight line)
  else gets _defaultLineHeight.

Definition totalHeightUntilLineNumber (lineNumber' : float) : M float :=
  commit >>
  do searchIndex <- _binarySearchOverSpecialLinesArray lineNumber';
  do arr <- gets _orderedSpecialLines;
  do d <- gets _defaultLineHeight;
  if 0 <=? searchIndex then
    do line <- deref (arr_get arr searchIndex);
    ret (prefixSum line + maximumSpecialHeight line)%float
  else if searchIndex =? -1 then
    ret (d * lineNumber')%float
  else
    let modifiedIndex := - (searchIndex + 1) in
    do previousSpecialLine <- deref (arr_get arr (modifiedIndex - 1));
    ret (prefixSum previousSpecialLine + maximumSpecialHeight previousSpecialLine
         + d * (lineNumber' - lineNumber previousSpecialLine))%float.

(** The state a computation ends in when it returns. *)
Definition run {A} (m : M A) (s : LineHeightManager) : LineHeightManager :=
  match m s with Ok _ s' => s' | TypeError s' => s' | Diverges => s end.

(** Committed and consistent states, as in the development above, with the
    comparisons of doubles. *)
Definition committed (s : LineHeightManager) : Prop := _hasPending s = false.

Definition resolve (s : LineHeightManager) : option (list SpecialLine) :=
  mapM (λ o : option ref, match o with Some r => heap s !! r | None => None end)
       (_orderedSpecialLines s).

Fixpoint sortedb (recs : list SpecialLine) : bool :=
  match recs with
  | a :: tl =>
      match tl with
      | b :: _ => PrimFloat.leb (lineNumber a) (lineNumber b) && sortedb tl
      | [] => true
      end
  | [] => true
  end.

Fixpoint chainb (d : float) (recs : list SpecialLine) : bool :=
  match recs with
  | p :: tl =>
      match tl with
      | r :: _ =>
          (if PrimFloat.eqb (lineNumber p) (lineNumber r)
           then PrimFloat.eqb (prefixSum r) (prefixSum p)
                && PrimFloat.eqb (maximumSpecialHeight r) (maximumSpecialHeight p)
           else PrimFloat.eqb (prefixSum r)
                  (prefixSum p + maximumSpecialHeight p
                   + d * (lineNumber r - lineNumber p - 1))%float)
          && chainb d tl
      | [] => true
      end
  | [] => true
  end.

Definition firstb (d : float) (recs : list SpecialLine) : bool :=
  match recs with
  | r :: _ => PrimFloat.eqb (prefixSum r) (d * (lineNumber r - 1))%float
  | [] => true
  end.

Definition run_maxb (recs : list SpecialLine) : bool :=
  forallb (λ r,
    forallb (λ r', negb (PrimFloat.eqb (lineNumber r') (lineNumber r))
                   || PrimFloat.leb (specialHeight r') (maximumSpecialHeight r)) recs
    && existsb (λ r', PrimFloat.eqb (lineNumber r') (lineNumber r)
                      && PrimFloat.eqb (specialHeight r') (maximumSpecialHeight r)) recs) recs.

Definition no_deletedb (recs : list SpecialLine) : bool :=
  forallb (λ r, negb (deleted r)) recs.
Definition lines_positiveb (recs : list SpecialLine) : bool :=
  forallb (λ r, PrimFloat.leb 1 (lineNumber r)) recs.

Definition byId_exactb (s : LineHeightManager) : bool :=
  forallb (λ o : option ref,
    match o with
    | Some r =>
        match heap s !! r with
        | Some v => bool_decide (_decorationIDToSpecialLine s !! decorationId v = Some r)
        | None => false
        end
    | None => false
    end) (_orderedSpecialLines s)
  && forallb (λ kv : string * ref,
       bool_decide (Some (snd kv) ∈ _orderedSpecialLines s)
       && match heap s !! snd kv with
          | Some v => bool_decide (decorationId v = fst kv)
          | None => false
          end) (map_to_list (_decorationIDToSpecialLine s)).

Definition consistentb (s : LineHeightManager) : bool :=
  match resolve s with
  | None => false
  | Some recs =>
      sortedb recs && chainb (_defaultLineHeight s) recs
      && firstb (_defaultLineHeight s) recs && run_maxb recs
      && no_deletedb recs && lines_positiveb recs && byId_exactb s
  end.

Definition consistent (s : LineHeightManager) : Prop := consistentb s = true.

Definition heights_nonnegb (s : LineHeightManager) : bool :=
  PrimFloat.leb 0 (_defaultLineHeight s)
  && match resolve s with
     | Some recs => forallb (λ r, PrimFloat.leb 0 (specialHeight r)) recs
     | None => false
     end.


(** The manager after [new LineHeightManager(20)], an override of height
    0.1 on line 5 under the identifier A, and a commit. *)
Definition fractional_override : LineHeightManager :=
  run (insertOrChangeSpecialLineHeightUsingDecoration "A" 5 0.1 >> commit)
      (new_LineHeightManager 20).

(** The same with the integer height 40. *)
Definition integer_override : LineHeightManager :=
  run (insertOrChangeSpecialLineHeightUsingDecoration "A" 5 40 >> commit)
      (new_LineHeightManager 20).

End Doubles.

(** * Theorems *)

(** ** Scenarios on concrete managers *)

(** C1, at the second scenario of the claim: with overrides A (line 5,
    height 40) and B (line 5, height 25) on a manager of default height 20,
    [heightForLineNumber 5] is 40; after [removeSpecialLineUsingDecoration A]
    the next query commits, the only record left is B with requested height
    25, and yet [heightForLineNumber 5] still answers 40: the record B keeps
    the maximum that was computed while A was alive.  The order in which the
    two overrides were inserted makes no difference. *)
Theorem heightForLineNumber_keeps_removed_maximum :
  let o := (insertOrChangeSpecialLineHeightUsingDecoration "A" 5 40 >>
            insertOrChangeSpecialLineHeightUsingDecoration "B" 5 25 >>
            do h1 <- heightForLineNumber 5;
            removeSpecialLineUsingDecoration "A" >>
            do h2 <- heightForLineNumber 5;
            ret (h1, h2)) (new_LineHeightManager 20) in
  let o' := (insertOrChangeSpecialLineHeightUsingDecoration "B" 5 25 >>
             insertOrChangeSpecialLineHeightUsingDecoration "A" 5 40 >>
             do h1 <- heightForLineNumber 5;
             removeSpecialLineUsingDecoration "A" >>
             do h2 <- heightForLineNumber 5;
             ret (h1, h2)) (new_LineHeightManager 20) in
  value_of o = Some (40, 40)
  ∧ records_after o = Some [mkSpecialLine 0 5 25 80 40 "B" false]
  ∧ value_of o' = Some (40, 40)
  ∧ records_after o' = Some [mkSpecialLine 0 5 25 80 40 "B" false].
Proof. vm_compute. repeat split; reflexivity. Qed.

(** C3: deleting line 5 of a document whose only override sits on line 5
    makes [onLinesDeleted] throw: the start index handed to [splice] and to
    the shifting loop is [-1], and the loop reads a property of
    [arr[-1]], which is [undefined]. *)
Theorem onLinesDeleted_throws_at_first_record :
  is_TypeError
    ((insertOrChangeSpecialLineHeightUsingDecoration "A" 5 40 >>
      commit >>
      onLinesDeleted 5 5) (new_LineHeightManager 20)) = true.
Proof. vm_compute. reflexivity. Qed.

(** C4: with overrides on lines 2 and 5, [onLinesDeleted 5 5] returns
    normally and has removed both records, also the one on line 2, which
    lies before the deleted range.  When the search for [fromLineNumber]
    misses, as in [onLinesDeleted 4 6] on the same state, the record on
    line 2 stays; and the scenario of the claim ([onLinesDeleted 3 4] with
    one override on line 5) goes through that path too and moves the
    override to line 3. *)
Theorem onLinesDeleted_removes_record_before_range :
  let before := (insertOrChangeSpecialLineHeightUsingDecoration "A" 2 30 >>
                 insertOrChangeSpecialLineHeightUsingDecoration "B" 5 40 >>
                 commit) (new_LineHeightManager 20) in
  let after := (insertOrChangeSpecialLineHeightUsingDecoration "A" 2 30 >>
                insertOrChangeSpecialLineHeightUsingDecoration "B" 5 40 >>
                commit >>
                onLinesDeleted 5 5) (new_LineHeightManager 20) in
  let after_miss := (insertOrChangeSpecialLineHeightUsingDecoration "A" 2 30 >>
                     insertOrChangeSpecialLineHeightUsingDecoration "B" 5 40 >>
                     commit >>
                     onLinesDeleted 4 6) (new_LineHeightManager 20) in
  let scenario := (insertOrChangeSpecialLineHeightUsingDecoration "A" 5 40 >>
                   commit >>
                   onLinesDeleted 3 4 >>
                   do h3 <- heightForLineNumber 3;
                   do h5 <- heightForLineNumber 5;
                   ret (h3, h5)) (new_LineHeightManager 20) in
  records_after before
    = Some [mkSpecialLine 0 2 30 20 30 "A" false;
            mkSpecialLine 1 5 40 90 40 "B" false]
  ∧ value_of after = Some tt
  ∧ records_after after = Some []
  ∧ records_after after_miss = Some [mkSpecialLine 0 2 30 20 30 "A" false]
  ∧ value_of scenario = Some (40, 20)
  ∧ records_after scenario = Some [mkSpecialLine 0 3 40 80 40 "A" false].
Proof. vm_compute. repeat split; reflexivity. Qed.

(** C5: with overrides on lines 3 and 4, [onLinesInserted 3 3] also moves
    the record on line 3 (to line 4), although that line is not after the
    insertion point.  Without the override on line 4 the search misses and
    the record on line 3 stays on its line. *)
Theorem onLinesInserted_shifts_record_at_from :
  let o := (insertOrChangeSpecialLineHeightUsingDecoration "A" 3 30 >>
            insertOrChangeSpecialLineHeightUsingDecoration "B" 4 40 >>
            commit >>
            onLinesInserted 3 3) (new_LineHeightManager 20) in
  let o_miss := (insertOrChangeSpecialLineHeightUsingDecoration "A" 3 30 >>
                 commit >>
                 onLinesInserted 3 3) (new_LineHeightManager 20) in
  value_of o = Some tt
  ∧ records_after o
    = Some [mkSpecialLine 0 4 30 40 30 "A" false;
            mkSpecialLine 1 5 40 70 40 "B" false]
  ∧ records_after o_miss = Some [mkSpecialLine 0 3 30 40 30 "A" false].
Proof. vm_compute. repeat split; reflexivity. Qed.

(** C6: after inserting overrides A (line 5, height 40) and B (line 9,
    height 30), committing, removing A and committing again, the only record
    left is B, and its prefix sum is 180: it was computed from the deleted
    record A in the previous slot.  The first record of a consistent state
    on line 9 must have prefix sum [20 * (9 - 1) = 160], so the state right
    after [commit] is not consistent. *)
Theorem commit_prefixSum_from_deleted_predecessor :
  let o := (insertOrChangeSpecialLineHeightUsingDecoration "A" 5 40 >>
            insertOrChangeSpecialLineHeightUsingDecoration "B" 9 30 >>
            commit >>
            removeSpecialLineUsingDecoration "A" >>
            commit) (new_LineHeightManager 20) in
  value_of o = Some tt
  ∧ records_after o = Some [mkSpecialLine 0 9 30 180 30 "B" false]
  ∧ (firstb 20 <$> records_after o) = Some false
  ∧ (consistentb <$> final_state o) = Some false.
Proof. vm_compute. repeat split; reflexivity. Qed.

(** C7: on a fresh manager of default height 20, [heightForLineNumber 5] is
    20; after inserting A (line 5, height 40) and removing A again it is 40.
    The same happens when a query runs between the insert and the removal
    and another override B (line 5, height 25) shares the line: 25 before,
    40 after. *)
Theorem insert_then_remove_does_not_restore :
  value_of ((do h0 <- heightForLineNumber 5;
             insertOrChangeSpecialLineHeightUsingDecoration "A" 5 40 >>
             removeSpecialLineUsingDecoration "A" >>
             do h1 <- heightForLineNumber 5;
             ret (h0, h1)) (new_LineHeightManager 20)) = Some (20, 40)
  ∧ value_of ((insertOrChangeSpecialLineHeightUsingDecoration "B" 5 25 >>
               do h0 <- heightForLineNumber 5;
               insertOrChangeSpecialLineHeightUsingDecoration "A" 5 40 >>
               do h <- heightForLineNumber 5;
               removeSpecialLineUsingDecoration "A" >>
               do h1 <- heightForLineNumber 5;
               ret (h0, h, h1)) (new_LineHeightManager 20)) = Some (25, 40, 40).
Proof. vm_compute. split; reflexivity. Qed.

(** ** Removing an override that is still pending *)



(** ** Read-only steps *)

Lemma commit_committed s : committed s → commit s = Ok tt s.
Proof. unfold committed, commit, bind, gets. intros ->. reflexivity. Qed.

Lemma deref_unchanged o s : unchanged (deref o s) s.
Proof. unfold deref. destruct o as [r|]; [destruct (heap s !! r)|]; reflexivity. Qed.

(** The fuel [binarySearch2] starts with is enough: the search stops. *)
Lemma binarySearch2_loop_unchanged fuel (compareToKey : Z → M Z) low high s :
  (∀ i, unchanged (compareToKey i s) s) →
  high - low + 1 ≤ Z.of_nat fuel →
  unchanged (binarySearch2_loop fuel compareToKey low high s) s.
Proof.
  intros Hcmp. revert low high.
  induction fuel as [|fuel IH]; intros low high Hfuel; cbn [binarySearch2_loop].
  - destruct (Z.ltb_spec high low); [reflexivity | lia].
  - destruct (Z.ltb_spec high low); [reflexivity |].
    unfold bind. specialize (Hcmp ((low + high) / 2)).
    destruct (compareToKey ((low + high) / 2) s) as [c s'| s' |]; cbn in Hcmp;
      [subst s' | assumption | contradiction].
    assert (low ≤ (low + high) / 2 ≤ high).
    { split; [apply Z.div_le_lower_bound | apply Z.div_le_upper_bound]; lia. }
    destruct (c <? 0); [apply IH; lia |].
    destruct (0 <? c); [apply IH; lia | reflexivity].
Qed.

Lemma _binarySearchOverSpecialLinesArray_unchanged n s :
  unchanged (_binarySearchOverSpecialLinesArray n s) s.
Proof.
  unfold _binarySearchOverSpecialLinesArray, bind, gets, binarySearch2.
  apply binarySearch2_loop_unchanged.
  - intros i. unfold compareToLineNumber, bind, gets.
    pose proof (deref_unchanged (arr_get (_orderedSpecialLines s) i) s) as Hd.
    destruct (deref (arr_get (_orderedSpecialLines s) i) s) as [v s'| s' |];
      cbn in Hd; [subst s' | assumption | contradiction].
    destruct (lineNumber v =? n); [reflexivity |].
    destruct (lineNumber v <? n); reflexivity.
  - unfold len. lia.
Qed.

Lemma widen_backward_unchanged n i key acc s :
  unchanged (widen_backward n i key acc s) s.
Proof.
  revert i acc. induction n as [|n IH]; intros i acc; cbn [widen_backward]; [reflexivity |].
  unfold bind, gets.
  pose proof (deref_unchanged (arr_get (_orderedSpecialLines s) i) s) as Hd.
  destruct (deref (arr_get (_orderedSpecialLines s) i) s) as [v s'| s' |];
    cbn in Hd; [subst s' | assumption | contradiction].
  destruct (lineNumber v =? key); [apply IH | reflexivity].
Qed.

Lemma widen_forward_unchanged n i key acc s :
  unchanged (widen_forward n i key acc s) s.
Proof.
  revert i acc. induction n as [|n IH]; intros i acc; cbn [widen_forward]; [reflexivity |].
  unfold bind, gets.
  pose proof (deref_unchanged (arr_get (_orderedSpecialLines s) i) s) as Hd.
  destruct (deref (arr_get (_orderedSpecialLines s) i) s) as [v s'| s' |];
    cbn in Hd; [subst s' | assumption | contradiction].
  destruct (lineNumber v =? key); [apply IH | reflexivity].
Qed.

(** ** The frame of the range shifts *)

Lemma same_but_lineNumber_refl v : same_but_lineNumber v v.
Proof. repeat split. Qed.

Lemma same_but_lineNumber_trans v1 v2 v3 :
  same_but_lineNumber v1 v2 → same_but_lineNumber v2 v3 → same_but_lineNumber v1 v3.
Proof.
  unfold same_but_lineNumber. intros (?&?&?&?&?&?) (?&?&?&?&?&?).
  repeat split; congruence.
Qed.

Lemma shift_frame_refl s : shift_frame s s.
Proof.
  split; try reflexivity.
  intros r. destruct (heap s !! r); [apply same_but_lineNumber_refl | exact I].
Qed.

Lemma shift_frame_trans s1 s2 s3 :
  shift_frame s1 s2 → shift_frame s2 s3 → shift_frame s1 s3.
Proof.
  intros [] []. split; try congruence.
  - intros r. specialize (frame_heap0 r). specialize (frame_heap1 r).
    destruct (heap s1 !! r), (heap s2 !! r), (heap s3 !! r); try tauto.
    eapply same_but_lineNumber_trans; eassumption.
  - etrans; eassumption.
Qed.

Lemma shift_frame_set_lineNumber s r v :
  shift_frame s (with_heap (alter (set_lineNumber v) r (heap s)) s).
Proof.
  split; try reflexivity.
  intros r'. cbn. destruct (decide (r = r')) as [<-|Hne].
  - rewrite list_lookup_alter_eq. destruct (heap s !! r); cbn; [repeat split | exact I].
  - rewrite list_lookup_alter_ne by assumption.
    destruct (heap s !! r'); [apply same_but_lineNumber_refl | exact I].
Qed.

Lemma shift_frame_splice s start deleteCount :
  shift_frame s (with_ordered (splice (_orderedSpecialLines s) start deleteCount []) s).
Proof.
  split; try reflexivity.
  - intros r. cbn. destruct (heap s !! r); [apply same_but_lineNumber_refl | exact I].
  - cbn. unfold splice. cbn [app].
    set (a := if start <? 0 then _ else _).
    set (c := Z.min _ _).
    assert (0 ≤ a ≤ len (_orderedSpecialLines s)).
    { subst a. unfold len. destruct (start <? 0) eqn:E; lia. }
    assert (0 ≤ c) by (subst c; lia).
    rewrite <- (take_drop (Z.to_nat a) (_orderedSpecialLines s)) at 3.
    apply sublist_app; [reflexivity |].
    rewrite Z2Nat.inj_add by lia. rewrite <- drop_drop.
    apply sublist_drop.
Qed.

(** The shifting loop changes line numbers only, also when it throws. *)
Lemma shift_lines_frame n i delta s :
  match shift_lines n i delta s with
  | Ok _ s' | TypeError s' =>
      shift_frame s s' ∧ _orderedSpecialLines s' = _orderedSpecialLines s
  | Diverges => False
  end.
Proof.
  revert i s. induction n as [|n IH]; intros i s; cbn [shift_lines].
  - split; [apply shift_frame_refl | reflexivity].
  - unfold bind, gets.
    pose proof (deref_unchanged (arr_get (_orderedSpecialLines s) i) s) as Hd.
    destruct (deref (arr_get (_orderedSpecialLines s) i) s) as [v s'| s' |];
      cbn in Hd; [subst s' | subst s' | contradiction].
    2: { split; [apply shift_frame_refl | reflexivity]. }
    destruct (arr_get (_orderedSpecialLines s) i) as [r|].
    2: { split; [apply shift_frame_refl | reflexivity]. }
    unfold update, modify.
    specialize (IH (i + 1)
      (with_heap (alter (set_lineNumber (lineNumber v + delta)) r (heap s)) s)).
    destruct (shift_lines n (i + 1) delta _) as [u s'| s' |]; [| | contradiction].
    all: destruct IH as [Hf Ho]; split;
      [eapply shift_frame_trans; [apply shift_frame_set_lineNumber | exact Hf]
      | rewrite Ho; reflexivity].
Qed.

Lemma onLinesInserted_frame s fromLineNumber toLineNumber :
  committed s →
  match onLinesInserted fromLineNumber toLineNumber s with
  | Ok _ s' | TypeError s' =>
      shift_frame s s' ∧ _orderedSpecialLines s' = _orderedSpecialLines s
  | Diverges => False
  end.
Proof.
  intros Hc. unfold onLinesInserted, bind. rewrite (commit_committed s Hc).
  pose proof (_binarySearchOverSpecialLinesArray_unchanged (fromLineNumber + 1) s) as Hb.
  destruct (_binarySearchOverSpecialLinesArray (fromLineNumber + 1) s) as [k s1| s1 |];
    cbn in Hb; [subst s1 | subst s1 | contradiction].
  2: { split; [apply shift_frame_refl | reflexivity]. }
  match goal with |- context [match ?m s with _ => _ end] => set (start := m) end.
  assert (unchanged (start s) s) as Hs.
  { subst start. destruct (0 <=? k); [apply widen_backward_unchanged | reflexivity]. }
  destruct (start s) as [i s1| s1 |]; cbn in Hs; [subst s1 | subst s1 | contradiction].
  2: { split; [apply shift_frame_refl | reflexivity]. }
  unfold gets. apply shift_lines_frame.
Qed.

Lemma onLinesDeleted_frame s fromLineNumber toLineNumber :
  committed s →
  match onLinesDeleted fromLineNumber toLineNumber s with
  | Ok _ s' | TypeError s' => shift_frame s s'
  | Diverges => False
  end.
Proof.
  intros Hc. unfold onLinesDeleted, bind. rewrite (commit_committed s Hc).
  pose proof (_binarySearchOverSpecialLinesArray_unchanged fromLineNumber s) as Hb.
  destruct (_binarySearchOverSpecialLinesArray fromLineNumber s) as [k s1| s1 |];
    cbn in Hb; [subst s1 | subst s1; apply shift_frame_refl | contradiction].
  match goal with |- context [match ?m s with _ => _ end] => set (start := m) end.
  assert (unchanged (start s) s) as Hs.
  { subst start. destruct (0 <=? k); [| reflexivity].
    unfold bind.
    pose proof (widen_backward_unchanged (Z.to_nat k) (k - 1) fromLineNumber k s) as Hw.
    destruct (widen_backward _ _ _ _ s); cbn in Hw; [subst | subst | contradiction];
      reflexivity. }
  destruct (start s) as [i s1| s1 |]; cbn in Hs;
    [subst s1 | subst s1; apply shift_frame_refl | contradiction].
  pose proof (_binarySearchOverSpecialLinesArray_unchanged toLineNumber s) as Hb.
  destruct (_binarySearchOverSpecialLinesArray toLineNumber s) as [k' s1| s1 |];
    cbn in Hb; [subst s1 | subst s1; apply shift_frame_refl | contradiction].
  unfold gets at 1.
  match goal with |- context [match ?m s with _ => _ end] => set (stop := m) end.
  assert (unchanged (stop s) s) as He.
  { subst stop. destruct (0 <=? k'); [| reflexivity].
    unfold bind.
    match goal with |- context [widen_forward ?n ?a ?b ?c s] =>
      pose proof (widen_forward_unchanged n a b c s) as Hw;
      destruct (widen_forward n a b c s) end;
      cbn in Hw; [subst | subst | contradiction]; reflexivity. }
  destruct (stop s) as [j s1| s1 |]; cbn in He;
    [subst s1 | subst s1; apply shift_frame_refl | contradiction].
  unfold ordered_splice, bind, modify, gets.
  match goal with |- context [shift_lines ?n ?a ?b ?s'] =>
    pose proof (shift_lines_frame n a b s') as Hl;
    destruct (shift_lines n a b s') end; [| | contradiction].
  all: destruct Hl as [Hl _];
    eapply shift_frame_trans; [apply shift_frame_splice | exact Hl].
Qed.

(** C10: on a committed state, [onLinesInserted] and [onLinesDeleted] stop
    (normally or by throwing) in a state that differs from the initial one
    only in the line numbers of objects and, for [onLinesDeleted], in slots
    removed from the ordered array: every object keeps [specialHeight],
    [maximumSpecialHeight], [prefixSum], [index] and [deleted], the pending
    flag and the invalid index are as before, so [mustCommit] answers
    [false] and [commit] returns without touching anything. *)
Theorem range_shifts_change_line_numbers_only s fromLineNumber toLineNumber :
  committed s →
  (∃ s', final_state (onLinesInserted fromLineNumber toLineNumber s) = Some s'
         ∧ shift_frame s s'
         ∧ _orderedSpecialLines s' = _orderedSpecialLines s
         ∧ mustCommit s' = Ok false s'
         ∧ commit s' = Ok tt s')
  ∧ (∃ s', final_state (onLinesDeleted fromLineNumber toLineNumber s) = Some s'
           ∧ shift_frame s s'
           ∧ mustCommit s' = Ok false s'
           ∧ commit s' = Ok tt s').
Proof.
  intros Hc.
  assert (∀ s', shift_frame s s' → mustCommit s' = Ok false s' ∧ commit s' = Ok tt s')
    as Hafter.
  { intros s' Hf.
    assert (committed s') as Hc' by (unfold committed; rewrite (frame_hasPending _ _ Hf); exact Hc).
    split; [| apply commit_committed; exact Hc'].
    unfold mustCommit, gets. rewrite Hc'. reflexivity. }
  split.
  - pose proof (onLinesInserted_frame s fromLineNumber toLineNumber Hc) as H.
    destruct (onLinesInserted fromLineNumber toLineNumber s) as [u s'| s' |];
      [| | contradiction].
    all: destruct H as [Hf Ho]; exists s'; destruct (Hafter s' Hf); auto.
  - pose proof (onLinesDeleted_frame s fromLineNumber toLineNumber Hc) as H.
    destruct (onLinesDeleted fromLineNumber toLineNumber s) as [u s'| s' |];
      [| | contradiction].
    all: exists s'; destruct (Hafter s' H); auto.
Qed.

Lemma range_shifts_change_line_numbers_only_witness :
  (∃ s', final_state (onLinesInserted 3 4 example_manager) = Some s'
         ∧ commit s' = Ok tt s')
  ∧ (∃ s', final_state (onLinesDeleted 3 4 example_manager) = Some s'
           ∧ commit s' = Ok tt s').
Proof.
  destruct (range_shifts_change_line_numbers_only example_manager 3 4) as [H1 H2].
  - reflexivity.
  - destruct H1 as (s1 & ? & _ & _ & _ & ?), H2 as (s2 & ? & _ & _ & ?).
    split; [exists s1 | exists s2]; split; assumption.
Defined.

(** ** Queries on a committed state *)

Lemma rec_get_Some recs i a :
  rec_get recs i = Some a ↔ 0 ≤ i ∧ recs !! Z.to_nat i = Some a.
Proof.
  unfold rec_get. destruct (Z.ltb_spec i 0); split.
  - discriminate.
  - intros [? _]. lia.
  - auto.
  - intros [_ ?]. assumption.
Qed.

Lemma rec_get_lt recs i a : rec_get recs i = Some a → 0 ≤ i < len recs.
Proof.
  rewrite rec_get_Some. intros [? H]. apply lookup_lt_Some in H. unfold len. lia.
Qed.

Lemma rec_get_is_Some recs i : 0 ≤ i < len recs → ∃ a, rec_get recs i = Some a.
Proof.
  intros Hi. unfold len in Hi.
  destruct (lookup_lt_is_Some_2 recs (Z.to_nat i)) as [a Ha]; [lia |].
  exists a. apply rec_get_Some. split; [lia | assumption].
Qed.

Lemma resolve_lookup s recs (i : nat) :
  resolve s = Some recs →
  recs !! i = match _orderedSpecialLines s !! i with
              | Some (Some r) => heap s !! r
              | _ => None
              end.
Proof.
  unfold resolve. intros H. apply mapM_Some in H.
  destruct (_orderedSpecialLines s !! i) as [o|] eqn:E.
  - destruct (Forall2_lookup_l _ _ _ _ _ H E) as (a & Ha & Hoa).
    rewrite Ha. destruct o; [symmetry; assumption | discriminate].
  - apply lookup_ge_None in E. apply lookup_ge_None.
    rewrite <- (Forall2_length _ _ _ H). assumption.
Qed.

Lemma resolve_record_at s recs i :
  resolve s = Some recs → record_at s i = rec_get recs i.
Proof.
  intros H. unfold record_at, rec_get, arr_get.
  destruct (i <? 0); [reflexivity |].
  rewrite (resolve_lookup s recs _ H).
  destruct (_orderedSpecialLines s !! Z.to_nat i) as [[r|]|]; reflexivity.
Qed.

Lemma resolve_len s recs : resolve s = Some recs → len (_orderedSpecialLines s) = len recs.
Proof.
  unfold resolve. intros H. apply mapM_Some in H.
  unfold len. rewrite (Forall2_length _ _ _ H). reflexivity.
Qed.

Lemma deref_record_at s i :
  deref (arr_get (_orderedSpecialLines s) i) s
  = match record_at s i with Some v => Ok v s | None => TypeError s end.
Proof.
  unfold deref, record_at. destruct (arr_get (_orderedSpecialLines s) i); reflexivity.
Qed.

Lemma compareToLineNumber_spec s recs key i a :
  resolve s = Some recs → rec_get recs i = Some a →
  compareToLineNumber key i s
  = Ok (if lineNumber a =? key then 0 else if lineNumber a <? key then -1 else 1) s.
Proof.
  intros Hres Ha. unfold compareToLineNumber, bind, gets.
  rewrite deref_record_at, (resolve_record_at s recs i Hres), Ha.
  destruct (lineNumber a =? key); [reflexivity |].
  destruct (lineNumber a <? key); reflexivity.
Qed.

Lemma sortedb_adjacent recs :
  sortedb recs = true →
  ∀ (i : nat) a b, recs !! i = Some a → recs !! S i = Some b →
                   lineNumber a ≤ lineNumber b.
Proof.
  induction recs as [|x tl IH]; intros Hs i a b Ha Hb; [discriminate |].
  destruct tl as [|y tl']; [destruct i; discriminate |].
  cbn [sortedb] in Hs. apply andb_prop in Hs as [Hxy Htl].
  destruct i as [|i].
  - cbn in Ha, Hb. injection Ha as <-. injection Hb as <-. lia.
  - exact (IH Htl i a b Ha Hb).
Qed.

Lemma sortedb_lookup recs :
  sortedb recs = true →
  ∀ i j a b, rec_get recs i = Some a → rec_get recs j = Some b → i ≤ j →
             lineNumber a ≤ lineNumber b.
Proof.
  intros Hs i j a b Ha Hb Hij.
  apply rec_get_Some in Ha as [Hi Ha]. apply rec_get_Some in Hb as [Hj Hb].
  assert (∃ k : nat, Z.to_nat j = (Z.to_nat i + k)%nat) as [k Hk]
    by (exists (Z.to_nat j - Z.to_nat i)%nat; lia).
  rewrite Hk in Hb. clear Hk Hij Hi Hj j.
  revert b Hb. induction k as [|k IH]; intros b Hb.
  - rewrite Nat.add_0_r in Hb. assert (a = b) as -> by congruence. lia.
  - replace (Z.to_nat i + S k)%nat with (S (Z.to_nat i + k)) in Hb by lia.
    destruct (lookup_lt_is_Some_2 recs (Z.to_nat i + k)) as [c Hc].
    { apply lookup_lt_Some in Hb. lia. }
    pose proof (IH c Hc). pose proof (sortedb_adjacent recs Hs _ c b Hc Hb). lia.
Qed.

Section Search.
Variables (s : LineHeightManager) (recs : list SpecialLine) (key : Z).
Hypothesis Hres : resolve s = Some recs.
Hypothesis Hsorted : sortedb recs = true.

(** The loop of [binarySearch2] on a sorted array, with the usual
    invariant: everything left of [low] is before [key], everything right
    of [high] is after it. *)
Lemma binarySearch2_loop_sorted fuel low high :
  0 ≤ low → high < len recs → low ≤ high + 1 →
  high - low + 1 ≤ Z.of_nat fuel →
  (∀ i a, rec_get recs i = Some a → i < low → lineNumber a < key) →
  (∀ i a, rec_get recs i = Some a → high < i → key < lineNumber a) →
  ∃ k, binarySearch2_loop fuel (compareToLineNumber key) low high s = Ok k s
       ∧ search_result recs key k.
Proof.
  revert low high. induction fuel as [|fuel IH];
    intros low high Hlow Hhigh Hlh Hfuel Hbefore Hafter; cbn [binarySearch2_loop].
  - destruct (Z.ltb_spec high low); [| lia].
    exists (- (low + 1)). split; [reflexivity |]. right. exists low.
    split; [reflexivity |]. split; [lia |]. split; [exact Hbefore |].
    intros i a Ha Hi. apply (Hafter i a Ha). lia.
  - destruct (Z.ltb_spec high low).
    + exists (- (low + 1)). split; [reflexivity |]. right. exists low.
      split; [reflexivity |]. split; [lia |]. split; [exact Hbefore |].
      intros i a Ha Hi. apply (Hafter i a Ha). lia.
    + assert (low ≤ (low + high) / 2 ≤ high) as Hmid.
      { split; [apply Z.div_le_lower_bound | apply Z.div_le_upper_bound]; lia. }
      set (mid := (low + high) / 2) in *.
      destruct (rec_get_is_Some recs mid) as [a Ha]; [lia |].
      unfold bind. rewrite (compareToLineNumber_spec s recs key mid a Hres Ha).
      destruct (Z.eqb_spec (lineNumber a) key) as [Heq|Hne].
      * cbn. exists mid. split; [reflexivity |]. left. split; [lia |]. eauto.
      * destruct (Z.ltb_spec (lineNumber a) key) as [Hlt|Hge]; cbn.
        -- apply IH; try lia; [| exact Hafter].
           intros i b Hb Hi.
           pose proof (sortedb_lookup recs Hsorted i mid b a Hb Ha). lia.
        -- apply IH; try lia; [exact Hbefore |].
           intros i b Hb Hi.
           pose proof (sortedb_lookup recs Hsorted mid i a b Ha Hb). lia.
Qed.

Lemma _binarySearchOverSpecialLinesArray_sorted :
  ∃ k, _binarySearchOverSpecialLinesArray key s = Ok k s ∧ search_result recs key k.
Proof.
  unfold _binarySearchOverSpecialLinesArray, bind, gets, binarySearch2.
  rewrite (resolve_len s recs Hres).
  apply binarySearch2_loop_sorted.
  - lia.
  - lia.
  - unfold len. lia.
  - unfold len. lia.
  - intros i a Ha Hi. apply rec_get_lt in Ha. lia.
  - intros i a Ha Hi. apply rec_get_lt in Ha. lia.
Qed.
End Search.

Lemma heightForLineNumber_run s recs n k :
  committed s → resolve s = Some recs →
  _binarySearchOverSpecialLinesArray n s = Ok k s →
  heightForLineNumber n s
  = match height_from recs (_defaultLineHeight s) k with
    | Some v => Ok v s
    | None => TypeError s
    end.
Proof.
  intros Hc Hres Hk. unfold heightForLineNumber, bind.
  rewrite (commit_committed s Hc), Hk. unfold height_from, gets.
  destruct (0 <=? k); [| reflexivity].
  rewrite deref_record_at, (resolve_record_at s recs k Hres).
  destruct (rec_get recs k); reflexivity.
Qed.

Lemma totalHeightUntilLineNumber_run s recs n k :
  committed s → resolve s = Some recs →
  _binarySearchOverSpecialLinesArray n s = Ok k s →
  totalHeightUntilLineNumber n s
  = match total_from recs (_defaultLineHeight s) n k with
    | Some v => Ok v s
    | None => TypeError s
    end.
Proof.
  intros Hc Hres Hk. unfold totalHeightUntilLineNumber, bind.
  rewrite (commit_committed s Hc), Hk. unfold total_from, gets.
  destruct (0 <=? k).
  - rewrite deref_record_at, (resolve_record_at s recs k Hres).
    destruct (rec_get recs k); reflexivity.
  - destruct (k =? -1); [reflexivity |].
    rewrite deref_record_at, (resolve_record_at s recs _ Hres).
    destruct (rec_get recs (- (k + 1) - 1)); reflexivity.
Qed.

Lemma total_from_found recs d n k a :
  0 ≤ k → rec_get recs k = Some a →
  total_from recs d n k = Some (prefixSum a + maximumSpecialHeight a).
Proof.
  intros Hk Ha. unfold total_from.
  destruct (Z.leb_spec 0 k); [| lia]. rewrite Ha. reflexivity.
Qed.

Lemma total_from_miss_first recs d n : total_from recs d n (- (0 + 1)) = Some (d * n).
Proof. reflexivity. Qed.

Lemma total_from_miss recs d n p prev :
  0 < p → rec_get recs (p - 1) = Some prev →
  total_from recs d n (- (p + 1))
  = Some (prefixSum prev + maximumSpecialHeight prev + d * (n - lineNumber prev)).
Proof.
  intros Hp Hprev. unfold total_from.
  destruct (Z.leb_spec 0 (- (p + 1))); [lia |].
  destruct (Z.eqb_spec (- (p + 1)) (-1)); [lia |].
  replace (- (- (p + 1) + 1) - 1) with (p - 1) by lia.
  rewrite Hprev. reflexivity.
Qed.

Lemma chainb_adjacent d recs :
  chainb d recs = true →
  ∀ (i : nat) a b, recs !! i = Some a → recs !! S i = Some b →
    (lineNumber a = lineNumber b →
     prefixSum b = prefixSum a ∧ maximumSpecialHeight b = maximumSpecialHeight a)
    ∧ (lineNumber a ≠ lineNumber b →
       prefixSum b = prefixSum a + maximumSpecialHeight a
                     + d * (lineNumber b - lineNumber a - 1)).
Proof.
  induction recs as [|x tl IH]; intros Hs i a b Ha Hb; [discriminate |].
  destruct tl as [|y tl']; [destruct i; discriminate |].
  cbn [chainb] in Hs. apply andb_prop in Hs as [Hxy Htl].
  destruct i as [|i].
  - cbn in Ha, Hb. injection Ha as <-. injection Hb as <-.
    destruct (Z.eqb_spec (lineNumber x) (lineNumber y)).
    + apply andb_prop in Hxy as [? ?]. split; [intros _; lia | contradiction].
    + split; [contradiction | intros _; lia].
  - exact (IH Htl i a b Ha Hb).
Qed.

Section Consistent.
Variables (recs : list SpecialLine) (d : Z).
Hypothesis Hsorted : sortedb recs = true.
Hypothesis Hchain : chainb d recs = true.
Hypothesis Hfirst : firstb d recs = true.
Hypothesis Hpositive : lines_positiveb recs = true.

Lemma chain_step i a b :
  rec_get recs i = Some a → rec_get recs (i + 1) = Some b →
  (lineNumber a = lineNumber b →
   prefixSum b = prefixSum a ∧ maximumSpecialHeight b = maximumSpecialHeight a)
  ∧ (lineNumber a ≠ lineNumber b →
     prefixSum b = prefixSum a + maximumSpecialHeight a
                   + d * (lineNumber b - lineNumber a - 1)).
Proof using Hchain.
  intros Ha Hb. apply rec_get_Some in Ha as [Hi Ha]. apply rec_get_Some in Hb as [_ Hb].
  replace (Z.to_nat (i + 1)) with (S (Z.to_nat i)) in Hb by lia.
  exact (chainb_adjacent d recs Hchain _ a b Ha Hb).
Qed.

(** Records on the same line share prefix sum and effective height. *)
Lemma same_line_same_values i j a b :
  rec_get recs i = Some a → rec_get recs j = Some b → i ≤ j →
  lineNumber a = lineNumber b →
  prefixSum b = prefixSum a ∧ maximumSpecialHeight b = maximumSpecialHeight a.
Proof using Hsorted Hchain.
  intros Ha Hb Hij.
  assert (∃ k : nat, j = i + Z.of_nat k) as [k ->] by (exists (Z.to_nat (j - i)); lia).
  clear Hij. revert b Hb. induction k as [|k IH]; intros b Hb Hab.
  - rewrite Z.add_0_r in Hb. assert (a = b) as -> by congruence. auto.
  - destruct (rec_get_is_Some recs (i + Z.of_nat k)) as [c Hc].
    { apply rec_get_lt in Ha, Hb. lia. }
    replace (i + Z.of_nat (S k)) with (i + Z.of_nat k + 1) in Hb by lia.
    pose proof (sortedb_lookup recs Hsorted _ _ a c Ha Hc ltac:(lia)).
    pose proof (sortedb_lookup recs Hsorted _ _ c b Hc Hb ltac:(lia)).
    destruct (IH c Hc ltac:(lia)) as [? ?].
    destruct (chain_step _ c b Hc Hb) as [Hsame _].
    destruct (Hsame ltac:(lia)). split; congruence.
Qed.

(** Every record has a first record of its run: it is the first of the
    array, or the record before it lies on an earlier line. *)
Lemma run_start k a :
  rec_get recs k = Some a →
  ∃ q a', 0 ≤ q ≤ k ∧ rec_get recs q = Some a' ∧ lineNumber a' = lineNumber a
          ∧ (q = 0 ∨ ∃ c, rec_get recs (q - 1) = Some c ∧ lineNumber c < lineNumber a).
Proof using Hsorted.
  intros Ha. pose proof (rec_get_lt _ _ _ Ha) as Hk.
  assert (∃ n : nat, k = Z.of_nat n) as [n ->] by (exists (Z.to_nat k); lia).
  clear Hk. revert a Ha. induction n as [|n IH]; intros a Ha.
  - exists 0, a. repeat split; try lia; auto.
  - destruct (rec_get_is_Some recs (Z.of_nat n)) as [c Hc].
    { apply rec_get_lt in Ha. lia. }
    pose proof (sortedb_lookup recs Hsorted _ _ c a Hc Ha ltac:(lia)).
    destruct (Z.eq_dec (lineNumber c) (lineNumber a)) as [Heq|Hne].
    + destruct (IH c Hc) as (q & a' & Hq & Ha' & Hl & Hq').
      exists q, a'. split; [lia |]. split; [assumption |]. split; [congruence |].
      destruct Hq' as [?|(c' & ? & ?)]; [left; assumption | right; exists c'].
      split; [assumption | lia].
    + exists (Z.of_nat (S n)), a. split; [lia |]. split; [assumption |].
      split; [reflexivity |]. right. exists c.
      replace (Z.of_nat (S n) - 1) with (Z.of_nat n) by lia. split; [assumption | lia].
Qed.

Lemma first_prefixSum a :
  rec_get recs 0 = Some a → prefixSum a = d * (lineNumber a - 1).
Proof using Hfirst.
  clear Hsorted Hchain Hpositive.
  intros Ha. apply rec_get_Some in Ha as [_ Ha]. destruct recs as [|x tl]; [discriminate |].
  cbn in Ha, Hfirst. injection Ha as <-. lia.
Qed.

Lemma line_positive i a : rec_get recs i = Some a → 1 ≤ lineNumber a.
Proof using Hpositive.
  intros Ha. apply rec_get_Some in Ha as [_ Ha].
  apply list_elem_of_lookup_2, list_elem_of_In in Ha.
  unfold lines_positiveb in Hpositive. rewrite forallb_forall in Hpositive.
  specialize (Hpositive a Ha). lia.
Qed.
End Consistent.

Lemma height_from_found recs d k a :
  0 ≤ k → rec_get recs k = Some a →
  height_from recs d k = Some (maximumSpecialHeight a).
Proof.
  intros Hk Ha. unfold height_from.
  destruct (Z.leb_spec 0 k); [| lia]. rewrite Ha. reflexivity.
Qed.

Lemma height_from_miss recs d p : 0 ≤ p → height_from recs d (- (p + 1)) = Some d.
Proof. intros Hp. unfold height_from. destruct (Z.leb_spec 0 (- (p + 1))); [lia | reflexivity]. Qed.

Section TotalHeight.
Variables (recs : list SpecialLine) (d : Z).
Hypothesis Hsorted : sortedb recs = true.
Hypothesis Hchain : chainb d recs = true.
Hypothesis Hfirst : firstb d recs = true.
Hypothesis Hpositive : lines_positiveb recs = true.

(** The step from line [n - 1] to line [n], whatever index the two
    searches answer. *)
Lemma total_difference n k k' :
  search_result recs n k → search_result recs (n - 1) k' →
  ∃ t t' h, total_from recs d n k = Some t
            ∧ total_from recs d (n - 1) k' = Some t'
            ∧ height_from recs d k = Some h
            ∧ t - t' = h.
Proof using Hsorted Hchain Hfirst.
  intros [[Hk (a & Ha & Hla)] | (p & -> & Hp & Hbef & Haft)]
         [[Hk' (b & Hb & Hlb)] | (p' & -> & Hp' & Hbef' & Haft')].
  - (* both lines hold a record *)
    destruct (run_start recs Hsorted k a Ha) as (q & a' & Hq & Ha' & Hla' & Hstart).
    destruct (same_line_same_values recs d Hsorted Hchain q k a' a Ha' Ha) as [Hp1 Hm1];
      [lia | lia |].
    exists (prefixSum a + maximumSpecialHeight a),
           (prefixSum b + maximumSpecialHeight b), (maximumSpecialHeight a).
    split; [apply total_from_found; assumption |].
    split; [apply total_from_found; assumption |].
    split; [apply height_from_found; assumption |].
    destruct Hstart as [-> | (c & Hc & Hlc)].
    + pose proof (sortedb_lookup recs Hsorted 0 k' a' b Ha' Hb Hk'). lia.
    + assert (k' ≤ q - 1) as Hle.
      { destruct (Z_le_gt_dec k' (q - 1)); [assumption |].
        pose proof (sortedb_lookup recs Hsorted q k' a' b Ha' Hb ltac:(lia)). lia. }
      pose proof (sortedb_lookup recs Hsorted k' (q - 1) b c Hb Hc Hle).
      destruct (same_line_same_values recs d Hsorted Hchain k' (q - 1) b c Hb Hc Hle)
        as [Hp2 Hm2]; [lia |].
      replace q with (q - 1 + 1) in Ha' by lia.
      destruct (chain_step recs d Hchain (q - 1) c a' Hc Ha') as [_ Hnew].
      specialize (Hnew ltac:(lia)).
      replace (lineNumber a' - lineNumber c - 1) with 0 in Hnew by lia. lia.
  - (* a record on line n, none on line n - 1 *)
    destruct (run_start recs Hsorted k a Ha) as (q & a' & Hq & Ha' & Hla' & Hstart).
    destruct (same_line_same_values recs d Hsorted Hchain q k a' a Ha' Ha) as [Hp1 Hm1];
      [lia | lia |].
    assert (p' ≤ q) as Hpq.
    { destruct (Z_le_gt_dec p' q); [assumption |].
      pose proof (Hbef' q a' Ha' ltac:(lia)). lia. }
    destruct Hstart as [-> | (c & Hc & Hlc)].
    + assert (p' = 0) as -> by lia.
      exists (prefixSum a + maximumSpecialHeight a), (d * (n - 1)), (maximumSpecialHeight a).
      split; [apply total_from_found; assumption |].
      split; [apply total_from_miss_first |].
      split; [apply height_from_found; assumption |].
      pose proof (first_prefixSum recs d Hfirst a' Ha') as Hf.
      rewrite Hla', Hla in Hf. lia.
    + assert (p' = q) as ->.
      { destruct (Z.eq_dec p' q); [assumption |].
        pose proof (Haft' (q - 1) c Hc ltac:(lia)). lia. }
      pose proof (rec_get_lt _ _ _ Hc).
      exists (prefixSum a + maximumSpecialHeight a),
             (prefixSum c + maximumSpecialHeight c + d * (n - 1 - lineNumber c)),
             (maximumSpecialHeight a).
      split; [apply total_from_found; assumption |].
      split; [apply total_from_miss; [lia | assumption] |].
      split; [apply height_from_found; assumption |].
      replace q with (q - 1 + 1) in Ha' by lia.
      destruct (chain_step recs d Hchain (q - 1) c a' Hc Ha') as [_ Hnew].
      specialize (Hnew ltac:(lia)). rewrite Hla', Hla in Hnew. lia.
  - (* no record on line n, one on line n - 1 *)
    assert (k' < p) as Hlt.
    { destruct (Z_lt_ge_dec k' p); [assumption |].
      pose proof (Haft k' b Hb ltac:(lia)). lia. }
    destruct (rec_get_is_Some recs (p - 1)) as [c Hc]; [lia |].
    pose proof (Hbef (p - 1) c Hc ltac:(lia)).
    pose proof (sortedb_lookup recs Hsorted k' (p - 1) b c Hb Hc ltac:(lia)).
    destruct (same_line_same_values recs d Hsorted Hchain k' (p - 1) b c Hb Hc)
      as [Hp2 Hm2]; [lia | lia |].
    exists (prefixSum c + maximumSpecialHeight c + d * (n - lineNumber c)),
           (prefixSum b + maximumSpecialHeight b), d.
    split; [apply total_from_miss; [lia | assumption] |].
    split; [apply total_from_found; assumption |].
    split; [apply height_from_miss; lia |].
    replace (lineNumber c) with (n - 1) by lia. lia.
  - (* no record on either line *)
    assert (p' = p) as ->.
    { destruct (Z.lt_trichotomy p p') as [Hlt | [Heq | Hgt]]; [| congruence |].
      - destruct (rec_get_is_Some recs p) as [c Hc]; [lia |].
        pose proof (Haft p c Hc ltac:(lia)). pose proof (Hbef' p c Hc ltac:(lia)). lia.
      - destruct (rec_get_is_Some recs p') as [c Hc]; [lia |].
        pose proof (Hbef p' c Hc ltac:(lia)). pose proof (Haft' p' c Hc ltac:(lia)). lia. }
    destruct (Z.eq_dec p 0) as [-> | Hne].
    + exists (d * n), (d * (n - 1)), d.
      split; [apply total_from_miss_first |].
      split; [apply total_from_miss_first |].
      split; [apply height_from_miss; lia | lia].
    + destruct (rec_get_is_Some recs (p - 1)) as [c Hc]; [lia |].
      exists (prefixSum c + maximumSpecialHeight c + d * (n - lineNumber c)),
             (prefixSum c + maximumSpecialHeight c + d * (n - 1 - lineNumber c)), d.
      split; [apply total_from_miss; [lia | assumption] |].
      split; [apply total_from_miss; [lia | assumption] |].
      split; [apply height_from_miss; lia | lia].
Qed.

(** Below line 1 there is no record: the total is the default height
    times the line number. *)
Lemma total_before_first_line n k :
  n ≤ 0 → search_result recs n k → total_from recs d n k = Some (d * n).
Proof using Hpositive.
  intros Hn [[Hk (a & Ha & Hla)] | (p & -> & Hp & Hbef & Haft)].
  - pose proof (line_positive recs Hpositive k a Ha). lia.
  - destruct (Z.eq_dec p 0) as [-> | Hne]; [apply total_from_miss_first |].
    destruct (rec_get_is_Some recs (p - 1)) as [c Hc]; [lia |].
    pose proof (Hbef (p - 1) c Hc ltac:(lia)).
    pose proof (line_positive recs Hpositive (p - 1) c Hc). lia.
Qed.
End TotalHeight.


Lemma consistent_parts s :
  consistent s →
  ∃ recs, resolve s = Some recs
          ∧ sortedb recs = true
          ∧ chainb (_defaultLineHeight s) recs = true
          ∧ firstb (_defaultLineHeight s) recs = true
          ∧ run_maxb recs = true
          ∧ no_deletedb recs = true
          ∧ lines_positiveb recs = true
          ∧ byId_exactb s = true.
Proof.
  unfold consistent, consistentb. destruct (resolve s) as [recs|]; [| discriminate].
  intros H. exists recs. repeat (apply andb_prop in H as [H ?]). auto 10.
Qed.

(** On a committed consistent state both queries return, without changing
    the state, the values read off the answer of the search. *)
Lemma queries_return s recs n :
  committed s → resolve s = Some recs → sortedb recs = true →
  ∃ k t h, _binarySearchOverSpecialLinesArray n s = Ok k s
           ∧ search_result recs n k
           ∧ total_from recs (_defaultLineHeight s) n k = Some t
           ∧ height_from recs (_defaultLineHeight s) k = Some h
           ∧ totalHeightUntilLineNumber n s = Ok t s
           ∧ heightForLineNumber n s = Ok h s.
Proof.
  intros Hc Hres Hsorted.
  destruct (_binarySearchOverSpecialLinesArray_sorted s recs n Hres Hsorted) as (k & Hk & Hr).
  assert (∃ t h, total_from recs (_defaultLineHeight s) n k = Some t
                 ∧ height_from recs (_defaultLineHeight s) k = Some h) as (t & h & Ht & Hh).
  { destruct Hr as [[Hk0 (a & Ha & _)] | (p & -> & Hp & _ & _)].
    - eexists _, _. split; [apply (total_from_found _ _ _ _ a) | apply (height_from_found _ _ _ a)];
        assumption.
    - destruct (Z.eq_dec p 0) as [-> | Hne].
      + eexists _, _. split; [apply total_from_miss_first | apply height_from_miss; lia].
      + destruct (rec_get_is_Some recs (p - 1)) as [c Hc']; [lia |].
        eexists _, _.
        split; [apply (total_from_miss _ _ _ _ c); [lia | assumption]
               | apply height_from_miss; lia]. }
  exists k, t, h. repeat (split; [assumption |]).
  rewrite (totalHeightUntilLineNumber_run s recs n k Hc Hres Hk), Ht.
  rewrite (heightForLineNumber_run s recs n k Hc Hres Hk), Hh. auto.
Qed.

(** C2: on a committed consistent state, [totalHeightUntilLineNumber n]
    returns, for the answer [searchIndex] of the binary search:
    [prefixSum + maximumSpecialHeight] of the record at [searchIndex] on an
    exact match; [defaultLineHeight * n] when the insertion point is 0; and
    [prev.prefixSum + prev.maximumSpecialHeight
     + defaultLineHeight * (n - prev.lineNumber)] for the record [prev]
    before the insertion point [p > 0].  With default height 20 and one
    override on line 5 of height 40, the totals for lines 5 and 4 are 120
    and 80. *)
Theorem totalHeightUntilLineNumber_cases :
  (∀ s n, committed s → consistent s → 0 ≤ n →
     ∃ searchIndex,
       _binarySearchOverSpecialLinesArray n s = Ok searchIndex s
       ∧ (0 ≤ searchIndex
          ∨ ∃ p, 0 ≤ p ≤ len (_orderedSpecialLines s) ∧ searchIndex = - (p + 1))
       ∧ (0 ≤ searchIndex →
          ∃ line, record_at s searchIndex = Some line ∧ lineNumber line = n
                  ∧ totalHeightUntilLineNumber n s
                    = Ok (prefixSum line + maximumSpecialHeight line) s)
       ∧ (searchIndex = - (0 + 1) →
          totalHeightUntilLineNumber n s = Ok (_defaultLineHeight s * n) s)
       ∧ (∀ p, 0 < p → searchIndex = - (p + 1) →
          ∃ prev, record_at s (p - 1) = Some prev
                  ∧ totalHeightUntilLineNumber n s
                    = Ok (prefixSum prev + maximumSpecialHeight prev
                          + _defaultLineHeight s * (n - lineNumber prev)) s))
  ∧ value_of ((insertOrChangeSpecialLineHeightUsingDecoration "A" 5 40 >>
               do t5 <- totalHeightUntilLineNumber 5;
               do t4 <- totalHeightUntilLineNumber 4;
               ret (t5, t4)) (new_LineHeightManager 20)) = Some (120, 80).
Proof.
  split; [| vm_compute; reflexivity].
  intros s n Hc Hcons Hn.
  destruct (consistent_parts s Hcons) as (recs & Hres & Hsorted & _).
  destruct (queries_return s recs n Hc Hres Hsorted) as (k & t & h & Hk & Hr & Ht & _ & Hrun & _).
  exists k. split; [assumption |].
  rewrite Hrun. split; [| split; [| split]].
  - destruct Hr as [[Hk0 _] | (p & -> & Hp & _)]; [left; assumption | right].
    exists p. rewrite (resolve_len s recs Hres). auto.
  - intros Hk0. destruct Hr as [[_ (a & Ha & Hla)] | (p & -> & Hp & _)]; [| lia].
    exists a. rewrite (resolve_record_at s recs k Hres).
    rewrite (total_from_found _ _ _ _ a Hk0 Ha) in Ht. injection Ht as <-. auto.
  - intros ->. rewrite total_from_miss_first in Ht. injection Ht as <-. reflexivity.
  - intros p Hp ->. destruct Hr as [[Hk0 _] | (p' & Heq & Hp' & _)]; [lia |].
    assert (p' = p) as -> by lia.
    destruct (rec_get_is_Some recs (p - 1)) as [c Hc']; [lia |].
    exists c. rewrite (resolve_record_at s recs _ Hres).
    rewrite (total_from_miss _ _ _ _ c Hp Hc') in Ht. injection Ht as <-. auto.
Qed.

Lemma totalHeightUntilLineNumber_cases_witness :
  ∃ searchIndex,
    _binarySearchOverSpecialLinesArray 7 example_manager = Ok searchIndex example_manager
    ∧ (∀ p, 0 < p → searchIndex = - (p + 1) →
       ∃ prev, record_at example_manager (p - 1) = Some prev
               ∧ totalHeightUntilLineNumber 7 example_manager
                 = Ok (prefixSum prev + maximumSpecialHeight prev
                       + _defaultLineHeight example_manager * (7 - lineNumber prev))
                      example_manager).
Proof.
  destruct (proj1 totalHeightUntilLineNumber_cases example_manager 7)
    as (k & Hk & _ & _ & _ & Hmiss).
  - reflexivity.
  - vm_compute. reflexivity.
  - lia.
  - exists k. split; assumption.
Defined.






(** ** The queries on fractional heights *)

#[local] Set Warnings "-inexact-float".


(** The same with an override: after [new LineHeightManager(20)] and an
    override of height 0.1 on line 5, the total is 80.1 up to line 5 and 80
    up to line 4; the difference 0.09999999999999432 is not the height 0.1
    of line 5. *)
Lemma total_step_differs_from_override :
  let s := Doubles.fractional_override in
  Doubles.committed s ∧ Doubles.consistent s ∧ Doubles.heights_nonnegb s = true
  ∧ Doubles.totalHeightUntilLineNumber 5 s = Doubles.Ok 80.1%float s
  ∧ Doubles.totalHeightUntilLineNumber 4 s = Doubles.Ok 80%float s
  ∧ Doubles.heightForLineNumber 5 s = Doubles.Ok 0.1%float s
  ∧ PrimFloat.eqb (80.1 - 80) 0.1 = false
  ∧ (80.1 - 80)%float = 0.09999999999999432%float.
Proof.
  repeat split; vm_compute; reflexivity.
Qed.

(** With integer heights nothing is rounded: for the default height 20 and
    an override of height 40 on line 5 the step of the total from line 4 to
    line 5 is the height of line 5. *)
Lemma total_step_is_height_on_integers :
  let s := Doubles.integer_override in
  Doubles.committed s ∧ Doubles.consistent s ∧ Doubles.heights_nonnegb s = true
  ∧ Doubles.totalHeightUntilLineNumber 5 s = Doubles.Ok 120%float s
  ∧ Doubles.totalHeightUntilLineNumber 4 s = Doubles.Ok 80%float s
  ∧ Doubles.heightForLineNumber 5 s = Doubles.Ok 40%float s
  ∧ PrimFloat.eqb (120 - 80) 40 = true.
Proof.
  repeat split; vm_compute; reflexivity.
Qed.

(** * Further properties of the class *)

(** ** Steps that stay inside a relation *)

Section Stays.
Variable R : LineHeightManager → LineHeightManager → Prop.

Lemma stays_ret {A} (a : A) : stays R (ret a).
Proof. intros s0 s H. exact H. Qed.

Lemma stays_gets {A} (f : LineHeightManager → A) : stays R (gets f).
Proof. intros s0 s H. exact H. Qed.

Lemma stays_throw {A} : stays R (@throw A).
Proof. intros s0 s H. exact H. Qed.

Lemma stays_diverge {A} : stays R (@diverge A).
Proof. intros s0 s H. exact I. Qed.

Lemma stays_deref o : stays R (deref o).
Proof.
  intros s0 s H. unfold deref. destruct o as [r|]; [destruct (heap s !! r) |]; exact H.
Qed.

Lemma stays_modify f : (∀ s0 s, R s0 s → R s0 (f s)) → stays R (modify f).
Proof. intros Hf s0 s H. apply Hf, H. Qed.

Lemma stays_bind {A B} (m : M A) (k : A → M B) :
  stays R m → (∀ a, stays R (k a)) → stays R (bind m k).
Proof.
  intros Hm Hk s0 s H. unfold bind. specialize (Hm s0 s H).
  destruct (m s) as [a s1 | s1 |]; [apply Hk, Hm | exact Hm | exact I].
Qed.

Lemma stays_binarySearch2_loop fuel compareToKey low high :
  (∀ i, stays R (compareToKey i)) →
  stays R (binarySearch2_loop fuel compareToKey low high).
Proof.
  intros Hcmp. revert low high.
  induction fuel as [|fuel IH]; intros low high; cbn [binarySearch2_loop];
    (destruct (high <? low); [apply stays_ret |]).
  - apply stays_diverge.
  - apply stays_bind; [apply Hcmp |]. intros c.
    destruct (c <? 0); [apply IH |]. destruct (0 <? c); [apply IH | apply stays_ret].
Qed.

Lemma stays_binarySearchOverSpecialLinesArray n :
  stays R (_binarySearchOverSpecialLinesArray n).
Proof.
  unfold _binarySearchOverSpecialLinesArray. apply stays_bind; [apply stays_gets |].
  intros arr. apply stays_binarySearch2_loop. intros i. unfold compareToLineNumber.
  apply stays_bind; [apply stays_gets |]. intros arr'.
  apply stays_bind; [apply stays_deref |]. intros line.
  destruct (lineNumber line =? n); [apply stays_ret |].
  destruct (lineNumber line <? n); apply stays_ret.
Qed.

Lemma stays_commit_max n j line m : stays R (commit_max n j line m).
Proof.
  revert j m. induction n as [|n IH]; intros j m; cbn [commit_max]; [apply stays_ret |].
  apply stays_bind; [apply stays_gets |]. intros arr.
  apply stays_bind; [apply stays_deref |]. intros next.
  destruct (deleted next); [apply IH |].
  destruct (negb (lineNumber next =? line)); [apply stays_ret | apply IH].
Qed.

Lemma stays_commit_copy n i acc : stays R (commit_copy n i acc).
Proof.
  revert i acc. induction n as [|n IH]; intros i acc; cbn [commit_copy]; [apply stays_ret |].
  apply stays_bind; [apply stays_gets |]. intros arr. apply IH.
Qed.
End Stays.

(** ** The frame of [commit] and of the queries *)

Lemma same_request_refl v : same_request v v.
Proof. repeat split. Qed.

Lemma keeps_requests_refl s : keeps_requests s s.
Proof.
  split; [reflexivity |]. intros r. destruct (heap s !! r); [apply same_request_refl | exact I].
Qed.

Lemma keeps_requests_fields s0 s s' :
  heap s' = heap s → _defaultLineHeight s' = _defaultLineHeight s →
  keeps_requests s0 s → keeps_requests s0 s'.
Proof. intros Hh Hd [Hd0 Hh0]. split; [congruence |]. intros r. rewrite Hh. apply Hh0. Qed.

Lemma keeps_requests_alter s0 s r f :
  (∀ v, same_request v (f v)) →
  keeps_requests s0 s → keeps_requests s0 (with_heap (alter f r (heap s)) s).
Proof.
  intros Hf [Hd0 Hh0]. split; [exact Hd0 |]. intros r'. cbn. specialize (Hh0 r').
  destruct (decide (r = r')) as [<- | Hne].
  - rewrite list_lookup_alter_eq.
    destruct (heap s0 !! r), (heap s !! r) as [v|]; cbn; try assumption.
    destruct Hh0 as (? & ? & ? & ?), (Hf v) as (? & ? & ? & ?).
    repeat split; congruence.
  - rewrite list_lookup_alter_ne by assumption. exact Hh0.
Qed.

Lemma stays_update_derived r f :
  (∀ v, same_request v (f v)) → stays keeps_requests (update r f).
Proof. intros Hf. apply stays_modify. intros s0 s. apply keeps_requests_alter, Hf. Qed.

Lemma stays_modify_fields f :
  (∀ s, heap (f s) = heap s) → (∀ s, _defaultLineHeight (f s) = _defaultLineHeight s) →
  stays keeps_requests (modify f).
Proof.
  intros Hh Hd. apply stays_modify. intros s0 s. apply keeps_requests_fields; auto.
Qed.

Lemma stays_ordered_splice start deleteCount items :
  stays keeps_requests (ordered_splice start deleteCount items).
Proof.
  unfold ordered_splice. apply stays_bind; [apply stays_gets |]. intros arr.
  apply stays_modify_fields; reflexivity.
Qed.

Lemma stays_commit_merge pending : stays keeps_requests (commit_merge pending).
Proof.
  induction pending as [|r rest IH]; cbn [commit_merge]; [apply stays_ret |].
  apply stays_bind; [apply stays_deref |]. intros line.
  apply stays_bind; [apply stays_binarySearchOverSpecialLinesArray |]. intros k.
  apply stays_bind; [apply stays_ordered_splice |]. intros _.
  apply stays_bind; [apply stays_gets |]. intros inv.
  apply stays_bind; [apply stays_modify_fields; reflexivity |]. intros _. exact IH.
Qed.

Lemma stays_commit_step i loc : stays keeps_requests (commit_step i loc).
Proof.
  unfold commit_step.
  apply stays_bind; [apply stays_gets |]. intros arr.
  apply stays_bind; [apply stays_deref |]. intros line.
  destruct (deleted line); [apply stays_ret |].
  destruct (arr_get arr i) as [r|]; [| apply stays_throw].
  apply stays_bind; [apply stays_update_derived; intros v; repeat split |]. intros _.
  apply stays_bind.
  { destruct (if 0 <? i then arr_get arr (i - 1) else None) as [p|]; [| apply stays_ret].
    apply stays_bind; [apply stays_deref |]. intros previous.
    apply stays_bind; [apply stays_deref |]. intros current. apply stays_ret. }
  intros sameLine. apply stays_bind.
  { destruct sameLine.
    - apply stays_bind; [apply stays_deref |]. intros previous.
      apply stays_bind; [apply stays_update_derived; intros v; repeat split |]. intros _.
      apply stays_bind; [apply stays_deref |]. intros previous'.
      apply stays_update_derived. intros v. repeat split.
    - apply stays_bind; [apply stays_deref |]. intros current.
      apply stays_bind; [apply stays_commit_max |]. intros m.
      apply stays_bind; [apply stays_update_derived; intros v; repeat split |]. intros _.
      apply stays_bind; [apply stays_gets |]. intros d.
      apply stays_bind; [apply stays_deref |]. intros current'.
      apply stays_bind.
      { destruct (if 0 <? i then arr_get arr (i - 1) else None) as [p|]; [| apply stays_ret].
        apply stays_bind; [apply stays_deref |]. intros previous. apply stays_ret. }
      intros prefix. apply stays_update_derived. intros v. repeat split. }
  intros _. apply stays_bind; [apply stays_deref |]. intros current. apply stays_ret.
Qed.

Lemma stays_commit_rebuild n i loc : stays keeps_requests (commit_rebuild n i loc).
Proof.
  revert i loc. induction n as [|n IH]; intros i loc; cbn [commit_rebuild]; [apply stays_ret |].
  apply stays_bind; [apply stays_commit_step |]. intros loc'. apply IH.
Qed.

Lemma stays_commit : stays keeps_requests commit.
Proof.
  unfold commit. apply stays_bind; [apply stays_gets |]. intros hasPending.
  destruct (negb hasPending); [apply stays_ret |].
  apply stays_bind; [apply stays_gets |]. intros pending.
  apply stays_bind; [apply stays_commit_merge |]. intros _.
  apply stays_bind; [apply stays_modify_fields; reflexivity |]. intros _.
  apply stays_bind; [apply stays_gets |]. intros m.
  apply stays_bind; [apply stays_gets |]. intros inv.
  destruct inv as [invalidIndex|]; [| apply stays_diverge].
  apply stays_bind; [apply stays_commit_copy |]. intros copied.
  apply stays_bind; [apply stays_gets |]. intros arr.
  apply stays_bind; [apply stays_commit_rebuild |]. intros loc.
  repeat (apply stays_bind; [apply stays_modify_fields; reflexivity |]; intros _).
  apply stays_modify_fields; reflexivity.
Qed.

Lemma stays_heightForLineNumber n : stays keeps_requests (heightForLineNumber n).
Proof.
  unfold heightForLineNumber. apply stays_bind; [apply stays_commit |]. intros _.
  apply stays_bind; [apply stays_binarySearchOverSpecialLinesArray |]. intros k.
  destruct (0 <=? k); [| apply stays_gets].
  apply stays_bind; [apply stays_gets |]. intros arr.
  apply stays_bind; [apply stays_deref |]. intros line. apply stays_ret.
Qed.

Lemma stays_totalHeightUntilLineNumber n :
  stays keeps_requests (totalHeightUntilLineNumber n).
Proof.
  unfold totalHeightUntilLineNumber. apply stays_bind; [apply stays_commit |]. intros _.
  apply stays_bind; [apply stays_binarySearchOverSpecialLinesArray |]. intros k.
  apply stays_bind; [apply stays_gets |]. intros arr.
  apply stays_bind; [apply stays_gets |]. intros d.
  destruct (0 <=? k).
  - apply stays_bind; [apply stays_deref |]. intros line. apply stays_ret.
  - destruct (k =? -1); [apply stays_ret |].
    apply stays_bind; [apply stays_deref |]. intros line. apply stays_ret.
Qed.

(** X1: [commit] and both queries, however they end, leave every object of
    the store with the line number, requested height, identifier and
    tombstone it had, keep the size of the store, and never touch the
    default height: a commit only recomputes [index],
    [maximumSpecialHeight] and [prefixSum]. *)
Theorem commit_and_queries_keep_requests s n :
  (∀ s', final_state (commit s) = Some s' → keeps_requests s s')
  ∧ (∀ s', final_state (heightForLineNumber n s) = Some s' → keeps_requests s s')
  ∧ (∀ s', final_state (totalHeightUntilLineNumber n s) = Some s' → keeps_requests s s').
Proof.
  split; [| split]; intros s' Hs'.
  - pose proof (stays_commit s s (keeps_requests_refl s)) as H.
    destruct (commit s); cbn in Hs'; [injection Hs' as <- .. | discriminate]; exact H.
  - pose proof (stays_heightForLineNumber n s s (keeps_requests_refl s)) as H.
    destruct (heightForLineNumber n s); cbn in Hs';
      [injection Hs' as <- .. | discriminate]; exact H.
  - pose proof (stays_totalHeightUntilLineNumber n s s (keeps_requests_refl s)) as H.
    destruct (totalHeightUntilLineNumber n s); cbn in Hs';
      [injection Hs' as <- .. | discriminate]; exact H.
Qed.

Lemma commit_and_queries_keep_requests_witness :
  ∃ s', final_state (heightForLineNumber 5 dirty_manager) = Some s'
        ∧ keeps_requests dirty_manager s'.
Proof.
  eexists. split; [vm_compute; reflexivity |].
  apply (proj1 (proj2 (commit_and_queries_keep_requests dirty_manager 5))).
  vm_compute. reflexivity.
Defined.

(** ** A query after a query *)

Lemma bind_Ok {A B} (m : M A) (k : A → M B) s b s' :
  bind m k s = Ok b s' → ∃ a s1, m s = Ok a s1 ∧ k a s1 = Ok b s'.
Proof.
  unfold bind. destruct (m s) as [a s1 | s1 |]; [eauto | discriminate | discriminate].
Qed.

(** When [commit] returns, nothing is pending any more. *)
Lemma commit_Ok_committed s u s' : commit s = Ok u s' → committed s'.
Proof.
  unfold commit. intros H.
  apply bind_Ok in H as (hp & s1 & H1 & H). injection H1 as <- <-.
  destruct (_hasPending s) eqn:Hp; cbn in H; [| injection H as _ <-; exact Hp].
  repeat (apply bind_Ok in H as (? & ? & _ & H)).
  match type of H with match ?inv with _ => _ end _ = _ => destruct inv end;
    [| discriminate].
  repeat (apply bind_Ok in H as (? & ? & _ & H)).
  injection H as _ <-. reflexivity.
Qed.

Lemma heightForLineNumber_committed_unchanged s n :
  committed s → unchanged (heightForLineNumber n s) s.
Proof.
  intros Hc. unfold heightForLineNumber, bind. rewrite (commit_committed s Hc).
  pose proof (_binarySearchOverSpecialLinesArray_unchanged n s) as Hb.
  destruct (_binarySearchOverSpecialLinesArray n s) as [k s1 | s1 |]; cbn in Hb;
    [subst s1 | assumption | contradiction].
  destruct (0 <=? k); [| reflexivity]. unfold gets.
  pose proof (deref_unchanged (arr_get (_orderedSpecialLines s) k) s) as Hd.
  destruct (deref _ s); cbn in Hd; [subst | subst | contradiction]; reflexivity.
Qed.

Lemma totalHeightUntilLineNumber_committed_unchanged s n :
  committed s → unchanged (totalHeightUntilLineNumber n s) s.
Proof.
  intros Hc. unfold totalHeightUntilLineNumber, bind. rewrite (commit_committed s Hc).
  pose proof (_binarySearchOverSpecialLinesArray_unchanged n s) as Hb.
  destruct (_binarySearchOverSpecialLinesArray n s) as [k s1 | s1 |]; cbn in Hb;
    [subst s1 | assumption | contradiction].
  unfold gets. destruct (0 <=? k).
  - pose proof (deref_unchanged (arr_get (_orderedSpecialLines s) k) s) as Hd.
    destruct (deref _ s); cbn in Hd; [subst | subst | contradiction]; reflexivity.
  - destruct (k =? -1); [reflexivity |].
    pose proof (deref_unchanged (arr_get (_orderedSpecialLines s) (- (k + 1) - 1)) s) as Hd.
    destruct (deref _ s); cbn in Hd; [subst | subst | contradiction]; reflexivity.
Qed.

Lemma heightForLineNumber_after_commit s u s1 n :
  commit s = Ok u s1 → heightForLineNumber n s = heightForLineNumber n s1.
Proof.
  intros H. unfold heightForLineNumber, bind.
  rewrite H, (commit_committed s1 (commit_Ok_committed s u s1 H)). reflexivity.
Qed.

Lemma totalHeightUntilLineNumber_after_commit s u s1 n :
  commit s = Ok u s1 → totalHeightUntilLineNumber n s = totalHeightUntilLineNumber n s1.
Proof.
  intros H. unfold totalHeightUntilLineNumber, bind.
  rewrite H, (commit_committed s1 (commit_Ok_committed s u s1 H)). reflexivity.
Qed.

(** X2: a query that returns leaves a committed state behind, and from that
    state on queries change nothing: the same query returns the same value
    again, [commit] returns at once, and any other query, whether it
    returns or throws, ends in the very same state. *)
Theorem queries_are_idempotent s n :
  (∀ h s', heightForLineNumber n s = Ok h s' →
     committed s' ∧ commit s' = Ok tt s'
     ∧ heightForLineNumber n s' = Ok h s'
     ∧ ∀ m, final_state (heightForLineNumber m s') = Some s'
            ∧ final_state (totalHeightUntilLineNumber m s') = Some s')
  ∧ (∀ t s', totalHeightUntilLineNumber n s = Ok t s' →
       committed s' ∧ commit s' = Ok tt s'
       ∧ totalHeightUntilLineNumber n s' = Ok t s'
       ∧ ∀ m, final_state (heightForLineNumber m s') = Some s'
              ∧ final_state (totalHeightUntilLineNumber m s') = Some s').
Proof.
  assert (∀ s', committed s' →
            ∀ m, final_state (heightForLineNumber m s') = Some s'
                 ∧ final_state (totalHeightUntilLineNumber m s') = Some s') as Hany.
  { intros s' Hc m.
    pose proof (heightForLineNumber_committed_unchanged s' m Hc) as H1.
    pose proof (totalHeightUntilLineNumber_committed_unchanged s' m Hc) as H2.
    destruct (heightForLineNumber m s'), (totalHeightUntilLineNumber m s');
      cbn in H1, H2; subst; try contradiction; auto. }
  split.
  - intros h s' H.
    pose proof H as H0. unfold heightForLineNumber in H0.
    apply bind_Ok in H0 as (u & s1 & Hcommit & _).
    pose proof (commit_Ok_committed s u s1 Hcommit) as Hc.
    rewrite (heightForLineNumber_after_commit s u s1 n Hcommit) in H.
    pose proof (heightForLineNumber_committed_unchanged s1 n Hc) as Hu.
    rewrite H in Hu. cbn in Hu. subst s'.
    repeat split; auto using commit_committed; apply Hany, Hc.
  - intros t s' H.
    pose proof H as H0. unfold totalHeightUntilLineNumber in H0.
    apply bind_Ok in H0 as (u & s1 & Hcommit & _).
    pose proof (commit_Ok_committed s u s1 Hcommit) as Hc.
    rewrite (totalHeightUntilLineNumber_after_commit s u s1 n Hcommit) in H.
    pose proof (totalHeightUntilLineNumber_committed_unchanged s1 n Hc) as Hu.
    rewrite H in Hu. cbn in Hu. subst s'.
    repeat split; auto using commit_committed; apply Hany, Hc.
Qed.

Lemma queries_are_idempotent_witness :
  ∃ h s', heightForLineNumber 5 dirty_manager = Ok h s'
          ∧ heightForLineNumber 5 s' = Ok h s'.
Proof.
  eexists _, _. split; [vm_compute; reflexivity |].
  apply (proj1 (queries_are_idempotent dirty_manager 5)).
  vm_compute. reflexivity.
Defined.

(** ** What the queries answer on a consistent state *)

Lemma rec_get_elem_of recs a : a ∈ recs ↔ ∃ i, rec_get recs i = Some a.
Proof.
  rewrite list_elem_of_lookup. split.
  - intros [i Hi]. exists (Z.of_nat i). apply rec_get_Some. rewrite Nat2Z.id. split; [lia | easy].
  - intros [i Hi]. apply rec_get_Some in Hi as [_ Hi]. eauto.
Qed.

(** A miss of the search splits the records around the searched line. *)
Lemma miss_split recs key p :
  0 ≤ p ≤ len recs →
  (∀ i a, rec_get recs i = Some a → i < p → lineNumber a < key) →
  (∀ i a, rec_get recs i = Some a → p ≤ i → key < lineNumber a) →
  Forall (λ a, lineNumber a < key) (take (Z.to_nat p) recs)
  ∧ Forall (λ a, key < lineNumber a) (drop (Z.to_nat p) recs)
  ∧ len (take (Z.to_nat p) recs) = p.
Proof.
  intros Hp Hbef Haft. split; [| split].
  - apply Forall_forall. intros a Ha. apply elem_of_take in Ha as (i & Hi & Hlt).
    apply (Hbef (Z.of_nat i) a); [| lia].
    apply rec_get_Some. rewrite Nat2Z.id. split; [lia | assumption].
  - apply Forall_lookup_2. intros i a Hi. rewrite lookup_drop in Hi.
    apply (Haft (Z.of_nat (Z.to_nat p + i)) a); [| lia].
    apply rec_get_Some. rewrite Nat2Z.id. split; [lia | assumption].
  - unfold len in *. rewrite length_take. lia.
Qed.

Lemma foldr_max_spec h t :
  foldr Z.max h t ∈ h :: t ∧ ∀ x, x ∈ h :: t → x ≤ foldr Z.max h t.
Proof.
  induction t as [|y t IH]; cbn [foldr].
  - split; [apply list_elem_of_here |]. intros x Hx. apply list_elem_of_singleton in Hx. lia.
  - destruct IH as [Hin Hmax]. split.
    + destruct (Z.max_spec y (foldr Z.max h t)) as [[_ ->] | [_ ->]].
      * apply elem_of_cons in Hin as [-> | Hin]; [apply list_elem_of_here |].
        do 2 apply list_elem_of_further. assumption.
      * apply list_elem_of_further, list_elem_of_here.
    + intros x Hx. apply elem_of_cons in Hx as [-> | Hx].
      * specialize (Hmax h (list_elem_of_here _ _)). lia.
      * apply elem_of_cons in Hx as [-> | Hx]; [lia |].
        specialize (Hmax x (list_elem_of_further _ _ _ Hx)). lia.
Qed.

Lemma height_spec_found recs d n a :
  run_maxb recs = true → a ∈ recs → lineNumber a = n →
  height_spec recs d n = maximumSpecialHeight a.
Proof.
  intros Hmax Ha Hn. unfold run_maxb in Hmax. rewrite forallb_forall in Hmax.
  specialize (Hmax a (proj1 (list_elem_of_In _ _) Ha)).
  apply andb_prop in Hmax as [Hall Hex]. rewrite forallb_forall in Hall.
  apply existsb_exists in Hex as (b & Hb & Hbb). apply andb_prop in Hbb as [Hbl Hbh].
  assert (maximumSpecialHeight a ∈ heights_on_line recs n) as Hin.
  { unfold heights_on_line. apply list_elem_of_fmap. exists b. split; [lia |].
    apply list_elem_of_filter. split; [lia | apply list_elem_of_In; assumption]. }
  assert (∀ x, x ∈ heights_on_line recs n → x ≤ maximumSpecialHeight a) as Hle.
  { intros x Hx. unfold heights_on_line in Hx.
    apply list_elem_of_fmap in Hx as (c & -> & Hc).
    apply list_elem_of_filter in Hc as [Hcl Hc].
    specialize (Hall c (proj1 (list_elem_of_In _ _) Hc)).
    apply orb_prop in Hall as [Hne | Hle]; [| lia].
    apply negb_true_iff, Z.eqb_neq in Hne. lia. }
  unfold height_spec. destruct (heights_on_line recs n) as [|h t]; [inversion Hin |].
  destruct (foldr_max_spec h t) as [Hm1 Hm2].
  specialize (Hle _ Hm1). specialize (Hm2 _ Hin). lia.
Qed.

Lemma height_spec_miss recs d n :
  (∀ a, a ∈ recs → lineNumber a ≠ n) → height_spec recs d n = d.
Proof.
  intros Hno. unfold height_spec, heights_on_line.
  destruct (filter (λ r, lineNumber r = n) recs) as [|a l] eqn:E; [reflexivity |].
  assert (a ∈ filter (λ r, lineNumber r = n) recs) as Ha by (rewrite E; apply list_elem_of_here).
  apply list_elem_of_filter in Ha as [Hl Ha]. destruct (Hno a Ha Hl).
Qed.

Lemma height_from_spec recs d n k :
  run_maxb recs = true → search_result recs n k →
  height_from recs d k = Some (height_spec recs d n).
Proof.
  intros Hmax [[Hk (a & Ha & Hla)] | (p & -> & Hp & Hbef & Haft)].
  - rewrite (height_from_found recs d k a Hk Ha). f_equal. symmetry.
    apply height_spec_found; [assumption | apply rec_get_elem_of; eauto | assumption].
  - rewrite height_from_miss by lia. f_equal. symmetry. apply height_spec_miss.
    intros a Ha. apply rec_get_elem_of in Ha as [i Hi].
    destruct (Z_lt_ge_dec i p).
    + pose proof (Hbef i a Hi ltac:(lia)). lia.
    + pose proof (Haft i a Hi ltac:(lia)). lia.
Qed.

Lemma heightForLineNumber_consistent s recs n :
  committed s → consistent s → resolve s = Some recs →
  heightForLineNumber n s = Ok (height_spec recs (_defaultLineHeight s) n) s.
Proof.
  intros Hc Hcons Hres.
  destruct (consistent_parts s Hcons) as (recs' & Hres' & Hsorted & _ & _ & Hmax & _).
  assert (recs' = recs) as -> by congruence.
  destruct (queries_return s recs n Hc Hres Hsorted) as (k & t & h & _ & Hr & _ & Hh & _ & Hrun).
  rewrite (height_from_spec recs _ n k Hmax Hr) in Hh. injection Hh as <-. exact Hrun.
Qed.

(** X3: on a committed consistent state [heightForLineNumber n] returns,
    without changing the state, the largest height requested by a record
    on line [n], and the default height when no record is on that line. *)
Theorem heightForLineNumber_is_largest_request s recs n :
  committed s → consistent s → resolve s = Some recs →
  heightForLineNumber n s = Ok (height_spec recs (_defaultLineHeight s) n) s.
Proof. exact (heightForLineNumber_consistent s recs n). Qed.

Lemma heightForLineNumber_is_largest_request_witness :
  heightForLineNumber 5 example_manager = Ok 40 example_manager
  ∧ heightForLineNumber 6 example_manager = Ok 20 example_manager.
Proof.
  split.
  - apply (heightForLineNumber_is_largest_request example_manager
             [mkSpecialLine 0 5 25 80 40 "B" false; mkSpecialLine 1 5 40 80 40 "A" false;
              mkSpecialLine 2 9 30 180 30 "C" false] 5);
      vm_compute; reflexivity.
  - apply (heightForLineNumber_is_largest_request example_manager
             [mkSpecialLine 0 5 25 80 40 "B" false; mkSpecialLine 1 5 40 80 40 "A" false;
              mkSpecialLine 2 9 30 180 30 "C" false] 6);
      vm_compute; reflexivity.
Defined.

Lemma totalHeightUntilLineNumber_consistent s recs (n : nat) :
  committed s → consistent s → resolve s = Some recs →
  totalHeightUntilLineNumber (Z.of_nat n) s
  = Ok (total_spec recs (_defaultLineHeight s) n) s.
Proof.
  intros Hc Hcons Hres.
  destruct (consistent_parts s Hcons)
    as (recs' & Hres' & Hsorted & Hchain & Hfirst & Hmax & _ & Hpos & _).
  assert (recs' = recs) as -> by congruence.
  induction n as [|n IH].
  - destruct (queries_return s recs 0 Hc Hres Hsorted)
      as (k & t & h & _ & Hr & Ht & _ & Hrun & _).
    rewrite (total_before_first_line recs _ Hpos 0 k ltac:(lia) Hr) in Ht.
    injection Ht as <-. change (Z.of_nat 0) with 0. cbn [total_spec].
    rewrite Hrun. f_equal. lia.
  - destruct (queries_return s recs (Z.of_nat (S n)) Hc Hres Hsorted)
      as (k & t & h & _ & Hr & Ht & Hh & Hrun & _).
    destruct (queries_return s recs (Z.of_nat (S n) - 1) Hc Hres Hsorted)
      as (k' & t' & h' & _ & Hr' & Ht' & _ & Hrun' & _).
    destruct (total_difference recs _ Hsorted Hchain Hfirst _ k k' Hr Hr')
      as (u & u' & g & Hu & Hu' & Hg & Hdiff).
    rewrite (height_from_spec recs _ _ k Hmax Hr) in Hg.
    replace (Z.of_nat (S n) - 1) with (Z.of_nat n) in Hrun' by lia.
    rewrite IH in Hrun'. injection Hrun' as Ht'eq.
    rewrite Hrun. f_equal. cbn [total_spec].
    assert (u = t) by congruence. assert (u' = t') by congruence.
    injection Hg as <-. lia.
Qed.

(** X4: on a committed consistent state with integer heights and an integer
    default height [totalHeightUntilLineNumber n] returns, for every
    [n >= 0], the heights of the lines 1 to [n] added up, where the height
    of a line is the largest height requested for it or the default
    height. *)
Theorem totalHeightUntilLineNumber_is_sum s recs (n : nat) :
  committed s → consistent s → resolve s = Some recs →
  totalHeightUntilLineNumber (Z.of_nat n) s
  = Ok (total_spec recs (_defaultLineHeight s) n) s.
Proof. exact (totalHeightUntilLineNumber_consistent s recs n). Qed.

Lemma totalHeightUntilLineNumber_is_sum_witness :
  totalHeightUntilLineNumber 9 example_manager = Ok 210 example_manager.
Proof.
  apply (totalHeightUntilLineNumber_is_sum example_manager
           [mkSpecialLine 0 5 25 80 40 "B" false; mkSpecialLine 1 5 40 80 40 "A" false;
            mkSpecialLine 2 9 30 180 30 "C" false] 9);
    vm_compute; reflexivity.
Defined.

(** X5: on an array sorted by line number the search returns without
    touching the state; its answer is the index of a record on the searched
    line when there is one, and otherwise [-(p+1)] where the first [p]
    records lie before the searched line and all others after it. *)
Theorem search_on_sorted_array s recs key :
  resolve s = Some recs → sortedb recs = true →
  ∃ k, _binarySearchOverSpecialLinesArray key s = Ok k s
       ∧ ((0 ≤ k ∧ ∃ a, rec_get recs k = Some a ∧ lineNumber a = key)
          ∨ (∃ before after,
               recs = before ++ after ∧ k = - (len before + 1)
               ∧ Forall (λ a, lineNumber a < key) before
               ∧ Forall (λ a, key < lineNumber a) after)).
Proof.
  intros Hres Hsorted.
  destruct (_binarySearchOverSpecialLinesArray_sorted s recs key Hres Hsorted) as (k & Hk & Hr).
  exists k. split; [assumption |].
  destruct Hr as [Hfound | (p & -> & Hp & Hbef & Haft)]; [left; assumption | right].
  destruct (miss_split recs key p Hp Hbef Haft) as (HA & HB & Hlen).
  exists (take (Z.to_nat p) recs), (drop (Z.to_nat p) recs).
  rewrite take_drop, Hlen. auto.
Qed.

Lemma search_on_sorted_array_witness :
  ∃ k, _binarySearchOverSpecialLinesArray 7 example_manager = Ok k example_manager.
Proof.
  destruct (search_on_sorted_array example_manager
              [mkSpecialLine 0 5 25 80 40 "B" false; mkSpecialLine 1 5 40 80 40 "A" false;
               mkSpecialLine 2 9 30 180 30 "C" false] 7) as (k & Hk & _).
  - vm_compute. reflexivity.
  - reflexivity.
  - exists k. exact Hk.
Defined.

(** ** Range shifts away from the overrides *)

Lemma resolve_alter s recs (i : nat) r f :
  resolve s = Some recs → NoDup (_orderedSpecialLines s) →
  _orderedSpecialLines s !! i = Some (Some r) →
  resolve (with_heap (alter f r (heap s)) s) = Some (alter f i recs).
Proof.
  intros Hres Hnd Hi. unfold resolve. apply mapM_Some. cbn.
  apply Forall2_same_length_lookup_2.
  - rewrite length_alter. apply mapM_Some in Hres. exact (Forall2_length _ _ _ Hres).
  - intros j x y Hx Hy. destruct (decide (i = j)) as [<- | Hne].
    + rewrite Hi in Hx. injection Hx as <-.
      rewrite list_lookup_alter_eq in Hy. rewrite (resolve_lookup s recs i Hres), Hi in Hy.
      rewrite list_lookup_alter_eq. exact Hy.
    + rewrite list_lookup_alter_ne in Hy by assumption.
      rewrite (resolve_lookup s recs j Hres), Hx in Hy.
      destruct x as [r'|]; [| discriminate].
      rewrite list_lookup_alter_ne; [exact Hy |].
      intros <-. apply Hne. exact (NoDup_lookup _ _ _ _ Hnd Hi Hx).
Qed.

Lemma resolve_slot s recs (i : nat) a :
  resolve s = Some recs → recs !! i = Some a →
  ∃ r, _orderedSpecialLines s !! i = Some (Some r) ∧ heap s !! r = Some a.
Proof.
  intros Hres Ha. rewrite (resolve_lookup s recs i Hres) in Ha.
  destruct (_orderedSpecialLines s !! i) as [[r|]|]; [eauto | discriminate | discriminate].
Qed.

(** On an array without [undefined] slots and without repeated objects the
    shifting loop returns and has moved exactly the records from its start
    index on. *)
Lemma shift_lines_spec delta n i s recs :
  resolve s = Some recs → NoDup (_orderedSpecialLines s) →
  0 ≤ i → i + Z.of_nat n = len recs →
  ∃ s', shift_lines n i delta s = Ok tt s'
        ∧ resolve s' = Some (take (Z.to_nat i) recs ++ (shift_by delta <$> drop (Z.to_nat i) recs)).
Proof.
  revert i s recs. induction n as [|n IH]; intros i s recs Hres Hnd Hi Hn; cbn [shift_lines].
  - exists s. split; [reflexivity |].
    rewrite take_ge, drop_ge by (unfold len in Hn; lia). cbn. rewrite app_nil_r. exact Hres.
  - destruct (rec_get_is_Some recs i) as [a Ha]; [lia |].
    apply rec_get_Some in Ha as [_ Ha].
    destruct (resolve_slot s recs _ a Hres Ha) as (r & Hslot & Hr).
    unfold bind, gets, arr_get.
    destruct (Z.ltb_spec i 0); [lia |]. rewrite Hslot. unfold deref. rewrite Hr.
    unfold update, modify.
    set (s1 := with_heap (alter (set_lineNumber (lineNumber a + delta)) r (heap s)) s).
    pose proof (resolve_alter s recs _ r (set_lineNumber (lineNumber a + delta)) Hres Hnd Hslot)
      as Hres1. fold s1 in Hres1.
    destruct (IH (i + 1) s1 _ Hres1 Hnd ltac:(lia)) as (s' & Hrun & Hres').
    { unfold len in *. rewrite length_alter. lia. }
    exists s'. split; [exact Hrun |]. rewrite Hres'. f_equal.
    replace (Z.to_nat (i + 1)) with (S (Z.to_nat i)) by lia.
    rewrite take_alter_lt by lia. rewrite drop_alter_lt by lia.
    rewrite (take_S_r recs _ a Ha), (drop_S recs a _ Ha).
    rewrite alter_app_r_alt by (rewrite length_take; apply lookup_lt_Some in Ha; lia).
    rewrite length_take_le by (apply lookup_lt_Some in Ha; lia).
    rewrite Nat.sub_diag. cbn. rewrite <- app_assoc. reflexivity.
Qed.

Lemma split_Forall (P Q : SpecialLine → Prop) recs p :
  0 ≤ p ≤ len recs →
  (∀ i a, rec_get recs i = Some a → i < p → P a) →
  (∀ i a, rec_get recs i = Some a → p ≤ i → Q a) →
  Forall P (take (Z.to_nat p) recs) ∧ Forall Q (drop (Z.to_nat p) recs).
Proof.
  intros Hp Hbef Haft. split.
  - apply Forall_forall. intros a Ha. apply elem_of_take in Ha as (i & Hi & Hlt).
    apply (Hbef (Z.of_nat i) a); [| lia].
    apply rec_get_Some. rewrite Nat2Z.id. split; [lia | assumption].
  - apply Forall_lookup_2. intros i a Hi. rewrite lookup_drop in Hi.
    apply (Haft (Z.of_nat (Z.to_nat p + i)) a); [| lia].
    apply rec_get_Some. rewrite Nat2Z.id. split; [lia | assumption].
Qed.

Lemma fmap_cond_split (P : SpecialLine → bool) (f : SpecialLine → SpecialLine) A B :
  Forall (λ a, P a = false) A → Forall (λ a, P a = true) B →
  (λ a, if P a then f a else a) <$> (A ++ B) = A ++ (f <$> B).
Proof.
  intros HA HB. rewrite fmap_app. f_equal.
  - induction HA as [|a A Ha _ IH]; [reflexivity |]. cbn. rewrite Ha. f_equal. exact IH.
  - induction HB as [|b B Hb _ IH]; [reflexivity |]. cbn. rewrite Hb. f_equal. exact IH.
Qed.

Lemma widen_backward_stop s recs n i key acc :
  resolve s = Some recs →
  (n = O ∨ ∃ a, rec_get recs i = Some a ∧ lineNumber a ≠ key) →
  widen_backward n i key acc s = Ok acc s.
Proof.
  intros Hres [-> | (a & Ha & Hne)]; [reflexivity |].
  destruct n as [|n]; [reflexivity |]. cbn [widen_backward]. unfold bind, gets.
  rewrite deref_record_at, (resolve_record_at s recs i Hres), Ha.
  destruct (Z.eqb_spec (lineNumber a) key); [contradiction | reflexivity].
Qed.

Lemma widen_forward_stop s recs n i key acc :
  resolve s = Some recs →
  (n = O ∨ ∃ a, rec_get recs i = Some a ∧ lineNumber a ≠ key) →
  widen_forward n i key acc s = Ok acc s.
Proof.
  intros Hres [-> | (a & Ha & Hne)]; [reflexivity |].
  destruct n as [|n]; [reflexivity |]. cbn [widen_forward]. unfold bind, gets.
  rewrite deref_record_at, (resolve_record_at s recs i Hres), Ha.
  destruct (Z.eqb_spec (lineNumber a) key); [contradiction | reflexivity].
Qed.

Lemma distinct_lines recs i j a b :
  NoDup (lineNumber <$> recs) →
  rec_get recs i = Some a → rec_get recs j = Some b → lineNumber a = lineNumber b → i = j.
Proof.
  intros Hnd Ha Hb Hab.
  apply rec_get_Some in Ha as [Hi Ha]. apply rec_get_Some in Hb as [Hj Hb].
  assert (Z.to_nat i = Z.to_nat j); [| lia].
  apply (NoDup_lookup _ _ _ (lineNumber a) Hnd); rewrite list_lookup_fmap.
  - rewrite Ha. reflexivity.
  - rewrite Hb. cbn. congruence.
Qed.

(** The start index [onLinesInserted] computes splits the records at the
    insertion line, provided the search misses or the lines are pairwise
    distinct and none is [fromLineNumber]. *)
Lemma onLinesInserted_start s recs fromLineNumber :
  resolve s = Some recs → sortedb recs = true →
  Forall (λ a, lineNumber a ≠ fromLineNumber + 1) recs
  ∨ (Forall (λ a, lineNumber a ≠ fromLineNumber) recs ∧ NoDup (lineNumber <$> recs)) →
  ∃ k p, _binarySearchOverSpecialLinesArray (fromLineNumber + 1) s = Ok k s
         ∧ (if 0 <=? k
            then widen_backward (Z.to_nat k) (k - 1) fromLineNumber k
            else ret (- (k + 1))) s = Ok p s
         ∧ 0 ≤ p ≤ len recs
         ∧ Forall (λ a, (fromLineNumber <? lineNumber a) = false) (take (Z.to_nat p) recs)
         ∧ Forall (λ a, (fromLineNumber <? lineNumber a) = true) (drop (Z.to_nat p) recs).
Proof.
  intros Hres Hsorted Hcond.
  destruct (_binarySearchOverSpecialLinesArray_sorted s recs (fromLineNumber + 1) Hres Hsorted)
    as (k & Hk & Hr).
  exists k.
  destruct Hr as [[Hk0 (a & Ha & Hla)] | (p & -> & Hp & Hbef & Haft)].
  - destruct Hcond as [Hno | [Hno Hnd]].
    { rewrite Forall_forall in Hno.
      destruct (Hno a (proj2 (rec_get_elem_of recs a) (ex_intro _ k Ha)) Hla). }
    exists k. split; [assumption |].
    pose proof (rec_get_lt _ _ _ Ha).
    destruct (Z.leb_spec 0 k); [| lia]. split.
    { apply (widen_backward_stop s recs); [assumption |].
      destruct (Z.eq_dec k 0) as [-> | Hk1]; [left; reflexivity | right].
      destruct (rec_get_is_Some recs (k - 1)) as [b Hb]; [lia |].
      exists b. split; [assumption |]. rewrite Forall_forall in Hno.
      apply Hno, rec_get_elem_of. eauto. }
    split; [lia |].
    apply split_Forall; [lia | |].
    + intros i b Hb Hi. apply Z.ltb_ge.
      pose proof (sortedb_lookup recs Hsorted i k b a Hb Ha ltac:(lia)).
      destruct (Z.eq_dec (lineNumber b) (lineNumber a)) as [Heq | Hne]; [| lia].
      pose proof (distinct_lines recs i k b a Hnd Hb Ha Heq). lia.
    + intros i b Hb Hi. apply Z.ltb_lt.
      pose proof (sortedb_lookup recs Hsorted k i a b Ha Hb Hi). lia.
  - exists p. split; [assumption |].
    destruct (Z.leb_spec 0 (- (p + 1))); [lia |]. split; [unfold ret; f_equal; lia |].
    split; [lia |].
    apply split_Forall; [lia | |].
    + intros i b Hb Hi. apply Z.ltb_ge. pose proof (Hbef i b Hb Hi). lia.
    + intros i b Hb Hi. apply Z.ltb_lt. pose proof (Haft i b Hb Hi). lia.
Qed.

Lemma onLinesInserted_spec s recs fromLineNumber toLineNumber :
  committed s → resolve s = Some recs → sortedb recs = true →
  NoDup (_orderedSpecialLines s) →
  Forall (λ a, lineNumber a ≠ fromLineNumber + 1) recs
  ∨ (Forall (λ a, lineNumber a ≠ fromLineNumber) recs ∧ NoDup (lineNumber <$> recs)) →
  ∃ s', onLinesInserted fromLineNumber toLineNumber s = Ok tt s'
        ∧ _orderedSpecialLines s' = _orderedSpecialLines s
        ∧ resolve s'
          = Some ((λ a, if fromLineNumber <? lineNumber a
                        then shift_by (toLineNumber - fromLineNumber + 1) a
                        else a) <$> recs).
Proof.
  intros Hc Hres Hsorted Hnd Hcond.
  destruct (onLinesInserted_start s recs fromLineNumber Hres Hsorted Hcond)
    as (k & p & Hk & Hstart & Hp & HA & HB).
  unfold onLinesInserted, bind. rewrite (commit_committed s Hc), Hk, Hstart. unfold gets.
  rewrite (resolve_len s recs Hres).
  destruct (shift_lines_spec (toLineNumber - fromLineNumber + 1)
              (Z.to_nat (len recs - p)) p s recs Hres Hnd) as (s' & Hrun & Hres');
    [lia | lia |].
  exists s'. split; [exact Hrun |]. split.
  - pose proof (shift_lines_frame (Z.to_nat (len recs - p)) p
                  (toLineNumber - fromLineNumber + 1) s) as Hf.
    rewrite Hrun in Hf. apply Hf.
  - rewrite Hres'. f_equal.
    rewrite <- (take_drop (Z.to_nat p) recs) at 3.
    symmetry. apply fmap_cond_split; assumption.
Qed.

(** X6: [onLinesInserted] on a committed state whose array is sorted and
    holds each object once.  When no record is on line [fromLineNumber + 1],
    or when the lines of the records are pairwise distinct and none is
    [fromLineNumber], the call returns, keeps the array, and has moved
    exactly the records after [fromLineNumber], by
    [toLineNumber - fromLineNumber + 1] lines. *)
Theorem onLinesInserted_moves_records_after s recs fromLineNumber toLineNumber :
  committed s → resolve s = Some recs → sortedb recs = true →
  NoDup (_orderedSpecialLines s) →
  Forall (λ a, lineNumber a ≠ fromLineNumber + 1) recs
  ∨ (Forall (λ a, lineNumber a ≠ fromLineNumber) recs ∧ NoDup (lineNumber <$> recs)) →
  ∃ s', onLinesInserted fromLineNumber toLineNumber s = Ok tt s'
        ∧ _orderedSpecialLines s' = _orderedSpecialLines s
        ∧ resolve s'
          = Some ((λ a, if fromLineNumber <? lineNumber a
                        then shift_by (toLineNumber - fromLineNumber + 1) a
                        else a) <$> recs).
Proof. exact (onLinesInserted_spec s recs fromLineNumber toLineNumber). Qed.

Lemma onLinesInserted_moves_records_after_witness :
  ∃ s', onLinesInserted 6 7 example_manager = Ok tt s'
        ∧ resolve s'
          = Some [mkSpecialLine 0 5 25 80 40 "B" false; mkSpecialLine 1 5 40 80 40 "A" false;
                  mkSpecialLine 2 11 30 180 30 "C" false].
Proof.
  destruct (onLinesInserted_moves_records_after example_manager
              [mkSpecialLine 0 5 25 80 40 "B" false; mkSpecialLine 1 5 40 80 40 "A" false;
               mkSpecialLine 2 9 30 180 30 "C" false] 6 7) as (s' & Hrun & _ & Hres).
  - reflexivity.
  - vm_compute. reflexivity.
  - reflexivity.
  - apply (bool_decide_unpack _). vm_compute. reflexivity.
  - left. apply (bool_decide_unpack _). vm_compute. reflexivity.
  - exists s'. split; [exact Hrun | exact Hres].
Defined.

Lemma filter_all {A} (P : A → Prop) `{∀ x, Decision (P x)} (l : list A) :
  Forall P l → filter P l = l.
Proof.
  induction 1 as [|x l Hx _ IH]; [reflexivity |].
  rewrite filter_cons_True by assumption. f_equal. exact IH.
Qed.

Lemma filter_none {A} (P : A → Prop) `{∀ x, Decision (P x)} (l : list A) :
  Forall (λ x, ¬ P x) l → filter P l = [].
Proof.
  induction 1 as [|x l Hx _ IH]; [reflexivity |].
  rewrite filter_cons_False by assumption. exact IH.
Qed.

Lemma filter_is_take {A} (P : A → Prop) `{∀ x, Decision (P x)} (l : list A) n :
  Forall P (take n l) → Forall (λ x, ¬ P x) (drop n l) → filter P l = take n l.
Proof.
  intros Ht Hd. rewrite <- (take_drop n l) at 1.
  rewrite filter_app, (filter_all P _ Ht), (filter_none P _ Hd). apply app_nil_r.
Qed.

Lemma filter_is_drop {A} (P : A → Prop) `{∀ x, Decision (P x)} (l : list A) n :
  Forall (λ x, ¬ P x) (take n l) → Forall P (drop n l) → filter P l = drop n l.
Proof.
  intros Ht Hd. rewrite <- (take_drop n l) at 1.
  rewrite filter_app, (filter_none P _ Ht), (filter_all P _ Hd). reflexivity.
Qed.

Lemma splice_delete {A} (l : list A) ps pe :
  0 ≤ ps ≤ pe → pe ≤ len l →
  splice l ps (pe - ps) [] = take (Z.to_nat ps) l ++ drop (Z.to_nat pe) l.
Proof.
  intros Hps Hpe. unfold splice. destruct (Z.ltb_spec ps 0); [lia |]. cbn [app].
  rewrite Z.min_l by lia. rewrite Z.max_l by lia. rewrite Z.min_l by lia.
  replace (ps + (pe - ps)) with pe by lia. reflexivity.
Qed.

Lemma resolve_delete s recs ps pe :
  resolve s = Some recs →
  resolve (with_ordered (take ps (_orderedSpecialLines s) ++ drop pe (_orderedSpecialLines s)) s)
  = Some (take ps recs ++ drop pe recs).
Proof.
  intros Hres. unfold resolve in *. apply mapM_Some in Hres. apply mapM_Some. cbn.
  apply Forall2_app; [apply Forall2_take | apply Forall2_drop]; exact Hres.
Qed.

(** The two boundaries [onLinesDeleted] computes when no record is on line
    [fromLineNumber] and the search for [toLineNumber] misses or finds the
    only record of that line. *)
Lemma onLinesDeleted_bounds s recs fromLineNumber toLineNumber :
  resolve s = Some recs → sortedb recs = true → fromLineNumber ≤ toLineNumber →
  Forall (λ a, lineNumber a ≠ fromLineNumber) recs →
  Forall (λ a, lineNumber a ≠ toLineNumber) recs ∨ NoDup (lineNumber <$> recs) →
  ∃ k ps k' pe,
    _binarySearchOverSpecialLinesArray fromLineNumber s = Ok k s
    ∧ (if 0 <=? k
       then do widened <- widen_backward (Z.to_nat k) (k - 1) fromLineNumber k;
            ret (widened - 1)
       else ret (- (k + 1))) s = Ok ps s
    ∧ _binarySearchOverSpecialLinesArray toLineNumber s = Ok k' s
    ∧ (if 0 <=? k'
       then do widened <- widen_forward
                            (Z.to_nat (len (_orderedSpecialLines s) - (k' + 1)))
                            (k' + 1) fromLineNumber k';
            ret (widened + 1)
       else ret (- (k' + 1))) s = Ok pe s
    ∧ 0 ≤ ps ≤ pe ∧ pe ≤ len recs
    ∧ Forall (λ a, lineNumber a < fromLineNumber) (take (Z.to_nat ps) recs)
    ∧ Forall (λ a, fromLineNumber < lineNumber a) (drop (Z.to_nat ps) recs)
    ∧ Forall (λ a, lineNumber a ≤ toLineNumber) (take (Z.to_nat pe) recs)
    ∧ Forall (λ a, toLineNumber < lineNumber a) (drop (Z.to_nat pe) recs).
Proof.
  intros Hres Hsorted Hft Hnofrom Hto.
  destruct (_binarySearchOverSpecialLinesArray_sorted s recs fromLineNumber Hres Hsorted)
    as (k & Hk & Hr).
  destruct (_binarySearchOverSpecialLinesArray_sorted s recs toLineNumber Hres Hsorted)
    as (k' & Hk' & Hr').
  rewrite Forall_forall in Hnofrom.
  destruct Hr as [[Hk0 (a & Ha & Hla)] | (p & -> & Hp & Hbef & Haft)].
  { destruct (Hnofrom a (proj2 (rec_get_elem_of recs a) (ex_intro _ k Ha)) Hla). }
  exists (- (p + 1)), p, k'.
  assert ((if 0 <=? - (p + 1)
           then do widened <- widen_backward (Z.to_nat (- (p + 1))) (- (p + 1) - 1)
                                fromLineNumber (- (p + 1));
                ret (widened - 1)
           else ret (- (- (p + 1) + 1))) s = Ok p s) as Hstart.
  { destruct (Z.leb_spec 0 (- (p + 1))); [lia |]. unfold ret. f_equal. lia. }
  destruct (split_Forall (λ a, lineNumber a < fromLineNumber)
              (λ a, fromLineNumber < lineNumber a) recs p Hp Hbef Haft) as [HA HB].
  destruct Hr' as [[Hk0' (b & Hb & Hlb)] | (p' & -> & Hp' & Hbef' & Haft')].
  - destruct Hto as [Hnoto | Hnd].
    { rewrite Forall_forall in Hnoto.
      destruct (Hnoto b (proj2 (rec_get_elem_of recs b) (ex_intro _ k' Hb)) Hlb). }
    pose proof (rec_get_lt _ _ _ Hb) as Hkb.
    exists (k' + 1). split; [assumption |]. split; [assumption |]. split; [assumption |].
    split.
    { destruct (Z.leb_spec 0 k'); [| lia]. unfold bind.
      rewrite (widen_forward_stop s recs _ _ _ _ Hres); [reflexivity |].
      rewrite (resolve_len s recs Hres).
      destruct (Z.eq_dec (k' + 1) (len recs)) as [Heq | Hne].
      - left. rewrite Heq. replace (len recs - len recs) with 0 by lia. reflexivity.
      - right. destruct (rec_get_is_Some recs (k' + 1)) as [c Hc]; [lia |].
        exists c. split; [assumption |]. apply Hnofrom, rec_get_elem_of. eauto. }
    assert (p ≤ k') as Hpk.
    { destruct (Z_le_gt_dec p k'); [assumption |].
      pose proof (Hbef k' b Hb ltac:(lia)). lia. }
    split; [lia |]. split; [lia |]. split; [assumption |]. split; [assumption |].
    apply split_Forall; [lia | |].
    + intros i c Hc Hi. pose proof (sortedb_lookup recs Hsorted i k' c b Hc Hb ltac:(lia)). lia.
    + intros i c Hc Hi.
      pose proof (sortedb_lookup recs Hsorted k' i b c Hb Hc ltac:(lia)).
      destruct (Z.eq_dec (lineNumber c) (lineNumber b)) as [Heq | Hne]; [| lia].
      pose proof (distinct_lines recs i k' c b Hnd Hc Hb Heq). lia.
  - exists p'. split; [assumption |]. split; [assumption |]. split; [assumption |].
    split.
    { destruct (Z.leb_spec 0 (- (p' + 1))); [lia |]. unfold ret. f_equal. lia. }
    assert (p ≤ p') as Hpp.
    { destruct (Z_le_gt_dec p p'); [assumption |].
      destruct (rec_get_is_Some recs p') as [c Hc]; [lia |].
      pose proof (Hbef p' c Hc ltac:(lia)). pose proof (Haft' p' c Hc ltac:(lia)). lia. }
    split; [lia |]. split; [lia |]. split; [assumption |]. split; [assumption |].
    apply split_Forall; [lia | |].
    + intros i c Hc Hi. pose proof (Hbef' i c Hc Hi). lia.
    + intros i c Hc Hi. exact (Haft' i c Hc Hi).
Qed.

Lemma onLinesDeleted_spec s recs fromLineNumber toLineNumber :
  committed s → resolve s = Some recs → sortedb recs = true →
  NoDup (_orderedSpecialLines s) → fromLineNumber ≤ toLineNumber →
  Forall (λ a, lineNumber a ≠ fromLineNumber) recs →
  Forall (λ a, lineNumber a ≠ toLineNumber) recs ∨ NoDup (lineNumber <$> recs) →
  ∃ s', onLinesDeleted fromLineNumber toLineNumber s = Ok tt s'
        ∧ resolve s'
          = Some (filter (λ a, lineNumber a < fromLineNumber) recs
                  ++ (shift_by (- (toLineNumber - fromLineNumber + 1))
                        <$> filter (λ a, toLineNumber < lineNumber a) recs)).
Proof.
  intros Hc Hres Hsorted Hnd Hft Hnofrom Hto.
  destruct (onLinesDeleted_bounds s recs fromLineNumber toLineNumber
              Hres Hsorted Hft Hnofrom Hto)
    as (k & ps & k' & pe & Hk & Hstart & Hk' & Hend & Hps & Hpe & HA & HB & HC & HD).
  unfold bind in Hstart, Hend.
  unfold onLinesDeleted, bind. rewrite (commit_committed s Hc), Hk, Hstart, Hk'.
  unfold gets at 1. rewrite Hend.
  unfold ordered_splice, bind, gets, modify.
  rewrite splice_delete by (rewrite ?(resolve_len s recs Hres); lia).
  set (s2 := with_ordered _ s).
  pose proof (resolve_delete s recs (Z.to_nat ps) (Z.to_nat pe) Hres) as Hres2.
  fold s2 in Hres2.
  assert (length (take (Z.to_nat ps) recs) = Z.to_nat ps) as Hlen
    by (apply length_take_le; unfold len in *; lia).
  assert (NoDup (_orderedSpecialLines s2)) as Hnd2.
  { apply (sublist_NoDup _ _ Hnd). subst s2. cbn.
    rewrite <- (take_drop (Z.to_nat ps) (_orderedSpecialLines s)) at 3.
    apply sublist_app; [reflexivity |].
    replace (Z.to_nat pe) with (Z.to_nat ps + (Z.to_nat pe - Z.to_nat ps))%nat by lia.
    rewrite <- drop_drop. apply sublist_drop. }
  rewrite (resolve_len s2 _ Hres2).
  destruct (shift_lines_spec (- (toLineNumber - fromLineNumber + 1))
              (Z.to_nat (len (take (Z.to_nat ps) recs ++ drop (Z.to_nat pe) recs) - ps))
              ps s2 _ Hres2 Hnd2) as (s' & Hrun & Hres'); [lia | |].
  { unfold len in *. rewrite length_app, Hlen. lia. }
  exists s'. split; [exact Hrun |]. rewrite Hres'. f_equal.
  rewrite take_app_length' by (symmetry; exact Hlen).
  rewrite drop_app_length' by (symmetry; exact Hlen).
  f_equal; [symmetry | f_equal; symmetry].
  - apply (filter_is_take _ _ (Z.to_nat ps)); [assumption |].
    eapply Forall_impl; [exact HB |]. cbn. intros a Ha. lia.
  - apply (filter_is_drop _ _ (Z.to_nat pe)); [| assumption].
    eapply Forall_impl; [exact HC |]. cbn. intros a Ha. lia.
Qed.

(** X7: [onLinesDeleted] on a committed state whose array is sorted and
    holds each object once, for a range [fromLineNumber <= toLineNumber].
    When no record is on line [fromLineNumber], and either no record is on
    line [toLineNumber] or the lines of the records are pairwise distinct,
    the call returns; the records before the range are kept as they are,
    the records inside the range are gone, and the records after it have
    moved up by the number of deleted lines. *)
Theorem onLinesDeleted_drops_range s recs fromLineNumber toLineNumber :
  committed s → resolve s = Some recs → sortedb recs = true →
  NoDup (_orderedSpecialLines s) → fromLineNumber ≤ toLineNumber →
  Forall (λ a, lineNumber a ≠ fromLineNumber) recs →
  Forall (λ a, lineNumber a ≠ toLineNumber) recs ∨ NoDup (lineNumber <$> recs) →
  ∃ s', onLinesDeleted fromLineNumber toLineNumber s = Ok tt s'
        ∧ resolve s'
          = Some (filter (λ a, lineNumber a < fromLineNumber) recs
                  ++ (shift_by (- (toLineNumber - fromLineNumber + 1))
                        <$> filter (λ a, toLineNumber < lineNumber a) recs)).
Proof. exact (onLinesDeleted_spec s recs fromLineNumber toLineNumber). Qed.

Lemma onLinesDeleted_drops_range_witness :
  (∃ s', onLinesDeleted 2 3 example_manager = Ok tt s'
         ∧ resolve s'
           = Some [mkSpecialLine 0 3 25 80 40 "B" false; mkSpecialLine 1 3 40 80 40 "A" false;
                   mkSpecialLine 2 7 30 180 30 "C" false])
  ∧ (∃ s', onLinesDeleted 6 10 example_manager = Ok tt s'
           ∧ resolve s'
             = Some [mkSpecialLine 0 5 25 80 40 "B" false;
                     mkSpecialLine 1 5 40 80 40 "A" false]).
Proof.
  split.
  - destruct (onLinesDeleted_drops_range example_manager
                [mkSpecialLine 0 5 25 80 40 "B" false; mkSpecialLine 1 5 40 80 40 "A" false;
                 mkSpecialLine 2 9 30 180 30 "C" false] 2 3) as (s' & Hrun & Hres).
    1: reflexivity. 1: vm_compute; reflexivity. 1: reflexivity.
    1: apply (bool_decide_unpack _); vm_compute; reflexivity. 1: lia.
    1: apply (bool_decide_unpack _); vm_compute; reflexivity.
    1: left; apply (bool_decide_unpack _); vm_compute; reflexivity.
    exists s'. split; [exact Hrun | exact Hres].
  - destruct (onLinesDeleted_drops_range example_manager
                [mkSpecialLine 0 5 25 80 40 "B" false; mkSpecialLine 1 5 40 80 40 "A" false;
                 mkSpecialLine 2 9 30 180 30 "C" false] 6 10) as (s' & Hrun & Hres).
    1: reflexivity. 1: vm_compute; reflexivity. 1: reflexivity.
    1: apply (bool_decide_unpack _); vm_compute; reflexivity. 1: lia.
    1: apply (bool_decide_unpack _); vm_compute; reflexivity.
    1: left; apply (bool_decide_unpack _); vm_compute; reflexivity.
    exists s'. split; [exact Hrun | exact Hres].
Defined.

(** ** The bookkeeping of the entry points *)

Lemma maintained_new d : maintained (new_LineHeightManager d).
Proof.
  split; cbn.
  - intros i o H. rewrite lookup_nil in H. discriminate.
  - constructor.
  - intros r H. inversion H.
  - constructor.
  - intros id r H. rewrite lookup_empty in H. discriminate.
  - intros p [= <-]. unfold len. cbn. lia.
  - intros i o H. rewrite lookup_nil in H. discriminate.
  - intros _ o H. inversion H.
  - discriminate.
  - reflexivity.
Qed.

Lemma maintained_slot_lt s r :
  maintained s → Some r ∈ _orderedSpecialLines s → (r < length (heap s))%nat.
Proof.
  intros Hm Hr. apply list_elem_of_lookup in Hr as [i Hi].
  destruct (m_slots s Hm i _ Hi) as (r' & v & [= <-] & Hv & _).
  exact (lookup_lt_Some _ _ _ Hv).
Qed.

Lemma maintained_resolve s : maintained s → ∃ recs, resolve s = Some recs.
Proof.
  intros Hm. unfold resolve.
  destruct (mapM_is_Some_2 (λ o : option ref,
              match o with Some r => heap s !! r | None => None end)
              (_orderedSpecialLines s)) as [recs Hrecs]; [| eauto].
  apply Forall_lookup_2. intros i o Hi.
  destruct (m_slots s Hm i o Hi) as (r & v & -> & Hv & _). cbn. eauto.
Qed.

(** Without any order on the array the search still returns an index of
    the array or an encoded insertion point. *)
Lemma binarySearch2_loop_bounds s recs key fuel low high :
  resolve s = Some recs →
  0 ≤ low → high < len recs → low ≤ high + 1 →
  high - low + 1 ≤ Z.of_nat fuel →
  ∃ k, binarySearch2_loop fuel (compareToLineNumber key) low high s = Ok k s
       ∧ (low ≤ k ≤ high ∨ ∃ p, k = - (p + 1) ∧ low ≤ p ≤ high + 1).
Proof.
  intros Hres. revert low high. induction fuel as [|fuel IH];
    intros low high Hlow Hhigh Hlh Hfuel; cbn [binarySearch2_loop].
  - destruct (Z.ltb_spec high low); [| lia].
    exists (- (low + 1)). split; [reflexivity |]. right. exists low. split; [reflexivity | lia].
  - destruct (Z.ltb_spec high low).
    + exists (- (low + 1)). split; [reflexivity |]. right. exists low.
      split; [reflexivity | lia].
    + assert (low ≤ (low + high) / 2 ≤ high) as Hmid.
      { split; [apply Z.div_le_lower_bound | apply Z.div_le_upper_bound]; lia. }
      set (mid := (low + high) / 2) in *.
      destruct (rec_get_is_Some recs mid) as [a Ha]; [lia |].
      unfold bind. rewrite (compareToLineNumber_spec s recs key mid a Hres Ha).
      destruct (lineNumber a =? key).
      * cbn. exists mid. split; [reflexivity |]. left. lia.
      * destruct (lineNumber a <? key); cbn.
        -- destruct (IH (mid + 1) high) as (k & Hk & Hb); try lia.
           exists k. split; [exact Hk |].
           destruct Hb as [? | (p & ? & ?)]; [left; lia | right; exists p; split; [assumption | lia]].
        -- destruct (IH low (mid - 1)) as (k & Hk & Hb); try lia.
           exists k. split; [exact Hk |].
           destruct Hb as [? | (p & ? & ?)]; [left; lia | right; exists p; split; [assumption | lia]].
Qed.

Lemma _binarySearchOverSpecialLinesArray_bounds s recs key :
  resolve s = Some recs →
  ∃ k, _binarySearchOverSpecialLinesArray key s = Ok k s
       ∧ (0 ≤ k < len recs ∨ ∃ p, k = - (p + 1) ∧ 0 ≤ p ≤ len recs).
Proof.
  intros Hres. unfold _binarySearchOverSpecialLinesArray, bind, gets, binarySearch2.
  rewrite (resolve_len s recs Hres).
  destruct (binarySearch2_loop_bounds s recs key (Z.to_nat (len recs)) 0 (len recs - 1) Hres)
    as (k & Hk & Hb); try (unfold len; lia).
  exists k. split; [exact Hk |].
  destruct Hb as [? | (p & ? & ?)]; [left; lia | right; exists p; split; [assumption | lia]].
Qed.

Lemma maintained_position s r :
  maintained s → Some r ∈ _orderedSpecialLines s →
  ∃ (i : nat) v, _orderedSpecialLines s !! i = Some (Some r)
                 ∧ heap s !! r = Some v ∧ index v = Z.of_nat i.
Proof.
  intros Hm Hr. apply list_elem_of_lookup in Hr as [i Hi].
  destruct (m_slots s Hm i _ Hi) as (r' & v & [= <-] & Hv & Hidx). eauto.
Qed.

(** Raising the flag and lowering the invalid index to a position of the
    array keeps the bookkeeping. *)
Lemma maintained_invalidate s i :
  maintained s → 0 ≤ i ≤ len (_orderedSpecialLines s) →
  maintained (with_hasPending true (with_invalidIndex (js_min (_invalidIndex s) i) s)).
Proof.
  intros Hm Hi. split; cbn.
  - exact (m_slots s Hm).
  - exact (m_nodup s Hm).
  - exact (m_pending s Hm).
  - exact (m_pending_nodup s Hm).
  - exact (m_map s Hm).
  - intros p Hp. destruct (_invalidIndex s) as [q|] eqn:Hq; cbn in Hp; injection Hp as <-.
    + pose proof (m_invalid s Hm q Hq). lia.
    + lia.
  - intros j o Hj Hb. apply (m_alive_below s Hm j o Hj).
    destruct (_invalidIndex s) as [q|]; cbn in *; [lia | exact I].
  - discriminate.
  - intros _ _. destruct (_invalidIndex s); discriminate.
  - discriminate.
Qed.

(** Changing line numbers and heights in the store keeps the bookkeeping. *)
Lemma maintained_heap_change s h' :
  maintained s →
  (∀ r : ref, match heap s !! r, h' !! r with
              | Some v, Some v' => index v' = index v ∧ deleted v' = deleted v
                                   ∧ decorationId v' = decorationId v
              | None, None => True
              | _, _ => False
              end) →
  maintained (with_heap h' s).
Proof.
  intros Hm Hh.
  assert (∀ (r : ref) v, heap s !! r = Some v →
            ∃ v', h' !! r = Some v' ∧ index v' = index v ∧ deleted v' = deleted v
                  ∧ decorationId v' = decorationId v) as Hsome.
  { intros r v Hv. generalize (Hh r). rewrite Hv.
    destruct (h' !! r) as [v'|]; [eauto | contradiction]. }
  assert (∀ o, o ∈ _orderedSpecialLines s → slot_alive (with_heap h' s) o = slot_alive s o)
    as Halive.
  { intros [r|] Ho; [| reflexivity]. unfold slot_alive. cbn.
    apply list_elem_of_lookup in Ho as [i Hi].
    destruct (m_slots s Hm i _ Hi) as (r' & v & [= <-] & Hv & _).
    destruct (Hsome r v Hv) as (v' & -> & _ & -> & _). rewrite Hv. reflexivity. }
  split; cbn.
  - intros i o Hi. destruct (m_slots s Hm i o Hi) as (r & v & -> & Hv & Hidx).
    destruct (Hsome r v Hv) as (v' & Hv' & ? & _).
    exists r, v'. split; [reflexivity |]. split; [assumption | lia].
  - exact (m_nodup s Hm).
  - intros r Hr. destruct (m_pending s Hm r Hr) as [Hlt Hnot]. split; [| exact Hnot].
    apply lookup_lt_is_Some in Hlt as [v Hv].
    destruct (Hsome r v Hv) as (v' & Hv' & _). exact (lookup_lt_Some _ _ _ Hv').
  - exact (m_pending_nodup s Hm).
  - intros id r Hid. destruct (m_map s Hm id r Hid) as (Hin & v & Hv & Hd & Hdec).
    split; [exact Hin |]. destruct (Hsome r v Hv) as (v' & Hv' & _ & ? & ?).
    exists v'. split; [assumption |]. split; congruence.
  - exact (m_invalid s Hm).
  - intros i o Hi Hb. rewrite Halive by (eapply list_elem_of_lookup_2; exact Hi).
    exact (m_alive_below s Hm i o Hi Hb).
  - intros Hp o Ho. rewrite (Halive o Ho). exact (m_alive_idle s Hm Hp o Ho).
  - exact (m_flag s Hm).
  - exact (m_idle s Hm).
Qed.

Lemma maintained_insert s id L H :
  maintained s → _decorationIDToSpecialLine s !! id = None →
  ∃ s', insertOrChangeSpecialLineHeightUsingDecoration id L H s = Ok tt s' ∧ maintained s'.
Proof.
  intros Hm Hid. unfold insertOrChangeSpecialLineHeightUsingDecoration, bind, gets.
  rewrite Hid. eexists. split; [reflexivity |].
  split; cbn.
  - intros i o Hi. destruct (m_slots s Hm i o Hi) as (r & v & -> & Hv & Hidx).
    exists r, v. split; [reflexivity |]. split; [apply lookup_app_l_Some; exact Hv | exact Hidx].
  - exact (m_nodup s Hm).
  - intros r Hr. rewrite length_app. cbn [length]. apply elem_of_app in Hr as [Hr | Hr].
    + destruct (m_pending s Hm r Hr). split; [lia | assumption].
    + apply list_elem_of_singleton in Hr as ->. split; [lia |].
      intros Hin. pose proof (maintained_slot_lt s _ Hm Hin). lia.
  - apply NoDup_app. split; [exact (m_pending_nodup s Hm) |]. split.
    + intros r Hr Hr'. apply list_elem_of_singleton in Hr' as ->.
      destruct (m_pending s Hm _ Hr). lia.
    + apply NoDup_singleton.
  - intros id' r Hid'. destruct (m_map s Hm id' r Hid') as (Hin & v & Hv & Hd & Hdec).
    split; [exact Hin |]. exists v. split; [apply lookup_app_l_Some; exact Hv | auto].
  - exact (m_invalid s Hm).
  - intros i o Hi Hb. pose proof (m_alive_below s Hm i o Hi Hb) as Ha.
    destruct (m_slots s Hm i o Hi) as (r & v & -> & Hv & _). cbn in *.
    rewrite (lookup_app_l_Some _ _ _ _ Hv). rewrite Hv in Ha. exact Ha.
  - discriminate.
  - intros _ Hnil. destruct (_pendingSpecialLinesToInsert s); discriminate.
  - discriminate.
Qed.

Lemma maintained_update s id r L H :
  maintained s → _decorationIDToSpecialLine s !! id = Some r →
  ∃ s', insertOrChangeSpecialLineHeightUsingDecoration id L H s = Ok tt s' ∧ maintained s'.
Proof.
  intros Hm Hid. destruct (m_map s Hm id r Hid) as (Hin & v & Hv & Hd & Hdec).
  destruct (maintained_position s r Hm Hin) as (i & v0 & Hi & Hv0 & Hidx).
  assert (v0 = v) as -> by congruence.
  unfold insertOrChangeSpecialLineHeightUsingDecoration, bind, gets.
  rewrite Hid. unfold update, modify, deref. cbn. unfold ref in *.
  rewrite !list_lookup_alter_eq, Hv. cbn.
  eexists. split; [reflexivity |].
  set (h' := alter (set_specialHeight H) r (alter (set_lineNumber L) r (heap s))).
  assert (maintained (with_heap h' s)) as Hm'.
  { apply maintained_heap_change; [exact Hm |]. intros r'. subst h'. unfold ref in *.
    destruct (decide (r = r')) as [<- | Hne].
    - rewrite !list_lookup_alter_eq, Hv. cbn. auto.
    - rewrite !list_lookup_alter_ne by assumption. destruct (heap s !! r'); auto. }
  rewrite Hidx.
  change (maintained (with_hasPending true
            (with_invalidIndex (js_min (_invalidIndex (with_heap h' s)) (Z.of_nat i))
               (with_heap h' s)))).
  apply (maintained_invalidate (with_heap h' s) (Z.of_nat i) Hm').
  cbn. apply lookup_lt_Some in Hi. unfold len, ref in *. lia.
Qed.

Lemma maintained_insertOrChange s id L H :
  maintained s →
  ∃ s', insertOrChangeSpecialLineHeightUsingDecoration id L H s = Ok tt s' ∧ maintained s'.
Proof.
  intros Hm. destruct (_decorationIDToSpecialLine s !! id) as [r|] eqn:Hid.
  - exact (maintained_update s id r L H Hm Hid).
  - exact (maintained_insert s id L H Hm Hid).
Qed.

Lemma maintained_remove s id :
  maintained s →
  ∃ s', removeSpecialLineUsingDecoration id s = Ok tt s' ∧ maintained s'.
Proof.
  intros Hm. unfold removeSpecialLineUsingDecoration, bind, gets.
  destruct (_decorationIDToSpecialLine s !! id) as [r|] eqn:Hid; [| exists s; auto].
  destruct (m_map s Hm id r Hid) as (Hin & v & Hv & Hd & Hdec).
  destruct (maintained_position s r Hm Hin) as (i & v0 & Hi & Hv0 & Hidx).
  assert (v0 = v) as -> by congruence.
  unfold update, modify, deref. cbn. unfold ref in *.
  rewrite list_lookup_alter_eq, Hv. cbn.
  eexists. split; [reflexivity |].
  assert (∀ r', r' ≠ r → alter (set_deleted true) r (heap s) !! r' = heap s !! r') as Hother.
  { intros r' Hne. apply list_lookup_alter_ne. congruence. }
  pose proof (lookup_lt_Some _ _ _ Hi) as Hilt.
  split; cbn.
  - intros j o Hj. destruct (m_slots s Hm j o Hj) as (r' & v' & -> & Hv' & Hidx').
    unfold ref in *. exists r'. destruct (decide (r' = r)) as [-> | Hne].
    + exists (set_deleted true v). rewrite list_lookup_alter_eq, Hv.
      split; [reflexivity |]. split; [reflexivity |]. cbn. congruence.
    + exists v'. rewrite (Hother r' Hne). auto.
  - exact (m_nodup s Hm).
  - intros r' Hr'. destruct (m_pending s Hm r' Hr'). rewrite length_alter. auto.
  - exact (m_pending_nodup s Hm).
  - intros id' r' Hid'. destruct (decide (id = id')) as [<- | Hne].
    { rewrite lookup_delete_eq in Hid'. discriminate. }
    rewrite lookup_delete_ne in Hid' by assumption.
    destruct (m_map s Hm id' r' Hid') as (Hin' & v' & Hv' & Hd' & Hdec').
    unfold ref in *.
    split; [exact Hin' |]. exists v'. rewrite Hother; [auto |].
    intros ->. congruence.
  - intros p Hp. destruct (_invalidIndex s) as [q|] eqn:Hq; cbn in Hp; injection Hp as <-.
    + pose proof (m_invalid s Hm q Hq). unfold len, ref in *. lia.
    + unfold len, ref in *. lia.
  - intros j o Hj Hb.
    assert (below (_invalidIndex s) (Z.of_nat j) ∧ Z.of_nat j < index v) as [Hb' Hlt].
    { destruct (_invalidIndex s) as [q|]; cbn in *; [lia | split; [exact I | lia]]. }
    pose proof (m_alive_below s Hm j o Hj Hb') as Ha.
    destruct (m_slots s Hm j o Hj) as (r' & v' & -> & Hv' & _). cbn in *.
    unfold ref in *. rewrite Hother; [exact Ha |].
    intros ->. pose proof (NoDup_lookup _ _ _ _ (m_nodup s Hm) Hi Hj). lia.
  - discriminate.
  - intros _ _. destruct (_invalidIndex s); discriminate.
  - discriminate.
Qed.

(** ** One step of the rebuilding loop *)

Lemma alter_is_put s (r : ref) f v :
  heap s !! r = Some v → with_heap (alter f r (heap s)) s = store_put s r (f v).
Proof.
  intros Hv. unfold store_put. f_equal. unfold ref in *. apply list_eq. intros j.
  destruct (decide (r = j)) as [<- | Hne].
  - rewrite list_lookup_alter_eq, Hv, list_lookup_insert_eq; [reflexivity |].
    exact (lookup_lt_Some _ _ _ Hv).
  - rewrite list_lookup_alter_ne, list_lookup_insert_ne by assumption. reflexivity.
Qed.

Lemma store_put_put s (r : ref) w w' : store_put (store_put s r w) r w' = store_put s r w'.
Proof. unfold store_put, with_heap. cbn. unfold ref in *. rewrite list_insert_insert_eq. reflexivity. Qed.

Lemma store_put_lookup s (r : ref) w :
  (r < length (heap s))%nat → heap (store_put s r w) !! r = Some w.
Proof. intros Hr. cbn. unfold ref in *. apply list_lookup_insert_eq. exact Hr. Qed.

Lemma store_put_lookup_is_Some s (r p : ref) w pv :
  heap s !! p = Some pv → ∃ pv', heap (store_put s r w) !! p = Some pv'.
Proof.
  intros Hp. cbn. unfold ref in *. destruct (decide (r = p)) as [<- | Hne].
  - exists w. apply list_lookup_insert_eq. exact (lookup_lt_Some _ _ _ Hp).
  - exists pv. rewrite list_lookup_insert_ne by assumption. exact Hp.
Qed.

Lemma bind_gets {A B} (f : LineHeightManager → A) (k : A → M B) s :
  bind (gets f) k s = k (f s) s.
Proof. reflexivity. Qed.

Lemma bind_ret {A B} (a : A) (k : A → M B) s : bind (ret a) k s = k a s.
Proof. reflexivity. Qed.

Lemma bind_deref {B} (r : ref) v (k : SpecialLine → M B) s :
  heap s !! r = Some v → bind (deref (Some r)) k s = k v s.
Proof. intros Hv. unfold bind, deref. rewrite Hv. reflexivity. Qed.

Lemma bind_update {B} (r : ref) f v (k : unit → M B) s :
  heap s !! r = Some v → bind (update r f) k s = k tt (store_put s r (f v)).
Proof.
  intros Hv. unfold bind, update, modify. rewrite (alter_is_put s r f v Hv). reflexivity.
Qed.

Lemma bind_update_put {B} (r : ref) f w (k : unit → M B) s :
  (r < length (heap s))%nat →
  bind (update r f) k (store_put s r w) = k tt (store_put s r (f w)).
Proof.
  intros Hr. rewrite (bind_update r f w); [| apply store_put_lookup, Hr].
  rewrite store_put_put. reflexivity.
Qed.

Lemma slots_valid_put s (r : ref) w :
  slots_valid s → slots_valid (store_put s r w).
Proof.
  intros Hval i o Hi. destruct (Hval i o Hi) as (r' & v & -> & Hv).
  destruct (store_put_lookup_is_Some s r r' w v Hv) as [pv' Hpv']. eauto.
Qed.

Lemma slots_valid_get s i (r : ref) :
  slots_valid s → arr_get (_orderedSpecialLines s) i = Some r →
  ∃ v, heap s !! r = Some v.
Proof.
  intros Hval. unfold arr_get. destruct (i <? 0); [discriminate |].
  destruct (_orderedSpecialLines s !! Z.to_nat i) as [o|] eqn:Hi; [| discriminate].
  destruct (Hval _ o Hi) as (r' & v & -> & Hv). intros [= <-]. eauto.
Qed.

Lemma commit_max_returns s n j line acc :
  slots_valid s → 0 ≤ j → j + Z.of_nat n ≤ len (_orderedSpecialLines s) →
  ∃ m, commit_max n j line acc s = Ok m s.
Proof.
  intros Hval. revert j acc. induction n as [|n IH]; intros j acc Hj Hn; cbn [commit_max].
  - eauto.
  - rewrite bind_gets.
    destruct (lookup_lt_is_Some_2 (_orderedSpecialLines s) (Z.to_nat j)) as [o Ho].
    { unfold len in Hn. lia. }
    destruct (Hval _ o Ho) as (r & v & -> & Hv).
    assert (arr_get (_orderedSpecialLines s) j = Some r) as ->.
    { unfold arr_get. destruct (Z.ltb_spec j 0); [lia |]. rewrite Ho. reflexivity. }
    rewrite (bind_deref r v _ s Hv).
    destruct (deleted v); [apply IH; lia |].
    destruct (negb (lineNumber v =? line)); [eauto | apply IH; lia].
Qed.

Lemma update_put s (r : ref) f w :
  (r < length (heap s))%nat → update r f (store_put s r w) = Ok tt (store_put s r (f w)).
Proof.
  intros Hr. unfold update, modify.
  rewrite (alter_is_put (store_put s r w) r f w (store_put_lookup s r w Hr)).
  rewrite store_put_put. reflexivity.
Qed.

Lemma commit_step_deleted s i loc (r : ref) v :
  arr_get (_orderedSpecialLines s) i = Some r → heap s !! r = Some v → deleted v = true →
  commit_step i loc s
  = Ok (mkLocals (newDecorationIDToSpecialLineMap loc) (newOrderedSpecialLines loc)
          (numberOfDeletions loc + 1)) s.
Proof.
  intros Hget Hv Hd. unfold commit_step.
  rewrite bind_gets, Hget, (bind_deref r v _ s Hv), Hd. reflexivity.
Qed.

Lemma commit_step_alive s i loc (r : ref) v :
  slots_valid s → arr_get (_orderedSpecialLines s) i = Some r →
  heap s !! r = Some v → deleted v = false →
  ∃ w, commit_step i loc s
       = Ok (mkLocals (<[decorationId v := r]> (newDecorationIDToSpecialLineMap loc))
               (newOrderedSpecialLines loc ++ [Some r]) (numberOfDeletions loc))
            (store_put s r w)
       ∧ index w = i - numberOfDeletions loc ∧ same_request v w.
Proof.
  intros Hval Hget Hv Hd. pose proof (lookup_lt_Some _ _ _ Hv) as Hr.
  unfold commit_step. rewrite bind_gets, Hget, (bind_deref r v _ s Hv), Hd.
  rewrite (bind_update r _ v _ s Hv).
  set (v1 := set_index (i - numberOfDeletions loc) v).
  destruct (if 0 <? i then arr_get (_orderedSpecialLines s) (i - 1) else None) as [p|] eqn:Hprev.
  - assert (∃ pv, heap s !! p = Some pv) as [pv Hp].
    { destruct (0 <? i); [| discriminate]. exact (slots_valid_get s _ p Hval Hprev). }
    destruct (store_put_lookup_is_Some s r p v1 pv Hp) as [pv1 Hpv1].
    unfold bind at 1.
    rewrite (bind_deref p pv1 _ _ Hpv1).
    rewrite (bind_deref r v1 _ _ (store_put_lookup s r v1 Hr)). unfold ret at 1.
    destruct (lineNumber pv1 =? lineNumber v1).
    + unfold bind at 1.
      rewrite (bind_deref p pv1 _ _ Hpv1).
      rewrite (bind_update_put r _ v1 _ s Hr).
      set (v2 := set_maximumSpecialHeight _ v1).
      destruct (store_put_lookup_is_Some s r p v2 pv Hp) as [pv2 Hpv2].
      rewrite (bind_deref p pv2 _ _ Hpv2).
      rewrite (update_put s r _ v2 Hr).
      set (v3 := set_prefixSum _ v2).
      rewrite (bind_deref r v3 _ _ (store_put_lookup s r v3 Hr)).
      exists v3. split; [reflexivity |]. repeat split.
    + unfold bind at 1.
      rewrite (bind_deref r v1 _ _ (store_put_lookup s r v1 Hr)).
      destruct (commit_max_returns (store_put s r v1)
                  (Z.to_nat (len (_orderedSpecialLines s) - i)) i
                  (lineNumber v1) (specialHeight v1)) as [m Hm].
      { apply slots_valid_put, Hval. }
      { unfold arr_get in Hget. destruct (Z.ltb_spec i 0); [discriminate | lia]. }
      { cbn. unfold arr_get in Hget. destruct (Z.ltb_spec i 0); [discriminate |].
        destruct (_orderedSpecialLines s !! Z.to_nat i) eqn:E; [| discriminate].
        apply lookup_lt_Some in E. unfold len. lia. }
      unfold bind at 1. rewrite Hm.
      rewrite (bind_update_put r _ v1 _ s Hr).
      set (v2 := set_maximumSpecialHeight m v1).
      rewrite bind_gets.
      rewrite (bind_deref r v2 _ _ (store_put_lookup s r v2 Hr)).
      destruct (store_put_lookup_is_Some s r p v2 pv Hp) as [pv2 Hpv2].
      unfold bind at 1.
      rewrite (bind_deref p pv2 _ _ Hpv2). unfold ret at 1.
      rewrite (update_put s r _ v2 Hr).
      set (v3 := set_prefixSum _ v2).
      rewrite (bind_deref r v3 _ _ (store_put_lookup s r v3 Hr)).
      exists v3. split; [reflexivity |]. repeat split.
  - rewrite bind_ret. unfold bind at 1.
    rewrite (bind_deref r v1 _ _ (store_put_lookup s r v1 Hr)).
    destruct (commit_max_returns (store_put s r v1)
                (Z.to_nat (len (_orderedSpecialLines s) - i)) i
                (lineNumber v1) (specialHeight v1)) as [m Hm].
    { apply slots_valid_put, Hval. }
    { unfold arr_get in Hget. destruct (Z.ltb_spec i 0); [discriminate | lia]. }
    { cbn. unfold arr_get in Hget. destruct (Z.ltb_spec i 0); [discriminate |].
      destruct (_orderedSpecialLines s !! Z.to_nat i) eqn:E; [| discriminate].
      apply lookup_lt_Some in E. unfold len. lia. }
    unfold bind at 1. rewrite Hm.
    rewrite (bind_update_put r _ v1 _ s Hr).
    set (v2 := set_maximumSpecialHeight m v1).
    rewrite bind_gets.
    rewrite (bind_deref r v2 _ _ (store_put_lookup s r v2 Hr)).
    rewrite bind_ret.
    rewrite (update_put s r _ v2 Hr).
    set (v3 := set_prefixSum _ v2).
    rewrite (bind_deref r v3 _ _ (store_put_lookup s r v3 Hr)).
    exists v3. split; [reflexivity |]. repeat split.
Qed.

Lemma slot_alive_put s (r : ref) v w o :
  heap s !! r = Some v → deleted w = deleted v →
  slot_alive (store_put s r w) o = slot_alive s o.
Proof.
  intros Hv Hd. destruct o as [r'|]; [| reflexivity]. unfold slot_alive. cbn.
  unfold ref in *. destruct (decide (r = r')) as [<- | Hne].
  - rewrite list_lookup_insert_eq by exact (lookup_lt_Some _ _ _ Hv). rewrite Hv, Hd. reflexivity.
  - rewrite list_lookup_insert_ne by assumption. reflexivity.
Qed.

Lemma arr_get_lookup (arr : list (option ref)) (i : Z) (r : ref) :
  0 ≤ i → arr !! Z.to_nat i = Some (Some r) → arr_get arr i = Some r.
Proof. intros Hi H. unfold arr_get. destruct (Z.ltb_spec i 0); [lia |]. rewrite H. reflexivity. Qed.

(** ** The rebuilding loop and the records it keeps *)

Lemma commit_rebuild_spec n : ∀ i s loc,
  slots_valid s → NoDup (_orderedSpecialLines s) → 0 ≤ i →
  i + Z.of_nat n = len (_orderedSpecialLines s) →
  numberOfDeletions loc = i - len (newOrderedSpecialLines loc) →
  ∃ loc' h',
    commit_rebuild n i loc s = Ok loc' (with_heap h' s)
    ∧ length h' = length (heap s)
    ∧ newOrderedSpecialLines loc'
      = newOrderedSpecialLines loc
        ++ filter (λ o, slot_alive s o = true) (drop (Z.to_nat i) (_orderedSpecialLines s))
    ∧ (∀ (r : ref) v, heap s !! r = Some v →
         ∃ w, h' !! r = Some w ∧ same_request v w
              ∧ (Some r ∉ drop (Z.to_nat i) (_orderedSpecialLines s) → w = v))
    ∧ (∀ (j : nat) (r : ref), newOrderedSpecialLines loc' !! j = Some (Some r) →
         (length (newOrderedSpecialLines loc) ≤ j)%nat →
         ∃ w, h' !! r = Some w ∧ index w = Z.of_nat j)
    ∧ (∀ id (r : ref), newDecorationIDToSpecialLineMap loc' !! id = Some r →
         newDecorationIDToSpecialLineMap loc !! id = Some r
         ∨ (Some r ∈ drop (Z.to_nat i) (_orderedSpecialLines s)
            ∧ ∃ v, heap s !! r = Some v ∧ deleted v = false ∧ decorationId v = id))
    ∧ (∀ id, is_Some (newDecorationIDToSpecialLineMap loc !! id) →
             is_Some (newDecorationIDToSpecialLineMap loc' !! id))
    ∧ (∀ (r : ref) v, Some r ∈ drop (Z.to_nat i) (_orderedSpecialLines s) →
         heap s !! r = Some v → deleted v = false →
         is_Some (newDecorationIDToSpecialLineMap loc' !! decorationId v)).
Proof.
  induction n as [|n IH]; intros i s loc Hval Hnd Hi Hn Hdel; cbn [commit_rebuild].
  - exists loc, (heap s). rewrite drop_ge by (unfold len in Hn; lia).
    split; [destruct s; reflexivity |]. split; [reflexivity |].
    split; [cbn; rewrite app_nil_r; reflexivity |].
    split; [intros r v Hv; exists v; split; [exact Hv | split; [apply same_request_refl | auto]] |].
    split; [intros j r Hj Hlen; apply lookup_lt_Some in Hj; lia |].
    split; [auto |]. split; [auto |].
    intros r v Hin. inversion Hin.
  - destruct (lookup_lt_is_Some_2 (_orderedSpecialLines s) (Z.to_nat i)) as [o Ho].
    { unfold len in Hn. lia. }
    destruct (Hval _ o Ho) as (r & v & -> & Hv).
    pose proof (arr_get_lookup _ i r Hi Ho) as Hget.
    rewrite (drop_S _ _ _ Ho).
    assert (Some r ∉ drop (S (Z.to_nat i)) (_orderedSpecialLines s)) as Hfresh.
    { intros Hin. apply list_elem_of_lookup in Hin as [j Hj]. rewrite lookup_drop in Hj.
      pose proof (NoDup_lookup _ _ _ _ Hnd Ho Hj). lia. }
    destruct (deleted v) eqn:Hd.
    + unfold bind. rewrite (commit_step_deleted s i loc r v Hget Hv Hd).
      destruct (IH (i + 1) s
                  (mkLocals (newDecorationIDToSpecialLineMap loc) (newOrderedSpecialLines loc)
                     (numberOfDeletions loc + 1)) Hval Hnd)
        as (loc' & h' & Hrun & Hlen & Hord & Hheap & Hidx & Hmap & Hmono & Hknown);
        [lia | lia | cbn; lia |].
      replace (Z.to_nat (i + 1)) with (S (Z.to_nat i)) in * by lia.
      cbn [newOrderedSpecialLines newDecorationIDToSpecialLineMap numberOfDeletions] in *.
      exists loc', h'. split; [exact Hrun |]. split; [exact Hlen |].
      split.
      { rewrite Hord. f_equal. rewrite filter_cons_False; [reflexivity |].
        unfold slot_alive. rewrite Hv, Hd. discriminate. }
      split.
      { intros r0 v0 Hv0. destruct (Hheap r0 v0 Hv0) as (w & Hw & Hsame & Hout).
        exists w. split; [exact Hw |]. split; [exact Hsame |].
        intros Hnot. apply Hout. intros Hin. apply Hnot. apply list_elem_of_further, Hin. }
      split; [exact Hidx |].
      split.
      { intros id r0 Hid. destruct (Hmap id r0 Hid) as [? | (Hin & Hrest)]; [left; assumption |].
        right. split; [apply list_elem_of_further, Hin | exact Hrest]. }
      split; [exact Hmono |].
      intros r0 v0 Hin Hv0 Hd0. apply elem_of_cons in Hin as [Heq | Hin].
      * injection Heq as ->. unfold ref in *. congruence.
      * exact (Hknown r0 v0 Hin Hv0 Hd0).
    + unfold bind.
      destruct (commit_step_alive s i loc r v Hval Hget Hv Hd) as (w & Hstep & Hwidx & Hwsame).
      rewrite Hstep.
      set (loc1 := mkLocals _ _ _).
      destruct (IH (i + 1) (store_put s r w) loc1 (slots_valid_put s r w Hval) Hnd)
        as (loc' & h' & Hrun & Hlen & Hord & Hheap & Hidx & Hmap & Hmono & Hknown);
        [lia | cbn; lia | subst loc1; cbn; unfold len in *; rewrite length_app; cbn; lia |].
      replace (Z.to_nat (i + 1)) with (S (Z.to_nat i)) in * by lia.
      pose proof (lookup_lt_Some _ _ _ Hv) as Hr.
      assert (∀ o, slot_alive (store_put s r w) o = slot_alive s o) as Halive.
      { intros o. apply (slot_alive_put s r v w o Hv). apply Hwsame. }
      exists loc', h'. split; [exact Hrun |].
      split; [rewrite Hlen; cbn; apply length_insert |].
      split.
      { rewrite Hord. subst loc1. cbn [newOrderedSpecialLines].
        change (_orderedSpecialLines (store_put s r w)) with (_orderedSpecialLines s).
        rewrite <- app_assoc. f_equal.
        rewrite filter_cons_True by (unfold slot_alive; rewrite Hv, Hd; reflexivity).
        cbn [app]. f_equal. apply list_filter_iff. intros o. rewrite Halive. reflexivity. }
      split.
      { intros r0 v0 Hv0. unfold ref in *. destruct (decide (r0 = r)) as [-> | Hne].
        - assert (v0 = v) as -> by congruence.
          destruct (Hheap r w (store_put_lookup s r w Hr)) as (w' & Hw' & Hsame' & Hout').
          exists w'. split; [exact Hw' |]. split.
          + destruct Hwsame as (?&?&?&?), Hsame' as (?&?&?&?). repeat split; congruence.
          + intros Hnot. exfalso. apply Hnot. apply list_elem_of_here.
        - assert (heap (store_put s r w) !! r0 = Some v0) as Hv0'.
          { cbn. rewrite list_lookup_insert_ne by congruence. exact Hv0. }
          destruct (Hheap r0 v0 Hv0') as (w' & Hw' & Hsame' & Hout').
          exists w'. split; [exact Hw' |]. split; [exact Hsame' |].
          intros Hnot. apply Hout'. intros Hin. apply Hnot. apply list_elem_of_further, Hin. }
      split.
      { intros j r0 Hj Hjlen.
        destruct (decide (j = length (newOrderedSpecialLines loc))) as [-> | Hne].
        - rewrite Hord in Hj. subst loc1. cbn in Hj.
          rewrite lookup_app_l in Hj by (rewrite length_app; cbn; lia).
          rewrite lookup_app_r in Hj by lia. rewrite Nat.sub_diag in Hj. cbn in Hj.
          injection Hj as <-.
          destruct (Hheap r w (store_put_lookup s r w Hr)) as (w' & Hw' & _ & Hout').
          rewrite (Hout' Hfresh) in Hw'. exists w. split; [exact Hw' |].
          rewrite Hwidx, Hdel. unfold len. lia.
        - apply (Hidx j r0 Hj). subst loc1. cbn. rewrite length_app. cbn. lia. }
      split.
      { intros id r0 Hid. destruct (Hmap id r0 Hid) as [Hold | (Hin & v0 & Hv0 & Hd0 & Hdec0)].
        - subst loc1. cbn in Hold. apply lookup_insert_Some in Hold as [[<- <-] | [Hne Hold]].
          + right. split; [apply list_elem_of_here |]. exists v. auto.
          + left. exact Hold.
        - right. split; [apply list_elem_of_further, Hin |].
          unfold ref in *. cbn in Hv0. destruct (decide (r = r0)) as [<- | Hne].
          + exfalso. exact (Hfresh Hin).
          + rewrite list_lookup_insert_ne in Hv0 by assumption. exists v0. auto. }
      split.
      { intros id Hid. apply Hmono. subst loc1. cbn.
        destruct (decide (decorationId v = id)) as [<- | Hne].
        - rewrite lookup_insert_eq. eauto.
        - rewrite lookup_insert_ne by assumption. exact Hid. }
      intros r0 v0 Hin Hv0 Hd0. apply elem_of_cons in Hin as [Heq | Hin].
      * injection Heq as ->. unfold ref in *. assert (v0 = v) as -> by congruence.
        apply Hmono. subst loc1. cbn. rewrite lookup_insert_eq. eauto.
      * unfold ref in *. destruct (decide (r0 = r)) as [-> | Hne]; [destruct (Hfresh Hin) |].
        apply (Hknown r0 v0 Hin); [| exact Hd0].
        cbn. rewrite list_lookup_insert_ne by congruence. exact Hv0.
Qed.

(** ** The merging loop *)

Lemma slots_valid_resolve s : slots_valid s → ∃ recs, resolve s = Some recs.
Proof.
  intros Hval. unfold resolve.
  destruct (mapM_is_Some_2 (λ o : option ref,
              match o with Some r => heap s !! r | None => None end)
              (_orderedSpecialLines s)) as [recs Hrecs]; [| eauto].
  apply Forall_lookup_2. intros i o Hi.
  destruct (Hval i o Hi) as (r & v & -> & Hv). cbn. eauto.
Qed.

Lemma splice_insert {A} (l : list A) idx (items : list A) :
  0 ≤ idx ≤ len l →
  splice l idx 0 items = take (Z.to_nat idx) l ++ items ++ drop (Z.to_nat idx) l.
Proof.
  intros Hidx. unfold splice. destruct (Z.ltb_spec idx 0); [lia |].
  rewrite Z.min_l by lia. rewrite Z.max_l by lia. rewrite Z.min_l by lia.
  rewrite Z.add_0_r. reflexivity.
Qed.

Lemma resolve_insert s recs n (r : ref) v :
  resolve s = Some recs → heap s !! r = Some v →
  resolve (with_ordered (take n (_orderedSpecialLines s) ++ [Some r]
                         ++ drop n (_orderedSpecialLines s)) s)
  = Some (take n recs ++ [v] ++ drop n recs).
Proof.
  intros Hres Hv. unfold resolve in *. apply mapM_Some in Hres. apply mapM_Some. cbn.
  apply Forall2_app; [apply Forall2_take; exact Hres |].
  constructor; [exact Hv | apply Forall2_drop; exact Hres].
Qed.

Lemma sortedb_app_inv A B : sortedb (A ++ B) = true → sortedb A = true ∧ sortedb B = true.
Proof.
  induction A as [|a A IH]; intros H; [auto |].
  destruct A as [|a' A'].
  - split; [reflexivity |]. destruct B; [reflexivity |].
    cbn in H. apply andb_prop in H as [_ H]. exact H.
  - cbn [app sortedb] in H. apply andb_prop in H as [Hle H].
    destruct (IH H) as [HA HB]. split; [| exact HB].
    cbn [sortedb]. rewrite Hle. exact HA.
Qed.

Lemma sortedb_cons_Forall v B :
  sortedb B = true → Forall (λ a, lineNumber v ≤ lineNumber a) B → sortedb (v :: B) = true.
Proof.
  intros HB HF. destruct B as [|b B]; [reflexivity |].
  cbn [sortedb]. apply Forall_cons in HF as [Hb _].
  apply andb_true_intro. split; [apply Z.leb_le, Hb | exact HB].
Qed.

Lemma sortedb_app_cons A v B :
  sortedb A = true → Forall (λ a, lineNumber a ≤ lineNumber v) A →
  sortedb (v :: B) = true → sortedb (A ++ v :: B) = true.
Proof.
  induction A as [|a A IH]; intros HA HF HvB; [exact HvB |].
  apply Forall_cons in HF as [Ha HF].
  destruct A as [|a' A'].
  - cbn [app sortedb]. apply andb_true_intro. split; [apply Z.leb_le, Ha | exact HvB].
  - cbn [sortedb] in HA. apply andb_prop in HA as [Hle HA].
    cbn [app sortedb]. apply andb_true_intro. split; [exact Hle |].
    apply (IH HA HF HvB).
Qed.

Lemma sortedb_insert recs n v :
  sortedb recs = true →
  Forall (λ a, lineNumber a ≤ lineNumber v) (take n recs) →
  Forall (λ a, lineNumber v ≤ lineNumber a) (drop n recs) →
  sortedb (take n recs ++ [v] ++ drop n recs) = true.
Proof.
  intros Hs HA HB. rewrite <- (take_drop n recs) in Hs.
  destruct (sortedb_app_inv _ _ Hs) as [HsA HsB].
  apply sortedb_app_cons; [exact HsA | exact HA |].
  apply sortedb_cons_Forall; assumption.
Qed.

(** Where the merge loop puts a record keeps a sorted array sorted. *)
Lemma merge_position_sorted s recs key k :
  resolve s = Some recs → sortedb recs = true →
  _binarySearchOverSpecialLinesArray key s = Ok k s →
  let idx := if 0 <=? k then k else - (k + 1) in
  Forall (λ a, lineNumber a ≤ key) (take (Z.to_nat idx) recs)
  ∧ Forall (λ a, key ≤ lineNumber a) (drop (Z.to_nat idx) recs).
Proof.
  intros Hres Hsorted Hk.
  destruct (_binarySearchOverSpecialLinesArray_sorted s recs key Hres Hsorted) as (k' & Hk' & Hr).
  assert (k' = k) as -> by congruence. cbn zeta.
  destruct Hr as [[Hk0 (a & Ha & Hla)] | (p & -> & Hp & Hbef & Haft)].
  - destruct (Z.leb_spec 0 k); [| lia]. pose proof (rec_get_lt _ _ _ Ha).
    apply split_Forall; [lia | |].
    + intros i b Hb Hi. pose proof (sortedb_lookup recs Hsorted i k b a Hb Ha ltac:(lia)). lia.
    + intros i b Hb Hi. pose proof (sortedb_lookup recs Hsorted k i a b Ha Hb Hi). lia.
  - destruct (Z.leb_spec 0 (- (p + 1))); [lia |].
    replace (- (- (p + 1) + 1)) with p by lia.
    apply split_Forall; [lia | |].
    + intros i b Hb Hi. pose proof (Hbef i b Hb Hi). lia.
    + intros i b Hb Hi. pose proof (Haft i b Hb Hi). lia.
Qed.

Lemma bind_modify {B} f (k : unit → M B) s : bind (modify f) k s = k tt (f s).
Proof. reflexivity. Qed.

Lemma bind_ordered_splice {B} start deleteCount items (k : unit → M B) s :
  bind (ordered_splice start deleteCount items) k s
  = k tt (with_ordered (splice (_orderedSpecialLines s) start deleteCount items) s).
Proof. reflexivity. Qed.

Lemma below_js_min inv idx i : below (js_min inv idx) i ↔ below inv i ∧ i < idx.
Proof. destruct inv as [p|]; cbn; [lia | tauto]. Qed.

Lemma commit_merge_spec rest : ∀ s,
  slots_valid s → NoDup (_orderedSpecialLines s) →
  (∀ r, r ∈ rest → (r < length (heap s))%nat ∧ Some r ∉ _orderedSpecialLines s) →
  NoDup rest →
  (∀ p, _invalidIndex s = Finite p → 0 ≤ p ≤ len (_orderedSpecialLines s)) →
  ∃ arr' inv',
    commit_merge rest s = Ok tt (with_invalidIndex inv' (with_ordered arr' s))
    ∧ NoDup arr'
    ∧ arr' ≡ₚ _orderedSpecialLines s ++ (Some <$> rest)
    ∧ _orderedSpecialLines s `sublist_of` arr'
    ∧ (∀ p', inv' = Finite p' → 0 ≤ p' ≤ len arr')
    ∧ (∀ i : nat, below inv' (Z.of_nat i) →
         arr' !! i = _orderedSpecialLines s !! i ∧ below (_invalidIndex s) (Z.of_nat i))
    ∧ (inv' = Infinity → _invalidIndex s = Infinity ∧ rest = [])
    ∧ (∀ recs, resolve s = Some recs → sortedb recs = true →
         ∃ recs', resolve (with_ordered arr' s) = Some recs' ∧ sortedb recs' = true).
Proof.
  induction rest as [|r rest IH]; intros s Hval Hnd Hrest Hndrest Hinv; cbn [commit_merge].
  - exists (_orderedSpecialLines s), (_invalidIndex s).
    split; [destruct s; reflexivity |]. split; [exact Hnd |].
    split; [cbn; rewrite app_nil_r; reflexivity |]. split; [reflexivity |].
    split; [exact Hinv |]. split; [auto |]. split; [auto |].
    intros recs Hres Hs. exists recs. split; [destruct s; exact Hres | exact Hs].
  - destruct (Hrest r (list_elem_of_here _ _)) as [Hr Hrnew].
    apply lookup_lt_is_Some in Hr as [v Hv].
    rewrite (bind_deref r v _ s Hv).
    destruct (slots_valid_resolve s Hval) as [recs Hres].
    destruct (_binarySearchOverSpecialLinesArray_bounds s recs (lineNumber v) Hres)
      as (k & Hk & Hb).
    unfold bind at 1. rewrite Hk.
    set (idx := if 0 <=? k then k else - (k + 1)).
    assert (0 ≤ idx ≤ len (_orderedSpecialLines s)) as Hidx.
    { rewrite (resolve_len s recs Hres). subst idx.
      destruct Hb as [? | (p & -> & ?)].
      - destruct (Z.leb_spec 0 k); lia.
      - destruct (Z.leb_spec 0 (- (p + 1))); lia. }
    rewrite bind_ordered_splice, bind_gets, bind_modify.
    rewrite (splice_insert _ idx [Some r] Hidx). cbn [app].
    set (arr2 := take (Z.to_nat idx) (_orderedSpecialLines s)
                 ++ Some r :: drop (Z.to_nat idx) (_orderedSpecialLines s)).
    set (s3 := with_invalidIndex _ (with_ordered arr2 s)).
    assert (arr2 ≡ₚ Some r :: _orderedSpecialLines s) as Hperm2.
    { subst arr2. rewrite <- Permutation_middle. rewrite take_drop. reflexivity. }
    assert (NoDup arr2) as Hnd2.
    { rewrite Hperm2. constructor; assumption. }
    assert (len arr2 = len (_orderedSpecialLines s) + 1) as Hlen2.
    { unfold len. rewrite (Permutation_length Hperm2). cbn [length]. lia. }
    destruct (IH s3) as (arr' & inv' & Hrun & Hnd' & Hperm' & Hsub' & Hinv' & Hpre' & Hinf' & Hsort').
    { intros i o Hi. cbn in Hi.
      assert (o ∈ Some r :: _orderedSpecialLines s) as Ho.
      { rewrite <- Hperm2. eapply list_elem_of_lookup_2. exact Hi. }
      apply elem_of_cons in Ho as [-> | Ho]; [exists r, v; auto |].
      apply list_elem_of_lookup in Ho as [j Hj]. exact (Hval j o Hj). }
    { exact Hnd2. }
    { intros r' Hr'. destruct (Hrest r' (list_elem_of_further _ _ _ Hr')) as [Hlt Hnot].
      split; [exact Hlt |]. cbn. rewrite Hperm2. intros Hin.
      apply elem_of_cons in Hin as [Heq | Hin]; [| exact (Hnot Hin)].
      injection Heq as ->. apply NoDup_cons in Hndrest as [Hnin _]. exact (Hnin Hr'). }
    { apply NoDup_cons in Hndrest as [_ ?]. assumption. }
    { intros p Hp. cbn in Hp. change (_orderedSpecialLines s3) with arr2.
      rewrite Hlen2. destruct (_invalidIndex s) as [q|] eqn:Hq; cbn in Hp; injection Hp as <-.
      - pose proof (Hinv q eq_refl). lia.
      - lia. }
    change (_orderedSpecialLines s3) with arr2 in *.
    change (_invalidIndex s3) with (js_min (_invalidIndex s) idx) in *.
    exists arr', inv'. split; [exact Hrun |]. split; [exact Hnd' |].
    split.
    { rewrite Hperm'. rewrite Hperm2. rewrite fmap_cons.
      rewrite <- Permutation_middle. reflexivity. }
    split.
    { etrans; [| exact Hsub']. subst arr2.
      rewrite <- (take_drop (Z.to_nat idx) (_orderedSpecialLines s)) at 1.
      apply sublist_app; [reflexivity |]. apply sublist_cons. reflexivity. }
    split; [exact Hinv' |].
    split.
    { intros i Hb'. destruct (Hpre' i Hb') as [Heq Hb3].
      apply below_js_min in Hb3 as [Hbs Hlt]. split; [| exact Hbs].
      rewrite Heq. subst arr2. rewrite lookup_app_l by (rewrite length_take; unfold len in *; lia).
      apply lookup_take_lt. lia. }
    split.
    { intros Hinf. destruct (Hinf' Hinf) as [Hcontra _].
      destruct (_invalidIndex s); discriminate. }
    intros recs0 Hres0 Hs0. assert (recs0 = recs) as -> by congruence.
    destruct (merge_position_sorted s recs (lineNumber v) k Hres Hs0 Hk) as [HA HB].
    fold idx in HA, HB.
    apply (Hsort' (take (Z.to_nat idx) recs ++ [v] ++ drop (Z.to_nat idx) recs)).
    + exact (resolve_insert s recs (Z.to_nat idx) r v Hres Hv).
    + apply sortedb_insert; assumption.
Qed.

(** ** [commit] on a state in order *)

Lemma commit_copy_spec s n : ∀ i acc,
  slots_valid s → 0 ≤ i → i + Z.of_nat n ≤ len (_orderedSpecialLines s) →
  commit_copy n i acc s
  = Ok (acc ++ take n (drop (Z.to_nat i) (_orderedSpecialLines s))) s.
Proof.
  induction n as [|n IH]; intros i acc Hval Hi Hn; cbn [commit_copy].
  - rewrite take_0, app_nil_r. reflexivity.
  - rewrite bind_gets.
    destruct (lookup_lt_is_Some_2 (_orderedSpecialLines s) (Z.to_nat i)) as [o Ho].
    { unfold len in Hn. lia. }
    destruct (Hval _ o Ho) as (r & v & -> & Hv).
    rewrite (arr_get_lookup _ i r Hi Ho), (IH (i + 1)) by (assumption || lia).
    rewrite (drop_S _ _ _ Ho). replace (Z.to_nat (i + 1)) with (S (Z.to_nat i)) by lia.
    cbn [take]. rewrite <- app_assoc. reflexivity.
Qed.

Lemma bind_run {A B} (m : M A) (k : A → M B) s a s1 :
  m s = Ok a s1 → bind m k s = k a s1.
Proof. intros H. unfold bind. rewrite H. reflexivity. Qed.

Lemma sublist_filter_mono {A} (P : A → Prop) `{∀ x, Decision (P x)} (l1 l2 : list A) :
  l1 `sublist_of` l2 → filter P l1 `sublist_of` filter P l2.
Proof.
  induction 1 as [| x l1 l2 _ IH | x l1 l2 _ IH]; [constructor | |].
  - rewrite !filter_cons. destruct (decide (P x)); [apply sublist_skip |]; exact IH.
  - rewrite filter_cons. destruct (decide (P x)); [apply sublist_cons |]; exact IH.
Qed.


(** The line number behind a slot. *)
Lemma sortedb_StronglySorted recs :
  sortedb recs = true ↔ StronglySorted Z.le (lineNumber <$> recs).
Proof.
  induction recs as [|a tl IH]; [split; [constructor | reflexivity] |].
  split.
  - intros Hs. cbn [fmap list_fmap]. constructor.
    + apply IH. destruct tl; [reflexivity |].
      cbn [sortedb] in Hs. apply andb_prop in Hs as [_ Hs]. exact Hs.
    + apply Forall_fmap, Forall_lookup_2. intros j b Hj. cbn.
      apply (sortedb_lookup (a :: tl) Hs 0 (Z.of_nat (S j)) a b); [| | lia].
      * reflexivity.
      * unfold rec_get. destruct (Z.ltb_spec (Z.of_nat (S j)) 0); [lia |].
        rewrite Nat2Z.id. exact Hj.
  - intros Hs. cbn [fmap list_fmap] in Hs. apply StronglySorted_inv in Hs as [Htl Hall].
    apply sortedb_cons_Forall; [apply IH, Htl |].
    rewrite Forall_fmap in Hall. exact Hall.
Qed.

Lemma StronglySorted_sublist {A} (R : A → A → Prop) (l1 l2 : list A) :
  l1 `sublist_of` l2 → StronglySorted R l2 → StronglySorted R l1.
Proof.
  induction 1 as [| x l1 l2 Hsub IH | x l1 l2 Hsub IH]; intros Hs; [constructor | |].
  - apply StronglySorted_inv in Hs as [Htl Hall]. constructor; [apply IH, Htl |].
    apply Forall_forall. intros y Hy. rewrite Forall_forall in Hall.
    apply Hall. exact (elem_of_sublist _ _ _ Hy Hsub).
  - apply StronglySorted_inv in Hs as [Htl _]. apply IH, Htl.
Qed.

Lemma resolve_lines s s' recs recs' :
  resolve s = Some recs → resolve s' = Some recs' →
  _orderedSpecialLines s' `sublist_of` _orderedSpecialLines s →
  (∀ (r : ref) v, heap s !! r = Some v → ∃ w, heap s' !! r = Some w ∧ lineNumber w = lineNumber v) →
  (lineNumber <$> recs') `sublist_of` (lineNumber <$> recs).
Proof.
  unfold resolve. intros Hres Hres' Hsub Hheap.
  apply mapM_Some in Hres. apply mapM_Some in Hres'.
  revert recs recs' Hres Hres'.
  induction Hsub as [| o l1 l2 Hsub IH | o l1 l2 Hsub IH]; intros recs recs' Hres Hres'.
  - inversion Hres. inversion Hres'. constructor.
  - inversion Hres as [| ? v ? tl Hv Htl]; subst. inversion Hres' as [| ? w ? tl' Hw Htl']; subst.
    cbn [fmap list_fmap]. destruct o as [r|]; [| discriminate].
    destruct (Hheap r v Hv) as (w' & Hw' & Hline).
    assert (w = w') as -> by congruence. rewrite Hline.
    apply sublist_skip. exact (IH _ _ Htl Htl').
  - inversion Hres as [| ? v ? tl Hv Htl]; subst.
    cbn [fmap list_fmap]. apply sublist_cons. exact (IH _ _ Htl Hres').
Qed.

(** [commit] on a state in order. *)
Lemma commit_spec s :
  maintained s →
  ∃ s', commit s = Ok tt s'
        ∧ maintained s' ∧ committed s'
        ∧ _orderedSpecialLines s'
          ≡ₚ filter (λ o, slot_alive s o = true)
               (_orderedSpecialLines s ++ (Some <$> _pendingSpecialLinesToInsert s))
        ∧ filter (λ o, slot_alive s o = true) (_orderedSpecialLines s)
          `sublist_of` _orderedSpecialLines s'
        ∧ (∀ (r : ref) v, r ∈ _pendingSpecialLinesToInsert s → heap s !! r = Some v →
             deleted v = false →
             is_Some (_decorationIDToSpecialLine s' !! decorationId v))
        ∧ (∀ id, is_Some (_decorationIDToSpecialLine s !! id) →
                 is_Some (_decorationIDToSpecialLine s' !! id))
        ∧ _defaultLineHeight s' = _defaultLineHeight s
        ∧ (∀ (r : ref) v, heap s !! r = Some v →
             ∃ w, heap s' !! r = Some w ∧ same_request v w)
        ∧ (∀ recs, resolve s = Some recs → sortedb recs = true →
             ∃ recs', resolve s' = Some recs' ∧ sortedb recs' = true).
Proof.
  intros Hm. destruct (_hasPending s) eqn:Hp.
  2: { exists s. split; [apply commit_committed, Hp |]. split; [exact Hm |]. split; [exact Hp |].
       rewrite (m_idle s Hm Hp). cbn. rewrite app_nil_r.
       rewrite (filter_all _ _ (proj2 (Forall_forall _ _) (m_alive_idle s Hm Hp))).
       split; [reflexivity |]. split; [reflexivity |].
       split; [intros r v Hr; inversion Hr |]. split; [auto |]. split; [reflexivity |].
       split; [| eauto]. intros r v Hv. exists v. split; [exact Hv |]. repeat split. }
  assert (slots_valid s) as Hval.
  { intros i o Hi. destruct (m_slots s Hm i o Hi) as (r & v & -> & Hv & _). eauto. }
  destruct (commit_merge_spec (_pendingSpecialLinesToInsert s) s Hval (m_nodup s Hm)
              (m_pending s Hm) (m_pending_nodup s Hm) (m_invalid s Hm))
    as (arr1 & inv1 & Hmerge & Hnd1 & Hperm1 & Hsub1 & Hinv1 & Hpre1 & Hinf1 & Hsorted1).
  destruct inv1 as [p1|].
  2: { destruct (Hinf1 eq_refl) as [Hi Hpe]. destruct (m_flag s Hm Hp Hpe Hi). }
  specialize (Hinv1 p1 eq_refl).
  unfold commit. rewrite bind_gets, Hp. cbn [negb]. rewrite bind_gets.
  rewrite (bind_run _ _ _ _ _ Hmerge), bind_modify, bind_gets, bind_gets.
  cbn [_invalidIndex with_pending with_invalidIndex with_ordered].
  set (s1 := with_pending [] (with_invalidIndex (Finite p1) (with_ordered arr1 s))).
  assert (slots_valid s1) as Hval1.
  { intros i o Hi. cbn in Hi.
    assert (o ∈ _orderedSpecialLines s ++ (Some <$> _pendingSpecialLinesToInsert s)) as Ho.
    { rewrite <- Hperm1. eapply list_elem_of_lookup_2. exact Hi. }
    apply elem_of_app in Ho as [Ho | Ho].
    - apply list_elem_of_lookup in Ho as [j Hj]. exact (Hval j o Hj).
    - apply list_elem_of_fmap in Ho as (r & -> & Hr).
      destruct (m_pending s Hm r Hr) as [Hlt _].
      apply lookup_lt_is_Some in Hlt as [v Hv]. exists r, v. auto. }
  rewrite (bind_run _ _ s1 _ _
             (commit_copy_spec s1 (Z.to_nat p1) 0 [] Hval1 ltac:(lia)
                ltac:(cbn; unfold len in *; lia))).
  rewrite bind_gets.
  change (_orderedSpecialLines s1) with arr1. cbn [app]. rewrite drop_0.
  destruct (commit_rebuild_spec (Z.to_nat (len arr1 - p1)) p1 s1
              (mkLocals (_decorationIDToSpecialLine s) (take (Z.to_nat p1) arr1) 0)
              Hval1 Hnd1)
    as (loc' & h' & Hrun & Hlen & Hord & Hheap & Hidx & Hmap & Hmono & Hknown).
  { lia. }
  { cbn. lia. }
  { cbn. unfold len in *. rewrite length_take. lia. }
  change (_orderedSpecialLines s1) with arr1 in *. change (heap s1) with (heap s) in *.
  cbn [newDecorationIDToSpecialLineMap newOrderedSpecialLines numberOfDeletions] in *.
  change (_decorationIDToSpecialLine (with_pending [] (with_invalidIndex (Finite p1)
            (with_ordered arr1 s)))) with (_decorationIDToSpecialLine s).
  rewrite (bind_run _ _ _ _ _ Hrun). rewrite !bind_modify. unfold modify.
  eexists. split; [reflexivity |].
  assert (∀ o, slot_alive s1 o = slot_alive s o) as Halive1 by reflexivity.
  assert (∀ (i : nat) o, arr1 !! i = Some o → Z.of_nat i < p1 →
            ∃ (r : ref) v, o = Some r ∧ heap s !! r = Some v ∧ index v = Z.of_nat i
                           ∧ deleted v = false ∧ h' !! r = Some v) as Hprefix.
  { intros i o Hi Hlt. destruct (Hpre1 i Hlt) as [Heq Hb]. rewrite Heq in Hi.
    destruct (m_slots s Hm i o Hi) as (r & v & -> & Hv & Hix).
    pose proof (m_alive_below s Hm i _ Hi Hb) as Ha. unfold slot_alive in Ha.
    rewrite Hv in Ha. apply negb_true_iff in Ha.
    destruct (Hheap r v Hv) as (w & Hw & _ & Hout).
    exists r, v. rewrite <- Heq in Hi. repeat (split; [assumption || reflexivity |]).
    rewrite Hw. f_equal. apply Hout. intros Hin.
    apply list_elem_of_lookup in Hin as [j Hj]. rewrite lookup_drop in Hj.
    pose proof (NoDup_lookup _ _ _ _ Hnd1 Hi Hj). lia. }
  assert (Forall (λ o, slot_alive s o = true) (take (Z.to_nat p1) arr1)) as Htake.
  { apply Forall_forall. intros o Ho. apply elem_of_take in Ho as (i & Hi & Hlt).
    destruct (Hprefix i o Hi ltac:(lia)) as (r & v & -> & Hv & _ & Hd & _).
    unfold slot_alive. rewrite Hv, Hd. reflexivity. }
  assert (newOrderedSpecialLines loc' = filter (λ o, slot_alive s o = true) arr1) as Hfilter.
  { rewrite Hord. rewrite <- (take_drop (Z.to_nat p1) arr1) at 3.
    rewrite filter_app, (filter_all _ _ Htake). reflexivity. }
  assert (∀ (r : ref) v, heap s !! r = Some v → deleted v = false →
            ∃ w, h' !! r = Some w ∧ deleted w = false ∧ decorationId w = decorationId v)
    as Hkeep.
  { intros r v Hv Hd. destruct (Hheap r v Hv) as (w & Hw & (_ & _ & Hdec & Hdel) & _).
    exists w. split; [exact Hw |]. split; congruence. }
  assert (∀ r : ref, Some r ∈ arr1 → slot_alive s (Some r) = true →
            Some r ∈ newOrderedSpecialLines loc') as Hin_new.
  { intros r Hr Ha. rewrite Hfilter. apply list_elem_of_filter. auto. }
  assert (∀ o, o ∈ _orderedSpecialLines s → o ∈ arr1) as Hold.
  { intros o Ho. exact (elem_of_sublist _ _ _ Ho Hsub1). }
  match goal with |- maintained ?x ∧ _ => set (s' := x) end.
  assert (maintained s') as Hm'; [subst s' | split; [exact Hm' |]].
  2: split; [reflexivity | split; [| split; [| split; [| split; [| split; [| split]]]]]].
  - split; cbn.
    + intros j o Hj.
      destruct (decide (j < Z.to_nat p1)%nat) as [Hlt | Hge].
      * rewrite Hord, lookup_app_l in Hj by (rewrite length_take; unfold len in *; lia).
        rewrite lookup_take_lt in Hj by lia.
        destruct (Hprefix j o Hj ltac:(lia)) as (r & v & -> & _ & Hix & _ & Hh').
        exists r, v. auto.
      * assert (o ∈ arr1) as Ho.
        { assert (o ∈ newOrderedSpecialLines loc') as Ho'
            by (eapply list_elem_of_lookup_2; exact Hj).
          rewrite Hfilter in Ho'. apply list_elem_of_filter in Ho'. apply Ho'. }
        apply list_elem_of_lookup in Ho as [i Hi].
        destruct (Hval1 i o Hi) as (r & v & -> & _).
        destruct (Hidx j r Hj) as (w & Hw & Hix).
        { rewrite length_take. unfold len in *. lia. }
        exists r, w. auto.
    + rewrite Hfilter. apply NoDup_filter, Hnd1.
    + intros r Hr. inversion Hr.
    + constructor.
    + intros id r Hid.
      assert (Some r ∈ arr1 ∧ ∃ v, heap s !! r = Some v ∧ deleted v = false
                                   ∧ decorationId v = id) as (Hin & v & Hv & Hd & Hdec).
      { destruct (Hmap id r Hid) as [Hold_id | (Hin & Hrest)].
        - destruct (m_map s Hm id r Hold_id) as (Hin & Hrest). split; [apply Hold, Hin | exact Hrest].
        - split; [| exact Hrest]. exact (elem_of_sublist _ _ _ Hin (sublist_drop _ _)). }
      split.
      * apply Hin_new; [exact Hin |]. unfold slot_alive. rewrite Hv, Hd. reflexivity.
      * destruct (Hkeep r v Hv Hd) as (w & Hw & Hdw & Hdecw). exists w.
        split; [exact Hw |]. split; [exact Hdw | congruence].
    + discriminate.
    + intros j o Hj _.
      assert (o ∈ filter (λ o, slot_alive s o = true) arr1) as Ho.
      { rewrite <- Hfilter. eapply list_elem_of_lookup_2. exact Hj. }
      apply list_elem_of_filter in Ho as [Ha Ho].
      destruct o as [r|]; [| discriminate]. unfold slot_alive in *. cbn.
      destruct (heap s !! r) as [v|] eqn:Hv; [| discriminate].
      apply negb_true_iff in Ha. destruct (Hkeep r v Hv Ha) as (w & -> & -> & _). reflexivity.
    + intros _ o Ho. rewrite Hfilter in Ho.
      apply list_elem_of_filter in Ho as [Ha Ho].
      destruct o as [r|]; [| discriminate]. unfold slot_alive in *. cbn.
      destruct (heap s !! r) as [v|] eqn:Hv; [| discriminate].
      apply negb_true_iff in Ha. destruct (Hkeep r v Hv Ha) as (w & -> & -> & _). reflexivity.
    + discriminate.
    + reflexivity.
  - cbn. rewrite Hfilter, Hperm1. reflexivity.
  - cbn. rewrite Hfilter. apply sublist_filter_mono, Hsub1.
  - cbn. intros r v Hr Hv Hd. apply (Hknown r v); [| exact Hv | exact Hd].
    assert (Some r ∈ arr1) as Hin.
    { rewrite Hperm1. apply elem_of_app. right. apply list_elem_of_fmap_2. exact Hr. }
    apply list_elem_of_lookup in Hin as [i Hi].
    destruct (decide (Z.of_nat i < p1)) as [Hlt | Hge].
    + destruct (Hpre1 i Hlt) as [Heq _]. rewrite Heq in Hi.
      destruct (m_pending s Hm r Hr) as [_ Hnot]. destruct Hnot.
      eapply list_elem_of_lookup_2. exact Hi.
    + apply list_elem_of_lookup. exists (i - Z.to_nat p1)%nat. rewrite lookup_drop.
      replace (Z.to_nat p1 + (i - Z.to_nat p1))%nat with i by lia. exact Hi.
  - cbn. exact Hmono.
  - reflexivity.
  - cbn. intros r v Hv. destruct (Hheap r v Hv) as (w & Hw & Hreq & _). eauto.
  - intros recs Hres Hs. destruct (Hsorted1 recs Hres Hs) as (recs1 & Hres1 & Hs1).
    destruct (maintained_resolve s' Hm') as [recs' Hres']. exists recs'.
    split; [exact Hres' |]. apply sortedb_StronglySorted.
    apply (StronglySorted_sublist _ _ (lineNumber <$> recs1));
      [| apply sortedb_StronglySorted, Hs1].
    apply (resolve_lines (with_ordered arr1 s) s' _ _ Hres1 Hres').
    + cbn. rewrite Hfilter. apply sublist_filter.
    + cbn. intros r v Hv. destruct (Hheap r v Hv) as (w & Hw & (Hline & _) & _). eauto.
Qed.

(** ** Queries and [onLinesInserted] on a state in order *)

Lemma height_from_is_Some recs d k :
  (0 ≤ k < len recs ∨ ∃ p, k = - (p + 1) ∧ 0 ≤ p ≤ len recs) →
  is_Some (height_from recs d k).
Proof.
  intros [Hk | (p & -> & Hp)]; unfold height_from.
  - destruct (Z.leb_spec 0 k); [| lia].
    destruct (rec_get_is_Some recs k Hk) as [a ->]. eauto.
  - destruct (Z.leb_spec 0 (- (p + 1))); [lia | eauto].
Qed.

Lemma total_from_is_Some recs d n k :
  (0 ≤ k < len recs ∨ ∃ p, k = - (p + 1) ∧ 0 ≤ p ≤ len recs) →
  is_Some (total_from recs d n k).
Proof.
  intros [Hk | (p & -> & Hp)]; unfold total_from.
  - destruct (Z.leb_spec 0 k); [| lia].
    destruct (rec_get_is_Some recs k Hk) as [a ->]. eauto.
  - destruct (Z.leb_spec 0 (- (p + 1))); [lia |].
    destruct (Z.eqb_spec (- (p + 1)) (-1)); [eauto |].
    destruct (rec_get_is_Some recs (- (- (p + 1) + 1) - 1) ltac:(lia)) as [a ->]. eauto.
Qed.

Lemma queries_maintained s n :
  maintained s →
  ∃ h t s', commit s = Ok tt s'
            ∧ heightForLineNumber n s = Ok h s'
            ∧ totalHeightUntilLineNumber n s = Ok t s'
            ∧ maintained s'.
Proof.
  intros Hm. destruct (commit_spec s Hm) as (s' & Hcommit & Hm' & Hc & _).
  destruct (maintained_resolve s' Hm') as [recs Hres].
  destruct (_binarySearchOverSpecialLinesArray_bounds s' recs n Hres) as (k & Hk & Hb).
  rewrite (heightForLineNumber_after_commit s tt s' n Hcommit).
  rewrite (totalHeightUntilLineNumber_after_commit s tt s' n Hcommit).
  rewrite (heightForLineNumber_run s' recs n k Hc Hres Hk).
  rewrite (totalHeightUntilLineNumber_run s' recs n k Hc Hres Hk).
  destruct (height_from_is_Some recs (_defaultLineHeight s') k Hb) as [h ->].
  destruct (total_from_is_Some recs (_defaultLineHeight s') n k Hb) as [t ->].
  exists h, t, s'. auto.
Qed.

Lemma widen_backward_returns s recs key n : ∀ i acc,
  resolve s = Some recs → i < len recs → Z.of_nat n ≤ i + 1 →
  ∃ acc', widen_backward n i key acc s = Ok acc' s ∧ acc - Z.of_nat n ≤ acc' ≤ acc.
Proof.
  induction n as [|n IH]; intros i acc Hres Hi Hn; cbn [widen_backward].
  - exists acc. split; [reflexivity | lia].
  - unfold bind, gets. rewrite deref_record_at, (resolve_record_at s recs i Hres).
    destruct (rec_get_is_Some recs i ltac:(lia)) as [a Ha]. rewrite Ha.
    destruct (lineNumber a =? key).
    + destruct (IH (i - 1) (acc - 1) Hres ltac:(lia) ltac:(lia)) as (acc' & -> & Hacc).
      exists acc'. split; [reflexivity | lia].
    + exists acc. split; [reflexivity | lia].
Qed.

Lemma maintained_shift_frame s s' :
  maintained s → shift_frame s s' → _orderedSpecialLines s' = _orderedSpecialLines s →
  maintained s'.
Proof.
  intros Hm Hf Harr.
  pose proof (frame_map _ _ Hf) as Hmap. pose proof (frame_pending _ _ Hf) as Hpend.
  pose proof (frame_invalidIndex _ _ Hf) as Hinv. pose proof (frame_default _ _ Hf) as Hd.
  pose proof (frame_hasPending _ _ Hf) as Hp. pose proof (frame_heap _ _ Hf) as Hheap.
  clear Hf.
  assert (s' = with_heap (heap s') s) as Heq.
  { clear Hm Hheap. destruct s, s'; cbn in *. subst. reflexivity. }
  rewrite Heq. apply maintained_heap_change; [exact Hm |]. intros r. specialize (Hheap r).
  unfold ref in *. destruct (heap s !! r), (heap s' !! r); try exact Hheap.
  unfold same_but_lineNumber in Hheap. tauto.
Qed.

Lemma onLinesInserted_maintained s fromLineNumber toLineNumber :
  maintained s →
  ∃ s', onLinesInserted fromLineNumber toLineNumber s = Ok tt s' ∧ maintained s'
        ∧ committed s'.
Proof.
  intros Hm. destruct (commit_spec s Hm) as (s1 & Hcommit & Hm1 & Hc1 & _).
  destruct (maintained_resolve s1 Hm1) as [recs Hres].
  destruct (_binarySearchOverSpecialLinesArray_bounds s1 recs (fromLineNumber + 1) Hres)
    as (k & Hk & Hb).
  assert (∃ p, (if 0 <=? k
                then widen_backward (Z.to_nat k) (k - 1) fromLineNumber k
                else ret (- (k + 1))) s1 = Ok p s1 ∧ 0 ≤ p ≤ len recs) as (p & Hstart & Hp).
  { destruct Hb as [Hk0 | (q & -> & Hq)].
    - destruct (Z.leb_spec 0 k); [| lia].
      destruct (widen_backward_returns s1 recs fromLineNumber (Z.to_nat k) (k - 1) k Hres)
        as (p & Hw & Hp); [lia | lia |].
      exists p. split; [exact Hw | lia].
    - destruct (Z.leb_spec 0 (- (q + 1))); [lia |].
      exists q. split; [f_equal; lia | lia]. }
  unfold onLinesInserted.
  rewrite (bind_run _ _ _ _ _ Hcommit), (bind_run _ _ _ _ _ Hk), (bind_run _ _ _ _ _ Hstart).
  rewrite bind_gets.
  destruct (shift_lines_spec (toLineNumber - fromLineNumber + 1)
              (Z.to_nat (len (_orderedSpecialLines s1) - p)) p s1 recs Hres (m_nodup s1 Hm1))
    as (s' & Hshift & _); [lia | rewrite (resolve_len s1 recs Hres); lia |].
  pose proof (shift_lines_frame (Z.to_nat (len (_orderedSpecialLines s1) - p)) p
                (toLineNumber - fromLineNumber + 1) s1) as Hframe.
  rewrite Hshift in Hframe. destruct Hframe as [Hframe Harr].
  exists s'. split; [exact Hshift |]. split.
  - exact (maintained_shift_frame s1 s' Hm1 Hframe Harr).
  - unfold committed. rewrite (frame_hasPending _ _ Hframe). exact Hc1.
Qed.


(** ** Sequences of calls *)

Lemma maintained_set_defaultLineHeight s d :
  maintained s → maintained (with_defaultLineHeight d s).
Proof. intros [H1 H2 H3 H4 H5 H6 H7 H8 H9 H10]. split; assumption. Qed.

Lemma perform_maintained c s :
  maintained s → ∃ s', perform c s = Ok tt s' ∧ maintained s'.
Proof.
  intros Hm. destruct c as [d | id | id n h | n | n | a b | |]; cbn [perform].
  - eexists. split; [reflexivity |]. apply maintained_set_defaultLineHeight, Hm.
  - exact (maintained_remove s id Hm).
  - exact (maintained_insertOrChange s id n h Hm).
  - destruct (queries_maintained s n Hm) as (h & t & s' & _ & Hh & _ & Hm').
    exists s'. split; [| exact Hm']. rewrite (bind_run _ _ _ _ _ Hh). reflexivity.
  - destruct (queries_maintained s n Hm) as (h & t & s' & _ & _ & Ht & Hm').
    exists s'. split; [| exact Hm']. rewrite (bind_run _ _ _ _ _ Ht). reflexivity.
  - destruct (onLinesInserted_maintained s a b Hm) as (s' & H & Hm' & _). eauto.
  - exists s. split; [reflexivity | exact Hm].
  - destruct (commit_spec s Hm) as (s' & H & Hm' & _). eauto.
Qed.

Lemma perform_all_maintained cs : ∀ s,
  maintained s → ∃ s', perform_all cs s = Ok tt s' ∧ maintained s'.
Proof.
  induction cs as [|c cs IH]; intros s Hm; cbn [perform_all].
  - exists s. split; [reflexivity | exact Hm].
  - destruct (perform_maintained c s Hm) as (s1 & H1 & Hm1).
    rewrite (bind_run _ _ _ _ _ H1). exact (IH s1 Hm1).
Qed.

Lemma maintained_reached d cs s :
  perform_all cs (new_LineHeightManager d) = Ok tt s → maintained s.
Proof.
  intros H. destruct (perform_all_maintained cs _ (maintained_new d)) as (s' & H' & Hm).
  congruence.
Qed.


Lemma maintained_dirty_manager : maintained dirty_manager.
Proof. apply (maintained_reached 20 dirty_calls). vm_compute. reflexivity. Qed.

(** ** What the mutations record *)

Lemma insertOrChange_effect s id L H s' :
  insertOrChangeSpecialLineHeightUsingDecoration id L H s = Ok tt s' →
  _orderedSpecialLines s' = _orderedSpecialLines s
  ∧ _decorationIDToSpecialLine s' = _decorationIDToSpecialLine s
  ∧ _defaultLineHeight s' = _defaultLineHeight s
  ∧ _hasPending s' = true
  ∧ match _decorationIDToSpecialLine s !! id with
    | Some r =>
        _pendingSpecialLinesToInsert s' = _pendingSpecialLinesToInsert s
        ∧ ∃ v, heap s !! r = Some v
               ∧ heap s' = <[r := set_specialHeight H (set_lineNumber L v)]> (heap s)
    | None =>
        _pendingSpecialLinesToInsert s'
        = _pendingSpecialLinesToInsert s ++ [length (heap s)]
        ∧ heap s' = heap s ++ [new_SpecialLine id (-1) L H 0]
    end.
Proof.
  unfold insertOrChangeSpecialLineHeightUsingDecoration, bind, gets.
  destruct (_decorationIDToSpecialLine s !! id) as [r|] eqn:Hid.
  - unfold update, modify, deref. cbn. unfold ref in *.
    destruct (heap s !! r) as [v|] eqn:Hv.
    + rewrite !list_lookup_alter_eq, Hv. cbn. intros [= <-]. cbn.
      repeat (split; [reflexivity |]). exists v. split; [reflexivity |].
      apply list_eq. intros j. destruct (decide (j = r)) as [-> | Hne].
      * rewrite !list_lookup_alter_eq, Hv, list_lookup_insert_eq; [reflexivity |].
        exact (lookup_lt_Some _ _ _ Hv).
      * rewrite !list_lookup_alter_ne, list_lookup_insert_ne by congruence. reflexivity.
    + rewrite !list_lookup_alter_eq, Hv. cbn. discriminate.
  - cbn. intros [= <-]. cbn. repeat split.
Qed.

Lemma remove_effect s id s' :
  removeSpecialLineUsingDecoration id s = Ok tt s' →
  _orderedSpecialLines s' = _orderedSpecialLines s
  ∧ _pendingSpecialLinesToInsert s' = _pendingSpecialLinesToInsert s
  ∧ _decorationIDToSpecialLine s' = delete id (_decorationIDToSpecialLine s)
  ∧ _defaultLineHeight s' = _defaultLineHeight s
  ∧ match _decorationIDToSpecialLine s !! id with
    | Some r => _hasPending s' = true
                ∧ ∃ v, heap s !! r = Some v ∧ heap s' = <[r := set_deleted true v]> (heap s)
    | None => s' = s
    end.
Proof.
  unfold removeSpecialLineUsingDecoration, bind, gets.
  destruct (_decorationIDToSpecialLine s !! id) as [r|] eqn:Hid.
  - unfold update, modify, deref. cbn. unfold ref in *.
    destruct (heap s !! r) as [v|] eqn:Hv.
    + rewrite !list_lookup_alter_eq, Hv. cbn. intros [= <-]. cbn.
      repeat (split; [reflexivity |]). exists v. split; [reflexivity |].
      apply list_eq. intros j. destruct (decide (j = r)) as [-> | Hne].
      * rewrite !list_lookup_alter_eq, Hv, list_lookup_insert_eq; [reflexivity |].
        exact (lookup_lt_Some _ _ _ Hv).
      * rewrite !list_lookup_alter_ne, list_lookup_insert_ne by congruence. reflexivity.
    + rewrite !list_lookup_alter_eq, Hv. cbn. discriminate.
  - cbn. intros [= <-]. rewrite delete_id by exact Hid. auto.
Qed.

(** X8: on a state in order [insertOrChangeSpecialLineHeightUsingDecoration]
    returns and leaves a state in order.  It only records the request: the
    array, the map and the default height stay as they are and the flag is
    raised; for an identifier the map knows, the line and the height of its
    object are overwritten in place, and otherwise a fresh object with the
    index [-1] is queued. *)
Theorem insertOrChange_records_request s id L H :
  maintained s →
  ∃ s', insertOrChangeSpecialLineHeightUsingDecoration id L H s = Ok tt s'
        ∧ maintained s'
        ∧ _orderedSpecialLines s' = _orderedSpecialLines s
        ∧ _decorationIDToSpecialLine s' = _decorationIDToSpecialLine s
        ∧ _defaultLineHeight s' = _defaultLineHeight s
        ∧ _hasPending s' = true
        ∧ match _decorationIDToSpecialLine s !! id with
          | Some r =>
              _pendingSpecialLinesToInsert s' = _pendingSpecialLinesToInsert s
              ∧ ∃ v, heap s !! r = Some v
                     ∧ heap s' = <[r := set_specialHeight H (set_lineNumber L v)]> (heap s)
          | None =>
              _pendingSpecialLinesToInsert s'
              = _pendingSpecialLinesToInsert s ++ [length (heap s)]
              ∧ heap s' = heap s ++ [new_SpecialLine id (-1) L H 0]
          end.
Proof.
  intros Hm. destruct (maintained_insertOrChange s id L H Hm) as (s' & Hrun & Hm').
  exists s'. split; [exact Hrun |]. split; [exact Hm' |].
  exact (insertOrChange_effect s id L H s' Hrun).
Qed.

Lemma insertOrChange_records_request_witness :
  ∃ s', insertOrChangeSpecialLineHeightUsingDecoration "C" 7 35 dirty_manager = Ok tt s'
        ∧ maintained s'.
Proof.
  destruct (insertOrChange_records_request dirty_manager "C" 7 35) as (s' & Hrun & Hm' & _).
  - exact maintained_dirty_manager.
  - exists s'. split; assumption.
Defined.

(** X9: on a state in order [removeSpecialLineUsingDecoration] returns and
    leaves a state in order.  The identifier leaves the map at once; the
    array and the queue keep their slots; the object of a known identifier
    becomes a tombstone and the flag is raised, and for an unknown
    identifier nothing changes at all. *)
Theorem remove_leaves_tombstone s id :
  maintained s →
  ∃ s', removeSpecialLineUsingDecoration id s = Ok tt s'
        ∧ maintained s'
        ∧ _orderedSpecialLines s' = _orderedSpecialLines s
        ∧ _pendingSpecialLinesToInsert s' = _pendingSpecialLinesToInsert s
        ∧ _decorationIDToSpecialLine s' = delete id (_decorationIDToSpecialLine s)
        ∧ _defaultLineHeight s' = _defaultLineHeight s
        ∧ match _decorationIDToSpecialLine s !! id with
          | Some r => _hasPending s' = true
                      ∧ ∃ v, heap s !! r = Some v
                             ∧ heap s' = <[r := set_deleted true v]> (heap s)
          | None => s' = s
          end.
Proof.
  intros Hm. destruct (maintained_remove s id Hm) as (s' & Hrun & Hm').
  exists s'. split; [exact Hrun |]. split; [exact Hm' |].
  exact (remove_effect s id s' Hrun).
Qed.

Lemma remove_leaves_tombstone_witness :
  ∃ s', removeSpecialLineUsingDecoration "B" dirty_manager = Ok tt s' ∧ maintained s'.
Proof.
  destruct (remove_leaves_tombstone dirty_manager "B") as (s' & Hrun & Hm' & _).
  - exact maintained_dirty_manager.
  - exists s'. split; assumption.
Defined.


(** X10: on a state in order [commit] returns, and the state it leaves is
    in order again and committed.  The new array holds exactly the live
    slots of the old array and of the queue, each once; the live slots of
    the old array keep their relative order; every slot of the new array is
    live; the queue is empty; no identifier leaves the map and the
    identifier of every live queued record is in it. *)
Theorem commit_keeps_live_records s :
  maintained s →
  ∃ s', commit s = Ok tt s'
        ∧ maintained s' ∧ committed s'
        ∧ _orderedSpecialLines s'
          ≡ₚ filter (λ o, slot_alive s o = true)
               (_orderedSpecialLines s ++ (Some <$> _pendingSpecialLinesToInsert s))
        ∧ filter (λ o, slot_alive s o = true) (_orderedSpecialLines s)
          `sublist_of` _orderedSpecialLines s'
        ∧ (∀ o, o ∈ _orderedSpecialLines s' → slot_alive s' o = true)
        ∧ _pendingSpecialLinesToInsert s' = []
        ∧ (∀ id, is_Some (_decorationIDToSpecialLine s !! id) →
                 is_Some (_decorationIDToSpecialLine s' !! id))
        ∧ (∀ (r : ref) v, r ∈ _pendingSpecialLinesToInsert s → heap s !! r = Some v →
             deleted v = false →
             is_Some (_decorationIDToSpecialLine s' !! decorationId v)).
Proof.
  intros Hm.
  destruct (commit_spec s Hm) as (s' & Hrun & Hm' & Hc & Hperm & Hsub & Hnew & Hold & _).
  exists s'. repeat (split; [assumption |]).
  split; [exact (m_alive_idle s' Hm' Hc) |]. split; [exact (m_idle s' Hm' Hc) |].
  split; assumption.
Qed.

Lemma commit_keeps_live_records_witness :
  ∃ s', commit dirty_manager = Ok tt s' ∧ maintained s' ∧ committed s'.
Proof.
  destruct (commit_keeps_live_records dirty_manager maintained_dirty_manager)
    as (s' & Hrun & Hm' & Hc & _).
  exists s'. auto.
Defined.

(** X11: [commit] keeps the line order: on a state in order whose array is
    sorted by line number, the array it leaves is sorted by line number,
    whatever the queue holds. *)
Theorem commit_keeps_line_order s recs :
  maintained s → resolve s = Some recs → sortedb recs = true →
  ∃ s' recs', commit s = Ok tt s' ∧ resolve s' = Some recs' ∧ sortedb recs' = true.
Proof.
  intros Hm Hres Hs.
  destruct (commit_spec s Hm) as (s' & Hrun & _ & _ & _ & _ & _ & _ & _ & _ & Hsorted).
  destruct (Hsorted recs Hres Hs) as (recs' & Hres' & Hs'). eauto.
Qed.

Lemma commit_keeps_line_order_witness :
  ∃ s' recs', commit dirty_manager = Ok tt s' ∧ resolve s' = Some recs'
              ∧ sortedb recs' = true.
Proof.
  apply (commit_keeps_line_order dirty_manager
           [mkSpecialLine 0 5 25 80 40 "B" false; mkSpecialLine 1 5 40 80 40 "A" true;
            mkSpecialLine 2 9 30 180 30 "C" false]).
  - exact maintained_dirty_manager.
  - vm_compute. reflexivity.
  - reflexivity.
Defined.

(** X12: on a state in order both queries return; each leaves the state that
    [commit] leaves, which is in order. *)
Theorem queries_never_fail s n :
  maintained s →
  ∃ h t s', heightForLineNumber n s = Ok h s'
            ∧ totalHeightUntilLineNumber n s = Ok t s'
            ∧ commit s = Ok tt s'
            ∧ maintained s'.
Proof.
  intros Hm. destruct (queries_maintained s n Hm) as (h & t & s' & Hc & Hh & Ht & Hm').
  exists h, t, s'. auto.
Qed.

Lemma queries_never_fail_witness :
  ∃ h t s', heightForLineNumber 5 dirty_manager = Ok h s'
            ∧ totalHeightUntilLineNumber 5 dirty_manager = Ok t s'.
Proof.
  destruct (queries_never_fail dirty_manager 5 maintained_dirty_manager)
    as (h & t & s' & Hh & Ht & _).
  exists h, t, s'. auto.
Defined.

(** X13: on a state in order [onLinesInserted] returns, whatever the range,
    and leaves a state that is in order and committed. *)
Theorem onLinesInserted_never_fails s fromLineNumber toLineNumber :
  maintained s →
  ∃ s', onLinesInserted fromLineNumber toLineNumber s = Ok tt s'
        ∧ maintained s' ∧ committed s'.
Proof. exact (onLinesInserted_maintained s fromLineNumber toLineNumber). Qed.

Lemma onLinesInserted_never_fails_witness :
  ∃ s', onLinesInserted 5 6 dirty_manager = Ok tt s' ∧ maintained s' ∧ committed s'.
Proof.
  exact (onLinesInserted_never_fails dirty_manager 5 6 maintained_dirty_manager).
Defined.

(** X14: a client that starts from a fresh manager and calls the entry
    points other than [onLinesDeleted], in any order and with any
    arguments, never sees a call throw or hang, and the state stays in
    order throughout. *)
Theorem calls_never_fail d cs :
  ∃ s, perform_all cs (new_LineHeightManager d) = Ok tt s ∧ maintained s.
Proof. exact (perform_all_maintained cs _ (maintained_new d)). Qed.


(** ** The values a commit stores *)

Lemma store_put_lookup_ne s (r p : ref) w :
  p ≠ r → heap (store_put s r w) !! p = heap s !! p.
Proof. intros Hne. cbn. unfold ref in *. apply list_lookup_insert_ne. congruence. Qed.

Lemma resolve_put s cur (i : nat) (r : ref) w :
  resolve s = Some cur → NoDup (_orderedSpecialLines s) →
  _orderedSpecialLines s !! i = Some (Some r) →
  resolve (store_put s r w) = Some (<[i := w]> cur).
Proof.
  intros Hres Hnd Hi.
  destruct (lookup_lt_is_Some_2 cur i) as [v Hv].
  { pose proof (resolve_len s cur Hres). apply lookup_lt_Some in Hi. unfold len in *. lia. }
  pose proof Hv as Hv'. rewrite (resolve_lookup s cur i Hres), Hi in Hv'.
  rewrite <- (alter_is_put s r (λ _, w) v Hv').
  rewrite (resolve_alter s cur i r (λ _, w) Hres Hnd Hi). f_equal.
  apply list_eq. intros j. destruct (decide (j = i)) as [-> | Hne].
  - rewrite list_lookup_alter_eq, Hv, list_lookup_insert_eq by exact (lookup_lt_Some _ _ _ Hv).
    reflexivity.
  - rewrite list_lookup_alter_ne, list_lookup_insert_ne by congruence. reflexivity.
Qed.

Lemma scan_max_same_request l l' line : ∀ acc,
  Forall2 same_request l l' → scan_max l line acc = scan_max l' line acc.
Proof.
  intros acc H. revert acc.
  induction H as [| a a' l l' (Hl & Hh & _ & Hd) _ IH]; intros acc; [reflexivity |].
  cbn [scan_max]. rewrite Hl, Hh, Hd.
  destruct (deleted a); [apply IH |].
  destruct (negb (lineNumber a =? line)); [reflexivity | apply IH].
Qed.

Lemma commit_max_spec s cur line n : ∀ j acc,
  resolve s = Some cur → 0 ≤ j → j + Z.of_nat n = len cur →
  commit_max n j line acc s = Ok (scan_max (drop (Z.to_nat j) cur) line acc) s.
Proof.
  induction n as [|n IH]; intros j acc Hres Hj Hn; cbn [commit_max].
  - rewrite drop_ge by (unfold len in *; lia). reflexivity.
  - unfold bind, gets. rewrite deref_record_at, (resolve_record_at s cur j Hres).
    destruct (rec_get_is_Some cur j ltac:(lia)) as [a Ha]. rewrite Ha.
    apply rec_get_Some in Ha as [_ Ha]. rewrite (drop_S _ _ _ Ha). cbn [scan_max].
    replace (S (Z.to_nat j)) with (Z.to_nat (j + 1)) by lia.
    destruct (deleted a); [apply IH; [assumption | lia | lia] |].
    destruct (negb (lineNumber a =? line)); [reflexivity |].
    apply IH; [assumption | lia | lia].
Qed.

Lemma foldr_max_shift x acc hs :
  foldr Z.max (Z.max acc x) hs = Z.max x (foldr Z.max acc hs).
Proof. induction hs as [|h hs IH]; cbn [foldr]; [lia | rewrite IH; lia]. Qed.

Lemma scan_max_heights B line : ∀ acc,
  no_deletedb B = true → sortedb B = true →
  Forall (λ a, line ≤ lineNumber a) B →
  scan_max B line acc = foldr Z.max acc (heights_on_line B line).
Proof.
  induction B as [|a B IH]; intros acc Hnd Hs Hge; [reflexivity |].
  cbn [no_deletedb forallb] in Hnd. apply andb_prop in Hnd as [Hda Hnd].
  apply negb_true_iff in Hda. apply Forall_cons in Hge as [Hga Hge].
  assert (sortedb B = true) as HsB.
  { destruct B; [reflexivity |]. cbn [sortedb] in Hs. apply andb_prop in Hs as [_ Hs]. exact Hs. }
  cbn [scan_max]. rewrite Hda. unfold heights_on_line. rewrite filter_cons.
  destruct (Z.eqb_spec (lineNumber a) line) as [Heq | Hne]; cbn [negb].
  - destruct (decide (lineNumber a = line)); [| contradiction].
    cbn [fmap list_fmap foldr]. rewrite (IH _ Hnd HsB Hge), foldr_max_shift. reflexivity.
  - destruct (decide (lineNumber a = line)); [contradiction |].
    rewrite filter_none; [reflexivity |].
    apply sortedb_StronglySorted in Hs. cbn [fmap list_fmap] in Hs.
    apply StronglySorted_inv in Hs as [_ Hall]. rewrite Forall_fmap in Hall.
    eapply Forall_impl; [exact Hall |]. cbn. intros b Hb. lia.
Qed.

(** At the first slot of a run the inner loop of [commit] finds the
    largest height requested for the line. *)
Lemma scan_max_spec reqs d (i : nat) v :
  sortedb reqs = true → no_deletedb reqs = true → reqs !! i = Some v →
  (∀ p, (0 < i)%nat → reqs !! (i - 1)%nat = Some p → lineNumber p ≠ lineNumber v) →
  scan_max (drop i reqs) (lineNumber v) (specialHeight v)
  = height_spec reqs d (lineNumber v).
Proof.
  intros Hs Hnd Hv Hprev.
  rewrite <- (take_drop i reqs) in Hs, Hnd.
  destruct (sortedb_app_inv _ _ Hs) as [_ HsB].
  unfold no_deletedb in Hnd. rewrite forallb_app in Hnd. apply andb_prop in Hnd as [_ HndB].
  assert (Forall (λ a, lineNumber a < lineNumber v) (take i reqs)) as HA.
  { apply Forall_forall. intros a Ha. apply elem_of_take in Ha as (j & Hj & Hlt).
    destruct i as [|i]; [lia |].
    destruct (lookup_lt_is_Some_2 reqs i) as [p Hp]; [apply lookup_lt_Some in Hv; lia |].
    rewrite take_drop in Hs.
    specialize (Hprev p ltac:(lia)). replace (S i - 1)%nat with i in Hprev by lia.
    specialize (Hprev Hp).
    pose proof (sortedb_lookup reqs Hs (Z.of_nat j) (Z.of_nat i) a p) as H1.
    pose proof (sortedb_lookup reqs Hs (Z.of_nat i) (Z.of_nat (S i)) p v) as H2.
    unfold rec_get in H1, H2.
    destruct (Z.ltb_spec (Z.of_nat j) 0); [lia |].
    destruct (Z.ltb_spec (Z.of_nat i) 0); [lia |].
    destruct (Z.ltb_spec (Z.of_nat (S i)) 0); [lia |].
    rewrite !Nat2Z.id in *. specialize (H1 Hj Hp ltac:(lia)). specialize (H2 Hp Hv ltac:(lia)).
    lia. }
  assert (Forall (λ a, lineNumber v ≤ lineNumber a) (drop i reqs)) as HB.
  { rewrite take_drop in Hs. apply Forall_lookup_2. intros j a Hj. rewrite lookup_drop in Hj.
    pose proof (sortedb_lookup reqs Hs (Z.of_nat i) (Z.of_nat (i + j)) v a) as H1.
    unfold rec_get in H1.
    destruct (Z.ltb_spec (Z.of_nat i) 0); [lia |].
    destruct (Z.ltb_spec (Z.of_nat (i + j)) 0); [lia |].
    rewrite !Nat2Z.id in *. exact (H1 Hv Hj ltac:(lia)). }
  rewrite (scan_max_heights _ _ _ HndB HsB HB).
  unfold height_spec, heights_on_line.
  rewrite <- (take_drop i reqs) at 2. rewrite filter_app.
  rewrite (filter_none _ (take i reqs)); [| eapply Forall_impl; [exact HA |]; cbn; lia].
  cbn [app]. rewrite (drop_S _ _ _ Hv), filter_cons.
  destruct (decide (lineNumber v = lineNumber v)); [| contradiction].
  cbn [fmap list_fmap foldr].
  destruct (foldr_max_spec (specialHeight v)
              (specialHeight <$> filter (λ r, lineNumber r = lineNumber v) (drop (S i) reqs)))
    as [_ Hmax].
  specialize (Hmax _ (list_elem_of_here _ _)). lia.
Qed.

Lemma same_request_insert cur (i : nat) v w :
  cur !! i = Some v → same_request v w → Forall2 same_request cur (<[i := w]> cur).
Proof.
  intros Hv Hreq. apply Forall2_same_length_lookup_2; [rewrite length_insert; reflexivity |].
  intros j a b Ha Hb. destruct (decide (j = i)) as [-> | Hne].
  - rewrite list_lookup_insert_eq in Hb by exact (lookup_lt_Some _ _ _ Hv).
    assert (a = v) as -> by congruence. injection Hb as <-. exact Hreq.
  - rewrite list_lookup_insert_ne in Hb by congruence.
    assert (a = b) as -> by congruence. apply same_request_refl.
Qed.

Lemma arr_get_nat (arr : list (option ref)) (i : nat) (r : ref) :
  arr !! i = Some (Some r) → arr_get arr (Z.of_nat i) = Some r.
Proof.
  intros Hi. unfold arr_get. destruct (Z.ltb_spec (Z.of_nat i) 0); [lia |].
  rewrite Nat2Z.id, Hi. reflexivity.
Qed.

Lemma commit_step_values s cur (i : nat) loc (r : ref) v :
  resolve s = Some cur → NoDup (_orderedSpecialLines s) →
  _orderedSpecialLines s !! i = Some (Some r) → cur !! i = Some v → deleted v = false →
  ∃ w, commit_step (Z.of_nat i) loc s
       = Ok (mkLocals (<[decorationId v := r]> (newDecorationIDToSpecialLineMap loc))
               (newOrderedSpecialLines loc ++ [Some r]) (numberOfDeletions loc))
            (store_put s r w)
       ∧ index w = Z.of_nat i - numberOfDeletions loc ∧ same_request v w
       ∧ match i with
         | O => maximumSpecialHeight w = scan_max cur (lineNumber v) (specialHeight v)
                ∧ prefixSum w = _defaultLineHeight s * (lineNumber v - 1)
         | S i' =>
             ∀ p, cur !! i' = Some p →
               if lineNumber p =? lineNumber v
               then maximumSpecialHeight w = maximumSpecialHeight p
                    ∧ prefixSum w = prefixSum p
               else maximumSpecialHeight w
                    = scan_max (drop i cur) (lineNumber v) (specialHeight v)
                    ∧ prefixSum w = prefixSum p + maximumSpecialHeight p
                                    + _defaultLineHeight s * (lineNumber v - lineNumber p - 1)
         end.
Proof.
  intros Hres Hnd Hi Hcur Hd.
  assert (heap s !! r = Some v) as Hv.
  { rewrite (resolve_lookup s cur i Hres), Hi in Hcur. exact Hcur. }
  pose proof (lookup_lt_Some _ _ _ Hv) as Hr.
  pose proof (arr_get_nat _ i r Hi) as Hget.
  set (v1 := set_index (Z.of_nat i - numberOfDeletions loc) v).
  assert (∀ acc, commit_max (Z.to_nat (len (_orderedSpecialLines s) - Z.of_nat i)) (Z.of_nat i)
                   (lineNumber v1) acc (store_put s r v1)
                 = Ok (scan_max (drop i cur) (lineNumber v) acc) (store_put s r v1)) as Hmax.
  { intros acc.
    rewrite (commit_max_spec (store_put s r v1) (<[i := v1]> cur) (lineNumber v1));
      [| apply resolve_put; assumption | lia
       | unfold len; rewrite length_insert; pose proof (resolve_len s cur Hres);
         apply lookup_lt_Some in Hi; unfold len in *; lia].
    rewrite Nat2Z.id. f_equal. symmetry. apply scan_max_same_request.
    apply Forall2_drop, (same_request_insert cur i v v1 Hcur). repeat split. }
  unfold commit_step. rewrite bind_gets, Hget, (bind_deref r v _ s Hv), Hd.
  rewrite (bind_update r _ v _ s Hv). fold v1.
  destruct i as [|i'].
  - change (0 <? Z.of_nat 0) with false. cbn match.
    rewrite bind_ret. unfold bind at 1.
    rewrite (bind_deref r v1 _ _ (store_put_lookup s r v1 Hr)).
    unfold bind at 1. rewrite Hmax.
    rewrite (bind_update_put r _ v1 _ s Hr).
    set (v2 := set_maximumSpecialHeight _ v1).
    rewrite bind_gets.
    rewrite (bind_deref r v2 _ _ (store_put_lookup s r v2 Hr)).
    rewrite bind_ret.
    rewrite (update_put s r _ v2 Hr).
    set (v3 := set_prefixSum _ v2).
    rewrite (bind_deref r v3 _ _ (store_put_lookup s r v3 Hr)).
    exists v3. split; [reflexivity |]. split; [reflexivity |]. split; [repeat split |].
    split; reflexivity.
  - destruct (lookup_lt_is_Some_2 cur i') as [pv Hpv]; [apply lookup_lt_Some in Hcur; lia |].
    destruct (resolve_slot s cur i' pv Hres Hpv) as (p & Hp & Hhp).
    assert (p ≠ r) as Hne.
    { intros ->. pose proof (NoDup_lookup _ _ _ _ Hnd Hi Hp). lia. }
    destruct (Z.ltb_spec 0 (Z.of_nat (S i'))); [| lia].
    replace (Z.of_nat (S i') - 1) with (Z.of_nat i') by lia.
    rewrite (arr_get_nat _ i' p Hp).
    assert (∀ w, heap (store_put s r w) !! p = Some pv) as Hpw.
    { intros w. rewrite store_put_lookup_ne by exact Hne. exact Hhp. }
    unfold bind at 1.
    rewrite (bind_deref p pv _ _ (Hpw v1)).
    rewrite (bind_deref r v1 _ _ (store_put_lookup s r v1 Hr)). unfold ret at 1.
    change (lineNumber v1) with (lineNumber v).
    destruct (lineNumber pv =? lineNumber v) eqn:Hsame.
    + unfold bind at 1.
      rewrite (bind_deref p pv _ _ (Hpw v1)).
      rewrite (bind_update_put r _ v1 _ s Hr).
      set (v2 := set_maximumSpecialHeight _ v1).
      rewrite (bind_deref p pv _ _ (Hpw v2)).
      rewrite (update_put s r _ v2 Hr).
      set (v3 := set_prefixSum _ v2).
      rewrite (bind_deref r v3 _ _ (store_put_lookup s r v3 Hr)).
      exists v3. split; [reflexivity |]. split; [reflexivity |]. split; [repeat split |].
      intros p0 Hp0. assert (p0 = pv) as -> by congruence. rewrite Hsame.
      split; reflexivity.
    + unfold bind at 1.
      rewrite (bind_deref r v1 _ _ (store_put_lookup s r v1 Hr)).
      unfold bind at 1. change (lineNumber v) with (lineNumber v1) at 1. rewrite Hmax.
      rewrite (bind_update_put r _ v1 _ s Hr).
      set (v2 := set_maximumSpecialHeight _ v1).
      rewrite bind_gets.
      rewrite (bind_deref r v2 _ _ (store_put_lookup s r v2 Hr)).
      unfold bind at 1.
      rewrite (bind_deref p pv _ _ (Hpw v2)). unfold ret at 1.
      rewrite (update_put s r _ v2 Hr).
      set (v3 := set_prefixSum _ v2).
      rewrite (bind_deref r v3 _ _ (store_put_lookup s r v3 Hr)).
      exists v3. split; [reflexivity |]. split; [reflexivity |]. split; [repeat split |].
      intros p0 Hp0. assert (p0 = pv) as -> by congruence.
      change (lineNumber v1) with (lineNumber v). rewrite Hsame.
      split; reflexivity.
Qed.

Lemma same_request_trans a b c : same_request a b → same_request b c → same_request a c.
Proof. unfold same_request. intros (? & ? & ? & ?) (? & ? & ? & ?). repeat split; congruence. Qed.

Lemma same_request_flip l l' : Forall2 same_request l l' → Forall2 same_request l' l.
Proof.
  induction 1 as [| a b l l' (? & ? & ? & ?) _ IH]; constructor; [| exact IH].
  repeat split; congruence.
Qed.

Lemma no_deletedb_lookup recs (i : nat) a :
  no_deletedb recs = true → recs !! i = Some a → deleted a = false.
Proof.
  intros Hnd Ha. unfold no_deletedb in Hnd. rewrite forallb_forall in Hnd.
  apply negb_true_iff, Hnd, list_elem_of_In. exact (list_elem_of_lookup_2 _ _ _ Ha).
Qed.

Lemma commit_rebuild_values arr reqs d n : ∀ (i : nat) s loc cur,
  _orderedSpecialLines s = arr → _defaultLineHeight s = d →
  NoDup arr → resolve s = Some cur → Forall2 same_request reqs cur →
  sortedb reqs = true → no_deletedb reqs = true →
  (i + n = length arr)%nat → numberOfDeletions loc = 0 →
  rebuilt_upto d reqs cur (Z.of_nat i) →
  ∃ loc' s' cur',
    commit_rebuild n (Z.of_nat i) loc s = Ok loc' s'
    ∧ _orderedSpecialLines s' = arr ∧ _defaultLineHeight s' = d
    ∧ newOrderedSpecialLines loc' = newOrderedSpecialLines loc ++ drop i arr
    ∧ resolve s' = Some cur' ∧ Forall2 same_request reqs cur'
    ∧ rebuilt_upto d reqs cur' (Z.of_nat (length arr)).
Proof.
  induction n as [|n IH]; intros i s loc cur Harr Hd Hnd Hres Hreq Hs Hdel Hn Hzero Hgood;
    cbn [commit_rebuild].
  - exists loc, s, cur. rewrite drop_ge, app_nil_r by lia.
    replace (length arr) with i by lia. auto 10.
  - destruct (lookup_lt_is_Some_2 cur i) as [v Hv].
    { pose proof (resolve_len s cur Hres). unfold len in *. rewrite Harr in *. lia. }
    destruct (resolve_slot s cur i v Hres Hv) as (r & Hi & Hhv).
    destruct (Forall2_lookup_r _ _ _ _ _ Hreq Hv) as (q & Hq & Hqv).
    assert (deleted v = false) as Hdv.
    { destruct Hqv as (_ & _ & _ & ->). exact (no_deletedb_lookup reqs i q Hdel Hq). }
    rewrite <- Harr in Hnd.
    destruct (commit_step_values s cur i loc r v Hres Hnd Hi Hv Hdv)
      as (w & Hstep & Hidx & Hvw & Hvals).
    rewrite (bind_run _ _ _ _ _ Hstep).
    replace (Z.of_nat i + 1) with (Z.of_nat (S i)) by lia.
    assert (lineNumber w = lineNumber q ∧ specialHeight w = specialHeight q) as [Hlw Hhw].
    { destruct Hqv as (? & ? & _), Hvw as (? & ? & _). split; congruence. }
    assert (lineNumber v = lineNumber q ∧ specialHeight v = specialHeight q) as [Hlv Hhv'].
    { destruct Hqv as (? & ? & _). split; congruence. }
    destruct (IH (S i) (store_put s r w)
                (mkLocals (<[decorationId v := r]> (newDecorationIDToSpecialLineMap loc))
                   (newOrderedSpecialLines loc ++ [Some r]) (numberOfDeletions loc))
                (<[i := w]> cur))
      as (loc' & s' & cur' & Hrun & Harr' & Hd' & Hord & Hres' & Hreq' & Hgood').
    + cbn. exact Harr.
    + cbn. exact Hd.
    + rewrite <- Harr. exact Hnd.
    + apply resolve_put; assumption.
    + eapply Forall2_trans; [| exact Hreq | exact (same_request_insert cur i v w Hv Hvw)].
      intros a b c. apply same_request_trans.
    + exact Hs.
    + exact Hdel.
    + lia.
    + cbn. exact Hzero.
    + intros j a Hj Ha. destruct (decide (j = i)) as [-> | Hne].
      * rewrite list_lookup_insert_eq in Ha by exact (lookup_lt_Some _ _ _ Hv).
        injection Ha as <-. split; [lia |].
        destruct i as [|i'].
        -- destruct Hvals as [Hmax Hpre]. rewrite Hlw. split; [| rewrite Hpre, Hd; congruence].
           rewrite Hmax, Hlv, Hhv'.
           rewrite (scan_max_same_request cur reqs); [| ].
           ++ rewrite <- (drop_0 reqs) at 1. apply scan_max_spec; [assumption.. |]. lia.
           ++ apply same_request_flip, Hreq.
        -- destruct (lookup_lt_is_Some_2 cur i') as [p Hp];
             [apply lookup_lt_Some in Hv; lia |].
           destruct (Forall2_lookup_r _ _ _ _ _ Hreq Hp) as (q' & Hq' & Hq'p).
           specialize (Hvals p Hp).
           destruct (Hgood i' p ltac:(lia) Hp) as (_ & Hpmax & _).
           assert (∀ p0, <[S i' := w]> cur !! i' = Some p0 → p0 = p) as Hsame.
           { intros p0 Hp0. rewrite list_lookup_insert_ne in Hp0 by lia. congruence. }
           destruct (Z.eqb_spec (lineNumber p) (lineNumber v)) as [Heq | Hneq].
           ++ destruct Hvals as [Hmax Hpre]. split; [rewrite Hmax, Hpmax; congruence |].
              intros p0 Hp0. rewrite (Hsame p0 Hp0). unfold pair_ok.
              rewrite Hlw, <- Hlv. destruct (Z.eqb_spec (lineNumber p) (lineNumber v));
                [auto | contradiction].
           ++ destruct Hvals as [Hmax Hpre]. split.
              ** rewrite Hmax, Hlv, Hhv', Hlw.
                 rewrite (scan_max_same_request (drop (S i') cur) (drop (S i') reqs)).
                 --- apply scan_max_spec; [assumption.. |].
                     intros p1 _ Hp1. replace (S i' - 1)%nat with i' in Hp1 by lia.
                     assert (p1 = q') as -> by congruence.
                     destruct Hq'p as (Hlq' & _). congruence.
                 --- apply Forall2_drop, same_request_flip, Hreq.
              ** intros p0 Hp0. rewrite (Hsame p0 Hp0). unfold pair_ok.
                 rewrite Hlw, <- Hlv. destruct (Z.eqb_spec (lineNumber p) (lineNumber v));
                   [contradiction |]. rewrite Hpre, Hd. reflexivity.
      * rewrite list_lookup_insert_ne in Ha by congruence.
        destruct (Hgood j a ltac:(lia) Ha) as (H1 & H2 & H3).
        split; [exact H1 |]. split; [exact H2 |].
        destruct j as [|j']; [exact H3 |].
        intros p Hp. rewrite list_lookup_insert_ne in Hp by lia. exact (H3 p Hp).
    + exists loc', s', cur'. split; [exact Hrun |]. split; [exact Harr' |].
      split; [exact Hd' |]. split; [| auto].
      rewrite Hord. cbn [newOrderedSpecialLines].
      rewrite <- Harr, (drop_S _ _ _ Hi), <- app_assoc. reflexivity.
Qed.

Lemma same_request_fmap l l' :
  Forall2 same_request l l' →
  lineNumber <$> l' = lineNumber <$> l ∧ deleted <$> l' = deleted <$> l
  ∧ ∀ n, heights_on_line l' n = heights_on_line l n.
Proof.
  induction 1 as [| a b l l' (Hl & Hh & _ & Hd) _ (IH1 & IH2 & IH3)].
  - split; [reflexivity |]. split; reflexivity.
  - cbn [fmap list_fmap]. rewrite Hl, Hd, IH1, IH2. split; [reflexivity |].
    split; [reflexivity |]. intros n. unfold heights_on_line in *.
    rewrite !filter_cons, Hl.
    destruct (decide (lineNumber a = n)); cbn [fmap list_fmap]; rewrite IH3; congruence.
Qed.

Lemma chainb_intro d cur :
  (∀ (i : nat) a b, cur !! i = Some a → cur !! S i = Some b → pair_ok d a b) →
  chainb d cur = true.
Proof.
  induction cur as [|a tl IH]; intros H; [reflexivity |].
  destruct tl as [|b tl']; [reflexivity |]. cbn [chainb].
  apply andb_true_intro. split.
  - specialize (H O a b eq_refl eq_refl). unfold pair_ok in H.
    destruct (lineNumber a =? lineNumber b).
    + destruct H as [-> ->]. rewrite !Z.eqb_refl. reflexivity.
    + apply Z.eqb_eq. exact H.
  - apply IH. intros i x y Hx Hy. exact (H (S i) x y Hx Hy).
Qed.

Lemma run_maxb_intro d cur :
  (∀ a, a ∈ cur → maximumSpecialHeight a = height_spec cur d (lineNumber a)) →
  run_maxb cur = true.
Proof.
  intros H. unfold run_maxb. apply forallb_forall. intros r Hr.
  apply list_elem_of_In in Hr. specialize (H r Hr). unfold height_spec in H.
  assert (specialHeight r ∈ heights_on_line cur (lineNumber r)) as Hin.
  { unfold heights_on_line. apply list_elem_of_fmap_2, list_elem_of_filter. auto. }
  destruct (heights_on_line cur (lineNumber r)) as [|h t] eqn:E; [inversion Hin |].
  destruct (foldr_max_spec h t) as [Hmem Hub]. rewrite <- H, <- E in *.
  apply andb_true_intro. split.
  - apply forallb_forall. intros r' Hr'. apply list_elem_of_In in Hr'.
    destruct (Z.eqb_spec (lineNumber r') (lineNumber r)) as [Heq | Hne]; [| reflexivity].
    cbn [negb orb]. apply Z.leb_le, Hub. unfold heights_on_line.
    apply list_elem_of_fmap_2, list_elem_of_filter. auto.
  - apply existsb_exists. unfold heights_on_line in Hmem.
    apply list_elem_of_fmap in Hmem as (r' & Hh & Hr').
    apply list_elem_of_filter in Hr' as [Hl Hr'].
    exists r'. split; [apply list_elem_of_In, Hr' |].
    apply andb_true_intro. split; [apply Z.eqb_eq, Hl | apply Z.eqb_eq; congruence].
Qed.

(** Records with the right values in every slot satisfy the invariants of
    the data model. *)
Lemma rebuilt_consistent d reqs cur :
  Forall2 same_request reqs cur → sortedb reqs = true → no_deletedb reqs = true →
  lines_positiveb reqs = true → rebuilt_upto d reqs cur (len cur) →
  sortedb cur = true ∧ chainb d cur = true ∧ firstb d cur = true ∧ run_maxb cur = true
  ∧ no_deletedb cur = true ∧ lines_positiveb cur = true.
Proof.
  intros Hreq Hs Hdel Hpos Hgood.
  destruct (same_request_fmap reqs cur Hreq) as (Hlines & Hdels & Hheights).
  assert (∀ (j : nat) a, cur !! j = Some a → Z.of_nat j < len cur) as Hlt.
  { intros j a Ha. apply lookup_lt_Some in Ha. unfold len. lia. }
  split; [| split; [| split; [| split; [| split]]]].
  - apply sortedb_StronglySorted. rewrite Hlines. apply sortedb_StronglySorted, Hs.
  - apply chainb_intro. intros i a b Ha Hb.
    destruct (Hgood (S i) b (Hlt _ _ Hb) Hb) as (_ & _ & Hpair). exact (Hpair a Ha).
  - destruct cur as [|a tl] eqn:E; [reflexivity |]. cbn [firstb].
    destruct (Hgood O a) as (_ & _ & Hfirst); [unfold len; cbn; lia | reflexivity |].
    apply Z.eqb_eq, Hfirst.
  - apply (run_maxb_intro d). intros a Ha. apply list_elem_of_lookup in Ha as [j Hj].
    destruct (Hgood j a (Hlt _ _ Hj) Hj) as (_ & Hmax & _).
    rewrite Hmax. unfold height_spec. rewrite Hheights. reflexivity.
  - unfold no_deletedb in *. rewrite forallb_forall in Hdel. apply forallb_forall.
    intros a Ha. apply list_elem_of_In, list_elem_of_lookup in Ha as [j Hj].
    destruct (Forall2_lookup_r _ _ _ _ _ Hreq Hj) as (q & Hq & (_ & _ & _ & Hd)).
    rewrite Hd. apply Hdel, list_elem_of_In. exact (list_elem_of_lookup_2 _ _ _ Hq).
  - unfold lines_positiveb in *. rewrite forallb_forall in Hpos. apply forallb_forall.
    intros a Ha. apply list_elem_of_In, list_elem_of_lookup in Ha as [j Hj].
    destruct (Forall2_lookup_r _ _ _ _ _ Hreq Hj) as (q & Hq & (Hl & _)).
    rewrite Hl. apply Hpos, list_elem_of_In. exact (list_elem_of_lookup_2 _ _ _ Hq).
Qed.

Lemma byId_exactb_intro s :
  (∀ o, o ∈ _orderedSpecialLines s →
        ∃ (r : ref) v, o = Some r ∧ heap s !! r = Some v
                       ∧ _decorationIDToSpecialLine s !! decorationId v = Some r) →
  (∀ id (r : ref), _decorationIDToSpecialLine s !! id = Some r →
        Some r ∈ _orderedSpecialLines s
        ∧ ∃ v, heap s !! r = Some v ∧ decorationId v = id) →
  byId_exactb s = true.
Proof.
  intros Hslots Hmap. unfold byId_exactb. apply andb_true_intro. split.
  - apply forallb_forall. intros o Ho. apply list_elem_of_In in Ho.
    destruct (Hslots o Ho) as (r & v & -> & Hv & Hid). unfold ref in *. rewrite Hv.
    apply bool_decide_eq_true. exact Hid.
  - apply forallb_forall. intros [id r] Hin. apply list_elem_of_In in Hin.
    apply elem_of_map_to_list in Hin. cbn [fst snd].
    destruct (Hmap id r Hin) as (Hr & v & Hv & Hid). unfold ref in *. rewrite Hv.
    apply andb_true_intro. split; apply bool_decide_eq_true; assumption.
Qed.

Lemma byId_exactb_elim s :
  byId_exactb s = true →
  ∀ o, o ∈ _orderedSpecialLines s →
       ∃ (r : ref) v, o = Some r ∧ heap s !! r = Some v
                      ∧ _decorationIDToSpecialLine s !! decorationId v = Some r.
Proof.
  intros H o Ho. unfold byId_exactb in H. apply andb_prop in H as [H _].
  rewrite forallb_forall in H. specialize (H o (proj1 (list_elem_of_In _ _) Ho)).
  destruct o as [r|]; [| discriminate]. unfold ref in *.
  destruct (heap s !! r) as [v|] eqn:Hv; [| discriminate].
  apply bool_decide_eq_true in H. eauto.
Qed.

Lemma resolve_same s s' :
  heap s' = heap s → _orderedSpecialLines s' = _orderedSpecialLines s →
  resolve s' = resolve s.
Proof. intros Hh Ha. unfold resolve. rewrite Hh, Ha. reflexivity. Qed.

(** [commit] on a state in order whose merged array is sorted, free of
    tombstones and right before the invalid index. *)
Lemma commit_values s0 arr (p1 : nat) reqs :
  maintained s0 → _hasPending s0 = true →
  commit_merge (_pendingSpecialLinesToInsert s0) s0
  = Ok tt (with_invalidIndex (Finite (Z.of_nat p1)) (with_ordered arr s0)) →
  NoDup arr → resolve (with_ordered arr s0) = Some reqs →
  sortedb reqs = true → no_deletedb reqs = true → lines_positiveb reqs = true →
  (p1 ≤ length arr)%nat →
  rebuilt_upto (_defaultLineHeight s0) reqs reqs (Z.of_nat p1) →
  NoDup (decorationId <$> reqs) →
  (∀ (r : ref) v, Some r ∈ arr → heap s0 !! r = Some v →
     is_Some (_decorationIDToSpecialLine s0 !! decorationId v)
     ∨ r ∈ _pendingSpecialLinesToInsert s0) →
  ∃ s' cur,
    commit s0 = Ok tt s'
    ∧ committed s' ∧ maintained s' ∧ consistent s'
    ∧ _defaultLineHeight s' = _defaultLineHeight s0
    ∧ resolve s' = Some cur ∧ Forall2 same_request reqs cur.
Proof.
  intros Hm Hp Hmerge Hnd Hres Hs Hdel Hpos Hp1 Hgood Hids Hknown0.
  destruct (commit_spec s0 Hm)
    as (s' & Hrun & Hm' & Hc & _ & _ & Hnew & Hold & Hd & Hheap & _).
  set (s1 := with_pending [] (with_invalidIndex (Finite (Z.of_nat p1)) (with_ordered arr s0))).
  assert (resolve s1 = Some reqs) as Hres1 by exact Hres.
  assert (slots_valid s1) as Hval1.
  { intros i o Hi. cbn in Hi.
    destruct (lookup_lt_is_Some_2 reqs i) as [v Hv].
    { pose proof (resolve_len s1 reqs Hres1). apply lookup_lt_Some in Hi.
      unfold len in *. cbn in *. lia. }
    destruct (resolve_slot s1 reqs i v Hres1 Hv) as (r & Hr & Hhv). cbn in Hr.
    exists r, v. split; [congruence | exact Hhv]. }
  destruct (commit_rebuild_values arr reqs (_defaultLineHeight s0) (length arr - p1) p1 s1
              (mkLocals (_decorationIDToSpecialLine s0) (take p1 arr) 0) reqs)
    as (loc' & s2 & cur & Hrun2 & Harr2 & Hd2 & Hord & Hres2 & Hreq2 & Hgood2);
    [reflexivity | reflexivity | assumption | assumption | | assumption | assumption
     | lia | reflexivity | assumption |].
  { apply Forall2_same_length_lookup_2; [reflexivity |].
    intros i a b Ha Hb. assert (a = b) as -> by congruence. apply same_request_refl. }
  cbn [newOrderedSpecialLines] in Hord. rewrite take_drop in Hord.
  assert (commit s0
          = Ok tt (with_hasPending false (with_invalidIndex Infinity
                     (with_map (newDecorationIDToSpecialLineMap loc')
                        (with_ordered arr s2))))) as Hrun'.
  { unfold commit. rewrite bind_gets, Hp. cbn [negb]. rewrite bind_gets.
    rewrite (bind_run _ _ _ _ _ Hmerge), bind_modify, bind_gets, bind_gets.
    cbn [_invalidIndex with_pending with_invalidIndex with_ordered].
    fold s1.
    rewrite (bind_run _ _ s1 _ _
               (commit_copy_spec s1 (Z.to_nat (Z.of_nat p1)) 0 [] Hval1 ltac:(lia)
                  ltac:(cbn; unfold len; lia))).
    rewrite bind_gets.
    change (_orderedSpecialLines s1) with arr. cbn [app]. rewrite drop_0, Nat2Z.id.
    replace (Z.to_nat (len arr - Z.of_nat p1)) with (length arr - p1)%nat
      by (unfold len; lia).
    change (_decorationIDToSpecialLine (with_pending [] (with_invalidIndex
              (Finite (Z.of_nat p1)) (with_ordered arr s0))))
      with (_decorationIDToSpecialLine s0).
    rewrite (bind_run _ _ _ _ _ Hrun2), !bind_modify. unfold modify.
    rewrite Hord. reflexivity. }
  pose proof Hrun as Hrun0. rewrite Hrun' in Hrun. injection Hrun as Heq.
  assert (resolve s' = Some cur) as Hres'.
  { rewrite <- Hres2, <- Heq. apply resolve_same; [reflexivity | cbn; congruence]. }
  assert (_orderedSpecialLines s' = arr) as Harr' by (rewrite <- Heq; reflexivity).
  assert (len cur = Z.of_nat (length arr)) as Hlen.
  { rewrite <- (resolve_len s' cur Hres'), Harr'. reflexivity. }
  exists s', cur. split; [exact Hrun0 |]. split; [exact Hc |]. split; [exact Hm' |].
  split; [| split; [exact Hd | split; [exact Hres' | exact Hreq2]]].
  rewrite <- Hlen in Hgood2.
  destruct (rebuilt_consistent _ reqs cur Hreq2 Hs Hdel Hpos Hgood2)
    as (H1 & H2 & H3 & H4 & H5 & H6).
  unfold consistent, consistentb. rewrite Hres', Hd, H1, H2, H3, H4, H5, H6. cbn [andb].
  destruct (same_request_fmap reqs cur Hreq2) as (_ & _ & _).
  assert (decorationId <$> cur = decorationId <$> reqs) as Hidseq.
  { clear -Hreq2. induction Hreq2 as [| a b l l' (_ & _ & Hi & _) _ IH]; [reflexivity |].
    cbn [fmap list_fmap]. rewrite Hi, IH. reflexivity. }
  apply byId_exactb_intro.
  - intros o Ho. rewrite Harr' in Ho. apply list_elem_of_lookup in Ho as [i Hi].
    destruct (lookup_lt_is_Some_2 cur i) as [v' Hv'].
    { apply lookup_lt_Some in Hi. unfold len in Hlen. lia. }
    destruct (resolve_slot s' cur i v' Hres' Hv') as (r & Hr & Hhv'). rewrite Harr' in Hr.
    assert (o = Some r) as -> by congruence.
    exists r, v'. split; [reflexivity |]. split; [exact Hhv' |].
    destruct (Forall2_lookup_r _ _ _ _ _ Hreq2 Hv') as (q & Hq & Hqv').
    assert (heap s0 !! r = Some q) as Hq0.
    { pose proof Hq as Hq'. rewrite (resolve_lookup _ reqs i Hres) in Hq'.
      cbn in Hq'. rewrite Hi in Hq'. exact Hq'. }
    assert (decorationId v' = decorationId q) as Hidq by (destruct Hqv' as (_ & _ & ? & _); auto).
    assert (is_Some (_decorationIDToSpecialLine s' !! decorationId v')) as [r' Hr'].
    { rewrite Hidq.
      destruct (Hknown0 r q (list_elem_of_lookup_2 _ _ _ Hi) Hq0) as [Hin | Hin].
      - exact (Hold _ Hin).
      - exact (Hnew r q Hin Hq0 (no_deletedb_lookup reqs i q Hdel Hq)). }
    rewrite Hr'. f_equal.
    destruct (m_map s' Hm' _ r' Hr') as (Hin' & v'' & Hv'' & _ & Hid'').
    rewrite Harr' in Hin'. apply list_elem_of_lookup in Hin' as [i' Hi'].
    assert (cur !! i' = Some v'') as Hcur'.
    { rewrite (resolve_lookup s' cur i' Hres'), Harr', Hi'. exact Hv''. }
    assert (i' = i) as ->.
    { rewrite <- Hidseq in Hids. apply (NoDup_lookup _ _ _ (decorationId v') Hids).
      - rewrite list_lookup_fmap, Hcur'. cbn. congruence.
      - rewrite list_lookup_fmap, Hv'. reflexivity. }
    congruence.
  - intros id r Hid. destruct (m_map s' Hm' id r Hid) as (Hin & v & Hv & _ & Hidv). eauto.
Qed.

(** ** Mutations that a commit gets right *)

Lemma resolve_ext s s' recs :
  resolve s = Some recs → _orderedSpecialLines s' = _orderedSpecialLines s →
  (∀ (r : ref) v, heap s !! r = Some v → heap s' !! r = Some v) →
  resolve s' = Some recs.
Proof.
  unfold resolve. intros Hres Harr Hheap. rewrite Harr.
  apply mapM_Some in Hres. apply mapM_Some.
  eapply Forall2_impl; [exact Hres |]. cbn. intros [r|] v Hv; [| discriminate].
  exact (Hheap r v Hv).
Qed.

Lemma commit_merge_single s (r : ref) v k :
  _pendingSpecialLinesToInsert s = [r] → heap s !! r = Some v →
  _binarySearchOverSpecialLinesArray (lineNumber v) s = Ok k s →
  let idx := if 0 <=? k then k else - (k + 1) in
  commit_merge (_pendingSpecialLinesToInsert s) s
  = Ok tt (with_invalidIndex (js_min (_invalidIndex s) idx)
             (with_ordered (splice (_orderedSpecialLines s) idx 0 [Some r]) s)).
Proof.
  intros Hpend Hv Hk idx. rewrite Hpend. cbn [commit_merge].
  rewrite (bind_deref r v _ s Hv), (bind_run _ _ _ _ _ Hk).
  fold idx. rewrite bind_ordered_splice, bind_gets, bind_modify. reflexivity.
Qed.

Lemma consistent_rebuilt s recs :
  consistent s → maintained s → resolve s = Some recs →
  rebuilt_upto (_defaultLineHeight s) recs recs (len recs).
Proof.
  intros Hcons Hm Hres.
  destruct (consistent_parts s Hcons)
    as (recs' & Hres' & Hsorted & Hchain & Hfirst & Hmax & _).
  assert (recs' = recs) as -> by congruence.
  intros j a Hj Ha. split; [| split].
  - destruct (resolve_slot s recs j a Hres Ha) as (r & Hr & Hv).
    destruct (m_slots s Hm j _ Hr) as (r' & v & [= <-] & Hv' & Hidx). congruence.
  - symmetry. apply height_spec_found; [exact Hmax | | reflexivity].
    exact (list_elem_of_lookup_2 _ _ _ Ha).
  - destruct j as [|j'].
    + destruct recs as [|x tl]; [discriminate |]. injection Ha as <-.
      cbn in Hfirst. lia.
    + intros p Hp. destruct (chainb_adjacent _ recs Hchain j' p a Hp Ha) as [Heq Hne].
      unfold pair_ok. destruct (Z.eqb_spec (lineNumber p) (lineNumber a)); auto.
Qed.

Lemma heights_on_line_app A B n :
  heights_on_line (A ++ B) n = heights_on_line A n ++ heights_on_line B n.
Proof. unfold heights_on_line. rewrite filter_app, fmap_app. reflexivity. Qed.

Lemma heights_on_line_insert recs (p : nat) v n :
  Forall (λ a, lineNumber a ≠ lineNumber v) recs →
  heights_on_line (take p recs ++ [v] ++ drop p recs) n
  = if decide (n = lineNumber v) then [specialHeight v] else heights_on_line recs n.
Proof.
  intros Hfree. rewrite !heights_on_line_app.
  destruct (decide (n = lineNumber v)) as [-> | Hne].
  - unfold heights_on_line.
    rewrite (filter_none _ (take p recs)), (filter_none _ (drop p recs)).
    + rewrite filter_cons. destruct (decide (lineNumber v = lineNumber v)); [| contradiction].
      reflexivity.
    + apply Forall_drop. exact Hfree.
    + apply Forall_take. exact Hfree.
  - rewrite <- (take_drop p recs) at 3. rewrite heights_on_line_app. f_equal.
    unfold heights_on_line at 1. rewrite filter_cons.
    destruct (decide (lineNumber v = n)); [congruence | reflexivity].
Qed.

Lemma rebuilt_upto_insert d recs (p : nat) v (p1 : Z) :
  rebuilt_upto d recs recs (len recs) → p1 ≤ Z.of_nat p → (p ≤ length recs)%nat →
  Forall (λ a, lineNumber a ≠ lineNumber v) recs →
  rebuilt_upto d (take p recs ++ [v] ++ drop p recs) (take p recs ++ [v] ++ drop p recs) p1.
Proof.
  intros Hgood Hp1 Hp Hfree j a Hj Ha.
  assert (∀ j' : nat, (j' < p)%nat →
            (take p recs ++ [v] ++ drop p recs) !! j' = recs !! j') as Hlook.
  { intros j' Hlt. rewrite lookup_app_l by (rewrite length_take; lia).
    apply lookup_take_lt. lia. }
  rewrite Hlook in Ha by lia.
  destruct (Hgood j a) as (H1 & H2 & H3);
    [apply lookup_lt_Some in Ha; unfold len; lia | exact Ha |].
  split; [exact H1 |]. split.
  - rewrite H2. unfold height_spec. rewrite heights_on_line_insert by exact Hfree.
    destruct (decide (lineNumber a = lineNumber v)) as [Heq | _]; [| reflexivity].
    rewrite Forall_forall in Hfree.
    destruct (Hfree a (list_elem_of_lookup_2 _ _ _ Ha) Heq).
  - destruct j as [|j']; [exact H3 |]. intros q Hq. rewrite Hlook in Hq by lia.
    exact (H3 q Hq).
Qed.

Lemma ids_nodup s recs :
  byId_exactb s = true → NoDup (_orderedSpecialLines s) → resolve s = Some recs →
  NoDup (decorationId <$> recs).
Proof.
  intros Hby Hnd Hres. apply NoDup_alt. intros i j id Hi Hj.
  rewrite list_lookup_fmap in Hi, Hj.
  destruct (recs !! i) as [a|] eqn:Ha; [| discriminate].
  destruct (recs !! j) as [b|] eqn:Hb; [| discriminate].
  cbn in Hi, Hj.
  destruct (resolve_slot s recs i a Hres Ha) as (ra & Hra & Hva).
  destruct (resolve_slot s recs j b Hres Hb) as (rb & Hrb & Hvb).
  destruct (byId_exactb_elim s Hby _ (list_elem_of_lookup_2 _ _ _ Hra))
    as (r1 & v1 & [= <-] & Hv1 & Hm1).
  destruct (byId_exactb_elim s Hby _ (list_elem_of_lookup_2 _ _ _ Hrb))
    as (r2 & v2 & [= <-] & Hv2 & Hm2).
  assert (v1 = a) as -> by congruence. assert (v2 = b) as -> by congruence.
  assert (ra = rb) as -> by congruence.
  exact (NoDup_lookup _ _ _ _ Hnd Hra Hrb).
Qed.

Lemma forallb_insert {A} (f : A → bool) (l : list A) (p : nat) x :
  forallb f l = true → f x = true → forallb f (take p l ++ [x] ++ drop p l) = true.
Proof.
  intros Hl Hx. rewrite <- (take_drop p l) in Hl. rewrite forallb_app in Hl.
  apply andb_prop in Hl as [H1 H2]. rewrite !forallb_app, H1, H2. cbn. rewrite Hx. reflexivity.
Qed.

(** A new override on a free line, committed. *)
Lemma insert_free_line_state s recs id L H :
  committed s → consistent s → maintained s → resolve s = Some recs →
  _decorationIDToSpecialLine s !! id = None → 1 ≤ L →
  Forall (λ a, lineNumber a ≠ L) recs →
  ∃ s' recs',
    (insertOrChangeSpecialLineHeightUsingDecoration id L H >> commit) s = Ok tt s'
    ∧ committed s' ∧ consistent s' ∧ maintained s'
    ∧ resolve s' = Some recs'
    ∧ _defaultLineHeight s' = _defaultLineHeight s
    ∧ ∀ n, heights_on_line recs' n
           = if decide (n = L) then [H] else heights_on_line recs n.
Proof.
  intros Hc Hcons Hm Hres Hid HL Hfree.
  destruct (consistent_parts s Hcons)
    as (recs0 & Hres0 & Hsorted & Hchain & Hfirst & Hmax & Hdel & Hpos & Hby).
  assert (recs0 = recs) as -> by congruence.
  destruct (maintained_insertOrChange s id L H Hm) as (s0 & Hins & Hm0).
  destruct (insertOrChange_effect s id L H s0 Hins) as (Harr0 & Hmap0 & Hd0 & Hp0 & Heff).
  rewrite Hid in Heff. destruct Heff as [Hpend0 Hheap0].
  rewrite (m_idle s Hm Hc) in Hpend0. cbn [app] in Hpend0.
  set (r := length (heap s)) in *.
  set (v := new_SpecialLine id (-1) L H 0) in *.
  assert (heap s0 !! r = Some v) as Hv.
  { rewrite Hheap0. unfold ref in *. subst r. rewrite lookup_app_r by lia.
    rewrite Nat.sub_diag. reflexivity. }
  assert (∀ (r' : ref) v', heap s !! r' = Some v' → heap s0 !! r' = Some v') as Hext.
  { intros r' v' Hv'. rewrite Hheap0. unfold ref in *. apply lookup_app_l_Some. exact Hv'. }
  assert (resolve s0 = Some recs) as Hres0' by exact (resolve_ext s s0 recs Hres Harr0 Hext).
  destruct (_binarySearchOverSpecialLinesArray_sorted s0 recs L Hres0' Hsorted) as (k & Hk & Hr).
  destruct Hr as [[_ (a & Ha & Hla)] | (pz & -> & Hpz & Hbef & Haft)].
  { rewrite Forall_forall in Hfree.
    destruct (Hfree a (proj2 (rec_get_elem_of recs a) (ex_intro _ _ Ha)) Hla). }
  destruct (miss_split recs L pz Hpz Hbef Haft) as (HA & HB & _).
  set (p := Z.to_nat pz).
  assert (p ≤ length recs)%nat as Hp by (unfold len in *; lia).
  assert (length (_orderedSpecialLines s) = length recs) as Hlen.
  { pose proof (resolve_len s recs Hres). unfold len in *. lia. }
  pose proof (commit_merge_single s0 r v (- (pz + 1)) Hpend0 Hv Hk) as Hmerge.
  cbn zeta in Hmerge.
  destruct (Z.leb_spec 0 (- (pz + 1))); [lia |].
  replace (- (- (pz + 1) + 1)) with pz in Hmerge by lia.
  rewrite Harr0, splice_insert in Hmerge by (unfold len in *; lia). fold p in Hmerge.
  set (arr := take p (_orderedSpecialLines s) ++ [Some r] ++ drop p (_orderedSpecialLines s))
    in *.
  set (reqs := take p recs ++ [v] ++ drop p recs).
  assert (∃ p1 : nat, js_min (_invalidIndex s0) pz = Finite (Z.of_nat p1) ∧ (p1 ≤ p)%nat)
    as (p1 & Hinv & Hp1).
  { destruct (_invalidIndex s0) as [q|] eqn:Hq; cbn [js_min].
    - pose proof (m_invalid s0 Hm0 q Hq).
      exists (Z.to_nat (Z.min q pz)). split; [f_equal; lia | lia].
    - exists p. split; [f_equal; lia | lia]. }
  rewrite Hinv in Hmerge.
  destruct (commit_values s0 arr p1 reqs Hm0 Hp0 Hmerge)
    as (s' & cur & Hrun & Hc' & Hm' & Hcons' & Hd' & Hres' & Hreq).
  - subst arr. pose proof (m_nodup s Hm) as Hnd.
    rewrite <- (take_drop p (_orderedSpecialLines s)) in Hnd.
    apply NoDup_app in Hnd as (Hn1 & Hn2 & Hn3).
    assert (Some r ∉ _orderedSpecialLines s) as Hnew.
    { intros Hin. pose proof (maintained_slot_lt s r Hm Hin). lia. }
    apply NoDup_app. split; [exact Hn1 |]. split.
    + intros o Ho Ho'. apply elem_of_cons in Ho' as [-> | Ho']; [| exact (Hn2 o Ho Ho')].
      apply Hnew. exact (elem_of_sublist _ _ _ Ho (sublist_take _ _)).
    + apply NoDup_cons. split; [| exact Hn3].
      intros Hin. apply Hnew. exact (elem_of_sublist _ _ _ Hin (sublist_drop _ _)).
  - subst arr reqs. rewrite <- Harr0. exact (resolve_insert s0 recs p r v Hres0' Hv).
  - apply sortedb_insert; [exact Hsorted | |].
    + eapply Forall_impl; [exact HA |]. cbn. intros a Ha. change (lineNumber v) with L. lia.
    + eapply Forall_impl; [exact HB |]. cbn. intros a Ha. change (lineNumber v) with L. lia.
  - apply forallb_insert; [exact Hdel | reflexivity].
  - apply forallb_insert; [exact Hpos | apply Z.leb_le; exact HL].
  - subst arr. rewrite !length_app, length_take, length_drop. cbn [length]. lia.
  - rewrite Hd0. apply rebuilt_upto_insert; [| lia | exact Hp | exact Hfree].
    exact (consistent_rebuilt s recs Hcons Hm Hres).
  - subst reqs. rewrite !fmap_app. cbn [fmap list_fmap].
    pose proof (ids_nodup s recs Hby (m_nodup s Hm) Hres) as Hnd.
    rewrite <- (take_drop p recs), fmap_app in Hnd.
    apply NoDup_app in Hnd as (Hn1 & Hn2 & Hn3).
    assert (∀ a, a ∈ recs → decorationId a ≠ id) as Hfresh.
    { intros a Ha Heq. apply list_elem_of_lookup in Ha as [i Hi].
      destruct (resolve_slot s recs i a Hres Hi) as (ra & Hra & Hva).
      destruct (byId_exactb_elim s Hby _ (list_elem_of_lookup_2 _ _ _ Hra))
        as (r1 & v1 & [= <-] & Hv1 & Hm1).
      assert (v1 = a) as -> by congruence. rewrite Heq, Hid in Hm1. discriminate. }
    apply NoDup_app. split; [exact Hn1 |]. split.
    + intros x Hx Hx'. apply elem_of_cons in Hx' as [-> | Hx']; [| exact (Hn2 x Hx Hx')].
      apply list_elem_of_fmap in Hx as (a & Heq & Ha).
      apply (Hfresh a); [| symmetry; exact Heq].
      exact (elem_of_sublist _ _ _ Ha (sublist_take _ _)).
    + apply NoDup_cons. split; [| exact Hn3].
      intros Hx. apply list_elem_of_fmap in Hx as (a & Heq & Ha).
      apply (Hfresh a); [| symmetry; exact Heq].
      exact (elem_of_sublist _ _ _ Ha (sublist_drop _ _)).
  - intros r' v' Hin Hv'. subst arr.
    rewrite !elem_of_app, list_elem_of_singleton in Hin.
    assert (Some r' ∈ _orderedSpecialLines s ∨ r' = r) as [Hold | ->].
    { destruct Hin as [Hin | [Hin | Hin]].
      - left. exact (elem_of_sublist _ _ _ Hin (sublist_take _ _)).
      - right. congruence.
      - left. exact (elem_of_sublist _ _ _ Hin (sublist_drop _ _)). }
    + left. rewrite Hmap0.
      destruct (byId_exactb_elim s Hby _ Hold) as (r1 & v1 & [= <-] & Hv1 & Hm1).
      rewrite (Hext r' v1 Hv1) in Hv'. injection Hv' as <-. eauto.
    + right. rewrite Hpend0. apply list_elem_of_here.
  - exists s', cur. split; [| split; [exact Hc' | split; [exact Hcons' | split; [exact Hm' |]]]].
    { unfold bind. rewrite Hins. exact Hrun. }
    split; [exact Hres' |]. split; [congruence |].
    intros n. destruct (same_request_fmap reqs cur Hreq) as (_ & _ & Hh).
    rewrite Hh. subst reqs. rewrite heights_on_line_insert by exact Hfree. reflexivity.
Qed.

Lemma height_spec_heights recs recs' d n :
  heights_on_line recs' n = heights_on_line recs n →
  height_spec recs' d n = height_spec recs d n.
Proof. unfold height_spec. intros ->. reflexivity. Qed.

Lemma total_spec_heights recs recs' d (n : nat) :
  (∀ m, heights_on_line recs' m = heights_on_line recs m) →
  total_spec recs' d n = total_spec recs d n.
Proof.
  intros H. induction n as [|n IH]; [reflexivity |].
  cbn [total_spec]. rewrite IH, (height_spec_heights recs recs' d _ (H _)). reflexivity.
Qed.

Lemma total_spec_insert recs recs' d L H (n : nat) :
  1 ≤ L → Forall (λ a, lineNumber a ≠ L) recs →
  (∀ m, heights_on_line recs' m = if decide (m = L) then [H] else heights_on_line recs m) →
  total_spec recs' d n
  = total_spec recs d n + (if L <=? Z.of_nat n then H - d else 0).
Proof.
  intros HL Hfree Hh. induction n as [|n IH].
  - cbn [total_spec]. destruct (Z.leb_spec L (Z.of_nat 0)); lia.
  - cbn [total_spec]. rewrite IH. unfold height_spec at 1. rewrite Hh.
    destruct (decide (Z.of_nat (S n) = L)) as [Heq | Hne].
    + rewrite (height_spec_miss recs d (Z.of_nat (S n))).
      * cbn [foldr]. destruct (Z.leb_spec L (Z.of_nat n)); [lia |].
        destruct (Z.leb_spec L (Z.of_nat (S n))); lia.
      * intros a Ha. rewrite Forall_forall in Hfree. rewrite Heq. exact (Hfree a Ha).
    + fold (height_spec recs d (Z.of_nat (S n))).
      destruct (Z.leb_spec L (Z.of_nat n)); destruct (Z.leb_spec L (Z.of_nat (S n))); lia.
Qed.

(** X15: a new override on a free line.  On a committed state that is in
    order and satisfies the invariants of the data model, inserting an
    identifier the map does not know, on a line [L >= 1] that holds no
    record, and committing gives again such a state; the queries made right
    after the insertion answer [H] for line [L] and what they answered
    before for every other line, and, the heights being integers, the
    totals from line [L] on grow by [H] minus the default height. *)
Theorem insert_on_free_line s recs id L H :
  committed s → consistent s → maintained s → resolve s = Some recs →
  _decorationIDToSpecialLine s !! id = None → 1 ≤ L →
  Forall (λ a, lineNumber a ≠ L) recs →
  ∃ s',
    (insertOrChangeSpecialLineHeightUsingDecoration id L H >> commit) s = Ok tt s'
    ∧ committed s' ∧ consistent s' ∧ maintained s'
    ∧ (∀ n, (insertOrChangeSpecialLineHeightUsingDecoration id L H >> heightForLineNumber n) s
            = Ok (if n =? L then H else height_spec recs (_defaultLineHeight s) n) s')
    ∧ (∀ n : nat,
         (insertOrChangeSpecialLineHeightUsingDecoration id L H
          >> totalHeightUntilLineNumber (Z.of_nat n)) s
         = Ok (total_spec recs (_defaultLineHeight s) n
               + (if L <=? Z.of_nat n then H - _defaultLineHeight s else 0)) s').
Proof.
  intros Hc Hcons Hm Hres Hid HL Hfree.
  destruct (insert_free_line_state s recs id L H Hc Hcons Hm Hres Hid HL Hfree)
    as (s' & recs' & Hrun & Hc' & Hcons' & Hm' & Hres' & Hd & Hh).
  exists s'. split; [exact Hrun |]. split; [exact Hc' |]. split; [exact Hcons' |].
  split; [exact Hm' |].
  unfold bind in Hrun.
  destruct (insertOrChangeSpecialLineHeightUsingDecoration id L H s) as [[] s0 | |] eqn:Hins;
    try discriminate.
  split.
  - intros n. unfold bind at 1. rewrite Hins.
    rewrite (heightForLineNumber_after_commit s0 tt s' n Hrun).
    rewrite (heightForLineNumber_consistent s' recs' n Hc' Hcons' Hres'), Hd. f_equal.
    unfold height_spec at 1. rewrite Hh.
    destruct (Z.eqb_spec n L); destruct (decide (n = L)); try contradiction; reflexivity.
  - intros n. unfold bind at 1. rewrite Hins.
    rewrite (totalHeightUntilLineNumber_after_commit s0 tt s' _ Hrun).
    rewrite (totalHeightUntilLineNumber_consistent s' recs' n Hc' Hcons' Hres'), Hd. f_equal.
    exact (total_spec_insert recs recs' _ L H n HL Hfree Hh).
Qed.

Lemma maintained_example_manager : maintained example_manager.
Proof. apply (maintained_reached 20 (take 4 dirty_calls)). vm_compute. reflexivity. Qed.

Lemma insert_on_free_line_witness :
  ∃ s', (insertOrChangeSpecialLineHeightUsingDecoration "E" 7 50
         >> heightForLineNumber 7) example_manager = Ok 50 s'
        ∧ (insertOrChangeSpecialLineHeightUsingDecoration "E" 7 50
           >> totalHeightUntilLineNumber 9) example_manager = Ok 240 s'.
Proof.
  destruct (insert_on_free_line example_manager
              [mkSpecialLine 0 5 25 80 40 "B" false; mkSpecialLine 1 5 40 80 40 "A" false;
               mkSpecialLine 2 9 30 180 30 "C" false] "E" 7 50)
    as (s' & _ & _ & _ & _ & Hh & Ht).
  - reflexivity.
  - vm_compute. reflexivity.
  - exact maintained_example_manager.
  - vm_compute. reflexivity.
  - vm_compute. reflexivity.
  - lia.
  - repeat constructor; cbn; lia.
  - exists s'. split; [exact (Hh 7) | exact (Ht 9%nat)].
Defined.

Lemma insertOrChange_invalidIndex s id L H s' (r : ref) v :
  insertOrChangeSpecialLineHeightUsingDecoration id L H s = Ok tt s' →
  _decorationIDToSpecialLine s !! id = Some r → heap s !! r = Some v →
  _invalidIndex s' = js_min (_invalidIndex s) (index v).
Proof.
  unfold insertOrChangeSpecialLineHeightUsingDecoration, bind, gets.
  intros Hrun Hid Hv. rewrite Hid in Hrun.
  unfold update, modify, deref in Hrun. cbn in Hrun. unfold ref in *.
  rewrite !list_lookup_alter_eq, Hv in Hrun. cbn in Hrun.
  injection Hrun as <-. reflexivity.
Qed.

Lemma state_eta s :
  s = with_invalidIndex (_invalidIndex s) (with_ordered (_orderedSpecialLines s) s).
Proof. destruct s. reflexivity. Qed.

Lemma set_lineNumber_same v : set_lineNumber (lineNumber v) v = v.
Proof. destruct v. reflexivity. Qed.

Lemma forallb_list_insert {A} (f : A → bool) (l : list A) (i : nat) x :
  forallb f l = true → f x = true → forallb f (<[i := x]> l) = true.
Proof.
  intros Hl Hx. apply forallb_forall. intros y Hy.
  apply list_elem_of_In, list_elem_of_lookup in Hy as [j Hj].
  destruct (decide (j = i)) as [-> | Hne].
  - destruct (decide (i < length l)%nat).
    + rewrite list_lookup_insert_eq in Hj by assumption. congruence.
    + rewrite list_insert_ge in Hj by lia. rewrite forallb_forall in Hl.
      apply Hl, list_elem_of_In. exact (list_elem_of_lookup_2 _ _ _ Hj).
  - rewrite list_lookup_insert_ne in Hj by congruence. rewrite forallb_forall in Hl.
    apply Hl, list_elem_of_In. exact (list_elem_of_lookup_2 _ _ _ Hj).
Qed.

Lemma fmap_insert_same {A B} (f : A → B) (l : list A) (i : nat) x y :
  l !! i = Some y → f x = f y → f <$> <[i := x]> l = f <$> l.
Proof.
  intros Hy Hf. rewrite list_fmap_insert, Hf. apply list_insert_id.
  rewrite list_lookup_fmap, Hy. reflexivity.
Qed.

Lemma heights_on_line_change recs (i : nat) v v' n :
  recs !! i = Some v → lineNumber v' = lineNumber v → n ≠ lineNumber v →
  heights_on_line (<[i := v']> recs) n = heights_on_line recs n.
Proof.
  intros Hv Hl Hn.
  rewrite <- (take_drop_middle recs i v Hv) at 2.
  rewrite insert_take_drop by exact (lookup_lt_Some _ _ _ Hv).
  rewrite !heights_on_line_app. f_equal.
  change (v' :: drop (S i) recs) with ([v'] ++ drop (S i) recs).
  change (v :: drop (S i) recs) with ([v] ++ drop (S i) recs).
  rewrite !heights_on_line_app. f_equal.
  unfold heights_on_line. rewrite !filter_cons.
  destruct (decide (lineNumber v' = n)); [congruence |].
  destruct (decide (lineNumber v = n)); [congruence | reflexivity].
Qed.

(** A new height for the first record of a line, committed. *)
Lemma change_height_state s recs id (r : ref) v H :
  committed s → consistent s → maintained s → resolve s = Some recs →
  _decorationIDToSpecialLine s !! id = Some r → heap s !! r = Some v →
  (∀ (j : nat) a, recs !! j = Some a → Z.of_nat j < index v →
                  lineNumber a ≠ lineNumber v) →
  ∃ s' recs',
    (insertOrChangeSpecialLineHeightUsingDecoration id (lineNumber v) H >> commit) s
    = Ok tt s'
    ∧ committed s' ∧ consistent s' ∧ maintained s'
    ∧ resolve s' = Some recs'
    ∧ _defaultLineHeight s' = _defaultLineHeight s
    ∧ ∀ n, heights_on_line recs' n
           = heights_on_line (<[Z.to_nat (index v) := set_specialHeight H v]> recs) n.
Proof.
  intros Hc Hcons Hm Hres Hid Hv Hfirst.
  destruct (consistent_parts s Hcons)
    as (recs0 & Hres0 & Hsorted & Hchain & Hfirstb & Hmax & Hdel & Hpos & Hby).
  assert (recs0 = recs) as -> by congruence.
  destruct (m_map s Hm id r Hid) as (Hin & v0 & Hv0 & Hdv & Hidv).
  assert (v0 = v) as -> by congruence.
  destruct (maintained_position s r Hm Hin) as (i & v0 & Hi & Hv0' & Hidx).
  assert (v0 = v) as -> by congruence.
  rewrite Hidx in *. rewrite Nat2Z.id.
  assert (recs !! i = Some v) as Hrv.
  { rewrite (resolve_lookup s recs i Hres), Hi. exact Hv. }
  destruct (maintained_insertOrChange s id (lineNumber v) H Hm) as (s0 & Hins & Hm0).
  destruct (insertOrChange_effect s id _ H s0 Hins) as (Harr0 & Hmap0 & Hd0 & Hp0 & Heff).
  rewrite Hid in Heff. destruct Heff as (Hpend0 & v1 & Hv1 & Hheap0).
  assert (v1 = v) as -> by congruence.
  rewrite set_lineNumber_same in Hheap0.
  rewrite (m_idle s Hm Hc) in Hpend0.
  pose proof (insertOrChange_invalidIndex s id _ H s0 r v Hins Hid Hv) as Hinv0.
  rewrite Hidx in Hinv0.
  set (v' := set_specialHeight H v) in *.
  set (reqs := <[i := v']> recs).
  assert (resolve s0 = Some reqs) as Hres0'.
  { transitivity (resolve (store_put s r v')).
    - apply resolve_same; [exact Hheap0 | exact Harr0].
    - exact (resolve_put s recs i r v' Hres (m_nodup s Hm) Hi). }
  assert (∃ p1 : nat, _invalidIndex s0 = Finite (Z.of_nat p1) ∧ (p1 ≤ i)%nat)
    as (p1 & Hinv & Hp1).
  { rewrite Hinv0. destruct (_invalidIndex s) as [q|] eqn:Hq; cbn [js_min].
    - pose proof (m_invalid s Hm q Hq).
      exists (Z.to_nat (Z.min q (Z.of_nat i))). split; [f_equal; lia | lia].
    - exists i. split; [reflexivity | lia]. }
  assert (commit_merge (_pendingSpecialLinesToInsert s0) s0
          = Ok tt (with_invalidIndex (Finite (Z.of_nat p1))
                     (with_ordered (_orderedSpecialLines s0) s0))) as Hmerge.
  { rewrite Hpend0, <- Hinv, <- state_eta. reflexivity. }
  pose proof (lookup_lt_Some _ _ _ Hi) as Hilt.
  destruct (commit_values s0 (_orderedSpecialLines s0) p1 reqs Hm0 Hp0 Hmerge)
    as (s' & cur & Hrun & Hc' & Hm' & Hcons' & Hd' & Hres' & Hreq).
  - exact (m_nodup s0 Hm0).
  - rewrite <- Hres0'. apply resolve_same; reflexivity.
  - apply sortedb_StronglySorted. subst reqs.
    rewrite (fmap_insert_same lineNumber recs i v' v Hrv eq_refl).
    apply sortedb_StronglySorted, Hsorted.
  - apply forallb_list_insert; [exact Hdel |]. cbn. rewrite Hdv. reflexivity.
  - apply forallb_list_insert; [exact Hpos |]. cbn.
    unfold lines_positiveb in Hpos. rewrite forallb_forall in Hpos.
    apply Hpos, list_elem_of_In. exact (list_elem_of_lookup_2 _ _ _ Hrv).
  - rewrite Harr0. lia.
  - rewrite Hd0. intros j a Hj Ha. subst reqs.
    rewrite list_lookup_insert_ne in Ha by lia.
    destruct (consistent_rebuilt s recs Hcons Hm Hres j a) as (H1 & H2 & H3);
      [apply lookup_lt_Some in Ha; unfold len; lia | exact Ha |].
    split; [exact H1 |]. split.
    + rewrite H2. apply height_spec_heights. symmetry.
      apply (heights_on_line_change recs i v v'); [exact Hrv | reflexivity |].
      apply (Hfirst j a Ha). lia.
    + destruct j as [|j']; [exact H3 |]. intros q Hq.
      rewrite list_lookup_insert_ne in Hq by lia. exact (H3 q Hq).
  - subst reqs. rewrite (fmap_insert_same decorationId recs i v' v Hrv eq_refl).
    exact (ids_nodup s recs Hby (m_nodup s Hm) Hres).
  - intros r' w Hin' Hw. left. rewrite Hmap0. rewrite Harr0 in Hin'.
    destruct (byId_exactb_elim s Hby _ Hin') as (r1 & w1 & [= <-] & Hw1 & Hm1).
    rewrite Hheap0 in Hw. unfold ref in *.
    destruct (decide (r' = r)) as [-> | Hne].
    + rewrite list_lookup_insert_eq in Hw by exact (lookup_lt_Some _ _ _ Hv).
      injection Hw as <-. assert (w1 = v) as -> by congruence.
      change (decorationId v') with (decorationId v). eauto.
    + rewrite list_lookup_insert_ne in Hw by congruence.
      assert (w1 = w) as -> by congruence. eauto.
  - exists s', cur. split; [| split; [exact Hc' | split; [exact Hcons' | split; [exact Hm' |]]]].
    { unfold bind. rewrite Hins. exact Hrun. }
    split; [exact Hres' |]. split; [congruence |].
    intros n. destruct (same_request_fmap reqs cur Hreq) as (_ & _ & Hh). exact (Hh n).
Qed.

(** X16: a new height for an override that is the first record of its line
    in the array.  On a committed state that is in order and satisfies the
    invariants of the data model, changing the height of such an override
    in place (same line) and committing gives again such a state, and the
    queries made right after the change answer for the updated requests:
    the largest height requested for the line, and, the heights being
    integers, the sum of these over the lines 1 to [n]. *)
Theorem change_height_of_first_record s recs id (r : ref) v H :
  committed s → consistent s → maintained s → resolve s = Some recs →
  _decorationIDToSpecialLine s !! id = Some r → heap s !! r = Some v →
  (∀ (j : nat) a, recs !! j = Some a → Z.of_nat j < index v →
                  lineNumber a ≠ lineNumber v) →
  let recs' := <[Z.to_nat (index v) := set_specialHeight H v]> recs in
  ∃ s',
    (insertOrChangeSpecialLineHeightUsingDecoration id (lineNumber v) H >> commit) s
    = Ok tt s'
    ∧ committed s' ∧ consistent s' ∧ maintained s'
    ∧ (∀ n, (insertOrChangeSpecialLineHeightUsingDecoration id (lineNumber v) H
             >> heightForLineNumber n) s
            = Ok (height_spec recs' (_defaultLineHeight s) n) s')
    ∧ (∀ n : nat,
         (insertOrChangeSpecialLineHeightUsingDecoration id (lineNumber v) H
          >> totalHeightUntilLineNumber (Z.of_nat n)) s
         = Ok (total_spec recs' (_defaultLineHeight s) n) s').
Proof.
  intros Hc Hcons Hm Hres Hid Hv Hfirst recs'.
  destruct (change_height_state s recs id r v H Hc Hcons Hm Hres Hid Hv Hfirst)
    as (s' & cur & Hrun & Hc' & Hcons' & Hm' & Hres' & Hd & Hh).
  exists s'. split; [exact Hrun |]. split; [exact Hc' |]. split; [exact Hcons' |].
  split; [exact Hm' |].
  unfold bind in Hrun.
  destruct (insertOrChangeSpecialLineHeightUsingDecoration id (lineNumber v) H s)
    as [[] s0 | |] eqn:Hins; try discriminate.
  split.
  - intros n. unfold bind at 1. rewrite Hins.
    rewrite (heightForLineNumber_after_commit s0 tt s' n Hrun).
    rewrite (heightForLineNumber_consistent s' cur n Hc' Hcons' Hres'), Hd. f_equal.
    apply height_spec_heights, Hh.
  - intros n. unfold bind at 1. rewrite Hins.
    rewrite (totalHeightUntilLineNumber_after_commit s0 tt s' _ Hrun).
    rewrite (totalHeightUntilLineNumber_consistent s' cur n Hc' Hcons' Hres'), Hd. f_equal.
    apply total_spec_heights, Hh.
Qed.

Lemma change_height_of_first_record_witness :
  ∃ s', (insertOrChangeSpecialLineHeightUsingDecoration "B" 5 60
         >> heightForLineNumber 5) example_manager = Ok 60 s'
        ∧ (insertOrChangeSpecialLineHeightUsingDecoration "B" 5 60
           >> totalHeightUntilLineNumber 9) example_manager = Ok 230 s'.
Proof.
  destruct (change_height_of_first_record example_manager
              [mkSpecialLine 0 5 25 80 40 "B" false; mkSpecialLine 1 5 40 80 40 "A" false;
               mkSpecialLine 2 9 30 180 30 "C" false] "B" 1%nat
              (mkSpecialLine 0 5 25 80 40 "B" false) 60)
    as (s' & _ & _ & _ & _ & Hh & Ht).
  - reflexivity.
  - vm_compute. reflexivity.
  - exact maintained_example_manager.
  - vm_compute. reflexivity.
  - vm_compute. reflexivity.
  - vm_compute. reflexivity.
  - intros j a _ Hj. cbn in Hj. lia.
  - exists s'. split; [exact (Hh 5) | exact (Ht 9%nat)].
Defined.


(** ** The heights after a range shift *)

Lemma StronglySorted_fmap_mono (g : Z → Z) l :
  (∀ x y, x ≤ y → g x ≤ g y) → StronglySorted Z.le l → StronglySorted Z.le (g <$> l).
Proof.
  intros Hg. induction 1 as [| x l _ IH Hall]; cbn [fmap list_fmap]; constructor; [exact IH |].
  rewrite Forall_fmap. eapply Forall_impl; [exact Hall |]. cbn. intros y Hy. apply Hg, Hy.
Qed.

Lemma after_insertion_line fromLineNumber toLineNumber a :
  lineNumber (after_insertion fromLineNumber toLineNumber a)
  = if fromLineNumber <? lineNumber a
    then lineNumber a + (toLineNumber - fromLineNumber + 1)
    else lineNumber a.
Proof. unfold after_insertion. destruct (fromLineNumber <? lineNumber a); reflexivity. Qed.

Lemma after_insertion_sorted fromLineNumber toLineNumber recs :
  fromLineNumber ≤ toLineNumber + 1 → sortedb recs = true →
  sortedb (after_insertion fromLineNumber toLineNumber <$> recs) = true.
Proof.
  intros Hn Hs. apply sortedb_StronglySorted.
  assert (lineNumber <$> (after_insertion fromLineNumber toLineNumber <$> recs)
          = (λ l, if fromLineNumber <? l then l + (toLineNumber - fromLineNumber + 1) else l)
            <$> (lineNumber <$> recs)) as ->.
  { clear. induction recs as [|a tl IH]; [reflexivity |].
    cbn [fmap list_fmap]. rewrite after_insertion_line. f_equal. exact IH. }
  apply StronglySorted_fmap_mono; [| apply sortedb_StronglySorted, Hs].
  intros x y Hxy.
  destruct (Z.ltb_spec fromLineNumber x); destruct (Z.ltb_spec fromLineNumber y); lia.
Qed.

Lemma shift_by_back n a : shift_by (- n) (shift_by n a) = a.
Proof.
  destruct a. unfold shift_by, set_lineNumber. cbn. f_equal. lia.
Qed.

Lemma after_deletion_after_insertion fromLineNumber toLineNumber recs :
  fromLineNumber ≤ toLineNumber → 
  after_deletion (fromLineNumber + 1) (toLineNumber + 1)
    (after_insertion fromLineNumber toLineNumber <$> recs)
  = filter (λ a, lineNumber a ≤ fromLineNumber) recs
    ++ filter (λ a, fromLineNumber < lineNumber a) recs.
Proof.
  intros Hn. unfold after_deletion. f_equal.
  - induction recs as [|a tl IH]; [reflexivity |].
    cbn [fmap list_fmap]. rewrite !filter_cons, after_insertion_line, IH.
    unfold after_insertion.
    destruct (Z.ltb_spec fromLineNumber (lineNumber a)).
    + destruct (decide (lineNumber a + (toLineNumber - fromLineNumber + 1)
                        < fromLineNumber + 1)); [lia |].
      destruct (decide (lineNumber a ≤ fromLineNumber)); [lia | reflexivity].
    + destruct (decide (lineNumber a < fromLineNumber + 1)); [| lia].
      destruct (decide (lineNumber a ≤ fromLineNumber)); [reflexivity | lia].
  - induction recs as [|a tl IH]; [reflexivity |].
    cbn [fmap list_fmap]. rewrite !filter_cons, after_insertion_line, <- IH.
    unfold after_insertion.
    destruct (Z.ltb_spec fromLineNumber (lineNumber a)).
    + destruct (decide (toLineNumber + 1
                        < lineNumber a + (toLineNumber - fromLineNumber + 1))); [| lia].
      destruct (decide (fromLineNumber < lineNumber a)); [| lia].
      cbn [fmap list_fmap]. f_equal.
      replace (toLineNumber + 1 - (fromLineNumber + 1) + 1)
        with (toLineNumber - fromLineNumber + 1) by lia.
      apply shift_by_back.
    + destruct (decide (toLineNumber + 1 < lineNumber a)); [lia |].
      destruct (decide (fromLineNumber < lineNumber a)); [lia | reflexivity].
Qed.

Lemma sorted_filter_split recs bound :
  sortedb recs = true →
  filter (λ a, lineNumber a ≤ bound) recs ++ filter (λ a, bound < lineNumber a) recs = recs.
Proof.
  intros Hs. apply sortedb_StronglySorted in Hs.
  induction recs as [|a tl IH]; [reflexivity |].
  cbn [fmap list_fmap] in Hs. apply StronglySorted_inv in Hs as [Htl Hall].
  rewrite !filter_cons.
  destruct (decide (lineNumber a ≤ bound)).
  - destruct (decide (bound < lineNumber a)); [lia |]. cbn [app]. f_equal. exact (IH Htl).
  - destruct (decide (bound < lineNumber a)); [| lia].
    rewrite Forall_fmap in Hall.
    rewrite (filter_none (λ a, lineNumber a ≤ bound) tl),
            (filter_all (λ a, bound < lineNumber a) tl); [reflexivity | |].
    + eapply Forall_impl; [exact Hall |]. cbn. lia.
    + eapply Forall_impl; [exact Hall |]. cbn. lia.
Qed.

(** X17: inserting lines and deleting the same lines again restores every
    override.  On a committed state with a sorted array that holds each
    object once, and under the condition of [onLinesInserted] that no
    record is on line [fromLineNumber + 1] (or the lines are pairwise
    distinct and none is [fromLineNumber]),
    [onLinesInserted (fromLineNumber, toLineNumber)] followed by
    [onLinesDeleted (fromLineNumber + 1, toLineNumber + 1)] returns and
    leaves the records of the array exactly as they were. *)
Theorem insert_then_delete_lines s recs fromLineNumber toLineNumber :
  committed s → resolve s = Some recs → sortedb recs = true →
  NoDup (_orderedSpecialLines s) → fromLineNumber ≤ toLineNumber →
  Forall (λ a, lineNumber a ≠ fromLineNumber + 1) recs
  ∨ (Forall (λ a, lineNumber a ≠ fromLineNumber) recs ∧ NoDup (lineNumber <$> recs)) →
  ∃ s', (onLinesInserted fromLineNumber toLineNumber
         >> onLinesDeleted (fromLineNumber + 1) (toLineNumber + 1)) s = Ok tt s'
        ∧ resolve s' = Some recs ∧ committed s'.
Proof.
  intros Hc Hres Hsorted Hnd Hn Hcond.
  destruct (onLinesInserted_spec s recs fromLineNumber toLineNumber Hc Hres Hsorted Hnd Hcond)
    as (s1 & Hrun1 & Harr1 & Hres1).
  change (resolve s1 = Some (after_insertion fromLineNumber toLineNumber <$> recs)) in Hres1.
  pose proof (onLinesInserted_frame s fromLineNumber toLineNumber Hc) as Hf1.
  rewrite Hrun1 in Hf1. destruct Hf1 as [Hf1 _].
  assert (committed s1) as Hc1.
  { unfold committed. rewrite (frame_hasPending _ _ Hf1). exact Hc. }
  assert (Forall (λ a, lineNumber a ≠ fromLineNumber + 1
                       ∧ lineNumber a ≠ toLineNumber + 1)
            (after_insertion fromLineNumber toLineNumber <$> recs)) as Hgap.
  { rewrite Forall_fmap. apply Forall_forall. intros a _. cbn.
    rewrite after_insertion_line. destruct (Z.ltb_spec fromLineNumber (lineNumber a)); lia. }
  destruct (onLinesDeleted_spec s1 _ (fromLineNumber + 1) (toLineNumber + 1) Hc1 Hres1)
    as (s' & Hrun2 & Hres2).
  - apply after_insertion_sorted; [lia | exact Hsorted].
  - rewrite Harr1. exact Hnd.
  - lia.
  - eapply Forall_impl; [exact Hgap |]. cbn. tauto.
  - left. eapply Forall_impl; [exact Hgap |]. cbn. tauto.
  - exists s'. split; [unfold bind; rewrite Hrun1; exact Hrun2 |]. split.
    + rewrite Hres2. f_equal.
      change (after_deletion (fromLineNumber + 1) (toLineNumber + 1)
                (after_insertion fromLineNumber toLineNumber <$> recs) = recs).
      rewrite (after_deletion_after_insertion _ _ _ Hn).
      apply sorted_filter_split, Hsorted.
    + pose proof (onLinesDeleted_frame s1 (fromLineNumber + 1) (toLineNumber + 1) Hc1) as Hf2.
      rewrite Hrun2 in Hf2. unfold committed. rewrite (frame_hasPending _ _ Hf2). exact Hc1.
Qed.

Lemma insert_then_delete_lines_witness :
  ∃ s', (onLinesInserted 6 7 >> onLinesDeleted 7 8) example_manager = Ok tt s'
        ∧ resolve s' = resolve example_manager.
Proof.
  destruct (insert_then_delete_lines example_manager
              [mkSpecialLine 0 5 25 80 40 "B" false; mkSpecialLine 1 5 40 80 40 "A" false;
               mkSpecialLine 2 9 30 180 30 "C" false] 6 7) as (s' & Hrun & Hres & _).
  - reflexivity.
  - vm_compute. reflexivity.
  - reflexivity.
  - apply (bool_decide_unpack _). vm_compute. reflexivity.
  - lia.
  - left. apply (bool_decide_unpack _). vm_compute. reflexivity.
  - exists s'. split; [exact Hrun |]. rewrite Hres. vm_compute. reflexivity.
Defined.

Lemma heightForLineNumber_sorted s recs n :
  committed s → resolve s = Some recs → sortedb recs = true → run_maxb recs = true →
  heightForLineNumber n s = Ok (height_spec recs (_defaultLineHeight s) n) s.
Proof.
  intros Hc Hres Hsorted Hmax.
  destruct (queries_return s recs n Hc Hres Hsorted) as (k & t & h & _ & Hr & _ & Hh & _ & Hrun).
  rewrite (height_from_spec recs _ n k Hmax Hr) in Hh. injection Hh as <-. exact Hrun.
Qed.

Lemma run_maxb_elim recs d a :
  run_maxb recs = true → a ∈ recs →
  maximumSpecialHeight a = height_spec recs d (lineNumber a).
Proof. intros Hmax Ha. symmetry. apply height_spec_found; auto. Qed.

Lemma heights_on_line_cons a tl m :
  heights_on_line (a :: tl) m
  = (if decide (lineNumber a = m) then [specialHeight a] else []) ++ heights_on_line tl m.
Proof.
  unfold heights_on_line. rewrite filter_cons.
  destruct (decide (lineNumber a = m)); reflexivity.
Qed.

Lemma heights_after_insertion fromLineNumber toLineNumber recs m :
  fromLineNumber ≤ toLineNumber + 1 →
  heights_on_line (after_insertion fromLineNumber toLineNumber <$> recs) m
  = if m <=? fromLineNumber then heights_on_line recs m
    else if m <=? toLineNumber + 1 then []
    else heights_on_line recs (m - (toLineNumber - fromLineNumber + 1)).
Proof.
  intros Hn. induction recs as [|a tl IH].
  - destruct (m <=? fromLineNumber); [reflexivity |].
    destruct (m <=? toLineNumber + 1); reflexivity.
  - cbn [fmap list_fmap]. rewrite !heights_on_line_cons, after_insertion_line, IH. clear IH.
    assert (specialHeight (after_insertion fromLineNumber toLineNumber a) = specialHeight a)
      as -> by (unfold after_insertion; destruct (fromLineNumber <? lineNumber a); reflexivity).
    destruct (Z.leb_spec m fromLineNumber); [| destruct (Z.leb_spec m (toLineNumber + 1))];
      destruct (Z.ltb_spec fromLineNumber (lineNumber a));
      repeat match goal with |- context [decide ?P] => destruct (decide P) end;
      try lia; reflexivity.
Qed.

Lemma after_insertion_run_max fromLineNumber toLineNumber recs :
  fromLineNumber ≤ toLineNumber → run_maxb recs = true →
  run_maxb (after_insertion fromLineNumber toLineNumber <$> recs) = true.
Proof.
  intros Hn Hmax. apply (run_maxb_intro 0). intros a' Ha'.
  apply list_elem_of_fmap in Ha' as (a & -> & Ha).
  assert (maximumSpecialHeight (after_insertion fromLineNumber toLineNumber a)
          = maximumSpecialHeight a) as ->
    by (unfold after_insertion; destruct (fromLineNumber <? lineNumber a); reflexivity).
  rewrite (run_maxb_elim recs 0 a Hmax Ha). unfold height_spec.
  rewrite heights_after_insertion, after_insertion_line by lia.
  destruct (Z.ltb_spec fromLineNumber (lineNumber a)).
  - destruct (Z.leb_spec (lineNumber a + (toLineNumber - fromLineNumber + 1)) fromLineNumber);
      [lia |].
    destruct (Z.leb_spec (lineNumber a + (toLineNumber - fromLineNumber + 1))
                (toLineNumber + 1)); [lia |].
    replace (lineNumber a + (toLineNumber - fromLineNumber + 1)
             - (toLineNumber - fromLineNumber + 1)) with (lineNumber a) by lia.
    reflexivity.
  - destruct (Z.leb_spec (lineNumber a) fromLineNumber); [reflexivity | lia].
Qed.

(** X18: the heights after lines were inserted.  On a committed state that
    satisfies the invariants of the data model, with each object once in
    the array, and under the condition of [onLinesInserted] on the records
    next to [fromLineNumber], the call returns and [heightForLineNumber]
    then answers: up to [fromLineNumber] what it answered before, the
    default height on the lines [fromLineNumber + 1] to [toLineNumber + 1],
    and after them what it answered before for the line that moved there. *)
Theorem heights_after_onLinesInserted s recs fromLineNumber toLineNumber :
  committed s → consistent s → resolve s = Some recs →
  NoDup (_orderedSpecialLines s) → fromLineNumber ≤ toLineNumber →
  Forall (λ a, lineNumber a ≠ fromLineNumber + 1) recs
  ∨ (Forall (λ a, lineNumber a ≠ fromLineNumber) recs ∧ NoDup (lineNumber <$> recs)) →
  ∃ s', onLinesInserted fromLineNumber toLineNumber s = Ok tt s'
        ∧ ∀ m, (onLinesInserted fromLineNumber toLineNumber >> heightForLineNumber m) s
               = Ok (if m <=? fromLineNumber
                     then height_spec recs (_defaultLineHeight s) m
                     else if m <=? toLineNumber + 1 then _defaultLineHeight s
                     else height_spec recs (_defaultLineHeight s)
                            (m - (toLineNumber - fromLineNumber + 1))) s'.
Proof.
  intros Hc Hcons Hres Hnd Hn Hcond.
  destruct (consistent_parts s Hcons) as (recs0 & Hres0 & Hsorted & _ & _ & Hmax & _).
  assert (recs0 = recs) as -> by congruence.
  destruct (onLinesInserted_spec s recs fromLineNumber toLineNumber Hc Hres Hsorted Hnd Hcond)
    as (s1 & Hrun1 & Harr1 & Hres1).
  change (resolve s1 = Some (after_insertion fromLineNumber toLineNumber <$> recs)) in Hres1.
  pose proof (onLinesInserted_frame s fromLineNumber toLineNumber Hc) as Hf1.
  rewrite Hrun1 in Hf1. destruct Hf1 as [Hf1 _].
  assert (committed s1) as Hc1.
  { unfold committed. rewrite (frame_hasPending _ _ Hf1). exact Hc. }
  exists s1. split; [exact Hrun1 |]. intros m. unfold bind. rewrite Hrun1.
  rewrite (heightForLineNumber_sorted s1 _ m Hc1 Hres1
             (after_insertion_sorted fromLineNumber toLineNumber recs ltac:(lia) Hsorted)
             (after_insertion_run_max fromLineNumber toLineNumber recs Hn Hmax)).
  rewrite (frame_default _ _ Hf1). f_equal.
  unfold height_spec at 1. rewrite heights_after_insertion by lia.
  destruct (m <=? fromLineNumber); [reflexivity |].
  destruct (m <=? toLineNumber + 1); reflexivity.
Qed.

Lemma heights_after_onLinesInserted_witness :
  ∃ s', (onLinesInserted 6 7 >> heightForLineNumber 11) example_manager = Ok 30 s'
        ∧ (onLinesInserted 6 7 >> heightForLineNumber 8) example_manager = Ok 20 s'
        ∧ (onLinesInserted 6 7 >> heightForLineNumber 5) example_manager = Ok 40 s'.
Proof.
  destruct (heights_after_onLinesInserted example_manager
              [mkSpecialLine 0 5 25 80 40 "B" false; mkSpecialLine 1 5 40 80 40 "A" false;
               mkSpecialLine 2 9 30 180 30 "C" false] 6 7) as (s' & _ & Hh).
  - reflexivity.
  - vm_compute. reflexivity.
  - vm_compute. reflexivity.
  - apply (bool_decide_unpack _). vm_compute. reflexivity.
  - lia.
  - left. apply (bool_decide_unpack _). vm_compute. reflexivity.
  - exists s'. split; [exact (Hh 11) |]. split; [exact (Hh 8) | exact (Hh 5)].
Defined.

Lemma heights_after_deletion fromLineNumber toLineNumber recs m :
  fromLineNumber ≤ toLineNumber →
  heights_on_line (after_deletion fromLineNumber toLineNumber recs) m
  = if m <? fromLineNumber then heights_on_line recs m
    else heights_on_line recs (m + (toLineNumber - fromLineNumber + 1)).
Proof.
  intros Hn. unfold after_deletion. rewrite heights_on_line_app.
  assert (heights_on_line (filter (λ a, lineNumber a < fromLineNumber) recs) m
          = if m <? fromLineNumber then heights_on_line recs m else []) as ->.
  { induction recs as [|a tl IH]; [destruct (m <? fromLineNumber); reflexivity |].
    rewrite filter_cons. destruct (decide (lineNumber a < fromLineNumber)).
    - rewrite !heights_on_line_cons, IH.
      destruct (Z.ltb_spec m fromLineNumber); [reflexivity |].
      destruct (decide (lineNumber a = m)); [lia | reflexivity].
    - rewrite IH, heights_on_line_cons.
      destruct (Z.ltb_spec m fromLineNumber); [| reflexivity].
      destruct (decide (lineNumber a = m)); [lia | reflexivity]. }
  assert (heights_on_line
            (shift_by (- (toLineNumber - fromLineNumber + 1))
               <$> filter (λ a, toLineNumber < lineNumber a) recs) m
          = if m <? fromLineNumber then []
            else heights_on_line recs (m + (toLineNumber - fromLineNumber + 1))) as ->.
  { induction recs as [|a tl IH]; [destruct (m <? fromLineNumber); reflexivity |].
    rewrite filter_cons. destruct (decide (toLineNumber < lineNumber a)).
    - cbn [fmap list_fmap]. rewrite !heights_on_line_cons, IH.
      change (lineNumber (shift_by (- (toLineNumber - fromLineNumber + 1)) a))
        with (lineNumber a + - (toLineNumber - fromLineNumber + 1)).
      change (specialHeight (shift_by (- (toLineNumber - fromLineNumber + 1)) a))
        with (specialHeight a).
      destruct (Z.ltb_spec m fromLineNumber);
        repeat match goal with |- context [decide ?P] => destruct (decide P) end;
        try lia; reflexivity.
    - rewrite IH, heights_on_line_cons.
      destruct (Z.ltb_spec m fromLineNumber); [reflexivity |].
      destruct (decide (lineNumber a = m + (toLineNumber - fromLineNumber + 1)));
        [lia | reflexivity]. }
  destruct (m <? fromLineNumber); [apply app_nil_r | reflexivity].
Qed.

Lemma after_deletion_elem fromLineNumber toLineNumber recs a' :
  a' ∈ after_deletion fromLineNumber toLineNumber recs →
  ∃ a, a ∈ recs
       ∧ ((lineNumber a < fromLineNumber ∧ a' = a)
          ∨ (toLineNumber < lineNumber a
             ∧ a' = shift_by (- (toLineNumber - fromLineNumber + 1)) a)).
Proof.
  unfold after_deletion. intros Ha'. apply elem_of_app in Ha' as [Ha' | Ha'].
  - apply list_elem_of_filter in Ha' as [Hl Ha]. exists a'. auto.
  - apply list_elem_of_fmap in Ha' as (a & -> & Ha).
    apply list_elem_of_filter in Ha as [Hl Ha]. exists a. auto.
Qed.

Lemma after_deletion_run_max fromLineNumber toLineNumber recs :
  fromLineNumber ≤ toLineNumber → run_maxb recs = true →
  run_maxb (after_deletion fromLineNumber toLineNumber recs) = true.
Proof.
  intros Hn Hmax. apply (run_maxb_intro 0). intros a' Ha'.
  destruct (after_deletion_elem _ _ _ _ Ha') as (a & Ha & [[Hl ->] | [Hl ->]]).
  - rewrite (run_maxb_elim recs 0 a Hmax Ha). unfold height_spec.
    rewrite heights_after_deletion by exact Hn.
    destruct (Z.ltb_spec (lineNumber a) fromLineNumber); [reflexivity | lia].
  - change (maximumSpecialHeight (shift_by (- (toLineNumber - fromLineNumber + 1)) a))
      with (maximumSpecialHeight a).
    change (lineNumber (shift_by (- (toLineNumber - fromLineNumber + 1)) a))
      with (lineNumber a + - (toLineNumber - fromLineNumber + 1)).
    rewrite (run_maxb_elim recs 0 a Hmax Ha). unfold height_spec.
    rewrite heights_after_deletion by exact Hn.
    destruct (Z.ltb_spec (lineNumber a + - (toLineNumber - fromLineNumber + 1))
                fromLineNumber); [lia |].
    replace (lineNumber a + - (toLineNumber - fromLineNumber + 1)
             + (toLineNumber - fromLineNumber + 1)) with (lineNumber a) by lia.
    reflexivity.
Qed.

Lemma StronglySorted_filter (P : Z → Prop) `{∀ x, Decision (P x)} l :
  StronglySorted Z.le l → StronglySorted Z.le (filter P l).
Proof. apply StronglySorted_sublist, sublist_filter. Qed.

Lemma after_deletion_sorted fromLineNumber toLineNumber recs :
  fromLineNumber ≤ toLineNumber → sortedb recs = true →
  sortedb (after_deletion fromLineNumber toLineNumber recs) = true.
Proof.
  intros Hn Hs. apply sortedb_StronglySorted in Hs. apply sortedb_StronglySorted.
  unfold after_deletion. rewrite fmap_app.
  assert (StronglySorted Z.le (lineNumber <$> filter (λ a, lineNumber a < fromLineNumber) recs))
    as HA.
  { eapply StronglySorted_sublist; [| exact Hs]. apply fmap_sublist, sublist_filter. }
  assert (StronglySorted Z.le
            (lineNumber <$> (shift_by (- (toLineNumber - fromLineNumber + 1))
                               <$> filter (λ a, toLineNumber < lineNumber a) recs))) as HB.
  { rewrite <- list_fmap_compose.
    assert (lineNumber ∘ shift_by (- (toLineNumber - fromLineNumber + 1))
            = (λ l, l + - (toLineNumber - fromLineNumber + 1)) ∘ lineNumber) as ->
      by reflexivity.
    rewrite list_fmap_compose. apply StronglySorted_fmap_mono; [intros; lia |].
    eapply StronglySorted_sublist; [| exact Hs]. apply fmap_sublist, sublist_filter. }
  assert (Forall (λ x, x < fromLineNumber)
            (lineNumber <$> filter (λ a, lineNumber a < fromLineNumber) recs)) as HAb.
  { rewrite Forall_fmap. apply Forall_forall. intros a Ha.
    apply list_elem_of_filter in Ha as [Hl _]. exact Hl. }
  assert (Forall (λ x, fromLineNumber ≤ x)
            (lineNumber <$> (shift_by (- (toLineNumber - fromLineNumber + 1))
                               <$> filter (λ a, toLineNumber < lineNumber a) recs))) as HBb.
  { rewrite !Forall_fmap. apply Forall_forall. intros a Ha.
    apply list_elem_of_filter in Ha as [Hl _]. cbn. lia. }
  revert HA HAb.
  generalize (lineNumber <$> filter (λ a, lineNumber a < fromLineNumber) recs).
  intros A. induction A as [|x A IH]; intros HA HAb; [exact HB |].
  apply StronglySorted_inv in HA as [HA1 HA2]. apply Forall_cons in HAb as [Hx HAb].
  cbn [app]. constructor; [exact (IH HA1 HAb) |].
  apply Forall_app. split; [exact HA2 |].
  eapply Forall_impl; [exact HBb |]. cbn. intros y Hy. lia.
Qed.

(** X19: the heights after lines were deleted.  On a committed state that
    satisfies the invariants of the data model, with each object once in
    the array, for a range [fromLineNumber <= toLineNumber] with no record
    on line [fromLineNumber] (and none on line [toLineNumber], or pairwise
    distinct lines), [onLinesDeleted] returns and [heightForLineNumber] then
    answers: before [fromLineNumber] what it answered before, and from
    [fromLineNumber] on what it answered before for the line that moved
    there. *)
Theorem heights_after_onLinesDeleted s recs fromLineNumber toLineNumber :
  committed s → consistent s → resolve s = Some recs →
  NoDup (_orderedSpecialLines s) → fromLineNumber ≤ toLineNumber →
  Forall (λ a, lineNumber a ≠ fromLineNumber) recs →
  Forall (λ a, lineNumber a ≠ toLineNumber) recs ∨ NoDup (lineNumber <$> recs) →
  ∃ s', onLinesDeleted fromLineNumber toLineNumber s = Ok tt s'
        ∧ ∀ m, (onLinesDeleted fromLineNumber toLineNumber >> heightForLineNumber m) s
               = Ok (if m <? fromLineNumber
                     then height_spec recs (_defaultLineHeight s) m
                     else height_spec recs (_defaultLineHeight s)
                            (m + (toLineNumber - fromLineNumber + 1))) s'.
Proof.
  intros Hc Hcons Hres Hnd Hn Hfrom Hto.
  destruct (consistent_parts s Hcons) as (recs0 & Hres0 & Hsorted & _ & _ & Hmax & _).
  assert (recs0 = recs) as -> by congruence.
  destruct (onLinesDeleted_spec s recs fromLineNumber toLineNumber
              Hc Hres Hsorted Hnd Hn Hfrom Hto) as (s1 & Hrun1 & Hres1).
  change (resolve s1 = Some (after_deletion fromLineNumber toLineNumber recs)) in Hres1.
  pose proof (onLinesDeleted_frame s fromLineNumber toLineNumber Hc) as Hf1.
  rewrite Hrun1 in Hf1.
  assert (committed s1) as Hc1.
  { unfold committed. rewrite (frame_hasPending _ _ Hf1). exact Hc. }
  exists s1. split; [exact Hrun1 |]. intros m. unfold bind. rewrite Hrun1.
  rewrite (heightForLineNumber_sorted s1 _ m Hc1 Hres1
             (after_deletion_sorted fromLineNumber toLineNumber recs Hn Hsorted)
             (after_deletion_run_max fromLineNumber toLineNumber recs Hn Hmax)).
  rewrite (frame_default _ _ Hf1). f_equal.
  unfold height_spec at 1. rewrite heights_after_deletion by exact Hn.
  destruct (m <? fromLineNumber); reflexivity.
Qed.

Lemma heights_after_onLinesDeleted_witness :
  ∃ s', (onLinesDeleted 2 3 >> heightForLineNumber 3) example_manager = Ok 40 s'
        ∧ (onLinesDeleted 2 3 >> heightForLineNumber 5) example_manager = Ok 20 s'
        ∧ (onLinesDeleted 2 3 >> heightForLineNumber 7) example_manager = Ok 30 s'.
Proof.
  destruct (heights_after_onLinesDeleted example_manager
              [mkSpecialLine 0 5 25 80 40 "B" false; mkSpecialLine 1 5 40 80 40 "A" false;
               mkSpecialLine 2 9 30 180 30 "C" false] 2 3) as (s' & _ & Hh).
  - reflexivity.
  - vm_compute. reflexivity.
  - vm_compute. reflexivity.
  - apply (bool_decide_unpack _). vm_compute. reflexivity.
  - lia.
  - apply (bool_decide_unpack _). vm_compute. reflexivity.
  - left. apply (bool_decide_unpack _). vm_compute. reflexivity.
  - exists s'. split; [exact (Hh 3) |]. split; [exact (Hh 5) | exact (Hh 7)].
Defined.


(** ** A change of the default height *)

Lemma last_line_upto_spec recs n :
  let r := last_line_upto recs n in
  0 ≤ r
  ∧ (r = 0 ∨ ∃ b, b ∈ recs ∧ lineNumber b ≤ n ∧ r = lineNumber b)
  ∧ ∀ b, b ∈ recs → lineNumber b ≤ n → lineNumber b ≤ r.
Proof.
  induction recs as [|a tl (H0 & Hex & Hub)]; cbn zeta.
  - split; [cbn; lia |]. split; [left; reflexivity |]. intros b Hb. inversion Hb.
  - cbn [last_line_upto foldr]. fold (last_line_upto tl n).
    destruct (Z.leb_spec (lineNumber a) n).
    + split; [lia |]. split.
      * destruct (Z.max_spec (lineNumber a) (last_line_upto tl n)) as [[_ ->] | [_ ->]].
        -- destruct Hex as [Hz | (b & Hb & Hl & Hr)]; [left; exact Hz |].
           right. exists b. split; [apply list_elem_of_further, Hb | auto].
        -- right. exists a. split; [apply list_elem_of_here | auto].
      * intros b Hb Hl. apply elem_of_cons in Hb as [-> | Hb]; [lia |].
        specialize (Hub b Hb Hl). lia.
    + split; [exact H0 |]. split.
      * destruct Hex as [Hz | (b & Hb & Hl & Hr)]; [left; exact Hz |].
        right. exists b. split; [apply list_elem_of_further, Hb | auto].
      * intros b Hb Hl. apply elem_of_cons in Hb as [-> | Hb]; [lia |]. exact (Hub b Hb Hl).
Qed.

Lemma last_line_upto_none recs n :
  (∀ a, a ∈ recs → n < lineNumber a) → last_line_upto recs n = 0.
Proof.
  intros Hall. destruct (last_line_upto_spec recs n) as (_ & [Hz | (b & Hb & Hl & _)] & _);
    [exact Hz |]. specialize (Hall b Hb). lia.
Qed.

Lemma last_line_upto_is recs n a :
  a ∈ recs → 1 ≤ lineNumber a → lineNumber a ≤ n →
  (∀ b, b ∈ recs → lineNumber b ≤ n → lineNumber b ≤ lineNumber a) →
  last_line_upto recs n = lineNumber a.
Proof.
  intros Ha Hpos Hl Hmax.
  destruct (last_line_upto_spec recs n) as (_ & Hex & Hub).
  specialize (Hub a Ha Hl).
  destruct Hex as [Hz | (b & Hb & Hlb & Hr)]; [lia |].
  specialize (Hmax b Hb Hlb). lia.
Qed.

(** On a consistent state the prefix sum and the effective height of a
    record add up to the heights of the lines up to its own. *)
Lemma prefixSum_is_total s recs a :
  committed s → consistent s → resolve s = Some recs → a ∈ recs →
  prefixSum a + maximumSpecialHeight a
  = total_spec recs (_defaultLineHeight s) (Z.to_nat (lineNumber a)).
Proof.
  intros Hc Hcons Hres Ha.
  destruct (consistent_parts s Hcons)
    as (recs0 & Hres0 & Hsorted & Hchain & Hfirst & Hmax & _ & Hpos & _).
  assert (recs0 = recs) as -> by congruence.
  apply rec_get_elem_of in Ha as [i Hi].
  pose proof (line_positive recs Hpos i a Hi) as Hla.
  pose proof (totalHeightUntilLineNumber_consistent s recs (Z.to_nat (lineNumber a))
                Hc Hcons Hres) as Htot.
  rewrite Z2Nat.id in Htot by lia.
  destruct (queries_return s recs (lineNumber a) Hc Hres Hsorted)
    as (k & t & h & _ & Hr & Ht & _ & Hrun & _).
  rewrite Hrun in Htot. injection Htot as <-.
  destruct Hr as [[Hk (b & Hb & Hlb)] | (p & -> & Hp & Hbef & Haft)].
  - rewrite (total_from_found recs _ _ k b Hk Hb) in Ht. injection Ht as <-.
    destruct (Z_le_gt_dec i k).
    + destruct (same_line_same_values recs _ Hsorted Hchain i k a b Hi Hb ltac:(lia)
                  ltac:(lia)) as [-> ->]. reflexivity.
    + destruct (same_line_same_values recs _ Hsorted Hchain k i b a Hb Hi ltac:(lia)
                  ltac:(lia)) as [-> ->]. reflexivity.
  - destruct (Z_lt_ge_dec i p).
    + pose proof (Hbef i a Hi ltac:(lia)). lia.
    + pose proof (Haft i a Hi ltac:(lia)). lia.
Qed.

(** X20: the setter of the default height replaces the default and leaves
    everything else, also the stored prefix sums.  On a committed state
    that satisfies the invariants of the data model, after
    [defaultLineHeight = d'] the query [heightForLineNumber] answers with
    the new default on every line without an override, and, the heights
    and both defaults being integers, [totalHeightUntilLineNumber n]
    answers with the total for the old default up to the last line
    [l <= n] that holds an override, plus the new default for the [n - l]
    lines after it. *)
Theorem queries_after_default_change s recs d' :
  committed s → consistent s → resolve s = Some recs →
  (∀ m, (set_defaultLineHeight d' >> heightForLineNumber m) s
        = Ok (height_spec recs d' m) (with_defaultLineHeight d' s))
  ∧ (∀ n : nat,
       let l := last_line_upto recs (Z.of_nat n) in
       (set_defaultLineHeight d' >> totalHeightUntilLineNumber (Z.of_nat n)) s
       = Ok (total_spec recs (_defaultLineHeight s) (Z.to_nat l) + d' * (Z.of_nat n - l))
            (with_defaultLineHeight d' s)).
Proof.
  intros Hc Hcons Hres.
  destruct (consistent_parts s Hcons)
    as (recs0 & Hres0 & Hsorted & Hchain & Hfirst & Hmax & _ & Hpos & _).
  assert (recs0 = recs) as -> by congruence.
  set (s2 := with_defaultLineHeight d' s).
  assert (committed s2) as Hc2 by exact Hc.
  assert (resolve s2 = Some recs) as Hres2 by exact Hres.
  split.
  - intros m. change ((set_defaultLineHeight d' >> heightForLineNumber m) s)
      with (heightForLineNumber m s2).
    exact (heightForLineNumber_sorted s2 recs m Hc2 Hres2 Hsorted Hmax).
  - intros n l.
    change ((set_defaultLineHeight d' >> totalHeightUntilLineNumber (Z.of_nat n)) s)
      with (totalHeightUntilLineNumber (Z.of_nat n) s2).
    destruct (queries_return s2 recs (Z.of_nat n) Hc2 Hres2 Hsorted)
      as (k & t & h & _ & Hr & Ht & _ & Hrun & _).
    rewrite Hrun. f_equal. change (_defaultLineHeight s2) with d' in Ht.
    destruct Hr as [[Hk (a & Ha & Hla)] | (p & -> & Hp & Hbef & Haft)].
    + rewrite (total_from_found recs _ _ k a Hk Ha) in Ht. injection Ht as <-.
      assert (a ∈ recs) as Hin by (apply rec_get_elem_of; eauto).
      assert (l = lineNumber a) as Hl.
      { apply last_line_upto_is; [exact Hin | exact (line_positive recs Hpos k a Ha) | lia |].
        intros b _ Hb. lia. }
      rewrite Hl, <- (prefixSum_is_total s recs a Hc Hcons Hres Hin). lia.
    + destruct (Z.eq_dec p 0) as [-> | Hne].
      * rewrite total_from_miss_first in Ht. injection Ht as <-.
        assert (l = 0) as Hl.
        { apply last_line_upto_none. intros a Ha. apply rec_get_elem_of in Ha as [i Hi].
          apply (Haft i a Hi). apply rec_get_lt in Hi. lia. }
        rewrite Hl. change (Z.to_nat 0) with 0%nat. cbn [total_spec]. lia.
      * destruct (rec_get_is_Some recs (p - 1)) as [c Hc']; [lia |].
        rewrite (total_from_miss recs d' (Z.of_nat n) p c ltac:(lia) Hc') in Ht.
        injection Ht as <-.
        assert (c ∈ recs) as Hin by (apply rec_get_elem_of; eauto).
        pose proof (Hbef (p - 1) c Hc' ltac:(lia)) as Hlc.
        assert (l = lineNumber c) as Hl.
        { apply last_line_upto_is;
            [exact Hin | exact (line_positive recs Hpos _ c Hc') | lia |].
          intros b Hb Hlb. apply rec_get_elem_of in Hb as [i Hi].
          destruct (Z_lt_ge_dec i p) as [Hlt | Hge].
          - exact (sortedb_lookup recs Hsorted i (p - 1) b c Hi Hc' ltac:(lia)).
          - pose proof (Haft i b Hi ltac:(lia)). lia. }
        rewrite Hl, <- (prefixSum_is_total s recs c Hc Hcons Hres Hin). lia.
Qed.

Lemma queries_after_default_change_witness :
  (set_defaultLineHeight 10 >> heightForLineNumber 6) example_manager
  = Ok 10 (with_defaultLineHeight 10 example_manager)
  ∧ (set_defaultLineHeight 10 >> totalHeightUntilLineNumber 7) example_manager
    = Ok 140 (with_defaultLineHeight 10 example_manager).
Proof.
  destruct (queries_after_default_change example_manager
              [mkSpecialLine 0 5 25 80 40 "B" false; mkSpecialLine 1 5 40 80 40 "A" false;
               mkSpecialLine 2 9 30 180 30 "C" false] 10) as [Hh Ht].
  - reflexivity.
  - vm_compute. reflexivity.
  - vm_compute. reflexivity.
  - split; [exact (Hh 6) | exact (Ht 7%nat)].
Defined.

(** ** Removal followed by a commit *)

Lemma sublist_same_length {A} (l1 l2 : list A) :
  l1 `sublist_of` l2 → (length l2 ≤ length l1)%nat → l1 = l2.
Proof.
  induction 1 as [| x l1 l2 Hsub IH | x l1 l2 Hsub IH]; cbn [length]; intros Hlen.
  - reflexivity.
  - f_equal. apply IH. lia.
  - pose proof (sublist_length _ _ Hsub). lia.
Qed.

Lemma filter_ext_in {A} (P Q : A → Prop) `{∀ x, Decision (P x)} `{∀ x, Decision (Q x)}
    (l : list A) :
  (∀ x, x ∈ l → (P x ↔ Q x)) → filter P l = filter Q l.
Proof.
  induction l as [|a l IH]; intros Hext; [reflexivity |].
  rewrite !filter_cons.
  rewrite IH by (intros x Hx; apply Hext, list_elem_of_further, Hx).
  pose proof (Hext a (list_elem_of_here _ _)) as Ha.
  destruct (decide (P a)), (decide (Q a)); tauto.
Qed.

(** X21: removing an override and committing.  On a committed state that is
    in order and satisfies the invariants of the data model,
    [removeSpecialLineUsingDecoration] of a known identifier followed by
    [commit] returns; the array is the old one without the slot of that
    record, in the old order; the map is the old one without that
    identifier; the state is in order and committed again. *)
Theorem remove_then_commit s id (r : ref) :
  committed s → consistent s → maintained s →
  _decorationIDToSpecialLine s !! id = Some r →
  ∃ s', (removeSpecialLineUsingDecoration id >> commit) s = Ok tt s'
        ∧ maintained s' ∧ committed s'
        ∧ _orderedSpecialLines s' = filter (λ o, o ≠ Some r) (_orderedSpecialLines s)
        ∧ _decorationIDToSpecialLine s' = delete id (_decorationIDToSpecialLine s)
        ∧ _defaultLineHeight s' = _defaultLineHeight s.
Proof.
  intros Hc Hcons Hm Hid.
  destruct (consistent_parts s Hcons) as (recs & Hres & _ & _ & _ & _ & _ & _ & Hby).
  destruct (maintained_remove s id Hm) as (s1 & Hrun1 & Hm1).
  destruct (remove_effect s id s1 Hrun1) as (Harr1 & Hpend1 & Hmap1 & Hd1 & Heff).
  rewrite Hid in Heff. destruct Heff as (Hp1 & v & Hv & Hheap1).
  rewrite (m_idle s Hm Hc) in Hpend1.
  destruct (commit_spec s1 Hm1)
    as (s' & Hrun2 & Hm' & Hc' & Hperm & Hsub & _ & Hold & Hd & Hheap & _).
  rewrite Hpend1, Harr1 in Hperm. cbn [fmap list_fmap] in Hperm. rewrite app_nil_r in Hperm.
  rewrite Harr1 in Hsub.
  assert (filter (λ o, slot_alive s1 o = true) (_orderedSpecialLines s)
          = filter (λ o, o ≠ Some r) (_orderedSpecialLines s)) as Hfilter.
  { apply filter_ext_in. intros o Ho.
    pose proof (m_alive_idle s Hm Hc o Ho) as Ha.
    destruct o as [r'|]; [| discriminate]. unfold slot_alive in *. rewrite Hheap1.
    unfold ref in *. destruct (decide (r' = r)) as [-> | Hne].
    - rewrite list_lookup_insert_eq by exact (lookup_lt_Some _ _ _ Hv). cbn.
      split; [discriminate | intros Hn; destruct (Hn eq_refl)].
    - rewrite list_lookup_insert_ne by congruence. split; [congruence | intros _; exact Ha]. }
  rewrite Hfilter in Hperm, Hsub.
  assert (_orderedSpecialLines s' = filter (λ o, o ≠ Some r) (_orderedSpecialLines s)) as Harr'.
  { symmetry. apply sublist_same_length; [exact Hsub |]. rewrite Hperm. reflexivity. }
  assert (∀ id' (r' : ref), _decorationIDToSpecialLine s' !! id' = Some r' →
            r' ≠ r ∧ _decorationIDToSpecialLine s !! id' = Some r') as Hback.
  { intros id' r' Hid'. destruct (m_map s' Hm' id' r' Hid') as (Hin & w & Hw & _ & Hidw).
    rewrite Harr' in Hin. apply list_elem_of_filter in Hin as [Hne Hin].
    assert (r' ≠ r) as Hne' by congruence. split; [exact Hne' |].
    destruct (byId_exactb_elim s Hby _ Hin) as (r0 & v0 & [= <-] & Hv0 & Hm0).
    assert (heap s1 !! r' = Some v0) as Hv1.
    { rewrite Hheap1. unfold ref in *. rewrite list_lookup_insert_ne by congruence. exact Hv0. }
    destruct (Hheap r' v0 Hv1) as (w' & Hw' & (_ & _ & Hidw' & _)).
    assert (w' = w) as -> by congruence. rewrite <- Hidw, Hidw'. exact Hm0. }
  exists s'. split; [unfold bind; rewrite Hrun1; exact Hrun2 |].
  split; [exact Hm' |]. split; [exact Hc' |]. split; [exact Harr' |].
  split; [| congruence].
  apply map_eq. intros id'.
  destruct (_decorationIDToSpecialLine s' !! id') as [r'|] eqn:Hid'.
  - destruct (Hback id' r' Hid') as [Hne Hs]. symmetry.
    rewrite lookup_delete_ne; [exact Hs |]. intros <-. congruence.
  - symmetry. destruct (delete id (_decorationIDToSpecialLine s) !! id') as [r'|] eqn:Hdel;
      [| reflexivity].
    destruct (Hold id') as [r'' Hr'']; [rewrite Hmap1, Hdel; eauto |]. congruence.
Qed.

Lemma remove_then_commit_witness :
  ∃ s', (removeSpecialLineUsingDecoration "A" >> commit) example_manager = Ok tt s'
        ∧ _orderedSpecialLines s' = [Some 1%nat; Some 2%nat].
Proof.
  destruct (remove_then_commit example_manager "A" 0%nat) as (s' & Hrun & _ & _ & Harr & _).
  - reflexivity.
  - vm_compute. reflexivity.
  - exact maintained_example_manager.
  - vm_compute. reflexivity.
  - exists s'. split; [exact Hrun |]. rewrite Harr. vm_compute. reflexivity.
Defined.

(** ** The totals after a range shift *)

Lemma total_spec_S recs d (k : nat) :
  total_spec recs d (S k) = total_spec recs d k + height_spec recs d (Z.of_nat k + 1).
Proof. cbn [total_spec]. do 2 f_equal. lia. Qed.

Lemma total_spec_gap recs d (l : nat) (k : nat) :
  (∀ a, a ∈ recs → ¬ (Z.of_nat l < lineNumber a ≤ Z.of_nat (l + k))) →
  total_spec recs d (l + k) = total_spec recs d l + d * Z.of_nat k.
Proof.
  induction k as [|k IH]; intros Hfree.
  - rewrite Nat.add_0_r. lia.
  - replace (l + S k)%nat with (S (l + k)) by lia. rewrite total_spec_S, IH.
    + rewrite height_spec_miss; [lia |]. intros a Ha Hl. apply (Hfree a Ha). lia.
    + intros a Ha Hl. apply (Hfree a Ha). lia.
Qed.

Lemma height_after_insertion fromLineNumber toLineNumber recs d m :
  fromLineNumber ≤ toLineNumber + 1 →
  height_spec (after_insertion fromLineNumber toLineNumber <$> recs) d m
  = if m <=? fromLineNumber then height_spec recs d m
    else if m <=? toLineNumber + 1 then d
    else height_spec recs d (m - (toLineNumber - fromLineNumber + 1)).
Proof.
  intros Hn. unfold height_spec at 1. rewrite heights_after_insertion by exact Hn.
  destruct (m <=? fromLineNumber); [reflexivity |].
  destruct (m <=? toLineNumber + 1); reflexivity.
Qed.

Lemma total_after_insertion fromLineNumber toLineNumber recs d (m : nat) :
  0 ≤ fromLineNumber ≤ toLineNumber →
  total_spec (after_insertion fromLineNumber toLineNumber <$> recs) d m
  = if Z.of_nat m <=? fromLineNumber then total_spec recs d m
    else if Z.of_nat m <=? toLineNumber + 1
         then total_spec recs d (Z.to_nat fromLineNumber) + d * (Z.of_nat m - fromLineNumber)
         else total_spec recs d (Z.to_nat (Z.of_nat m - (toLineNumber - fromLineNumber + 1)))
              + d * (toLineNumber - fromLineNumber + 1).
Proof.
  intros Hn. induction m as [|m IH].
  - destruct (Z.leb_spec (Z.of_nat 0) fromLineNumber); [reflexivity | lia].
  - rewrite total_spec_S, IH, height_after_insertion by lia. clear IH.
    replace (Z.of_nat (S m)) with (Z.of_nat m + 1) by lia.
    destruct (Z.leb_spec (Z.of_nat m + 1) fromLineNumber).
    + destruct (Z.leb_spec (Z.of_nat m) fromLineNumber); [| lia].
      rewrite total_spec_S. reflexivity.
    + destruct (Z.leb_spec (Z.of_nat m + 1) (toLineNumber + 1)).
      * destruct (Z.leb_spec (Z.of_nat m) fromLineNumber).
        -- replace (Z.to_nat fromLineNumber) with m by lia.
           replace (Z.of_nat m + 1 - fromLineNumber) with 1 by lia. ring.
        -- destruct (Z.leb_spec (Z.of_nat m) (toLineNumber + 1)); [ring | lia].
      * destruct (Z.leb_spec (Z.of_nat m) fromLineNumber); [lia |].
        destruct (Z.leb_spec (Z.of_nat m) (toLineNumber + 1)).
        -- replace (Z.to_nat (Z.of_nat m + 1 - (toLineNumber - fromLineNumber + 1)))
             with (S (Z.to_nat fromLineNumber)) by lia.
           rewrite total_spec_S.
           replace (Z.of_nat m + 1 - (toLineNumber - fromLineNumber + 1))
             with (Z.of_nat (Z.to_nat fromLineNumber) + 1) by lia.
           replace (Z.of_nat m - fromLineNumber)
             with (toLineNumber - fromLineNumber + 1) by lia.
           ring.
        -- replace (Z.to_nat (Z.of_nat m + 1 - (toLineNumber - fromLineNumber + 1)))
             with (S (Z.to_nat (Z.of_nat m - (toLineNumber - fromLineNumber + 1)))) by lia.
           rewrite total_spec_S.
           replace (Z.of_nat (Z.to_nat (Z.of_nat m - (toLineNumber - fromLineNumber + 1))) + 1)
             with (Z.of_nat m + 1 - (toLineNumber - fromLineNumber + 1)) by lia.
           ring.
Qed.

Lemma moved_record_total s recs fromLineNumber toLineNumber c :
  committed s → consistent s → resolve s = Some recs → c ∈ recs →
  0 ≤ fromLineNumber ≤ toLineNumber →
  let c' := after_insertion fromLineNumber toLineNumber c in
  1 ≤ lineNumber c'
  ∧ prefixSum c' + maximumSpecialHeight c'
    = total_spec (after_insertion fromLineNumber toLineNumber <$> recs) (_defaultLineHeight s)
        (Z.to_nat (lineNumber c'))
      - (if toLineNumber + 1 <? lineNumber c'
         then _defaultLineHeight s * (toLineNumber - fromLineNumber + 1) else 0).
Proof.
  intros Hc Hcons Hres Hin Hn c'.
  pose proof (prefixSum_is_total s recs c Hc Hcons Hres Hin) as Htot.
  destruct (consistent_parts s Hcons) as (recs0 & Hres0 & _ & _ & _ & _ & _ & Hpos & _).
  assert (recs0 = recs) as -> by congruence.
  assert (1 ≤ lineNumber c) as Hlc.
  { apply rec_get_elem_of in Hin as [i Hi]. exact (line_positive recs Hpos i c Hi). }
  assert (prefixSum c' + maximumSpecialHeight c' = prefixSum c + maximumSpecialHeight c) as ->
    by (subst c'; unfold after_insertion; destruct (fromLineNumber <? lineNumber c); reflexivity).
  assert (lineNumber c' = if fromLineNumber <? lineNumber c
                          then lineNumber c + (toLineNumber - fromLineNumber + 1)
                          else lineNumber c) as Hl' by apply after_insertion_line.
  rewrite total_after_insertion by exact Hn. rewrite Htot, Hl'.
  destruct (Z.ltb_spec fromLineNumber (lineNumber c)).
  - split; [lia |]. rewrite Z2Nat.id by lia.
    destruct (Z.leb_spec (lineNumber c + (toLineNumber - fromLineNumber + 1)) fromLineNumber);
      [lia |].
    destruct (Z.leb_spec (lineNumber c + (toLineNumber - fromLineNumber + 1))
                (toLineNumber + 1)); [lia |].
    destruct (Z.ltb_spec (toLineNumber + 1)
                (lineNumber c + (toLineNumber - fromLineNumber + 1))); [| lia].
    replace (lineNumber c + (toLineNumber - fromLineNumber + 1)
             - (toLineNumber - fromLineNumber + 1)) with (lineNumber c) by lia.
    ring.
  - split; [lia |]. rewrite Z2Nat.id by lia.
    destruct (Z.leb_spec (lineNumber c) fromLineNumber); [| lia].
    destruct (Z.ltb_spec (toLineNumber + 1) (lineNumber c)); [lia |]. ring.
Qed.

(** X22: the totals after lines were inserted.  [onLinesInserted] moves the
    records and schedules no commit, so the stored prefix sums stay as they
    were.  On a committed state that satisfies the invariants of the data
    model, with integer heights and an integer default height and each
    object once in the array, for [0 <= fromLineNumber <=
    toLineNumber] and under the condition of [onLinesInserted] on the
    records next to [fromLineNumber], [totalHeightUntilLineNumber n]
    afterwards is the sum of the heights of the lines 1 to [n] of the moved
    records as long as no moved record lies at or before line [n], and from
    the first moved record on it is short by the default height of the
    inserted lines. *)
Theorem totals_after_onLinesInserted s recs fromLineNumber toLineNumber :
  committed s → consistent s → resolve s = Some recs →
  NoDup (_orderedSpecialLines s) → 0 ≤ fromLineNumber ≤ toLineNumber →
  Forall (λ a, lineNumber a ≠ fromLineNumber + 1) recs
  ∨ (Forall (λ a, lineNumber a ≠ fromLineNumber) recs ∧ NoDup (lineNumber <$> recs)) →
  ∃ s', onLinesInserted fromLineNumber toLineNumber s = Ok tt s'
        ∧ ∀ n : nat,
            let recs' := after_insertion fromLineNumber toLineNumber <$> recs in
            (onLinesInserted fromLineNumber toLineNumber
             >> totalHeightUntilLineNumber (Z.of_nat n)) s
            = Ok (total_spec recs' (_defaultLineHeight s) n
                  - (if toLineNumber + 1 <? last_line_upto recs' (Z.of_nat n)
                     then _defaultLineHeight s * (toLineNumber - fromLineNumber + 1)
                     else 0)) s'.
Proof.
  intros Hc Hcons Hres Hnd Hn Hcond.
  destruct (consistent_parts s Hcons) as (recs0 & Hres0 & Hsorted & _ & _ & _ & _ & Hpos & _).
  assert (recs0 = recs) as -> by congruence.
  destruct (onLinesInserted_spec s recs fromLineNumber toLineNumber Hc Hres Hsorted Hnd Hcond)
    as (s1 & Hrun1 & Harr1 & Hres1).
  change (resolve s1 = Some (after_insertion fromLineNumber toLineNumber <$> recs)) in Hres1.
  pose proof (onLinesInserted_frame s fromLineNumber toLineNumber Hc) as Hf1.
  rewrite Hrun1 in Hf1. destruct Hf1 as [Hf1 _].
  assert (committed s1) as Hc1.
  { unfold committed. rewrite (frame_hasPending _ _ Hf1). exact Hc. }
  pose proof (after_insertion_sorted fromLineNumber toLineNumber recs ltac:(lia) Hsorted)
    as Hsorted1.
  exists s1. split; [exact Hrun1 |]. intros n recs'. unfold bind. rewrite Hrun1.
  fold recs' in Hres1, Hsorted1.
  assert (∀ i c', rec_get recs' i = Some c' →
            1 ≤ lineNumber c'
            ∧ prefixSum c' + maximumSpecialHeight c'
              = total_spec recs' (_defaultLineHeight s) (Z.to_nat (lineNumber c'))
                - (if toLineNumber + 1 <? lineNumber c'
                   then _defaultLineHeight s * (toLineNumber - fromLineNumber + 1) else 0))
    as Hmoved.
  { intros i c' Hi.
    assert (c' ∈ recs') as Hin by (apply rec_get_elem_of; eauto).
    apply list_elem_of_fmap in Hin as (c & -> & Hin).
    exact (moved_record_total s recs fromLineNumber toLineNumber c Hc Hcons Hres Hin Hn). }
  destruct (queries_return s1 recs' (Z.of_nat n) Hc1 Hres1 Hsorted1)
    as (k & t & h & _ & Hr & Ht & _ & Hrun & _).
  rewrite Hrun. f_equal. rewrite (frame_default _ _ Hf1) in Ht.
  destruct Hr as [[Hk (a & Ha & Hla)] | (p & -> & Hp & Hbef & Haft)].
  - rewrite (total_from_found recs' _ _ k a Hk Ha) in Ht. injection Ht as <-.
    destruct (Hmoved k a Ha) as [Hpa Hta].
    assert (last_line_upto recs' (Z.of_nat n) = lineNumber a) as ->.
    { apply last_line_upto_is; [apply rec_get_elem_of; eauto | exact Hpa | lia |].
      intros b _ Hb. lia. }
    rewrite Hta, Hla, Nat2Z.id. reflexivity.
  - destruct (Z.eq_dec p 0) as [-> | Hne].
    + rewrite total_from_miss_first in Ht. injection Ht as <-.
      assert (∀ a, a ∈ recs' → Z.of_nat n < lineNumber a) as Hall.
      { intros a Ha. apply rec_get_elem_of in Ha as [i Hi].
        apply (Haft i a Hi). apply rec_get_lt in Hi. lia. }
      rewrite (last_line_upto_none recs' _ Hall).
      destruct (Z.ltb_spec (toLineNumber + 1) 0); [lia |].
      rewrite (total_spec_gap recs' _ 0 n).
      * cbn [total_spec]. ring.
      * intros a Ha Hl. specialize (Hall a Ha). lia.
    + destruct (rec_get_is_Some recs' (p - 1)) as [c Hc']; [lia |].
      rewrite (total_from_miss recs' _ (Z.of_nat n) p c ltac:(lia) Hc') in Ht.
      injection Ht as <-.
      destruct (Hmoved _ c Hc') as [Hpc Htc].
      pose proof (Hbef (p - 1) c Hc' ltac:(lia)) as Hlc.
      assert (∀ b, b ∈ recs' → lineNumber b ≤ Z.of_nat n → lineNumber b ≤ lineNumber c)
        as Hlast.
      { intros b Hb Hlb. apply rec_get_elem_of in Hb as [i Hi].
        destruct (Z_lt_ge_dec i p) as [Hlt | Hge].
        - exact (sortedb_lookup recs' Hsorted1 i (p - 1) b c Hi Hc' ltac:(lia)).
        - pose proof (Haft i b Hi ltac:(lia)). lia. }
      assert (last_line_upto recs' (Z.of_nat n) = lineNumber c) as ->.
      { apply last_line_upto_is; [apply rec_get_elem_of; eauto | exact Hpc | lia | exact Hlast]. }
      rewrite Htc.
      replace n with (Z.to_nat (lineNumber c) + Z.to_nat (Z.of_nat n - lineNumber c))%nat
        at 2 by lia.
      rewrite total_spec_gap.
      * rewrite Z2Nat.id by lia. ring.
      * intros b Hb [Hl1 Hl2]. pose proof (Hlast b Hb ltac:(lia)). lia.
Qed.

Lemma totals_after_onLinesInserted_witness :
  ∃ s', (onLinesInserted 6 7 >> totalHeightUntilLineNumber 8) example_manager = Ok 180 s'
        ∧ (onLinesInserted 6 7 >> totalHeightUntilLineNumber 11) example_manager = Ok 210 s'.
Proof.
  destruct (totals_after_onLinesInserted example_manager
              [mkSpecialLine 0 5 25 80 40 "B" false; mkSpecialLine 1 5 40 80 40 "A" false;
               mkSpecialLine 2 9 30 180 30 "C" false] 6 7) as (s' & _ & Ht).
  - reflexivity.
  - vm_compute. reflexivity.
  - vm_compute. reflexivity.
  - apply (bool_decide_unpack _). vm_compute. reflexivity.
  - lia.
  - left. apply (bool_decide_unpack _). vm_compute. reflexivity.
  - exists s'. split; [exact (Ht 8%nat) | exact (Ht 11%nat)].
Defined.

Lemma height_after_deletion fromLineNumber toLineNumber recs d m :
  fromLineNumber ≤ toLineNumber →
  height_spec (after_deletion fromLineNumber toLineNumber recs) d m
  = if m <? fromLineNumber then height_spec recs d m
    else height_spec recs d (m + (toLineNumber - fromLineNumber + 1)).
Proof.
  intros Hn. unfold height_spec at 1. rewrite heights_after_deletion by exact Hn.
  destruct (m <? fromLineNumber); reflexivity.
Qed.

Lemma total_after_deletion fromLineNumber toLineNumber recs d (m : nat) :
  1 ≤ fromLineNumber ≤ toLineNumber →
  total_spec (after_deletion fromLineNumber toLineNumber recs) d m
  = if Z.of_nat m <? fromLineNumber then total_spec recs d m
    else total_spec recs d (Z.to_nat (Z.of_nat m + (toLineNumber - fromLineNumber + 1)))
         - (total_spec recs d (Z.to_nat toLineNumber)
            - total_spec recs d (Z.to_nat (fromLineNumber - 1))).
Proof.
  intros Hn. induction m as [|m IH].
  - destruct (Z.ltb_spec (Z.of_nat 0) fromLineNumber); [reflexivity | lia].
  - rewrite total_spec_S, IH, height_after_deletion by lia. clear IH.
    replace (Z.of_nat (S m)) with (Z.of_nat m + 1) by lia.
    destruct (Z.ltb_spec (Z.of_nat m + 1) fromLineNumber).
    + destruct (Z.ltb_spec (Z.of_nat m) fromLineNumber); [| lia].
      rewrite total_spec_S. reflexivity.
    + replace (Z.to_nat (Z.of_nat m + 1 + (toLineNumber - fromLineNumber + 1)))
        with (S (Z.to_nat (Z.of_nat m + (toLineNumber - fromLineNumber + 1)))) by lia.
      rewrite total_spec_S.
      replace (Z.of_nat (Z.to_nat (Z.of_nat m + (toLineNumber - fromLineNumber + 1))) + 1)
        with (Z.of_nat m + 1 + (toLineNumber - fromLineNumber + 1)) by lia.
      destruct (Z.ltb_spec (Z.of_nat m) fromLineNumber); [| ring].
      replace (Z.to_nat (fromLineNumber - 1)) with m by lia.
      replace (Z.to_nat (Z.of_nat m + (toLineNumber - fromLineNumber + 1)))
        with (Z.to_nat toLineNumber) by lia.
      ring.
Qed.

Lemma shifted_record_total s recs fromLineNumber toLineNumber c' :
  committed s → consistent s → resolve s = Some recs →
  1 ≤ fromLineNumber ≤ toLineNumber →
  c' ∈ after_deletion fromLineNumber toLineNumber recs →
  1 ≤ lineNumber c'
  ∧ prefixSum c' + maximumSpecialHeight c'
    = total_spec (after_deletion fromLineNumber toLineNumber recs) (_defaultLineHeight s)
        (Z.to_nat (lineNumber c'))
      + (if fromLineNumber <=? lineNumber c'
         then total_spec recs (_defaultLineHeight s) (Z.to_nat toLineNumber)
              - total_spec recs (_defaultLineHeight s) (Z.to_nat (fromLineNumber - 1))
         else 0).
Proof.
  intros Hc Hcons Hres Hn Hin'.
  destruct (consistent_parts s Hcons) as (recs0 & Hres0 & _ & _ & _ & _ & _ & Hpos & _).
  assert (recs0 = recs) as -> by congruence.
  destruct (after_deletion_elem _ _ _ _ Hin') as (c & Hin & Hcase).
  pose proof (prefixSum_is_total s recs c Hc Hcons Hres Hin) as Htot.
  assert (1 ≤ lineNumber c) as Hlc.
  { apply rec_get_elem_of in Hin as [i Hi]. exact (line_positive recs Hpos i c Hi). }
  rewrite total_after_deletion by exact Hn.
  destruct Hcase as [[Hl ->] | [Hl ->]].
  - split; [exact Hlc |]. rewrite Z2Nat.id by lia.
    destruct (Z.ltb_spec (lineNumber c) fromLineNumber); [| lia].
    destruct (Z.leb_spec fromLineNumber (lineNumber c)); [lia |]. rewrite Htot. ring.
  - change (lineNumber (shift_by (- (toLineNumber - fromLineNumber + 1)) c))
      with (lineNumber c + - (toLineNumber - fromLineNumber + 1)).
    change (prefixSum (shift_by (- (toLineNumber - fromLineNumber + 1)) c)) with (prefixSum c).
    change (maximumSpecialHeight (shift_by (- (toLineNumber - fromLineNumber + 1)) c))
      with (maximumSpecialHeight c).
    split; [lia |]. rewrite Z2Nat.id by lia.
    destruct (Z.ltb_spec (lineNumber c + - (toLineNumber - fromLineNumber + 1))
                fromLineNumber); [lia |].
    destruct (Z.leb_spec fromLineNumber
                (lineNumber c + - (toLineNumber - fromLineNumber + 1))); [| lia].
    replace (lineNumber c + - (toLineNumber - fromLineNumber + 1)
             + (toLineNumber - fromLineNumber + 1)) with (lineNumber c) by lia.
    rewrite Htot. ring.
Qed.

(** X23: the totals after lines were deleted.  [onLinesDeleted] drops and
    moves records and schedules no commit, so the stored prefix sums stay
    as they were.  On a committed state that satisfies the invariants of
    the data model, with integer heights and an integer default height and
    each object once in the array, for
    [1 <= fromLineNumber <= toLineNumber] with no record on line
    [fromLineNumber] (and none on line [toLineNumber], or pairwise distinct
    lines), [totalHeightUntilLineNumber n] afterwards is the sum of the
    heights of the lines 1 to [n] of the remaining records as long as no
    moved record lies at or before line [n], and from the first moved
    record on it still contains the heights of the deleted lines. *)
Theorem totals_after_onLinesDeleted s recs fromLineNumber toLineNumber :
  committed s → consistent s → resolve s = Some recs →
  NoDup (_orderedSpecialLines s) → 1 ≤ fromLineNumber ≤ toLineNumber →
  Forall (λ a, lineNumber a ≠ fromLineNumber) recs →
  Forall (λ a, lineNumber a ≠ toLineNumber) recs ∨ NoDup (lineNumber <$> recs) →
  ∃ s', onLinesDeleted fromLineNumber toLineNumber s = Ok tt s'
        ∧ ∀ n : nat,
            let recs' := after_deletion fromLineNumber toLineNumber recs in
            (onLinesDeleted fromLineNumber toLineNumber
             >> totalHeightUntilLineNumber (Z.of_nat n)) s
            = Ok (total_spec recs' (_defaultLineHeight s) n
                  + (if fromLineNumber <=? last_line_upto recs' (Z.of_nat n)
                     then total_spec recs (_defaultLineHeight s) (Z.to_nat toLineNumber)
                          - total_spec recs (_defaultLineHeight s)
                              (Z.to_nat (fromLineNumber - 1))
                     else 0)) s'.
Proof.
  intros Hc Hcons Hres Hnd Hn Hfrom Hto.
  destruct (consistent_parts s Hcons) as (recs0 & Hres0 & Hsorted & _ & _ & _ & _ & Hpos & _).
  assert (recs0 = recs) as -> by congruence.
  destruct (onLinesDeleted_spec s recs fromLineNumber toLineNumber
              Hc Hres Hsorted Hnd ltac:(lia) Hfrom Hto) as (s1 & Hrun1 & Hres1).
  change (resolve s1 = Some (after_deletion fromLineNumber toLineNumber recs)) in Hres1.
  pose proof (onLinesDeleted_frame s fromLineNumber toLineNumber Hc) as Hf1.
  rewrite Hrun1 in Hf1.
  assert (committed s1) as Hc1.
  { unfold committed. rewrite (frame_hasPending _ _ Hf1). exact Hc. }
  pose proof (after_deletion_sorted fromLineNumber toLineNumber recs ltac:(lia) Hsorted)
    as Hsorted1.
  exists s1. split; [exact Hrun1 |]. intros n recs'. unfold bind. rewrite Hrun1.
  fold recs' in Hres1, Hsorted1.
  assert (∀ i c', rec_get recs' i = Some c' →
            1 ≤ lineNumber c'
            ∧ prefixSum c' + maximumSpecialHeight c'
              = total_spec recs' (_defaultLineHeight s) (Z.to_nat (lineNumber c'))
                + (if fromLineNumber <=? lineNumber c'
                   then total_spec recs (_defaultLineHeight s) (Z.to_nat toLineNumber)
                        - total_spec recs (_defaultLineHeight s)
                            (Z.to_nat (fromLineNumber - 1))
                   else 0))
    as Hmoved.
  { intros i c' Hi.
    assert (c' ∈ recs') as Hin by (apply rec_get_elem_of; eauto).
    exact (shifted_record_total s recs fromLineNumber toLineNumber c' Hc Hcons Hres Hn Hin). }
  destruct (queries_return s1 recs' (Z.of_nat n) Hc1 Hres1 Hsorted1)
    as (k & t & h & _ & Hr & Ht & _ & Hrun & _).
  rewrite Hrun. f_equal. rewrite (frame_default _ _ Hf1) in Ht.
  destruct Hr as [[Hk (a & Ha & Hla)] | (p & -> & Hp & Hbef & Haft)].
  - rewrite (total_from_found recs' _ _ k a Hk Ha) in Ht. injection Ht as <-.
    destruct (Hmoved k a Ha) as [Hpa Hta].
    assert (last_line_upto recs' (Z.of_nat n) = lineNumber a) as ->.
    { apply last_line_upto_is; [apply rec_get_elem_of; eauto | exact Hpa | lia |].
      intros b _ Hb. lia. }
    rewrite Hta, Hla, Nat2Z.id. reflexivity.
  - destruct (Z.eq_dec p 0) as [-> | Hne].
    + rewrite total_from_miss_first in Ht. injection Ht as <-.
      assert (∀ a, a ∈ recs' → Z.of_nat n < lineNumber a) as Hall.
      { intros a Ha. apply rec_get_elem_of in Ha as [i Hi].
        apply (Haft i a Hi). apply rec_get_lt in Hi. lia. }
      rewrite (last_line_upto_none recs' _ Hall).
      destruct (Z.leb_spec fromLineNumber 0); [lia |].
      rewrite (total_spec_gap recs' _ 0 n).
      * cbn [total_spec]. ring.
      * intros a Ha Hl. specialize (Hall a Ha). lia.
    + destruct (rec_get_is_Some recs' (p - 1)) as [c Hc']; [lia |].
      rewrite (total_from_miss recs' _ (Z.of_nat n) p c ltac:(lia) Hc') in Ht.
      injection Ht as <-.
      destruct (Hmoved _ c Hc') as [Hpc Htc].
      pose proof (Hbef (p - 1) c Hc' ltac:(lia)) as Hlc.
      assert (∀ b, b ∈ recs' → lineNumber b ≤ Z.of_nat n → lineNumber b ≤ lineNumber c)
        as Hlast.
      { intros b Hb Hlb. apply rec_get_elem_of in Hb as [i Hi].
        destruct (Z_lt_ge_dec i p) as [Hlt | Hge].
        - exact (sortedb_lookup recs' Hsorted1 i (p - 1) b c Hi Hc' ltac:(lia)).
        - pose proof (Haft i b Hi ltac:(lia)). lia. }
      assert (last_line_upto recs' (Z.of_nat n) = lineNumber c) as ->.
      { apply last_line_upto_is; [apply rec_get_elem_of; eauto | exact Hpc | lia | exact Hlast]. }
      rewrite Htc.
      replace n with (Z.to_nat (lineNumber c) + Z.to_nat (Z.of_nat n - lineNumber c))%nat
        at 2 by lia.
      rewrite total_spec_gap.
      * rewrite Z2Nat.id by lia. ring.
      * intros b Hb [Hl1 Hl2]. pose proof (Hlast b Hb ltac:(lia)). lia.
Qed.

Lemma totals_after_onLinesDeleted_witness :
  ∃ s', (onLinesDeleted 2 3 >> totalHeightUntilLineNumber 1) example_manager = Ok 20 s'
        ∧ (onLinesDeleted 2 3 >> totalHeightUntilLineNumber 3) example_manager = Ok 120 s'.
Proof.
  destruct (totals_after_onLinesDeleted example_manager
              [mkSpecialLine 0 5 25 80 40 "B" false; mkSpecialLine 1 5 40 80 40 "A" false;
               mkSpecialLine 2 9 30 180 30 "C" false] 2 3) as (s' & _ & Ht).
  - reflexivity.
  - vm_compute. reflexivity.
  - vm_compute. reflexivity.
  - apply (bool_decide_unpack _). vm_compute. reflexivity.
  - lia.
  - apply (bool_decide_unpack _). vm_compute. reflexivity.
  - left. apply (bool_decide_unpack _). vm_compute. reflexivity.
  - exists s'. split; [exact (Ht 1%nat) | exact (Ht 3%nat)].
Defined.

(** ** When a range deletion throws *)

Lemma widen_backward_run s recs key n : ∀ acc,
  resolve s = Some recs → Z.of_nat n = acc → acc ≤ len recs →
  ∃ q, widen_backward n (acc - 1) key acc s = Ok q s
       ∧ 0 ≤ q ≤ acc
       ∧ (∀ j c, q ≤ j < acc → rec_get recs j = Some c → lineNumber c = key)
       ∧ (q = 0 ∨ ∃ c, rec_get recs (q - 1) = Some c ∧ lineNumber c ≠ key).
Proof.
  induction n as [|n IH]; intros acc Hres Hn Hlen; cbn [widen_backward].
  - exists acc. split; [reflexivity |]. split; [lia |]. split; [intros; lia | left; lia].
  - unfold bind, gets. rewrite deref_record_at, (resolve_record_at s recs _ Hres).
    destruct (rec_get_is_Some recs (acc - 1) ltac:(lia)) as [a Ha]. rewrite Ha.
    destruct (Z.eqb_spec (lineNumber a) key) as [Heq | Hne].
    + replace (acc - 1 - 1) with ((acc - 1) - 1) by lia.
      destruct (IH (acc - 1) Hres ltac:(lia) ltac:(lia)) as (q & Hrun & Hq & Hall & Hstop).
      exists q. split; [exact Hrun |]. split; [lia |]. split; [| exact Hstop].
      intros j c Hj Hc. destruct (Z.eq_dec j (acc - 1)) as [-> | Hne].
      * congruence.
      * apply (Hall j c); [lia | exact Hc].
    + exists acc. split; [reflexivity |]. split; [lia |]. split; [intros; lia |].
      right. exists a. auto.
Qed.

Lemma widen_forward_returns s recs key n : ∀ i acc,
  resolve s = Some recs → 0 ≤ i → i + Z.of_nat n ≤ len recs →
  ∃ acc', widen_forward n i key acc s = Ok acc' s.
Proof.
  induction n as [|n IH]; intros i acc Hres Hi Hn; cbn [widen_forward].
  - eauto.
  - unfold bind, gets. rewrite deref_record_at, (resolve_record_at s recs i Hres).
    destruct (rec_get_is_Some recs i ltac:(lia)) as [a Ha]. rewrite Ha.
    destruct (lineNumber a =? key); [apply IH; [assumption | lia | lia] | eauto].
Qed.

Lemma sublist_drop_le {A} (l : list A) (n m : nat) :
  (n ≤ m)%nat → drop m l `sublist_of` drop n l.
Proof.
  intros H. replace m with (n + (m - n))%nat by lia. rewrite <- drop_drop. apply sublist_drop.
Qed.

Lemma splice_from_start {A} (l : list A) start deleteCount :
  0 ≤ start ≤ len l →
  ∃ pe : nat, (Z.to_nat start ≤ pe ≤ length l)%nat
              ∧ splice l start deleteCount [] = take (Z.to_nat start) l ++ drop pe l.
Proof.
  intros Hs. unfold splice. destruct (Z.ltb_spec start 0); [lia |]. cbn [app].
  rewrite (Z.min_l start) by lia.
  exists (Z.to_nat (start + Z.min (Z.max deleteCount 0) (len l - start))).
  split; [unfold len in *; lia | reflexivity].
Qed.

(** X24: when [onLinesDeleted] throws.  On a committed state whose array is
    sorted by line number and holds each object once, [onLinesDeleted]
    never hangs; it throws a [TypeError] exactly when the first record of
    the array is on line [fromLineNumber], whatever [toLineNumber] is, and
    returns in every other case. *)
Theorem onLinesDeleted_throws_iff s recs fromLineNumber toLineNumber :
  committed s → resolve s = Some recs → sortedb recs = true →
  NoDup (_orderedSpecialLines s) →
  match onLinesDeleted fromLineNumber toLineNumber s with
  | TypeError _ => ∃ a, recs !! 0%nat = Some a ∧ lineNumber a = fromLineNumber
  | Ok _ _ => ∀ a, recs !! 0%nat = Some a → lineNumber a ≠ fromLineNumber
  | Diverges => False
  end.
Proof.
  intros Hc Hres Hsorted Hnd.
  destruct (_binarySearchOverSpecialLinesArray_sorted s recs fromLineNumber Hres Hsorted)
    as (k & Hk & Hr).
  assert (∃ ps, (if 0 <=? k
                 then do widened <- widen_backward (Z.to_nat k) (k - 1) fromLineNumber k;
                      ret (widened - 1)
                 else ret (- (k + 1))) s = Ok ps s
                ∧ -1 ≤ ps ≤ len recs
                ∧ (ps = -1 ↔ ∃ a, recs !! 0%nat = Some a ∧ lineNumber a = fromLineNumber))
    as (ps & Hstart & Hps & Hiff).
  { destruct Hr as [[Hk0 (a & Ha & Hla)] | (p & -> & Hp & Hbef & Haft)].
    - destruct (Z.leb_spec 0 k); [| lia].
      pose proof (rec_get_lt _ _ _ Ha) as Hklt.
      destruct (widen_backward_run s recs fromLineNumber (Z.to_nat k) k Hres
                  ltac:(lia) ltac:(lia)) as (q & Hrun & Hq & Hall & Hstop).
      exists (q - 1). split; [unfold bind; rewrite Hrun; reflexivity |]. split; [lia |].
      split.
      + intros Hq0. assert (q = 0) as -> by lia.
        destruct (Z.eq_dec k 0) as [-> | Hne].
        * exists a. apply rec_get_Some in Ha as [_ Ha]. auto.
        * destruct (rec_get_is_Some recs 0 ltac:(lia)) as [c Hc0].
          exists c. split; [apply rec_get_Some in Hc0 as [_ Hc0]; exact Hc0 |].
          apply (Hall 0 c); [lia | exact Hc0].
      + intros (c & Hc0 & Hlc). destruct Hstop as [-> | (c' & Hc' & Hne)]; [reflexivity |].
        assert (rec_get recs 0 = Some c) as Hc0' by (apply rec_get_Some; split; [lia | exact Hc0]).
        pose proof (rec_get_lt _ _ _ Hc') as Hq'.
        pose proof (sortedb_lookup recs Hsorted 0 (q - 1) c c' Hc0' Hc' ltac:(lia)).
        pose proof (sortedb_lookup recs Hsorted (q - 1) k c' a Hc' Ha ltac:(lia)).
        lia.
    - destruct (Z.leb_spec 0 (- (p + 1))); [lia |].
      exists p. split; [unfold ret; f_equal; lia |]. split; [lia |].
      split; [lia |]. intros (c & Hc0 & Hlc).
      assert (rec_get recs 0 = Some c) as Hc0' by (apply rec_get_Some; split; [lia | exact Hc0]).
      destruct (Z.eq_dec p 0) as [-> | Hne].
      + pose proof (Haft 0 c Hc0' ltac:(lia)). lia.
      + pose proof (Hbef 0 c Hc0' ltac:(lia)). lia. }
  destruct (_binarySearchOverSpecialLinesArray_bounds s recs toLineNumber Hres)
    as (k' & Hk' & Hb').
  assert (∃ pe, (if 0 <=? k'
                 then do widened <- widen_forward
                                      (Z.to_nat (len (_orderedSpecialLines s) - (k' + 1)))
                                      (k' + 1) fromLineNumber k';
                      ret (widened + 1)
                 else ret (- (k' + 1))) s = Ok pe s) as (pe & Hend).
  { destruct (0 <=? k') eqn:E; [| eexists; reflexivity].
    apply Z.leb_le in E.
    destruct Hb' as [Hb' | (p' & -> & Hp')]; [| lia].
    destruct (widen_forward_returns s recs fromLineNumber
                (Z.to_nat (len (_orderedSpecialLines s) - (k' + 1))) (k' + 1) k' Hres)
      as [w Hw]; [lia | rewrite (resolve_len s recs Hres); lia |].
    exists (w + 1). unfold bind. rewrite Hw. reflexivity. }
  unfold onLinesDeleted.
  rewrite (bind_run _ _ _ _ _ (commit_committed s Hc)), (bind_run _ _ _ _ _ Hk),
    (bind_run _ _ _ _ _ Hstart), (bind_run _ _ _ _ _ Hk'), bind_gets,
    (bind_run _ _ _ _ _ Hend), bind_ordered_splice, bind_gets.
  cbn [_orderedSpecialLines with_ordered].
  set (arr2 := splice (_orderedSpecialLines s) ps (pe - ps) []).
  destruct (Z.eq_dec ps (-1)) as [-> | Hne].
  - replace (Z.to_nat (len arr2 - -1)) with (S (Z.to_nat (len arr2)))
      by (unfold len; lia).
    cbn [shift_lines]. unfold bind, gets. cbn. apply Hiff. reflexivity.
  - pose proof (resolve_len s recs Hres) as Hlen.
    destruct (splice_from_start (_orderedSpecialLines s) ps (pe - ps) ltac:(lia))
      as (pe' & Hpe' & Harr2).
    fold arr2 in Harr2.
    destruct (shift_lines_spec (- (toLineNumber - fromLineNumber + 1))
                (Z.to_nat (len arr2 - ps)) ps (with_ordered arr2 s)
                (take (Z.to_nat ps) recs ++ drop pe' recs)) as (s' & Hrun & _).
    + rewrite Harr2. apply resolve_delete, Hres.
    + cbn. rewrite Harr2. rewrite <- (take_drop (Z.to_nat ps) (_orderedSpecialLines s)) in Hnd.
      apply NoDup_app in Hnd as (Hn1 & Hn2 & Hn3). apply NoDup_app.
      split; [exact Hn1 |]. split.
      * intros o Ho Ho'. apply (Hn2 o Ho).
        exact (elem_of_sublist _ _ _ Ho'
                 (sublist_drop_le (_orderedSpecialLines s) (Z.to_nat ps) pe' ltac:(lia))).
      * apply (sublist_NoDup _ (drop (Z.to_nat ps) (_orderedSpecialLines s)));
          [exact Hn3 | apply sublist_drop_le; lia].
    + lia.
    + rewrite Harr2. unfold len in *. rewrite !length_app, !length_take, !length_drop. lia.
    + rewrite Hrun. intros a Ha Hla. apply Hne, Hiff. eauto.
Qed.

Lemma onLinesDeleted_throws_iff_witness :
  is_TypeError (onLinesDeleted 5 6 example_manager) = true
  ∧ is_TypeError (onLinesDeleted 9 9 example_manager) = false.
Proof.
  pose proof (onLinesDeleted_throws_iff example_manager
                [mkSpecialLine 0 5 25 80 40 "B" false; mkSpecialLine 1 5 40 80 40 "A" false;
                 mkSpecialLine 2 9 30 180 30 "C" false] 5 6) as H1.
  pose proof (onLinesDeleted_throws_iff example_manager
                [mkSpecialLine 0 5 25 80 40 "B" false; mkSpecialLine 1 5 40 80 40 "A" false;
                 mkSpecialLine 2 9 30 180 30 "C" false] 9 9) as H2.
  split.
  - destruct (onLinesDeleted 5 6 example_manager) as [u s' | s' |]; [| reflexivity |].
    + exfalso. apply (H1 eq_refl ltac:(vm_compute; reflexivity) eq_refl
                        ltac:(apply (bool_decide_unpack _); vm_compute; reflexivity)
                        (mkSpecialLine 0 5 25 80 40 "B" false)); reflexivity.
    + exfalso. apply H1; [reflexivity | vm_compute; reflexivity | reflexivity |].
      apply (bool_decide_unpack _). vm_compute. reflexivity.
  - destruct (onLinesDeleted 9 9 example_manager) as [u s' | s' |]; [reflexivity | |].
    + exfalso.
      destruct (H2 eq_refl ltac:(vm_compute; reflexivity) eq_refl
                  ltac:(apply (bool_decide_unpack _); vm_compute; reflexivity))
        as (a & Ha & Hla).
      cbn in Ha. injection Ha as <-. cbn in Hla. lia.
    + exfalso. apply H2; [reflexivity | vm_compute; reflexivity | reflexivity |].
      apply (bool_decide_unpack _). vm_compute. reflexivity.
Defined.
